(** * openai-billing-monitor: usage ledger, threshold evaluation and admission

    A shallow embedding of [openai_billing/models/billing_models.py],
    [openai_billing/core/exceptions.py] and the ledger-facing methods of
    [openai_billing/core/billing_monitor.py], followed by the properties of
    the usage-accounting core.

    Python [int] is [Z]; Python [float] is IEEE-754 binary64, taken from the
    standard library's executable specification [SpecFloat]; the model
    catalog (a [dict] keyed by model name) is a [gmap string ModelConfig];
    the dictionary returned by [check_thresholds], whose insertion order the
    dispatcher depends on, is an association list. *)

From Stdlib Require Import ZArith Lia Bool List Sorted.
From Stdlib Require Import Floats.SpecFloat.
From stdpp Require Import gmap strings.

Local Open Scope Z_scope.

(** ** Python exceptions and outcomes *)

(** A Python number as carried by an exception or a report. *)
Inductive pyval : Type :=
  | PyNone
  | PyInt (z : Z)
  | PyFloat (f : spec_float).

(** [core/exceptions.py], with three built-in exceptions the modelled code
    can raise: [OverflowError], from integer to float conversion,
    [AttributeError], and [ValueError], from the conversion of an integer to
    a string.  The message string of an exception is not kept, but the
    exceptions that building it can raise are. *)
Inductive exn : Type :=
  | ThresholdExceededException (threshold_type : string)
                               (current_value limit_value : pyval)
  | ModelNotConfiguredException (model_name : string)
  | OverflowError
  | AttributeError
  | ValueError.

(** [str(n)] of an [int], as an f-string computes it.  CPython (3.11 and
    later) refuses to convert an integer of more than
    [sys.int_max_str_digits] decimal digits, 4300 by default, and raises
    [ValueError]; the sign does not count. *)
Definition int_max_str_digits : Z := 4300.

Definition int_str_ok (n : Z) : bool := Z.abs n <? 10 ^ int_max_str_digits.

(** A value that a message can show: every float and [None] can, an integer
    when it is short enough. *)
Definition printable (v : pyval) : bool :=
  match v with
  | PyInt z => int_str_ok z
  | PyFloat _ | PyNone => true
  end.

(** What leaves the dispatcher when it reports a met limit: the
    [ThresholdExceededException], whose message shows the current value and
    the limit, or the [ValueError] of an integer too long to show. *)
Definition raised_for (e : exn) : exn :=
  match e with
  | ThresholdExceededException _ cur lim =>
      if printable cur && printable lim then e else ValueError
  | _ => e
  end.

Inductive outcome (A : Type) : Type :=
  | Return (a : A)
  | Raise (e : exn).
Arguments Return {A} a.
Arguments Raise {A} e.

(** ** The binary floating-point format

    Notions about the standard library's [SpecFloat] needed to reason on
    the non-negative amounts of the ledger, for any precision [prec] and
    exponent bound [emax]. *)

Module Format.

(** Division of [m] by [2 ^ k], rounded to nearest, ties to even. *)
Definition rne (m k : Z) : Z :=
  let q := m / 2 ^ k in
  let r := m mod 2 ^ k in
  match 2 * r ?= 2 ^ k with
  | Lt => q
  | Gt => q + 1
  | Eq => if Z.even q then q else q + 1
  end.

(** Neither infinite nor NaN. *)
Definition is_finite (x : spec_float) : bool :=
  match x with
  | S754_zero _ | S754_finite _ _ _ => true
  | _ => false
  end.

Section Defs.

Variables prec emax : Z.

(** A non-negative float in range: a zero, plus infinity, or a finite
    positive number with a canonical mantissa. *)
Definition nonneg (x : spec_float) : bool :=
  match x with
  | S754_zero _ => true
  | S754_infinity s => negb s
  | S754_nan => false
  | S754_finite s m e => negb s && bounded prec emax m e
  end.

(** The float of mantissa [m] at exponent [e], after the carry and the
    overflow test. *)
Definition encode (m e : Z) : spec_float :=
  if m =? 0 then S754_zero false
  else
    let '(m', e') :=
      if m =? 2 ^ prec then (2 ^ (prec - 1), e + 1) else (m, e) in
    if e' <=? emax - prec then S754_finite false (Z.to_pos m') e'
    else S754_infinity false.

(** A mantissa and exponent as the first shift leaves them, rounded. *)
Definition rounded (m e : Z) : Prop :=
  0 <= m /\ emin prec emax <= e
  /\ (2 ^ (prec - 1) <= m <= 2 ^ prec
      \/ (e = emin prec emax /\ m <= 2 ^ (prec - 1))).

(** The value of a non-negative float, as an integer multiple of the
    smallest positive float; infinity stands at [2 ^ (emax - emin)]. *)
Definition B2Z (x : spec_float) : Z :=
  match x with
  | S754_finite false m e => Zpos m * 2 ^ (e - emin prec emax)
  | S754_infinity false => 2 ^ (emax - emin prec emax)
  | _ => 0
  end.

(** Rounding of a value to the format: to nearest, ties to even, at the
    exponent its magnitude calls for. *)
Definition zround (N : Z) : Z :=
  let k := Z.max (Zdigits2 N - prec) 0 in
  rne N k * 2 ^ k.

End Defs.

End Format.

(** ** Binary64 arithmetic as Python uses it *)

Module Float.

Definition prec : Z := 53.
Definition emax : Z := 1024.

Abbreviation float := spec_float.

Definition zero : float := S754_zero false.

Definition add : float -> float -> float := SFadd prec emax.
Definition mul : float -> float -> float := SFmul prec emax.

(** [a >= b] and [a > b] on floats: false as soon as one side is NaN. *)
Definition ge (a b : float) : bool := SFleb b a.
Definition gt (a b : float) : bool := SFltb b a.
Definition le (a b : float) : bool := SFleb a b.

(** [bool(x)]: zero of either sign is falsy, everything else (NaN
    included) is truthy. *)
Definition truthy (x : float) : bool :=
  match x with
  | S754_zero _ => false
  | _ => true
  end.

Definition overflow_check (x : float) : outcome float :=
  match x with
  | S754_infinity _ => Raise OverflowError
  | _ => Return x
  end.

(** [float(z)] for a Python int: correctly rounded, [OverflowError] beyond
    the binary64 range. *)
Definition of_int (z : Z) : outcome float :=
  overflow_check (binary_normalize prec emax z 0 false).

(** [a / b] for Python ints with [b > 0] (true division): the quotient
    of the two integers rounded once, [OverflowError] when it does not fit.
    The only divisor in the source is the literal [1000]. *)
Definition int_truediv (a : Z) (b : positive) : outcome float :=
  match a with
  | Z0 => Return zero
  | Zpos p =>
      overflow_check
        (SFdiv prec emax (S754_finite false p 0) (S754_finite false b 0))
  | Zneg p =>
      overflow_check
        (SFdiv prec emax (S754_finite true p 0) (S754_finite false b 0))
  end.

(** [z >= x] for an int [z] and a float [x]: Python compares the exact
    values. *)
Definition int_ge (z : Z) (x : float) : bool :=
  match x with
  | S754_nan => false
  | S754_infinity s => s
  | S754_zero _ => 0 <=? z
  | S754_finite s m e =>
      let v := cond_Zopp s (Zpos m) in
      if 0 <=? e then (v * 2 ^ e <=? z) else (v <=? z * 2 ^ (- e))
  end.

(** Non-negative binary64 values, and those that are neither infinite nor
    NaN. *)
Definition nonneg : float -> bool := Format.nonneg prec emax.
Definition is_finite : float -> bool := Format.is_finite.

(** The binary64 value of the decimal literal [n/d], e.g.
    [decimal 9 10] for [0.9]: the nearest double to the rational. *)
Definition decimal (n d : positive) : float :=
  SFdiv prec emax (S754_finite false n 0) (S754_finite false d 0).

End Float.

Abbreviation float := spec_float.

(** ** Python containers and strings *)

(** [d[k] = v] on a dictionary kept in insertion order: a new key goes to
    the end, an existing key keeps its place. *)
Definition dict_set {V : Type} (k : string) (v : V)
    (d : list (string * V)) : list (string * V) :=
  if existsb (fun kv => String.eqb (fst kv) k) d
  then map (fun kv => if String.eqb (fst kv) k then (k, v) else kv) d
  else d ++ [(k, v)].

(** Iterating a dictionary yields its keys in insertion order. *)
Definition dict_keys {V : Type} (d : list (string * V)) : list string :=
  map fst d.

(** [s.endswith(suffix)]. *)
Definition endswith (s suffix : string) : bool :=
  let n := String.length s in
  let k := String.length suffix in
  if (k <=? n)%nat then String.eqb (String.substring (n - k) k s) suffix else false.

(** [s.startswith(prefix)] and [sub in s]. *)
Definition startswith (s prefix : string) : bool := String.prefix prefix s.

Fixpoint contains (sub s : string) : bool :=
  String.prefix sub s
  || match s with
     | EmptyString => false
     | String _ rest => contains sub rest
     end.

(** ** [datetime] *)

Record datetime : Type := mk_datetime {
  year : Z;
  month : Z;
  day : Z;
  hour : Z;
  minute : Z;
  second : Z;
  microsecond : Z
}.

(** [a.date() > b.date()]: dates compare as (year, month, day). *)
Definition date_gt (a b : datetime) : bool :=
  (year b <? year a)
  || ((year a =? year b)
      && ((month b <? month a)
          || ((month a =? month b) && (day b <? day a)))).

(** ** [models/billing_models.py]: the data model *)

Record ModelConfig : Type := mk_ModelConfig {
  name : string;
  input_token_price : float;
  output_token_price : float;
  max_tokens : option Z
}.

Record ThresholdConfig : Type := mk_ThresholdConfig {
  daily_cost_limit : option float;
  monthly_cost_limit : option float;
  daily_token_limit : option Z;
  monthly_token_limit : option Z;
  warning_threshold : float
}.

Record UsageStats : Type := mk_UsageStats {
  total_input_tokens : Z;
  total_output_tokens : Z;
  total_cost : float;
  daily_input_tokens : Z;
  daily_output_tokens : Z;
  daily_cost : float;
  monthly_input_tokens : Z;
  monthly_output_tokens : Z;
  monthly_cost : float;
  last_reset_date : datetime;
  last_daily_reset : datetime;
  last_monthly_reset : datetime;
  request_count : Z;
  total_requests : Z;
  daily_requests : Z;
  monthly_requests : Z
}.

Record BillingConfig : Type := mk_BillingConfig {
  models : gmap string ModelConfig;
  thresholds : ThresholdConfig;
  usage_stats : UsageStats;
  enabled : bool;
  auto_save : bool;
  config_file_path : option string
}.

(** [UsageStats()] created at clock reading [now]: every counter at its
    default, the three timestamps stamped by [datetime.now]. *)
Definition UsageStats_new (now : datetime) : UsageStats :=
  mk_UsageStats 0 0 Float.zero 0 0 Float.zero 0 0 Float.zero
                now now now 0 0 0 0.

Definition set_usage_stats (u : UsageStats) (c : BillingConfig) : BillingConfig :=
  mk_BillingConfig (models c) (thresholds c) u (enabled c) (auto_save c)
                   (config_file_path c).

(** ** [UsageStats] methods

    The source reads the clock with [datetime.now()]; here the reading is
    the argument [now]. *)

Definition reset_daily_stats (now : datetime) (self : UsageStats) : UsageStats :=
  mk_UsageStats
    (total_input_tokens self) (total_output_tokens self) (total_cost self)
    0 0 Float.zero
    (monthly_input_tokens self) (monthly_output_tokens self) (monthly_cost self)
    (last_reset_date self) now (last_monthly_reset self)
    (request_count self) (total_requests self) 0 (monthly_requests self).

Definition reset_monthly_stats (now : datetime) (self : UsageStats) : UsageStats :=
  mk_UsageStats
    (total_input_tokens self) (total_output_tokens self) (total_cost self)
    (daily_input_tokens self) (daily_output_tokens self) (daily_cost self)
    0 0 Float.zero
    (last_reset_date self) (last_daily_reset self) now
    (request_count self) (total_requests self) (daily_requests self) 0.

Definition reset_all_stats (now : datetime) (self : UsageStats) : UsageStats :=
  mk_UsageStats 0 0 Float.zero 0 0 Float.zero 0 0 Float.zero
                now now now 0 0 0 0.

(** ** State and exceptions

    A method of the mutable [BillingConfig] (or of the monitor that owns it)
    is a function from the configuration before the call to an outcome and
    the configuration after it; a raised exception keeps every mutation made
    before it. *)

Definition obind {A B : Type} (m : outcome A) (k : A -> outcome B) : outcome B :=
  match m with
  | Return a => k a
  | Raise e => Raise e
  end.

Notation "'let?' x ':=' m 'in' k" := (obind m (fun x => k))
  (at level 10, x name, m at level 100, k at level 200).

Definition M (A : Type) : Type := BillingConfig -> outcome A * BillingConfig.

Definition ret {A : Type} (a : A) : M A := fun s => (Return a, s).

Definition raise {A : Type} (e : exn) : M A := fun s => (Raise e, s).

Definition bind {A B : Type} (m : M A) (k : A -> M B) : M B :=
  fun s =>
    match m s with
    | (Return a, s') => k a s'
    | (Raise e, s') => (Raise e, s')
    end.

Notation "'let*' x ':=' m 'in' k" := (bind m (fun x => k))
  (at level 10, x name, m at level 100, k at level 200).

(** Reading the object, running a read-only method, mutating the object. *)
Definition gets {A : Type} (f : BillingConfig -> A) : M A :=
  fun s => (Return (f s), s).
Definition reads {A : Type} (f : BillingConfig -> outcome A) : M A :=
  fun s => (f s, s).
Definition modify (f : BillingConfig -> BillingConfig) : M unit :=
  fun s => (Return tt, f s).

(** ** [BillingConfig] methods *)

Definition get_model_config (self : BillingConfig) (model_name : string)
    : option ModelConfig :=
  models self !! model_name.

Definition calculate_cost (self : BillingConfig) (model_name : string)
    (input_tokens output_tokens : Z) : outcome float :=
  match get_model_config self model_name with
  | None => Return Float.zero
  | Some model_config =>
      let? input_thousands := Float.int_truediv input_tokens 1000 in
      let input_cost :=
        Float.mul input_thousands (input_token_price model_config) in
      let? output_thousands := Float.int_truediv output_tokens 1000 in
      let output_cost :=
        Float.mul output_thousands (output_token_price model_config) in
      Return (Float.add input_cost output_cost)
  end.

(** The thirteen [+=] of [update_usage], none of which can raise. *)
Definition add_usage (input_tokens output_tokens : Z) (cost : float)
    (u : UsageStats) : UsageStats :=
  mk_UsageStats
    (total_input_tokens u + input_tokens)
    (total_output_tokens u + output_tokens)
    (Float.add (total_cost u) cost)
    (daily_input_tokens u + input_tokens)
    (daily_output_tokens u + output_tokens)
    (Float.add (daily_cost u) cost)
    (monthly_input_tokens u + input_tokens)
    (monthly_output_tokens u + output_tokens)
    (Float.add (monthly_cost u) cost)
    (last_reset_date u) (last_daily_reset u) (last_monthly_reset u)
    (request_count u + 1)
    (total_requests u + 1)
    (daily_requests u + 1)
    (monthly_requests u + 1).

Definition update_usage (model_name : string) (input_tokens output_tokens : Z)
    : M float :=
  let* cost :=
    reads (fun self => calculate_cost self model_name input_tokens output_tokens) in
  let* _ :=
    modify (fun self =>
      set_usage_stats (add_usage input_tokens output_tokens cost (usage_stats self))
                      self) in
  ret cost.

Definition check_daily_reset (now : datetime) : M unit :=
  let* last := gets (fun self => last_daily_reset (usage_stats self)) in
  if date_gt now last
  then modify (fun self =>
         set_usage_stats (reset_daily_stats now (usage_stats self)) self)
  else ret tt.

Definition check_monthly_reset (now : datetime) : M unit :=
  let* last := gets (fun self => last_monthly_reset (usage_stats self)) in
  if (year last <? year now) || (month last <? month now)
  then modify (fun self =>
         set_usage_stats (reset_monthly_stats now (usage_stats self)) self)
  else ret tt.

(** [limit * warning_threshold] for an int limit: the int is converted to a
    float first. *)
Definition int_times_float (z : Z) (x : float) : outcome float :=
  let? zf := Float.of_int z in Return (Float.mul zf x).

Definition check_thresholds (self : BillingConfig)
    : outcome (list (string * bool)) :=
  let th := thresholds self in
  let us := usage_stats self in
  let warnings := [] in
  (* Check daily limits *)
  let warnings :=
    match daily_cost_limit th with
    | Some limit =>
        if Float.truthy limit then
          if Float.ge (daily_cost us) limit then
            dict_set "daily_cost_exceeded" true warnings
          else if Float.ge (daily_cost us)
                           (Float.mul limit (warning_threshold th)) then
            dict_set "daily_cost_warning" true warnings
          else warnings
        else warnings
    | None => warnings
    end in
  let? warnings :=
    match daily_token_limit th with
    | Some limit =>
        if negb (limit =? 0) then
          let daily_tokens := daily_input_tokens us + daily_output_tokens us in
          if limit <=? daily_tokens then
            Return (dict_set "daily_token_exceeded" true warnings)
          else
            let? bound := int_times_float limit (warning_threshold th) in
            if Float.int_ge daily_tokens bound then
              Return (dict_set "daily_token_warning" true warnings)
            else Return warnings
        else Return warnings
    | None => Return warnings
    end in
  (* Check monthly limits *)
  let warnings :=
    match monthly_cost_limit th with
    | Some limit =>
        if Float.truthy limit then
          if Float.ge (monthly_cost us) limit then
            dict_set "monthly_cost_exceeded" true warnings
          else if Float.ge (monthly_cost us)
                           (Float.mul limit (warning_threshold th)) then
            dict_set "monthly_cost_warning" true warnings
          else warnings
        else warnings
    | None => warnings
    end in
  let? warnings :=
    match monthly_token_limit th with
    | Some limit =>
        if negb (limit =? 0) then
          let monthly_tokens :=
            monthly_input_tokens us + monthly_output_tokens us in
          if limit <=? monthly_tokens then
            Return (dict_set "monthly_token_exceeded" true warnings)
          else
            let? bound := int_times_float limit (warning_threshold th) in
            if Float.int_ge monthly_tokens bound then
              Return (dict_set "monthly_token_warning" true warnings)
            else Return warnings
        else Return warnings
    | None => Return warnings
    end in
  Return warnings.

(** ** [core/billing_monitor.py]

    The monitor's state is the configuration it owns ([self._config]).  Its
    callbacks are outside the core: an exception of theirs is caught and
    logged, so they change neither the outcome nor the ledger, and
    they are left out, as is the logger.  [save_config] writes files,
    catches its own errors and leaves the configuration in memory as it
    is. *)

Record usage_info : Type := mk_usage_info {
  info_model_name : string;
  info_input_tokens : Z;
  info_output_tokens : Z;
  info_cost : float;
  info_total_cost : float;
  info_daily_cost : float;
  info_monthly_cost : float;
  info_warnings : list (string * bool);
  info_timestamp : datetime
}.

(** What [track_usage] returns: [{"enabled": False}] or the usage record. *)
Inductive track_result : Type :=
  | TrackDisabled
  | TrackUsage (info : usage_info).

(** One entry of the ["warnings"] list of an admission check. *)
Record limit_warning : Type := mk_limit_warning {
  type : string;
  message : string;
  current : pyval;
  projected : pyval;
  limit : pyval
}.

Record check_report : Type := mk_check_report {
  allowed : bool;
  warnings : list limit_warning;
  estimated_cost : float;
  current_daily_cost : float;
  current_monthly_cost : float
}.

(** What [check_limits_before_request] returns:
    [{"allowed": True, "enabled": False}] or the full report. *)
Inductive check_result : Type :=
  | CheckDisabled
  | CheckReport (r : check_report).

Definition result_allowed (r : check_result) : bool :=
  match r with
  | CheckDisabled => true
  | CheckReport rep => allowed rep
  end.

Definition is_enabled (self : BillingConfig) : bool := enabled self.

Definition save_config : M unit := ret tt.

Definition estimate_cost (self : BillingConfig) (model_name : string)
    (input_tokens output_tokens : Z) : outcome float :=
  calculate_cost self model_name input_tokens output_tokens.

(** The loop [for warning_type in warning_types] that issues the warnings.
    Inside [_handle_threshold_warnings] the name [warnings] is the
    dictionary parameter, which hides the module of that name, so
    [warnings.warn] looks up [warn] on a [dict] and raises
    [AttributeError] at the first recognised warning type. *)
Fixpoint issue_warnings (warning_types : list string) : M unit :=
  match warning_types with
  | [] => ret tt
  | warning_type :: rest =>
      if String.eqb warning_type "daily_cost_warning" then raise AttributeError
      else if String.eqb warning_type "monthly_cost_warning" then
        raise AttributeError
      else if String.eqb warning_type "daily_token_warning" then
        raise AttributeError
      else if String.eqb warning_type "monthly_token_warning" then
        raise AttributeError
      else issue_warnings rest
  end.

(** An integer shown in an f-string. *)
Definition format_int (n : Z) : M unit :=
  if int_str_ok n then ret tt else raise ValueError.

Definition _handle_threshold_warnings (warnings : list (string * bool))
    (info : usage_info) : M unit :=
  (* Check for hard limits (throw exceptions) *)
  let exceeded_types :=
    List.filter (fun warning_type => endswith warning_type "_exceeded")
           (dict_keys warnings) in
  let* _ :=
    match exceeded_types with
    | exceeded_type :: _ =>
        if String.eqb exceeded_type "daily_cost_exceeded" then
          let* lim := gets (fun self => daily_cost_limit (thresholds self)) in
          raise (ThresholdExceededException "daily_cost"
                   (PyFloat (info_daily_cost info))
                   (from_option PyFloat PyNone lim))
        else if String.eqb exceeded_type "monthly_cost_exceeded" then
          let* lim := gets (fun self => monthly_cost_limit (thresholds self)) in
          raise (ThresholdExceededException "monthly_cost"
                   (PyFloat (info_monthly_cost info))
                   (from_option PyFloat PyNone lim))
        else if String.eqb exceeded_type "daily_token_exceeded" then
          let* daily_tokens :=
            gets (fun self => daily_input_tokens (usage_stats self)
                              + daily_output_tokens (usage_stats self)) in
          let* lim := gets (fun self => daily_token_limit (thresholds self)) in
          (* f"Daily token limit exceeded: {daily_tokens} >= {limit}" *)
          let* _ := format_int daily_tokens in
          let* _ := from_option format_int (ret tt) lim in
          raise (ThresholdExceededException "daily_token"
                   (PyInt daily_tokens)
                   (from_option PyInt PyNone lim))
        else if String.eqb exceeded_type "monthly_token_exceeded" then
          let* monthly_tokens :=
            gets (fun self => monthly_input_tokens (usage_stats self)
                              + monthly_output_tokens (usage_stats self)) in
          let* lim := gets (fun self => monthly_token_limit (thresholds self)) in
          (* f"Monthly token limit exceeded: {monthly_tokens} >= {limit}" *)
          let* _ := format_int monthly_tokens in
          let* _ := from_option format_int (ret tt) lim in
          raise (ThresholdExceededException "monthly_token"
                   (PyInt monthly_tokens)
                   (from_option PyInt PyNone lim))
        else ret tt
    | [] => ret tt
    end in
  (* Handle warning thresholds *)
  let warning_types :=
    List.filter (fun w => endswith w "_warning") (dict_keys warnings) in
  issue_warnings warning_types.

Definition track_usage (now : datetime) (model_name : string)
    (input_tokens output_tokens : Z) : M track_result :=
  let* on := gets is_enabled in
  if negb on then ret TrackDisabled else
  (* Check if model is configured *)
  let* model_config := gets (fun self => get_model_config self model_name) in
  let* catalog := gets models in
  let* _ :=
    match model_config with
    | None =>
        if bool_decide (catalog <> ∅)
        then raise (ModelNotConfiguredException model_name)
        else ret tt
    | Some _ => ret tt
    end in
  (* Check for daily/monthly resets *)
  let* _ := check_daily_reset now in
  let* _ := check_monthly_reset now in
  (* Calculate cost and update usage *)
  let* cost := update_usage model_name input_tokens output_tokens in
  (* Check thresholds *)
  let* threshold_warnings := reads check_thresholds in
  (* Prepare usage info *)
  let* us := gets usage_stats in
  let info :=
    mk_usage_info model_name input_tokens output_tokens cost
                  (total_cost us) (daily_cost us) (monthly_cost us)
                  threshold_warnings now in
  (* Handle threshold warnings and limits *)
  let* _ := _handle_threshold_warnings threshold_warnings info in
  (* Save configuration if auto_save is enabled *)
  let* auto := gets auto_save in
  let* _ := (if auto then save_config else ret tt) in
  ret (TrackUsage info).

(** [result["allowed"] = False; result["warnings"].append(w)]. *)
Definition deny (w : limit_warning) (result : check_report) : check_report :=
  mk_check_report false (warnings result ++ [w]) (estimated_cost result)
                  (current_daily_cost result) (current_monthly_cost result).

Definition check_limits_before_request (model_name : string)
    (estimated_tokens : Z) : M check_result :=
  let* on := gets is_enabled in
  if negb on then ret CheckDisabled else
  (* Estimate cost for the request *)
  let* estimated_cost :=
    reads (fun self => estimate_cost self model_name estimated_tokens 0) in
  let* current_stats := gets usage_stats in
  let* thresholds := gets thresholds in
  let result :=
    mk_check_report true [] estimated_cost
                    (daily_cost current_stats) (monthly_cost current_stats) in
  (* Check daily cost limit *)
  let result :=
    match daily_cost_limit thresholds with
    | Some lim =>
        if Float.truthy lim then
          let projected_daily_cost :=
            Float.add (daily_cost current_stats) estimated_cost in
          if Float.gt projected_daily_cost lim then
            deny (mk_limit_warning "daily_cost_limit"
                 "Request would exceed daily cost limit"
                 (PyFloat (daily_cost current_stats))
                 (PyFloat projected_daily_cost) (PyFloat lim))
                 result
          else result
        else result
    | None => result
    end in
  (* Check monthly cost limit *)
  let result :=
    match monthly_cost_limit thresholds with
    | Some lim =>
        if Float.truthy lim then
          let projected_monthly_cost :=
            Float.add (monthly_cost current_stats) estimated_cost in
          if Float.gt projected_monthly_cost lim then
            deny (mk_limit_warning "monthly_cost_limit"
                 "Request would exceed monthly cost limit"
                 (PyFloat (monthly_cost current_stats))
                 (PyFloat projected_monthly_cost) (PyFloat lim))
                 result
          else result
        else result
    | None => result
    end in
  (* Check daily token limit *)
  let result :=
    match daily_token_limit thresholds with
    | Some lim =>
        if negb (lim =? 0) then
          let current_daily_tokens :=
            daily_input_tokens current_stats
            + daily_output_tokens current_stats in
          let projected_daily_tokens :=
            current_daily_tokens + estimated_tokens in
          if lim <? projected_daily_tokens then
            deny (mk_limit_warning "daily_token_limit"
                 "Request would exceed daily token limit"
                 (PyInt current_daily_tokens)
                 (PyInt projected_daily_tokens) (PyInt lim))
                 result
          else result
        else result
    | None => result
    end in
  (* Check monthly token limit *)
  let result :=
    match monthly_token_limit thresholds with
    | Some lim =>
        if negb (lim =? 0) then
          let current_monthly_tokens :=
            monthly_input_tokens current_stats
            + monthly_output_tokens current_stats in
          let projected_monthly_tokens :=
            current_monthly_tokens + estimated_tokens in
          if lim <? projected_monthly_tokens then
            deny (mk_limit_warning "monthly_token_limit"
                 "Request would exceed monthly token limit"
                 (PyInt current_monthly_tokens)
                 (PyInt projected_monthly_tokens) (PyInt lim))
                 result
          else result
        else result
    | None => result
    end in
  ret (CheckReport result).

(** ** Running a method *)

Definition eval {A : Type} (m : M A) (self : BillingConfig) : outcome A :=
  fst (m self).
Definition exec {A : Type} (m : M A) (self : BillingConfig) : BillingConfig :=
  snd (m self).

(** ** Scenario data *)

Definition noon : datetime := mk_datetime 2025 1 15 12 0 0 0.

(** Model ["m"]: 0.002 per 1000 input tokens, 0.004 per 1000 output tokens. *)
Definition model_m : ModelConfig :=
  mk_ModelConfig "m" (Float.decimal 2 1000) (Float.decimal 4 1000) None.

Definition no_limits : ThresholdConfig :=
  mk_ThresholdConfig None None None None (Float.decimal 8 10).

Definition config_of (th : ThresholdConfig) (us : UsageStats) : BillingConfig :=
  mk_BillingConfig {[ "m" := model_m ]} th us true true None.

(** A ledger whose three cost counters hold [c], everything else zero. *)
Definition ledger_with_cost (c : float) : UsageStats :=
  mk_UsageStats 0 0 c 0 0 c 0 0 c noon noon noon 0 0 0 0.

(** Scenario A: a fresh ledger and no limits. *)
Definition scenario_A : BillingConfig :=
  config_of no_limits (UsageStats_new noon).

(** Scenario B: [daily_cost_limit = 1.0], current [daily_cost = 0.9]. *)
Definition scenario_B : BillingConfig :=
  config_of
    (mk_ThresholdConfig (Some (Float.decimal 1 1)) None None None
                        (Float.decimal 8 10))
    (ledger_with_cost (Float.decimal 9 10)).

(** ** Threshold evaluation, limit by limit

    What one limit contributes to the dictionary of [check_thresholds]:
    the four blocks of the method differ only in their keys and operands. *)

Definition cost_signal (exceeded_key warning_key : string) (current : float)
    (limit : option float) (ratio : float) : list (string * bool) :=
  match limit with
  | Some l =>
      if Float.truthy l then
        if Float.ge current l then [(exceeded_key, true)]
        else if Float.ge current (Float.mul l ratio) then [(warning_key, true)]
        else []
      else []
  | None => []
  end.

Definition token_signal (exceeded_key warning_key : string) (current : Z)
    (limit : option Z) (ratio : float) : outcome (list (string * bool)) :=
  match limit with
  | Some l =>
      if negb (l =? 0) then
        if l <=? current then Return [(exceeded_key, true)]
        else
          let? bound := int_times_float l ratio in
          if Float.int_ge current bound then Return [(warning_key, true)]
          else Return []
      else Return []
  | None => Return []
  end.

Definition daily_tokens (us : UsageStats) : Z :=
  daily_input_tokens us + daily_output_tokens us.
Definition monthly_tokens (us : UsageStats) : Z :=
  monthly_input_tokens us + monthly_output_tokens us.

(** ** When a limit is met

    The conditions under which a limit produces its two signals, as
    propositions and, for the hard limit, as the test the code runs. *)

Definition cost_exceeded (current : float) (limit : option float) : Prop :=
  exists l, limit = Some l /\ Float.truthy l = true /\ Float.ge current l = true.

Definition cost_warned (current : float) (limit : option float)
    (ratio : float) : Prop :=
  exists l, limit = Some l /\ Float.truthy l = true
            /\ Float.ge current l = false
            /\ Float.ge current (Float.mul l ratio) = true.

Definition token_exceeded (current : Z) (limit : option Z) : Prop :=
  exists l, limit = Some l /\ l <> 0 /\ l <= current.

Definition token_warned (current : Z) (limit : option Z) (ratio : float)
    : Prop :=
  exists l bound, limit = Some l /\ l <> 0 /\ current < l
                  /\ int_times_float l ratio = Return bound
                  /\ Float.int_ge current bound = true.

Definition cost_exceededb (current : float) (limit : option float) : bool :=
  match limit with
  | Some l => Float.truthy l && Float.ge current l
  | None => false
  end.

Definition token_exceededb (current : Z) (limit : option Z) : bool :=
  match limit with
  | Some l => negb (l =? 0) && (l <=? current)
  | None => false
  end.

(** Every configured token limit converts to a float, as the warning bound
    [limit * warning_threshold] needs. *)
Definition token_limits_convert (th : ThresholdConfig) : Prop :=
  forall l, daily_token_limit th = Some l \/ monthly_token_limit th = Some l ->
            exists f, Float.of_int l = Return f.

(** The hard limits a ledger meets, each with the exception that reports
    it. *)
Inductive violation (self : BillingConfig) : exn -> Prop :=
  | violation_daily_cost l :
      daily_cost_limit (thresholds self) = Some l ->
      Float.truthy l = true ->
      Float.ge (daily_cost (usage_stats self)) l = true ->
      violation self
        (ThresholdExceededException "daily_cost"
           (PyFloat (daily_cost (usage_stats self))) (PyFloat l))
  | violation_daily_token l :
      daily_token_limit (thresholds self) = Some l ->
      l <> 0 ->
      l <= daily_tokens (usage_stats self) ->
      violation self
        (ThresholdExceededException "daily_token"
           (PyInt (daily_tokens (usage_stats self))) (PyInt l))
  | violation_monthly_cost l :
      monthly_cost_limit (thresholds self) = Some l ->
      Float.truthy l = true ->
      Float.ge (monthly_cost (usage_stats self)) l = true ->
      violation self
        (ThresholdExceededException "monthly_cost"
           (PyFloat (monthly_cost (usage_stats self))) (PyFloat l))
  | violation_monthly_token l :
      monthly_token_limit (thresholds self) = Some l ->
      l <> 0 ->
      l <= monthly_tokens (usage_stats self) ->
      violation self
        (ThresholdExceededException "monthly_token"
           (PyInt (monthly_tokens (usage_stats self))) (PyInt l)).

(** The exception the dispatcher raises for a ledger: the first met hard
    limit in the order daily cost, daily tokens, monthly cost, monthly
    tokens. *)
Definition primary_violation (self : BillingConfig) : option exn :=
  let th := thresholds self in
  let us := usage_stats self in
  if cost_exceededb (daily_cost us) (daily_cost_limit th) then
    Some (ThresholdExceededException "daily_cost" (PyFloat (daily_cost us))
            (from_option PyFloat PyNone (daily_cost_limit th)))
  else if token_exceededb (daily_tokens us) (daily_token_limit th) then
    Some (ThresholdExceededException "daily_token" (PyInt (daily_tokens us))
            (from_option PyInt PyNone (daily_token_limit th)))
  else if cost_exceededb (monthly_cost us) (monthly_cost_limit th) then
    Some (ThresholdExceededException "monthly_cost" (PyFloat (monthly_cost us))
            (from_option PyFloat PyNone (monthly_cost_limit th)))
  else if token_exceededb (monthly_tokens us) (monthly_token_limit th) then
    Some (ThresholdExceededException "monthly_token"
            (PyInt (monthly_tokens us))
            (from_option PyInt PyNone (monthly_token_limit th)))
  else None.

(** The place of a signal key in the order of evaluation. *)
Definition signal_rank (key : string) : nat :=
  if String.eqb key "daily_cost_exceeded" then 0
  else if String.eqb key "daily_cost_warning" then 0
  else if String.eqb key "daily_token_exceeded" then 1
  else if String.eqb key "daily_token_warning" then 1
  else if String.eqb key "monthly_cost_exceeded" then 2
  else if String.eqb key "monthly_cost_warning" then 2
  else if String.eqb key "monthly_token_exceeded" then 3
  else if String.eqb key "monthly_token_warning" then 3
  else 4.

(** Replacing the thresholds of a configuration. *)
Definition with_thresholds (th : ThresholdConfig) (self : BillingConfig)
    : BillingConfig :=
  mk_BillingConfig (models self) th (usage_stats self) (enabled self)
                   (auto_save self) (config_file_path self).

(** Counterexample data: a fresh ledger under [daily_token_limit = 0]. *)
Definition zero_token_limit : BillingConfig :=
  config_of (mk_ThresholdConfig None None (Some 0) None (Float.decimal 8 10))
            (UsageStats_new noon).

(** ** Admission, limit by limit *)

Definition cost_denial (type message : string) (current est : float)
    (limit : option float) : list limit_warning :=
  match limit with
  | Some l =>
      if Float.truthy l then
        let projected := Float.add current est in
        if Float.gt projected l then
          [mk_limit_warning type message (PyFloat current) (PyFloat projected)
                            (PyFloat l)]
        else []
      else []
  | None => []
  end.

Definition token_denial (type message : string) (current est : Z)
    (limit : option Z) : list limit_warning :=
  match limit with
  | Some l =>
      if negb (l =? 0) then
        let projected := current + est in
        if l <? projected then
          [mk_limit_warning type message (PyInt current) (PyInt projected)
                            (PyInt l)]
        else []
      else []
  | None => []
  end.

(** The entries of the ["warnings"] list of a check, in the order the method
    appends them. *)
Definition denials (self : BillingConfig) (est_cost : float) (est_tokens : Z)
    : list limit_warning :=
  let th := thresholds self in
  let us := usage_stats self in
  cost_denial "daily_cost_limit" "Request would exceed daily cost limit"
    (daily_cost us) est_cost (daily_cost_limit th)
  ++ cost_denial "monthly_cost_limit" "Request would exceed monthly cost limit"
       (monthly_cost us) est_cost (monthly_cost_limit th)
  ++ token_denial "daily_token_limit" "Request would exceed daily token limit"
       (daily_tokens us) est_tokens (daily_token_limit th)
  ++ token_denial "monthly_token_limit"
       "Request would exceed monthly token limit"
       (monthly_tokens us) est_tokens (monthly_token_limit th).

(** A projected value strictly above its limit. *)
Definition cost_over (current est : float) (limit : option float) : Prop :=
  exists l, limit = Some l /\ Float.truthy l = true
            /\ Float.gt (Float.add current est) l = true.

Definition token_over (current est : Z) (limit : option Z) : Prop :=
  exists l, limit = Some l /\ l <> 0 /\ l < current + est.

(** The default thresholds of the configuration manager: 10 and 100 dollars,
    one and ten million tokens, warning at 0.8. *)
Definition default_thresholds : ThresholdConfig :=
  mk_ThresholdConfig (Some (Float.decimal 10 1)) (Some (Float.decimal 100 1))
                     (Some 1000000) (Some 10000000) (Float.decimal 8 10).

Definition default_config : BillingConfig :=
  config_of default_thresholds (UsageStats_new noon).

(** Two threshold settings that the public interface cannot tell apart on
    a given configuration: the same evaluation and the same admission
    answer. *)
Definition same_public_behaviour (self : BillingConfig)
    (th th' : ThresholdConfig) (model_name : string) (estimated_tokens : Z)
    : Prop :=
  check_thresholds (with_thresholds th self)
    = check_thresholds (with_thresholds th' self)
  /\ eval (check_limits_before_request model_name estimated_tokens)
          (with_thresholds th self)
     = eval (check_limits_before_request model_name estimated_tokens)
            (with_thresholds th' self).

(** The threshold type the dispatcher reports for an exceeded key: the key
    without its ["_exceeded"] suffix. *)
Definition threshold_type_of (key : string) : string :=
  String.substring 0 (String.length key - 9) key.

(** [w.endswith("_exceeded")], the test that selects the hard limits. *)
Definition is_exceeded_key (key : string) : bool := endswith key "_exceeded".

(** Counterexample data: a fresh ledger with [monthly_cost_limit = 0.001]
    and [daily_token_limit = 100], so that one commit of 1000 + 500 tokens
    of model ["m"] exceeds both. *)
Definition two_limits : BillingConfig :=
  config_of
    (mk_ThresholdConfig None (Some (Float.decimal 1 1000)) (Some 100) None
                        (Float.decimal 8 10))
    (UsageStats_new noon).

(** The configuration a commit is applied to: the one left by the two
    rollover checks. *)
Definition rolled (now : datetime) (self : BillingConfig) : BillingConfig :=
  exec (check_monthly_reset now) (exec (check_daily_reset now) self).

(** The model gate of [track_usage] lets the call through. *)
Definition gate_passes (self : BillingConfig) (model_name : string) : Prop :=
  models self !! model_name <> None \/ models self = ∅.

(** Counterexample data: a fresh ledger under [daily_cost_limit = 0.0]. *)
Definition zero_cost_limit : BillingConfig :=
  config_of
    (mk_ThresholdConfig (Some Float.zero) None None None (Float.decimal 8 10))
    (UsageStats_new noon).

(** Some projected value of an admission check is strictly above its
    limit. *)
Definition some_projection_over (self : BillingConfig) (est_cost : float)
    (est_tokens : Z) : Prop :=
  cost_over (daily_cost (usage_stats self)) est_cost
    (daily_cost_limit (thresholds self))
  \/ cost_over (monthly_cost (usage_stats self)) est_cost
       (monthly_cost_limit (thresholds self))
  \/ token_over (daily_tokens (usage_stats self)) est_tokens
       (daily_token_limit (thresholds self))
  \/ token_over (monthly_tokens (usage_stats self)) est_tokens
       (monthly_token_limit (thresholds self)).

(** ** Histories of the ledger *)

(** The operations on the ledger of a configuration: a commit
    ([update_usage]), the two rollover checks, and the three resets. *)
Inductive ledger_op : Type :=
  | Commit (model_name : string) (input_tokens output_tokens : Z)
  | RollDaily (now : datetime)
  | RollMonthly (now : datetime)
  | ResetDaily (now : datetime)
  | ResetMonthly (now : datetime)
  | ResetAll (now : datetime).

Definition apply_op (op : ledger_op) (self : BillingConfig) : BillingConfig :=
  match op with
  | Commit model_name input_tokens output_tokens =>
      exec (update_usage model_name input_tokens output_tokens) self
  | RollDaily now => exec (check_daily_reset now) self
  | RollMonthly now => exec (check_monthly_reset now) self
  | ResetDaily now =>
      set_usage_stats (reset_daily_stats now (usage_stats self)) self
  | ResetMonthly now =>
      set_usage_stats (reset_monthly_stats now (usage_stats self)) self
  | ResetAll now =>
      set_usage_stats (reset_all_stats now (usage_stats self)) self
  end.

Definition run (ops : list ledger_op) (self : BillingConfig) : BillingConfig :=
  fold_left (fun s op => apply_op op s) ops self.

(** Every commit of a history has non-negative token counts. *)
Definition nonneg_commit (op : ledger_op) : Prop :=
  match op with
  | Commit _ input_tokens output_tokens =>
      0 <= input_tokens /\ 0 <= output_tokens
  | _ => True
  end.

(** A ledger whose counters are all zero. *)
Definition zeroed (u : UsageStats) : Prop :=
  u = mk_UsageStats 0 0 Float.zero 0 0 Float.zero 0 0 Float.zero
        (last_reset_date u) (last_daily_reset u) (last_monthly_reset u)
        0 0 0 0.

(** The daily and monthly counters do not exceed the lifetime ones. *)
Definition windows_within_lifetime (u : UsageStats) : Prop :=
  Float.le (daily_cost u) (total_cost u) = true
  /\ Float.le (monthly_cost u) (total_cost u) = true
  /\ daily_input_tokens u <= total_input_tokens u
  /\ monthly_input_tokens u <= total_input_tokens u
  /\ daily_output_tokens u <= total_output_tokens u
  /\ monthly_output_tokens u <= total_output_tokens u
  /\ daily_requests u <= total_requests u
  /\ monthly_requests u <= total_requests u
  /\ daily_requests u <= request_count u
  /\ monthly_requests u <= request_count u.

(** The part of it that speaks of tokens and requests. *)
Definition units_within_lifetime (u : UsageStats) : Prop :=
  daily_input_tokens u <= total_input_tokens u
  /\ monthly_input_tokens u <= total_input_tokens u
  /\ daily_output_tokens u <= total_output_tokens u
  /\ monthly_output_tokens u <= total_output_tokens u
  /\ daily_requests u <= total_requests u
  /\ monthly_requests u <= total_requests u
  /\ daily_requests u <= request_count u
  /\ monthly_requests u <= request_count u.

(** The invariant of the tokens and requests along a history: the windows
    within the lifetime counters, and the lifetime counters not negative. *)
Definition units_ok (u : UsageStats) : Prop :=
  units_within_lifetime u
  /\ 0 <= total_input_tokens u
  /\ 0 <= total_output_tokens u
  /\ 0 <= total_requests u
  /\ 0 <= request_count u.

(** Every price of the catalog is a non-negative finite float. *)
Definition price_ok (x : float) : Prop :=
  Float.nonneg x = true /\ Float.is_finite x = true.

Definition prices_nonneg (self : BillingConfig) : Prop :=
  forall model_name mc,
    models self !! model_name = Some mc ->
    price_ok (input_token_price mc) /\ price_ok (output_token_price mc).

(** The invariant carried along a history: the claim, the sign of the three
    costs and of the lifetime counters. *)
Definition ledger_ok (u : UsageStats) : Prop :=
  windows_within_lifetime u
  /\ Float.nonneg (total_cost u) = true
  /\ Float.nonneg (daily_cost u) = true
  /\ Float.nonneg (monthly_cost u) = true
  /\ 0 <= total_input_tokens u
  /\ 0 <= total_output_tokens u
  /\ 0 <= total_requests u
  /\ 0 <= request_count u.

(** Counterexample data: a catalog with one model of negative input price,
    [-0.002] per 1000 tokens, a fresh ledger, and the day after [noon]. *)
Definition rebate_model : ModelConfig :=
  mk_ModelConfig "r" (SFopp (Float.decimal 2 1000)) Float.zero None.

Definition rebate_config : BillingConfig :=
  mk_BillingConfig {[ "r" := rebate_model ]} no_limits (UsageStats_new noon)
                   true true None.

Definition next_day : datetime := mk_datetime 2025 1 16 12 0 0 0.

(** ** Calendar months

    The month of [a] is not after, or is strictly before, the month of
    [b]: months compare as (year, month). *)

Definition month_le (a b : datetime) : Prop :=
  year a < year b \/ (year a = year b /\ month a <= month b).

Definition month_lt (a b : datetime) : Prop :=
  year a < year b \/ (year a = year b /\ month a < month b).

(** ** Soft limits *)

(** Some limit has reached its warning level without being met. *)
Definition soft_limit_met (self : BillingConfig) : Prop :=
  let th := thresholds self in
  let us := usage_stats self in
  let w := warning_threshold th in
  cost_warned (daily_cost us) (daily_cost_limit th) w
  \/ token_warned (daily_tokens us) (daily_token_limit th) w
  \/ cost_warned (monthly_cost us) (monthly_cost_limit th) w
  \/ token_warned (monthly_tokens us) (monthly_token_limit th) w.

(** The record [track_usage] returns for a commit of cost [c] that left the
    configuration [self'], with the signals [ws]. *)
Definition usage_record (now : datetime) (model_name : string)
    (input_tokens output_tokens : Z) (c : float) (self' : BillingConfig)
    (ws : list (string * bool)) : usage_info :=
  mk_usage_info model_name input_tokens output_tokens c
    (total_cost (usage_stats self')) (daily_cost (usage_stats self'))
    (monthly_cost (usage_stats self')) ws now.

(** Scenario data: model ["m"], a daily cost limit of 10.0 with the warning
    level at 0.8, and 7.0 already spent today. *)
Definition seven_of_ten : BillingConfig :=
  config_of
    (mk_ThresholdConfig (Some (Float.decimal 10 1)) None None None
                        (Float.decimal 8 10))
    (ledger_with_cost (Float.decimal 7 1)).

(** ** Sessions of [track_usage] calls *)

(** What a call of [track_usage] does to the configuration, as a history of
    the ledger: nothing when the monitor is disabled or the model gate
    fails, otherwise the two rollover checks and the commit (which itself
    leaves the ledger alone when pricing raises). *)
Definition track_ops (now : datetime) (model_name : string)
    (input_tokens output_tokens : Z) (self : BillingConfig) : list ledger_op :=
  let history :=
    [RollDaily now; RollMonthly now;
     Commit model_name input_tokens output_tokens] in
  if negb (is_enabled self) then []
  else
    match get_model_config self model_name with
    | Some _ => history
    | None => if bool_decide (models self <> ∅) then [] else history
    end.

(** One call of [track_usage]: the clock reading and the arguments. *)
Record call : Type := mk_call {
  call_now : datetime;
  call_model : string;
  call_input : Z;
  call_output : Z
}.

(** The configuration after a caller has made the calls one after the
    other, going on whatever each returned or raised. *)
Definition track_session (calls : list call) (self : BillingConfig)
    : BillingConfig :=
  fold_left
    (fun s k =>
       exec (track_usage (call_now k) (call_model k) (call_input k)
                         (call_output k)) s)
    calls self.

Definition nonneg_call (k : call) : Prop :=
  0 <= call_input k /\ 0 <= call_output k.

(** No counter of the ledger is negative, and no cost is NaN. *)
Definition counters_nonneg (u : UsageStats) : Prop :=
  0 <= total_input_tokens u /\ 0 <= total_output_tokens u
  /\ Float.nonneg (total_cost u) = true
  /\ 0 <= daily_input_tokens u /\ 0 <= daily_output_tokens u
  /\ Float.nonneg (daily_cost u) = true
  /\ 0 <= monthly_input_tokens u /\ 0 <= monthly_output_tokens u
  /\ Float.nonneg (monthly_cost u) = true
  /\ 0 <= request_count u /\ 0 <= total_requests u
  /\ 0 <= daily_requests u /\ 0 <= monthly_requests u.

(** ** What a history commits *)

(** A commit that prices, and so reaches the counters. *)
Definition priced (self : BillingConfig) (op : ledger_op) : bool :=
  match op with
  | Commit model_name input_tokens output_tokens =>
      match calculate_cost self model_name input_tokens output_tokens with
      | Return _ => true
      | Raise _ => false
      end
  | _ => false
  end.

Definition op_input (op : ledger_op) : Z :=
  match op with
  | Commit _ input_tokens _ => input_tokens
  | _ => 0
  end.

Definition op_output (op : ledger_op) : Z :=
  match op with
  | Commit _ _ output_tokens => output_tokens
  | _ => 0
  end.

Definition is_reset_all (op : ledger_op) : bool :=
  match op with
  | ResetAll _ => true
  | _ => false
  end.

Definition Zsum (l : list Z) : Z := fold_right Z.add 0 l.

(** Input tokens, output tokens and number of the commits of a history that
    price under the catalog of [self]. *)
Definition committed_input (self : BillingConfig) (ops : list ledger_op) : Z :=
  Zsum (map op_input (List.filter (priced self) ops)).

Definition committed_output (self : BillingConfig) (ops : list ledger_op) : Z :=
  Zsum (map op_output (List.filter (priced self) ops)).

Definition committed_requests (self : BillingConfig) (ops : list ledger_op)
    : Z :=
  Z.of_nat (length (List.filter (priced self) ops)).

(** Scenario data: the day after [noon] in the same month, one month later,
    and a reading one year earlier in a later month. *)
Definition next_month : datetime := mk_datetime 2025 2 1 0 0 0 0.
Definition last_year_march : datetime := mk_datetime 2024 3 1 0 0 0 0.

(** ** Admission against commit *)

(** A projected value that equals its limit: [==] on floats, equality on
    ints. *)
Definition cost_at_limit (current est : float) (limit : option float) : Prop :=
  exists l, limit = Some l /\ Float.truthy l = true
            /\ SFeqb (Float.add current est) l = true.

Definition token_at_limit (current est : Z) (limit : option Z) : Prop :=
  exists l, limit = Some l /\ l <> 0 /\ current + est = l.

Definition some_projection_at_limit (self : BillingConfig) (est_cost : float)
    (est_tokens : Z) : Prop :=
  cost_at_limit (daily_cost (usage_stats self)) est_cost
    (daily_cost_limit (thresholds self))
  \/ cost_at_limit (monthly_cost (usage_stats self)) est_cost
       (monthly_cost_limit (thresholds self))
  \/ token_at_limit (daily_tokens (usage_stats self)) est_tokens
       (daily_token_limit (thresholds self))
  \/ token_at_limit (monthly_tokens (usage_stats self)) est_tokens
       (monthly_token_limit (thresholds self)).

(** ** The catalog and the configuration manager

    [BillingConfig.add_model_config] of [models/billing_models.py], and the
    methods of [config/manager.py] that edit the configuration.  The manager
    caches the configuration it has loaded, and [load_config] returns the
    cached object from then on: it is the object the monitor holds as
    [self._config], so the manager's methods are, like the monitor's,
    functions of that one configuration.  Writing files changes nothing of
    it. *)

Definition set_models (m : gmap string ModelConfig) (c : BillingConfig)
    : BillingConfig :=
  mk_BillingConfig m (thresholds c) (usage_stats c) (enabled c) (auto_save c)
                   (config_file_path c).

(** [self.models[model_config.name] = model_config]. *)
Definition add_model_config (model_config : ModelConfig) : M unit :=
  modify (fun self =>
    set_models (<[name model_config := model_config]> (models self)) self).

Module ConfigManager.

Definition load_config : M unit := ret tt.
Definition save_usage_stats : M unit := ret tt.

Definition reset_usage_stats (now : datetime) (reset_type : string) : M unit :=
  let* _ := load_config in
  let* _ :=
    if String.eqb reset_type "all" then
      modify (fun config =>
        set_usage_stats (reset_all_stats now (usage_stats config)) config)
    else if String.eqb reset_type "daily" then
      modify (fun config =>
        set_usage_stats (reset_daily_stats now (usage_stats config)) config)
    else if String.eqb reset_type "monthly" then
      modify (fun config =>
        set_usage_stats (reset_monthly_stats now (usage_stats config)) config)
    else ret tt in
  save_usage_stats.

Definition add_model_config (model_config : ModelConfig) : M unit :=
  let* _ := load_config in
  let* _ := add_model_config model_config in
  save_config.

Definition remove_model_config (model_name : string) : M unit :=
  let* _ := load_config in
  let* catalog := gets models in
  match catalog !! model_name with
  | Some _ =>
      let* _ :=
        modify (fun config =>
          set_models (delete model_name (models config)) config) in
      save_config
  | None => ret tt
  end.

Definition update_thresholds (threshold_config : ThresholdConfig) : M unit :=
  let* _ := load_config in
  let* _ := modify (with_thresholds threshold_config) in
  save_config.

End ConfigManager.

(** [BillingMonitor.reset_usage_stats]: the manager's reset, then
    [refresh_config], which gets the cached configuration back. *)
Definition refresh_config : M unit := ConfigManager.load_config.

Definition reset_usage_stats (now : datetime) (reset_type : string) : M unit :=
  let* _ := ConfigManager.reset_usage_stats now reset_type in
  refresh_config.

(** Scenario data: a second model, ["n"], at 0.01 and 0.03 per 1000
    tokens. *)
Definition model_n : ModelConfig :=
  mk_ModelConfig "n" (Float.decimal 1 100) (Float.decimal 3 100) None.

(** Scenario A without any model in the catalog. *)
Definition empty_catalog : BillingConfig := set_models ∅ scenario_A.

(** ** [get_usage_summary]

    The summary divides: [ZeroDivisionError] joins the exceptions, and the
    [OverflowError] here is the one of [int / int] ("integer division
    result too large for a float").  Dates stay [datetime] values; the
    source renders them with [isoformat]. *)

Module Report.

Inductive error : Type :=
  | ZeroDivisionError
  | OverflowError.

Inductive result (A : Type) : Type :=
  | Returns (a : A)
  | Raises (e : error).
Arguments Returns {A} a.
Arguments Raises {A} e.

Definition rbind {A B : Type} (m : result A) (k : A -> result B) : result B :=
  match m with
  | Returns a => k a
  | Raises e => Raises e
  end.

Notation "'let!' x ':=' m 'in' k" := (rbind m (fun x => k))
  (at level 10, x name, m at level 100, k at level 200).

(** [a / b] on floats: only a zero divisor raises. *)
Definition float_truediv (a b : float) : result float :=
  match b with
  | S754_zero _ => Raises ZeroDivisionError
  | _ => Returns (SFdiv Float.prec Float.emax a b)
  end.

(** [a / b] on ints, for any divisor: the quotient rounded once, a zero of
    the sign of the divisor for [a = 0]. *)
Definition int_truediv (a b : Z) : result float :=
  match b with
  | Z0 => Raises ZeroDivisionError
  | _ =>
      match a with
      | Z0 => Returns (S754_zero (b <? 0))
      | _ =>
          match SFdiv Float.prec Float.emax
                  (S754_finite (a <? 0) (Z.to_pos (Z.abs a)) 0)
                  (S754_finite (b <? 0) (Z.to_pos (Z.abs b)) 0) with
          | S754_infinity _ => Raises OverflowError
          | q => Returns q
          end
      end
  end.

(** [float(100)], the operand of [* 100]. *)
Definition hundred : float := binary_normalize Float.prec Float.emax 100 0 false.

(** [summary] holds the fifteen entries that are always present, then, for
    each limit, the pair of entries [..._limit] and [..._usage_percent],
    which are set together or not at all. *)
Record usage_summary : Type := mk_usage_summary {
  summary_total_requests : Z;
  summary_daily_requests : Z;
  summary_monthly_requests : Z;
  summary_total_cost : float;
  summary_daily_cost : float;
  summary_monthly_cost : float;
  summary_total_input_tokens : Z;
  summary_total_output_tokens : Z;
  summary_daily_input_tokens : Z;
  summary_daily_output_tokens : Z;
  summary_monthly_input_tokens : Z;
  summary_monthly_output_tokens : Z;
  summary_last_reset_date : datetime;
  summary_last_daily_reset : datetime;
  summary_last_monthly_reset : datetime;
  summary_daily_cost_limit : option (float * float);
  summary_monthly_cost_limit : option (float * float);
  summary_daily_token_limit : option (Z * float);
  summary_monthly_token_limit : option (Z * float)
}.

Definition get_usage_summary (self : BillingConfig) : result usage_summary :=
  let stats := usage_stats self in
  let thresholds := thresholds self in
  (* Add threshold information *)
  let! daily_cost_entries :=
    match daily_cost_limit thresholds with
    | Some lim =>
        if Float.truthy lim then
          let! ratio := float_truediv (daily_cost stats) lim in
          Returns (Some (lim, Float.mul ratio hundred))
        else Returns None
    | None => Returns None
    end in
  let! monthly_cost_entries :=
    match monthly_cost_limit thresholds with
    | Some lim =>
        if Float.truthy lim then
          let! ratio := float_truediv (monthly_cost stats) lim in
          Returns (Some (lim, Float.mul ratio hundred))
        else Returns None
    | None => Returns None
    end in
  let! daily_token_entries :=
    match daily_token_limit thresholds with
    | Some lim =>
        if negb (lim =? 0) then
          let daily_tokens :=
            daily_input_tokens stats + daily_output_tokens stats in
          let! ratio := int_truediv daily_tokens lim in
          Returns (Some (lim, Float.mul ratio hundred))
        else Returns None
    | None => Returns None
    end in
  let! monthly_token_entries :=
    match monthly_token_limit thresholds with
    | Some lim =>
        if negb (lim =? 0) then
          let monthly_tokens :=
            monthly_input_tokens stats + monthly_output_tokens stats in
          let! ratio := int_truediv monthly_tokens lim in
          Returns (Some (lim, Float.mul ratio hundred))
        else Returns None
    | None => Returns None
    end in
  Returns
    (mk_usage_summary
       (total_requests stats) (daily_requests stats) (monthly_requests stats)
       (total_cost stats) (daily_cost stats) (monthly_cost stats)
       (total_input_tokens stats) (total_output_tokens stats)
       (daily_input_tokens stats) (daily_output_tokens stats)
       (monthly_input_tokens stats) (monthly_output_tokens stats)
       (last_reset_date stats) (last_daily_reset stats)
       (last_monthly_reset stats)
       daily_cost_entries monthly_cost_entries
       daily_token_entries monthly_token_entries).

End Report.

(** The percentage the summary shows for a cost and for a token count. *)
Definition cost_percent (current lim : float) : float :=
  Float.mul (SFdiv Float.prec Float.emax current lim) Report.hundred.

Definition token_percent (current lim : Z) : Report.result float :=
  Report.rbind (Report.int_truediv current lim)
    (fun ratio => Report.Returns (Float.mul ratio Report.hundred)).

(** The pair of entries the summary holds for a limit. *)
Definition cost_entries (current : float) (limit : option float)
    : option (float * float) :=
  match limit with
  | Some l => if Float.truthy l then Some (l, cost_percent current l) else None
  | None => None
  end.

Definition token_entries (current : Z) (limit : option Z)
    : Report.result (option (Z * float)) :=
  match limit with
  | Some l =>
      if negb (l =? 0) then
        Report.rbind (token_percent current l)
          (fun p => Report.Returns (Some (l, p)))
      else Report.Returns None
  | None => Report.Returns None
  end.

(** Scenario data: half of a daily cost limit of 10.0 spent, and a daily
    token limit of zero. *)
Definition half_spent : BillingConfig :=
  config_of
    (mk_ThresholdConfig (Some (Float.decimal 10 1)) None (Some 0) None
                        (Float.decimal 8 10))
    (ledger_with_cost (Float.decimal 5 1)).

(** ** Rounding of quotients

    The nearest integer to [P / D], ties to even, and the rounding of the
    rational [P / D] to a precision: what multiplication and division
    compute, in units of the smallest positive float. *)

Module Ratio.

Definition rne (P D : Z) : Z :=
  let q := P / D in
  let r := P mod D in
  match 2 * r ?= D with
  | Lt => q
  | Gt => q + 1
  | Eq => if Z.even q then q else q + 1
  end.

Definition round (prec : Z) (P D : Z) : Z :=
  let k := Z.max (Zdigits2 (P / D) - prec) 0 in
  rne P (D * 2 ^ k) * 2 ^ k.

End Ratio.

(** ** The price formula on the values of the doubles

    The formula of [calculate_cost], operation by operation, on exact
    integers: the value of a non-negative double is counted in units of
    the smallest positive double, [2 ^ -1074], so that [one] is
    [2 ^ 1074] units and the infinity stands at [2 ^ 2098].  Each
    quotient, product and sum is the nearest double to the exact result,
    ties to even, and the infinity beyond the range. *)

Module Nearest.

Definition one : Z := 2 ^ 1074.
Definition infinity : Z := 2 ^ 2098.

Definition value : float -> Z := Format.B2Z Float.prec Float.emax.

(** The nearest double to the rational [P / D]. *)
Definition quotient (P D : Z) : Z :=
  Z.min (Ratio.round Float.prec P D) infinity.

Definition product (x y : Z) : Z := quotient (x * y) one.

Definition sum (x y : Z) : Z :=
  Z.min (Format.zround Float.prec (x + y)) infinity.

(** [n / 1000] for an int [n]. *)
Definition thousands (n : Z) : Z := quotient (n * one) 1000.

(** [(input_tokens / 1000) * input_token_price
     + (output_tokens / 1000) * output_token_price]. *)
Definition cost (input_tokens output_tokens input_price output_price : Z)
    : Z :=
  sum (product (thousands input_tokens) input_price)
      (product (thousands output_tokens) output_price).

End Nearest.

(** The least count whose thousandth is beyond the doubles: halfway between
    the largest double, [2 ^ 1024 - 2 ^ 971], and [2 ^ 1024], where the tie
    goes to the even mantissa of [2 ^ 1024]. *)
Definition cost_overflow_bound : Z := 1000 * (2 ^ 1024 - 2 ^ 970).

(** ** API responses

    The part of a response dictionary that the monitor reads, for responses
    in the format of the API: ["usage"] is absent, [None] or a dictionary of
    integer counts; ["choices"] is absent or a list of dictionaries, each
    with an optional ["message"] dictionary whose ["content"] is absent,
    [None] or a string.  An absent key is the outer [None]. *)

Module Response.

Record message_dict : Type := mk_message {
  content : option (option string)
}.

Record choice_dict : Type := mk_choice {
  message : option message_dict
}.

Record t : Type := mk {
  usage : option (option (gmap string Z));
  choices : option (list choice_dict)
}.

End Response.

(** ** Chat messages

    The part of a message dictionary that the counter reads, for messages in
    the format of the API: ["role"] and ["name"] are absent or strings;
    ["content"] is absent, a string, a list of items (an item with a string
    under ["text"], or any other item), or another value such as [None].
    The counter sums over the keys of a message, so the order of the keys
    is not kept. *)

Module Chat.

Inductive item : Type :=
  | TextItem (text : string)
  | OtherItem.

Inductive content_value : Type :=
  | Text (s : string)
  | Items (l : list item)
  | OtherValue.

Record message_dict : Type := mk_message {
  role : option string;
  content : option content_value;
  name : option string
}.

End Chat.

(** ** Token counting ([core/token_counter.py])

    The tokenizer library is outside the repository.  The counter is
    parametric in [get_encoding], from the name of an encoding to its
    encoder, and an encoder takes a text to its tokens; [None] is an
    exception of the library.  Both are pure functions, so the cache
    [_encoders] holds what [get_encoding] would return again.

    [TokenCountingException] is the only exception that leaves a method of
    the counter: a count is [None] when it is raised. *)

Module TokenCounter.

Definition encoder : Type := string -> option (list Z).

Definition MODEL_ENCODINGS : gmap string string :=
  list_to_map
    [ ("gpt-4", "cl100k_base"); ("gpt-4-32k", "cl100k_base");
      ("gpt-4-turbo", "cl100k_base"); ("gpt-4o", "o200k_base");
      ("gpt-4o-mini", "o200k_base"); ("gpt-3.5-turbo", "cl100k_base");
      ("gpt-3.5-turbo-16k", "cl100k_base");
      ("qwen-turbo", "cl100k_base"); ("qwen-plus", "cl100k_base");
      ("qwen-max", "cl100k_base"); ("qwen-max-longcontext", "cl100k_base");
      ("claude-3-opus", "cl100k_base"); ("claude-3-sonnet", "cl100k_base");
      ("claude-3-haiku", "cl100k_base"); ("gemini-pro", "cl100k_base");
      ("gemini-pro-vision", "cl100k_base"); ("deepseek-chat", "cl100k_base");
      ("deepseek-coder", "cl100k_base"); ("moonshot-v1-8k", "cl100k_base");
      ("moonshot-v1-32k", "cl100k_base"); ("moonshot-v1-128k", "cl100k_base");
      ("baichuan2-turbo", "cl100k_base");
      ("baichuan2-turbo-192k", "cl100k_base") ].

Section Tokenizer.

Variable get_encoding : string -> option encoder.

Definition _get_encoder (model_name : string) : option encoder :=
  let encoding_name := default "cl100k_base" (MODEL_ENCODINGS !! model_name) in
  get_encoding encoding_name.

Definition count_tokens (text model_name : string) : option Z :=
  if String.eqb text "" then Some 0
  else
    match _get_encoder model_name with
    | Some encoder =>
        match encoder text with
        | Some tokens => Some (Z.of_nat (length tokens))
        | None => None
        end
    | None => None
    end.

(** The loop [for choice in choices] of the fallback, from the value of
    [output_tokens] on entry. *)
Fixpoint count_choices (choices : list Response.choice_dict)
    (model_name : string) (output_tokens : Z) : option Z :=
  match choices with
  | [] => Some output_tokens
  | choice :: rest =>
      let message := default (Response.mk_message None)
                             (Response.message choice) in
      let content := default (Some "") (Response.content message) in
      match content with
      | Some text =>
          if negb (String.eqb text "") then
            match count_tokens text model_name with
            | Some n => count_choices rest model_name (output_tokens + n)
            | None => None
            end
          else count_choices rest model_name output_tokens
      | None => count_choices rest model_name output_tokens
      end
  end.

Definition estimate_tokens_from_response (response_data : Response.t)
    (model_name : string) : option (Z * Z) :=
  (* Try to get usage data from response first *)
  let usage := default (Some ∅) (Response.usage response_data) in
  let fallback :=
    (* Fallback: estimate from content *)
    let input_tokens := 0 in
    let choices := default [] (Response.choices response_data) in
    match count_choices choices model_name 0 with
    | Some output_tokens => Some (input_tokens, output_tokens)
    | None => None
    end in
  match usage with
  | Some usage =>
      if bool_decide (usage <> ∅) then
        let prompt_tokens := default 0 (usage !! "prompt_tokens") in
        let completion_tokens := default 0 (usage !! "completion_tokens") in
        Some (prompt_tokens, completion_tokens)
      else fallback
  | None => fallback
  end.

(** [num_tokens += len(encoder.encode(text))]. *)
Definition add_encoded (encoder : encoder) (text : string) (num_tokens : Z)
    : option Z :=
  match encoder text with
  | Some tokens => Some (num_tokens + Z.of_nat (length tokens))
  | None => None
  end.

(** The loop over the items of a multi-modal content. *)
Fixpoint count_items (encoder : encoder) (items : list Chat.item)
    (num_tokens : Z) : option Z :=
  match items with
  | [] => Some num_tokens
  | Chat.TextItem text :: rest =>
      match add_encoded encoder text num_tokens with
      | Some num_tokens => count_items encoder rest num_tokens
      | None => None
      end
  | Chat.OtherItem :: rest => count_items encoder rest num_tokens
  end.

Definition count_content (encoder : encoder)
    (content : option Chat.content_value) (num_tokens : Z) : option Z :=
  match content with
  | Some (Chat.Text value) => add_encoded encoder value num_tokens
  | Some (Chat.Items value) =>
      (* Handle multi-modal content *)
      count_items encoder value num_tokens
  | Some Chat.OtherValue => Some num_tokens
  | None => Some num_tokens
  end.

(** The body of the loop [for message in messages] of
    [_count_openai_messages_tokens]. *)
Definition count_openai_message (encoder : encoder)
    (tokens_per_message tokens_per_name : Z) (message : Chat.message_dict)
    (num_tokens : Z) : option Z :=
  let num_tokens := num_tokens + tokens_per_message in
  match
    match Chat.role message with
    | Some value => add_encoded encoder value num_tokens
    | None => Some num_tokens
    end
  with
  | Some num_tokens =>
      match count_content encoder (Chat.content message) num_tokens with
      | Some num_tokens =>
          match Chat.name message with
          | Some value =>
              match add_encoded encoder value num_tokens with
              | Some num_tokens =>
                  if 0 <? tokens_per_name
                  then Some (num_tokens + tokens_per_name)
                  else Some num_tokens
              | None => None
              end
          | None => Some num_tokens
          end
      | None => None
      end
  | None => None
  end.

Fixpoint count_openai_loop (encoder : encoder)
    (tokens_per_message tokens_per_name : Z)
    (messages : list Chat.message_dict) (num_tokens : Z) : option Z :=
  match messages with
  | [] => Some num_tokens
  | message :: rest =>
      match count_openai_message encoder tokens_per_message tokens_per_name
              message num_tokens with
      | Some num_tokens =>
          count_openai_loop encoder tokens_per_message tokens_per_name rest
                            num_tokens
      | None => None
      end
  end.

(** Token costs for message formatting: [(tokens_per_message,
    tokens_per_name)]. *)
Definition formatting_costs (model_name : string) : Z * Z :=
  if startswith model_name "gpt-4" then (3, 1)
  else if startswith model_name "gpt-3.5-turbo" then
    if contains "0613" model_name || contains "16k" model_name then (3, 1)
    else (4, -1)
  else (3, 1).

Definition _count_openai_messages_tokens (messages : list Chat.message_dict)
    (encoder : encoder) (model_name : string) : option Z :=
  let '(tokens_per_message, tokens_per_name) := formatting_costs model_name in
  match count_openai_loop encoder tokens_per_message tokens_per_name
          messages 0 with
  | Some num_tokens =>
      (* Add tokens for the assistant's reply *)
      Some (num_tokens + 3)
  | None => None
  end.

(** The body of the loop of [_count_generic_messages_tokens]. *)
Definition count_generic_message (encoder : encoder)
    (message : Chat.message_dict) (num_tokens : Z) : option Z :=
  (* Add tokens for role *)
  match
    match Chat.role message with
    | Some value => add_encoded encoder value num_tokens
    | None => Some num_tokens
    end
  with
  | Some num_tokens =>
      (* Add tokens for content *)
      match count_content encoder (Chat.content message) num_tokens with
      | Some num_tokens =>
          (* Add overhead for message formatting *)
          Some (num_tokens + 4)
      | None => None
      end
  | None => None
  end.

Fixpoint count_generic_loop (encoder : encoder)
    (messages : list Chat.message_dict) (num_tokens : Z) : option Z :=
  match messages with
  | [] => Some num_tokens
  | message :: rest =>
      match count_generic_message encoder message num_tokens with
      | Some num_tokens => count_generic_loop encoder rest num_tokens
      | None => None
      end
  end.

Definition _count_generic_messages_tokens
    (messages : list Chat.message_dict) (encoder : encoder) : option Z :=
  count_generic_loop encoder messages 0.

Definition count_messages_tokens (messages : list Chat.message_dict)
    (model_name : string) : option Z :=
  match messages with
  | [] => Some 0
  | _ =>
      match _get_encoder model_name with
      | Some encoder =>
          (* Different models have different token counting rules *)
          if startswith model_name "gpt-4" || startswith model_name "gpt-3.5"
          then _count_openai_messages_tokens messages encoder model_name
          else
            (* For other models, use a simpler approximation *)
            _count_generic_messages_tokens messages encoder
      | None => None
      end
  end.

End Tokenizer.

End TokenCounter.

(** ** Tracking a response ([track_openai_response])

    The method catches every exception and returns [{"error": str(e)}]; the
    record keeps the exception in the place of its message. *)

Inductive tracking_error : Type :=
  | UsageError (e : exn)
  | TokenCountingException.

Inductive response_result : Type :=
  | ResponseUsage (r : track_result)
  | ResponseError (e : tracking_error).

Definition track_openai_response
    (get_encoding : string -> option TokenCounter.encoder) (now : datetime)
    (response_data : Response.t) (model_name : string)
    (self : BillingConfig) : response_result * BillingConfig :=
  (* Extract token usage from response *)
  match TokenCounter.estimate_tokens_from_response get_encoding response_data
          model_name with
  | Some (input_tokens, output_tokens) =>
      match track_usage now model_name input_tokens output_tokens self with
      | (Return r, self') => (ResponseUsage r, self')
      | (Raise e, self') => (ResponseError (UsageError e), self')
      end
  | None => (ResponseError TokenCountingException, self)
  end.

(** A choice whose content is a non-empty text that the tokenizer cannot
    count. *)
Definition uncountable
    (get_encoding : string -> option TokenCounter.encoder)
    (model_name : string) (choice : Response.choice_dict) : Prop :=
  exists message text,
    Response.message choice = Some message
    /\ Response.content message = Some (Some text)
    /\ text <> ""
    /\ TokenCounter.count_tokens get_encoding text model_name = None.

(** A tokenizer for the examples: one token per character. *)
Definition one_token_per_character : string -> option TokenCounter.encoder :=
  fun _ => Some (fun text =>
                   Some (map (fun c => Z.of_nat (Ascii.nat_of_ascii c))
                             (String.list_ascii_of_string text))).

(** A tokenizer whose encodings cannot be loaded. *)
Definition no_encoding : string -> option TokenCounter.encoder :=
  fun _ => None.

(** A response with its usage block, and the same without. *)
Definition response_with_usage (prompt_tokens completion_tokens : Z)
    : Response.t :=
  Response.mk
    (Some (Some (<["prompt_tokens" := prompt_tokens]>
                 (<["completion_tokens" := completion_tokens]> ∅))))
    (Some [Response.mk_choice
             (Some (Response.mk_message (Some (Some "Hello"))))]).

Definition response_without_usage : Response.t :=
  Response.mk None
    (Some [Response.mk_choice
             (Some (Response.mk_message (Some (Some "Hello"))));
           Response.mk_choice (Some (Response.mk_message (Some None)))]).

(** ** Monitoring blocks ([core/wrapper.py])

    The two context managers switch the monitor on or off for the time of a
    block.  [with_block] is the statement [with cm: body]: [__enter__], the
    body, then [__exit__], also when the body raises; both [__exit__]
    methods return [None], so the exception of the body propagates.  The
    attribute [original_enabled] of the manager is [None] until
    [__enter__]. *)

Definition set_enabled (b : bool) (c : BillingConfig) : BillingConfig :=
  mk_BillingConfig (models c) (thresholds c) (usage_stats c) b (auto_save c)
                   (config_file_path c).

Definition with_block {A : Type} (__enter__ : M (option bool))
    (__exit__ : option bool -> M unit) (body : M A) : M A :=
  fun self =>
    match __enter__ self with
    | (Return original_enabled, s1) =>
        match body s1 with
        | (r, s2) =>
            match __exit__ original_enabled s2 with
            | (Return _, s3) => (r, s3)
            | (Raise e, s3) => (Raise e, s3)
            end
        end
    | (Raise e, s1) => (Raise e, s1)
    end.

Module temporary_monitoring.

Definition __enter__ : M (option bool) :=
  let* original_enabled := gets enabled in
  let* _ := modify (set_enabled true) in
  ret (Some original_enabled).

Definition __exit__ (original_enabled : option bool) : M unit :=
  match original_enabled with
  | Some b => modify (set_enabled b)
  | None => ret tt
  end.

End temporary_monitoring.

Module disable_monitoring.

Definition __enter__ : M (option bool) :=
  let* original_enabled := gets enabled in
  let* _ := modify (set_enabled false) in
  ret (Some original_enabled).

Definition __exit__ (original_enabled : option bool) : M unit :=
  match original_enabled with
  | Some b => modify (set_enabled b)
  | None => ret tt
  end.

End disable_monitoring.

(** * Properties *)

(** ** Rounding in a binary format *)

Lemma digits2_pos_bounds (p : positive) :
  2 ^ (Zpos (digits2_pos p) - 1) <= Zpos p < 2 ^ Zpos (digits2_pos p).
Proof.
  induction p as [p IH | p IH |]; cbn [digits2_pos].
  - rewrite Pos2Z.inj_succ. unfold Z.succ.
    replace (Z.pos (digits2_pos p) + 1 - 1) with (Z.pos (digits2_pos p) - 1 + 1) by lia.
    rewrite !Z.pow_add_r by lia. lia.
  - rewrite Pos2Z.inj_succ. unfold Z.succ.
    replace (Z.pos (digits2_pos p) + 1 - 1) with (Z.pos (digits2_pos p) - 1 + 1) by lia.
    rewrite !Z.pow_add_r by lia. lia.
  - cbn. lia.
Qed.

Lemma Zdigits2_bounds (m : Z) :
  0 < m -> 2 ^ (Zdigits2 m - 1) <= m < 2 ^ Zdigits2 m.
Proof.
  destruct m as [|p|p]; try lia. intros _. apply digits2_pos_bounds.
Qed.

Lemma Zdigits2_nonneg (m : Z) : 0 <= Zdigits2 m.
Proof. destruct m; cbn; lia. Qed.

Lemma Zdigits2_pos (m : Z) : 0 < m -> 0 < Zdigits2 m.
Proof. destruct m; cbn; lia. Qed.

(** The digit count is the only exponent with these bounds. *)
Lemma Zdigits2_unique (m d : Z) :
  0 < m -> 2 ^ (d - 1) <= m < 2 ^ d -> Zdigits2 m = d.
Proof.
  intros Hm [Hlo Hhi].
  pose proof (Zdigits2_bounds m Hm) as [Hlo' Hhi'].
  pose proof (Zdigits2_pos m Hm) as Hd.
  assert (0 < d).
  { destruct (Z.lt_trichotomy d 0) as [Hn | [-> | Hp]]; [| cbn in Hhi; lia | exact Hp].
    rewrite (Z.pow_neg_r 2 d Hn) in Hhi. lia. }
  destruct (Z.lt_trichotomy (Zdigits2 m) d) as [Hlt | [Heq | Hgt]]; [| exact Heq |].
  - assert (2 ^ Zdigits2 m <= 2 ^ (d - 1)) by (apply Z.pow_le_mono_r; lia). lia.
  - assert (2 ^ d <= 2 ^ (Zdigits2 m - 1)) by (apply Z.pow_le_mono_r; lia). lia.
Qed.

Lemma iter_pos_nat {A : Type} (f : A -> A) (p : positive) (x : A) :
  SpecFloat.iter_pos f p x = Nat.iter (Pos.to_nat p) f x.
Proof.
  revert x. induction p as [p IH | p IH |]; intros x; cbn [SpecFloat.iter_pos].
  - rewrite !IH, Pos2Nat.inj_xI.
    replace (S (2 * Pos.to_nat p))
      with (Pos.to_nat p + (Pos.to_nat p + 1))%nat by lia.
    now rewrite !Nat.iter_add.
  - rewrite !IH, Pos2Nat.inj_xO.
    replace (2 * Pos.to_nat p)%nat with (Pos.to_nat p + Pos.to_nat p)%nat by lia.
    now rewrite Nat.iter_add.
  - reflexivity.
Qed.

Lemma shr_1_nonneg (m : Z) (r s : bool) :
  0 <= m ->
  shr_1 (Build_shr_record m r s) = Build_shr_record (m / 2) (Z.odd m) (r || s).
Proof.
  intros Hm. rewrite <- Z.div2_div.
  destruct m as [|[p|p|]|p]; try lia; reflexivity.
Qed.

Lemma mod_pow2_succ (m k : Z) :
  0 <= k ->
  m mod 2 ^ (k + 1) = m mod 2 ^ k + 2 ^ k * (if Z.odd (m / 2 ^ k) then 1 else 0).
Proof.
  intros Hk. rewrite Z.pow_add_r by lia. change (2 ^ 1) with 2.
  rewrite Z.rem_mul_r by lia. now rewrite Zmod_odd.
Qed.

Lemma shr_iter (n : nat) (m : Z) (r s : bool) :
  0 <= m ->
  Nat.iter (S n) shr_1 (Build_shr_record m r s)
  = Build_shr_record (m / 2 ^ Z.of_nat (S n))
      (Z.odd (m / 2 ^ Z.of_nat n))
      ((r || s) || negb (m mod 2 ^ Z.of_nat n =? 0)).
Proof.
  intros Hm. induction n as [|n IH].
  - cbn [Nat.iter]. rewrite shr_1_nonneg by exact Hm.
    change (2 ^ Z.of_nat 1) with 2. change (2 ^ Z.of_nat 0) with 1.
    rewrite Z.div_1_r, Z.mod_1_r. cbn. now rewrite orb_false_r.
  - change (Nat.iter (S (S n)) shr_1 ?x) with (shr_1 (Nat.iter (S n) shr_1 x)).
    rewrite IH. rewrite shr_1_nonneg by (apply Z.div_pos; lia).
    f_equal.
    + rewrite Z.div_div by lia.
      rewrite (Nat2Z.inj_succ (S n)). unfold Z.succ.
      rewrite (Z.pow_add_r 2 (Z.of_nat (S n)) 1) by lia. reflexivity.
    + rewrite (Nat2Z.inj_succ n). unfold Z.succ.
      rewrite mod_pow2_succ by lia.
      assert (H0 : 0 <= m mod 2 ^ Z.of_nat n) by (apply Z.mod_pos_bound; lia).
      assert (Hp : 0 < 2 ^ Z.of_nat n) by lia.
      destruct (Z.odd (m / 2 ^ Z.of_nat n));
        destruct (m mod 2 ^ Z.of_nat n =? 0) eqn:E;
        [apply Z.eqb_eq in E | apply Z.eqb_neq in E
        | apply Z.eqb_eq in E | apply Z.eqb_neq in E];
        destruct r, s; cbn [orb negb]; try reflexivity; symmetry;
        first [ apply negb_true_iff, Z.eqb_neq; lia
              | apply negb_false_iff, Z.eqb_eq; lia ].
Qed.

Lemma rne_of_record (m k : Z) :
  0 <= m -> 0 < k ->
  round_nearest_even (m / 2 ^ k)
    (loc_of_shr_record
       (Build_shr_record (m / 2 ^ k) (Z.odd (m / 2 ^ (k - 1)))
          (negb (m mod 2 ^ (k - 1) =? 0))))
  = Format.rne m k.
Proof.
  intros Hm Hk. unfold Format.rne. cbn zeta.
  pose proof (mod_pow2_succ m (k - 1)) as Hmod.
  pose proof (Z.pow_add_r 2 (k - 1) 1) as Hpow.
  replace (k - 1 + 1) with k in Hmod, Hpow by lia.
  change (2 ^ 1) with 2 in Hpow.
  rewrite Hmod by lia. rewrite (Hpow ltac:(lia) ltac:(lia)) at 3. clear Hmod Hpow.
  assert (H0 : 0 <= m mod 2 ^ (k - 1) < 2 ^ (k - 1))
    by (apply Z.mod_pos_bound; lia).
  destruct (Z.odd (m / 2 ^ (k - 1)));
    destruct (m mod 2 ^ (k - 1) =? 0) eqn:E;
    [apply Z.eqb_eq in E | apply Z.eqb_neq in E
    | apply Z.eqb_eq in E | apply Z.eqb_neq in E];
    cbn [negb loc_of_shr_record round_nearest_even].
  - replace (_ ?= _) with Eq; [reflexivity|].
    symmetry. apply Z.compare_eq_iff. lia.
  - replace (_ ?= _) with Gt; [reflexivity|]. symmetry. apply Z.compare_gt_iff. lia.
  - replace (_ ?= _) with Lt; [reflexivity|]. symmetry. apply Z.compare_lt_iff. lia.
  - replace (_ ?= _) with Lt; [reflexivity|]. symmetry. apply Z.compare_lt_iff. lia.
Qed.

Lemma rne_0 (m : Z) : Format.rne m 0 = m.
Proof.
  unfold Format.rne. cbn zeta. change (2 ^ 0) with 1. rewrite Z.div_1_r, Z.mod_1_r.
  reflexivity.
Qed.

(** Shifting by a positive amount from an exact location. *)
Lemma shr_exact (m : Z) (p : positive) :
  0 <= m ->
  let mrs := SpecFloat.iter_pos shr_1 p (Build_shr_record m false false) in
  shr_m mrs = m / 2 ^ Zpos p
  /\ round_nearest_even (shr_m mrs) (loc_of_shr_record mrs) = Format.rne m (Zpos p).
Proof.
  intros Hm mrs. subst mrs. rewrite iter_pos_nat.
  destruct (Pos2Nat.is_succ p) as [n Hn]. rewrite Hn.
  rewrite shr_iter by exact Hm.
  assert (Hk : Z.of_nat (S n) = Zpos p) by (rewrite <- Hn; apply positive_nat_Z).
  assert (Hk' : Z.of_nat n = Zpos p - 1) by lia.
  rewrite Hk, Hk'. cbn [shr_m orb]. split; [reflexivity|].
  apply rne_of_record; lia.
Qed.

(** Shifting from any location: the mantissa only. *)
Lemma shr_mantissa (mrs : shr_record) (p : positive) :
  0 <= shr_m mrs ->
  shr_m (SpecFloat.iter_pos shr_1 p mrs) = shr_m mrs / 2 ^ Zpos p.
Proof.
  destruct mrs as [m r s]. cbn [shr_m]. intros Hm. rewrite iter_pos_nat.
  destruct (Pos2Nat.is_succ p) as [n Hn]. rewrite Hn.
  rewrite shr_iter by exact Hm.
  assert (Hk : Z.of_nat (S n) = Zpos p) by (rewrite <- Hn; apply positive_nat_Z).
  now rewrite Hk.
Qed.

Section Rounding.

Local Unset Default Proof Using.

Variables prec emax : Z.
Hypothesis prec_pos : 0 < prec.
Hypothesis prec_lt_emax : prec < emax.

Local Abbreviation emin := (SpecFloat.emin prec emax).
Local Abbreviation fexp := (SpecFloat.fexp prec emax).
Local Abbreviation nonneg := (Format.nonneg prec emax).
Local Abbreviation encode := (Format.encode prec emax).
Local Abbreviation rounded := (Format.rounded prec emax).
Local Abbreviation B2Z := (Format.B2Z prec emax).
Local Abbreviation zround := (Format.zround prec).

Lemma fexp_spec (x : Z) : fexp x = Z.max (x - prec) emin.
Proof. reflexivity. Qed.

Lemma shr_mantissa_loc (m e n : Z) (l : location) :
  0 <= m -> 0 <= n ->
  let '(mrs, e') := shr (shr_record_of_loc m l) e n in
  shr_m mrs = m / 2 ^ n /\ e' = e + n.
Proof.
  intros Hm Hn. unfold shr. destruct n as [|p|p]; try lia.
  - change (2 ^ 0) with 1. rewrite Z.div_1_r.
    destruct l as [|[]]; cbn; split; lia.
  - split; [| reflexivity]. rewrite shr_mantissa.
    + destruct l as [|[]]; reflexivity.
    + destruct l as [|[]]; exact Hm.
Qed.

Lemma round_nearest_even_range (m : Z) (l : location) :
  round_nearest_even m l = m \/ round_nearest_even m l = m + 1.
Proof.
  destruct l as [|[]]; cbn; auto. destruct (Z.even m); auto.
Qed.

Lemma first_shift_range (m e : Z) :
  0 <= m -> e <= fexp (Zdigits2 m + e) ->
  let F := fexp (Zdigits2 m + e) in
  let m1 := m / 2 ^ (F - e) in
  0 <= m1 /\ emin <= F
  /\ (2 ^ (prec - 1) <= m1 < 2 ^ prec \/ (F = emin /\ m1 < 2 ^ (prec - 1))).
Proof.
  intros Hm He F m1. subst F m1. rewrite fexp_spec in *.
  set (d := Zdigits2 m) in *.
  split; [apply Z.div_pos; lia |]. split; [lia |].
  destruct (Z.eq_dec m 0) as [-> | Hnz].
  { right. cbn in d. subst d. rewrite Z.div_0_l by lia.
    split; [| lia].
    change (Zdigits2 0) with 0 in *. lia. }
  assert (Hmpos : 0 < m) by lia.
  pose proof (Zdigits2_bounds m Hmpos) as [Hlo Hhi]. fold d in Hlo, Hhi.
  pose proof (Zdigits2_pos m Hmpos) as Hd. fold d in Hd.
  destruct (Z.le_gt_cases emin (d + e - prec)) as [Hn | Hs].
  - left. rewrite Z.max_l by lia.
    replace (d + e - prec - e) with (d - prec) by lia.
    assert (0 <= d - prec) by lia.
    split.
    + apply Z.div_le_lower_bound; [lia |].
      rewrite <- Z.pow_add_r by lia. replace (d - prec + (prec - 1)) with (d - 1) by lia.
      exact Hlo.
    + apply Z.div_lt_upper_bound; [lia |].
      rewrite <- Z.pow_add_r by lia. replace (d - prec + prec) with d by lia.
      exact Hhi.
  - right. rewrite Z.max_r by lia. split; [reflexivity |].
    apply Z.div_lt_upper_bound; [lia |].
    rewrite <- Z.pow_add_r by lia.
    eapply Z.lt_le_trans; [exact Hhi |].
    apply Z.pow_le_mono_r; lia.
Qed.

Lemma second_shift (m e : Z) :
  rounded m e ->
  let r := shr_fexp prec emax m e loc_Exact in
  (m = 2 ^ prec /\ shr_m (fst r) = 2 ^ (prec - 1) /\ snd r = e + 1)
  \/ (m <> 2 ^ prec /\ shr_m (fst r) = m /\ snd r = e).
Proof.
  intros (Hm & He & Hr). cbn zeta. unfold shr_fexp.
  rewrite fexp_spec.
  destruct (Z.eq_dec m 0) as [-> | Hnz].
  { right. change (Zdigits2 0) with 0.
    assert (Hn : Z.max (0 + e - prec) emin - e <= 0) by lia.
    assert (2 ^ prec <> 0) by (apply Z.pow_nonzero; lia).
    unfold shr. destruct (Z.max (0 + e - prec) emin - e); try lia; cbn; auto. }
  assert (Hmpos : 0 < m) by lia.
  destruct (Z.eq_dec m (2 ^ prec)) as [-> | Hne].
  - left. split; [reflexivity |].
    assert (Hd : Zdigits2 (2 ^ prec) = prec + 1).
    { apply Zdigits2_unique; [lia |].
      replace (prec + 1 - 1) with prec by lia.
      split; [lia |]. apply Z.pow_lt_mono_r; lia. }
    rewrite Hd.
    assert (He1 : Z.max (prec + 1 + e - prec) emin - e = 1).
    { destruct Hr as [_ | [-> Hle]]; [lia |].
      assert (2 ^ (prec - 1) < 2 ^ prec) by (apply Z.pow_lt_mono_r; lia). lia. }
    rewrite He1. cbn [shr shr_record_of_loc SpecFloat.iter_pos fst snd].
    rewrite shr_1_nonneg by lia. cbn [shr_m]. split; [| lia].
    replace prec with (prec - 1 + 1) at 1 by lia.
    rewrite Z.pow_add_r by lia. change (2 ^ 1) with 2.
    now rewrite Z.div_mul by lia.
  - right. split; [exact Hne |].
    assert (Hn : Z.max (Zdigits2 m + e - prec) emin - e <= 0).
    { pose proof (Zdigits2_bounds m Hmpos) as [Hlo Hhi].
      assert (Zdigits2 m <= prec).
      { destruct (Z.le_gt_cases (Zdigits2 m) prec) as [H | H]; [exact H |].
        assert (2 ^ prec <= 2 ^ (Zdigits2 m - 1)) by (apply Z.pow_le_mono_r; lia).
        assert (2 ^ (prec - 1) < 2 ^ prec) by (apply Z.pow_lt_mono_r; lia).
        lia. }
      lia. }
    unfold shr. destruct (Z.max (Zdigits2 m + e - prec) emin - e); try lia;
      cbn; auto.
Qed.

(** What [binary_round_aux] computes for a non-negative mantissa. *)
Lemma binary_round_aux_encode (m e : Z) (l : location) :
  0 <= m -> e <= fexp (Zdigits2 m + e) ->
  exists m2,
    binary_round_aux prec emax false m e l = encode m2 (fexp (Zdigits2 m + e))
    /\ rounded m2 (fexp (Zdigits2 m + e))
    /\ (m2 = m / 2 ^ (fexp (Zdigits2 m + e) - e)
        \/ m2 = m / 2 ^ (fexp (Zdigits2 m + e) - e) + 1)
    /\ (l = loc_Exact -> m2 = Format.rne m (fexp (Zdigits2 m + e) - e)).
Proof.
  intros Hm He.
  pose proof (first_shift_range m e Hm He) as (H1 & HF & Hr1). cbn zeta in *.
  set (F := fexp (Zdigits2 m + e)) in *.
  unfold binary_round_aux, shr_fexp at 1. fold F.
  pose proof (shr_mantissa_loc m e (F - e) l Hm ltac:(lia)) as Hs.
  destruct (shr (shr_record_of_loc m l) e (F - e)) as [mrs e1] eqn:Hshr.
  destruct Hs as [Hm1 He1]. replace (e + (F - e)) with F in He1 by lia. subst e1.
  set (m2 := round_nearest_even (shr_m mrs) (loc_of_shr_record mrs)).
  assert (Hm2 : m2 = m / 2 ^ (F - e) \/ m2 = m / 2 ^ (F - e) + 1).
  { subst m2. rewrite <- Hm1. apply round_nearest_even_range. }
  assert (Hrd : rounded m2 F).
  { unfold Format.rounded. split; [lia |]. split; [exact HF |].
    destruct Hr1 as [Hn | [Hs Hlt]]; [left | right; split; [exact Hs |]]; lia. }
  exists m2. split; [| split; [exact Hrd | split; [exact Hm2 |]]].
  - pose proof (second_shift m2 F Hrd) as H2.
    destruct (shr_fexp prec emax m2 F loc_Exact) as [mrs2 e2].
    cbn [fst snd] in H2. unfold Format.encode.
    destruct H2 as [(Heq & Hsm & He2) | (Hne & Hsm & He2)]; rewrite Hsm, He2.
    + rewrite Heq. 
      assert (Hp : 0 < 2 ^ prec) by lia.
      assert (Hp1 : 0 < 2 ^ (prec - 1)) by (apply Z.pow_pos_nonneg; lia).
      destruct (2 ^ prec =? 0) eqn:E0; [apply Z.eqb_eq in E0; lia |].
      rewrite Z.eqb_refl.
      destruct (2 ^ (prec - 1)) as [|q|q] eqn:Eq; try lia. reflexivity.
    + destruct (m2 =? 0) eqn:E0.
      * apply Z.eqb_eq in E0. rewrite E0. reflexivity.
      * apply Z.eqb_neq in E0.
        destruct (m2 =? 2 ^ prec) eqn:E1; [apply Z.eqb_eq in E1; contradiction |].
        destruct Hrd as (Hge & _).
        destruct m2 as [|q|q]; try lia. reflexivity.
  - intros ->. subst m2.
    unfold shr in Hshr. destruct (F - e) as [|p|p] eqn:En; try lia.
    + injection Hshr as <-. cbn. now rewrite rne_0.
    + injection Hshr as <-. cbn [shr_record_of_loc].
      apply (shr_exact m p Hm).
Qed.

Lemma emin_lt_emax : emin < emax - prec.
Proof. unfold SpecFloat.emin. lia. Qed.

Lemma bounded_spec (m : positive) (e : Z) :
  bounded prec emax m e = true <->
  emin <= e <= emax - prec
  /\ Zpos m < 2 ^ prec
  /\ (e = emin \/ 2 ^ (prec - 1) <= Zpos m).
Proof.
  unfold bounded, canonical_mantissa. rewrite fexp_spec.
  rewrite andb_true_iff, Z.eqb_eq, Z.leb_le.
  pose proof (digits2_pos_bounds m) as [Hlo Hhi].
  set (d := Zpos (digits2_pos m)) in *.
  assert (Hd : 0 < d) by (subst d; lia).
  split.
  - intros [Hc He]. split; [lia |].
    assert (Hdp : d <= prec) by lia.
    split.
    + eapply Z.lt_le_trans; [exact Hhi |]. apply Z.pow_le_mono_r; lia.
    + destruct (Z.eq_dec e emin) as [-> | Hne]; [now left | right].
      assert (d = prec) by lia. subst d. now rewrite <- H.
  - intros ([He1 He2] & Hm & Hn). split; [| exact He2].
    assert (Hdp : d <= prec).
    { destruct (Z.le_gt_cases d prec) as [H | H]; [exact H |].
      assert (2 ^ prec <= 2 ^ (d - 1)) by (apply Z.pow_le_mono_r; lia). lia. }
    destruct Hn as [-> | Hn]; [lia |].
    assert (d = prec).
    { destruct (Z.le_gt_cases prec d) as [H | H]; [lia |].
      assert (2 ^ d <= 2 ^ (prec - 1)) by (apply Z.pow_le_mono_r; lia). lia. }
    lia.
Qed.

Lemma nonneg_encode (m e : Z) : rounded m e -> nonneg (encode m e) = true.
Proof.
  intros (Hm & He & Hr). unfold Format.encode.
  destruct (m =? 0) eqn:E0; [reflexivity |]. apply Z.eqb_neq in E0.
  assert (Hp1 : 0 < 2 ^ (prec - 1)) by (apply Z.pow_pos_nonneg; lia).
  assert (Hpp : 2 ^ (prec - 1) < 2 ^ prec) by (apply Z.pow_lt_mono_r; lia).
  destruct (m =? 2 ^ prec) eqn:E1.
  - destruct (e + 1 <=? emax - prec) eqn:E2; [| reflexivity].
    apply Z.leb_le in E2. cbn [Format.nonneg negb andb]. apply bounded_spec.
    rewrite Z2Pos.id by lia. lia.
  - apply Z.eqb_neq in E1.
    destruct (e <=? emax - prec) eqn:E2; [| reflexivity].
    apply Z.leb_le in E2. cbn [Format.nonneg negb andb]. apply bounded_spec.
    rewrite Z2Pos.id by lia. lia.
Qed.

Lemma B2Z_encode (m e : Z) :
  rounded m e ->
  B2Z (encode m e) = Z.min (m * 2 ^ (e - emin)) (2 ^ (emax - emin)).
Proof.
  intros (Hm & He & Hr). unfold Format.encode.
  pose proof emin_lt_emax as Hee.
  assert (Hp1 : 0 < 2 ^ (prec - 1)) by (apply Z.pow_pos_nonneg; lia).
  assert (Hpp : 2 ^ prec = 2 * 2 ^ (prec - 1)).
  { replace prec with (prec - 1 + 1) at 1 by lia.
    rewrite Z.pow_add_r by lia. change (2 ^ 1) with 2. lia. }
  assert (Hsplit : forall a b, 0 <= a -> 0 <= b -> 2 ^ (a + b) = 2 ^ a * 2 ^ b)
    by (intros; apply Z.pow_add_r; lia).
  destruct (m =? 0) eqn:E0.
  { apply Z.eqb_eq in E0. subst m. cbn [Format.B2Z].
    rewrite Z.mul_0_l, Z.min_l; [reflexivity |]. apply Z.pow_nonneg. lia. }
  apply Z.eqb_neq in E0.
  assert (Hpe : 0 < 2 ^ (e - emin)) by (apply Z.pow_pos_nonneg; lia).
  destruct (m =? 2 ^ prec) eqn:E1.
  - apply Z.eqb_eq in E1. subst m.
    destruct (e + 1 <=? emax - prec) eqn:E2.
    + apply Z.leb_le in E2. cbn [Format.B2Z]. rewrite Z2Pos.id by lia.
      replace (e + 1 - emin) with (1 + (e - emin)) by lia.
      rewrite (Hsplit 1 (e - emin)) by lia. change (2 ^ 1) with 2.
      rewrite Z.min_l; [lia |].
      replace (emax - emin) with (prec + (e - emin) + (emax - prec - e)) by lia.
      rewrite (Hsplit (prec + (e - emin))), (Hsplit prec) by lia.
      assert (0 < 2 ^ (emax - prec - e)) by (apply Z.pow_pos_nonneg; lia).
      nia.
    + apply Z.leb_gt in E2. cbn [Format.B2Z].
      rewrite Z.min_r; [reflexivity |].
      rewrite <- Hsplit by lia. apply Z.pow_le_mono_r; lia.
  - apply Z.eqb_neq in E1.
    destruct (e <=? emax - prec) eqn:E2.
    + apply Z.leb_le in E2. cbn [Format.B2Z]. rewrite Z2Pos.id by lia.
      rewrite Z.min_l; [reflexivity |].
      replace (emax - emin) with (prec + (e - emin) + (emax - prec - e)) by lia.
      rewrite (Hsplit (prec + (e - emin))), (Hsplit prec) by lia.
      assert (HQ : 0 < 2 ^ (emax - prec - e)) by (apply Z.pow_pos_nonneg; lia).
      assert (Hlt : m < 2 ^ prec) by lia.
      assert (H1 : m * 2 ^ (e - emin) <= 2 ^ prec * 2 ^ (e - emin))
        by (apply Z.mul_le_mono_nonneg_r; lia).
      assert (H2 : 2 ^ prec * 2 ^ (e - emin) * 1
                   <= 2 ^ prec * 2 ^ (e - emin) * 2 ^ (emax - prec - e)).
      { apply Z.mul_le_mono_nonneg_l; [| lia].
        apply Z.mul_nonneg_nonneg; lia. }
      lia.
    + apply Z.leb_gt in E2. cbn [Format.B2Z].
      rewrite Z.min_r; [reflexivity |].
      destruct Hr as [Hn | [-> _]]; [| lia].
      replace (emax - emin) with ((prec - 1) + (emax - prec + 1 - emin)) by lia.
      rewrite (Hsplit (prec - 1)) by lia.
      assert (2 ^ (emax - prec + 1 - emin) <= 2 ^ (e - emin))
        by (apply Z.pow_le_mono_r; lia).
      nia.
Qed.


Lemma B2Z_finite_bounds (m : positive) (e : Z) :
  bounded prec emax m e = true ->
  0 < Zpos m * 2 ^ (e - emin) < 2 ^ (emax - emin).
Proof.
  intros Hb. apply bounded_spec in Hb. destruct Hb as ([He1 He2] & Hm & _).
  assert (Hpe : 0 < 2 ^ (e - emin)) by (apply Z.pow_pos_nonneg; lia).
  split; [lia |].
  replace (emax - emin) with (prec + (e - emin) + (emax - prec - e)) by lia.
  rewrite !Z.pow_add_r by lia.
  assert (HQ : 0 < 2 ^ (emax - prec - e)) by (apply Z.pow_pos_nonneg; lia).
  assert (H1 : Zpos m * 2 ^ (e - emin) < 2 ^ prec * 2 ^ (e - emin))
    by (apply Z.mul_lt_mono_pos_r; lia).
  assert (H2 : 2 ^ prec * 2 ^ (e - emin) * 1
               <= 2 ^ prec * 2 ^ (e - emin) * 2 ^ (emax - prec - e)).
  { apply Z.mul_le_mono_nonneg_l; [| lia]. apply Z.mul_nonneg_nonneg; lia. }
  lia.
Qed.

Lemma canonical_lt (m1 m2 : positive) (e1 e2 : Z) :
  bounded prec emax m1 e1 = true -> bounded prec emax m2 e2 = true ->
  e1 < e2 ->
  Zpos m1 * 2 ^ (e1 - emin) < Zpos m2 * 2 ^ (e2 - emin).
Proof.
  intros H1 H2 Hlt. apply bounded_spec in H1, H2.
  destruct H1 as ([Ha1 Ha2] & Hm1 & _), H2 as ([Hb1 Hb2] & _ & [-> | Hn2]);
    [lia |].
  replace (e2 - emin) with ((e2 - e1 - 1) + 1 + (e1 - emin)) by lia.
  rewrite !Z.pow_add_r by lia. change (2 ^ 1) with 2.
  assert (HP : 0 < 2 ^ (e1 - emin)) by (apply Z.pow_pos_nonneg; lia).
  assert (HQ : 0 < 2 ^ (e2 - e1 - 1)) by (apply Z.pow_pos_nonneg; lia).
  assert (Hpp : 2 ^ prec = 2 * 2 ^ (prec - 1)).
  { replace prec with (prec - 1 + 1) at 1 by lia.
    rewrite Z.pow_add_r by lia. change (2 ^ 1) with 2. lia. }
  assert (Hx : Zpos m1 * 2 ^ (e1 - emin) < 2 * 2 ^ (prec - 1) * 2 ^ (e1 - emin))
    by (apply Z.mul_lt_mono_pos_r; lia).
  assert (Hy : 2 ^ (prec - 1) * (1 * 2 * 2 ^ (e1 - emin))
               <= Zpos m2 * (2 ^ (e2 - e1 - 1) * 2 * 2 ^ (e1 - emin))).
  { apply Z.mul_le_mono_nonneg; try lia.
    apply Z.mul_le_mono_nonneg_r; [lia |].
    apply Z.mul_le_mono_nonneg_r; lia. }
  lia.
Qed.

(** Comparison of non-negative floats is comparison of their values. *)
Lemma SFleb_B2Z (x y : spec_float) :
  nonneg x = true -> nonneg y = true ->
  SFleb x y = (B2Z x <=? B2Z y).
Proof.
  intros Hx Hy.
  assert (HT : 0 < 2 ^ (emax - emin)).
  { apply Z.pow_pos_nonneg; [lia |]. pose proof emin_lt_emax. lia. }
  destruct x as [sx | [|] | | [|] mx ex], y as [sy | [|] | | [|] my ey];
    try discriminate; cbn [Format.nonneg negb andb] in Hx, Hy;
    unfold SFleb; cbn [SFcompare Format.B2Z];
    try pose proof (B2Z_finite_bounds _ _ Hx) as Bx;
    try pose proof (B2Z_finite_bounds _ _ Hy) as By;
    try (symmetry; first [ apply Z.leb_le; lia | apply Z.leb_gt; lia ]).
  destruct (Z.compare_spec ex ey) as [-> | Hlt | Hgt].
  - rewrite Pos.compare_cont_spec. cbn [Pos.switch_Eq].
    change (Pos.compare mx my) with (Z.compare (Zpos mx) (Zpos my)).
    assert (HP : 0 < 2 ^ (ey - emin)).
    { apply Z.pow_pos_nonneg; [lia |].
      apply bounded_spec in Hy. lia. }
    destruct (Z.compare_spec (Zpos mx) (Zpos my)) as [Heq | Hl | Hg]; symmetry.
    + apply Z.leb_le. rewrite Heq. lia.
    + apply Z.leb_le. apply Z.mul_le_mono_nonneg_r; lia.
    + apply Z.leb_gt. apply Z.mul_lt_mono_pos_r; lia.
  - symmetry. apply Z.leb_le.
    pose proof (canonical_lt mx my ex ey Hx Hy Hlt). lia.
  - symmetry. apply Z.leb_gt.
    apply (canonical_lt my mx ey ex); assumption.
Qed.

Lemma rne_bounds (a k : Z) :
  a / 2 ^ k <= Format.rne a k <= a / 2 ^ k + 1.
Proof.
  unfold Format.rne. cbn zeta. destruct (_ ?= _); [destruct (Z.even _) | |]; lia.
Qed.

Lemma rne_mono (a b k : Z) : 0 <= k -> a <= b -> Format.rne a k <= Format.rne b k.
Proof.
  intros Hk Hab.
  assert (HP : 0 < 2 ^ k) by (apply Z.pow_pos_nonneg; lia).
  pose proof (Z.div_le_mono a b (2 ^ k) HP Hab) as Hq.
  destruct (Z.eq_dec (a / 2 ^ k) (b / 2 ^ k)) as [Heq | Hne].
  - unfold Format.rne. cbn zeta. rewrite <- Heq.
    pose proof (Z.div_mod a (2 ^ k) ltac:(lia)) as Ha.
    pose proof (Z.div_mod b (2 ^ k) ltac:(lia)) as Hb.
    rewrite <- Heq in Hb.
    assert (Hr : a mod 2 ^ k <= b mod 2 ^ k) by lia.
    destruct (Z.compare_spec (2 * (a mod 2 ^ k)) (2 ^ k));
      destruct (Z.compare_spec (2 * (b mod 2 ^ k)) (2 ^ k));
      destruct (Z.even (a / 2 ^ k)); lia.
  - pose proof (rne_bounds a k). pose proof (rne_bounds b k). lia.
Qed.

Lemma Zdigits2_mono (a b : Z) : 0 <= a <= b -> Zdigits2 a <= Zdigits2 b.
Proof.
  intros [Ha Hab].
  destruct (Z.eq_dec a 0) as [-> | Hnz]; [apply Zdigits2_nonneg |].
  pose proof (Zdigits2_bounds a ltac:(lia)) as [Hlo _].
  pose proof (Zdigits2_bounds b ltac:(lia)) as [_ Hhi].
  destruct (Z.le_gt_cases (Zdigits2 a) (Zdigits2 b)) as [H | H]; [exact H |].
  assert (2 ^ Zdigits2 b <= 2 ^ (Zdigits2 a - 1))
    by (apply Z.pow_le_mono_r; lia).
  lia.
Qed.

Lemma zround_mono (a b : Z) : 0 <= a <= b -> zround a <= zround b.
Proof.
  intros [Ha Hab]. unfold Format.zround. cbn zeta.
  pose proof (Zdigits2_mono a b (conj Ha Hab)) as Hd.
  set (ka := Z.max (Zdigits2 a - prec) 0).
  set (kb := Z.max (Zdigits2 b - prec) 0).
  assert (Hka : 0 <= ka) by (subst ka; lia).
  assert (Hkb : 0 <= kb) by (subst kb; lia).
  assert (HPa : 0 < 2 ^ ka) by (apply Z.pow_pos_nonneg; lia).
  assert (HPb : 0 < 2 ^ kb) by (apply Z.pow_pos_nonneg; lia).
  destruct (Z.eq_dec ka kb) as [Heq | Hne].
  - rewrite Heq. apply Z.mul_le_mono_nonneg_r; [lia |].
    apply rne_mono; lia.
  - assert (Hlt : ka < kb) by (subst ka kb; lia).
    assert (Hb0 : 0 < b).
    { destruct (Z.eq_dec b 0) as [-> | H]; [| lia].
      change (Zdigits2 0) with 0 in kb. subst kb. lia. }
    assert (Hkb' : kb = Zdigits2 b - prec) by (subst kb; lia).
    (* the upper bound on the left *)
    assert (Hup : Format.rne a ka * 2 ^ ka <= 2 ^ prec * 2 ^ ka).
    { apply Z.mul_le_mono_nonneg_r; [lia |].
      pose proof (rne_bounds a ka) as [_ Hr].
      assert (a / 2 ^ ka < 2 ^ prec); [| lia].
      apply Z.div_lt_upper_bound; [lia |].
      rewrite <- Z.pow_add_r by lia.
      destruct (Z.eq_dec a 0) as [-> | Hnz];
        [apply Z.pow_pos_nonneg; lia |].
      pose proof (Zdigits2_bounds a ltac:(lia)) as [_ Hhi].
      eapply Z.lt_le_trans; [exact Hhi |].
      apply Z.pow_le_mono_r; subst ka; lia. }
    (* the lower bound on the right *)
    assert (Hlow : 2 ^ (prec - 1) * 2 ^ kb <= Format.rne b kb * 2 ^ kb).
    { apply Z.mul_le_mono_nonneg_r; [lia |].
      pose proof (rne_bounds b kb) as [Hr _].
      assert (2 ^ (prec - 1) <= b / 2 ^ kb); [| lia].
      apply Z.div_le_lower_bound; [lia |].
      rewrite <- Z.pow_add_r by lia.
      pose proof (Zdigits2_bounds b Hb0) as [Hlo _].
      replace (kb + (prec - 1)) with (Zdigits2 b - 1) by lia. exact Hlo. }
    assert (Hmid : 2 ^ prec * 2 ^ ka <= 2 ^ (prec - 1) * 2 ^ kb).
    { rewrite <- !Z.pow_add_r by lia. apply Z.pow_le_mono_r; lia. }
    lia.
Qed.


Lemma pos_iter_xO (m d : positive) :
  Zpos (Pos.iter xO m d) = Zpos m * 2 ^ Zpos d.
Proof.
  induction d as [|d IH] using Pos.peano_ind.
  - cbn [Pos.iter]. rewrite Pos2Z.inj_xO. change (2 ^ 1) with 2. lia.
  - rewrite Pos.iter_succ, Pos2Z.inj_xO, IH, Pos2Z.inj_succ.
    unfold Z.succ. rewrite Z.pow_add_r by lia. change (2 ^ 1) with 2. lia.
Qed.

Lemma shl_align_spec (mx : positive) (ex e' : Z) :
  snd (shl_align mx ex e') = Z.min ex e'
  /\ Zpos (fst (shl_align mx ex e')) = Zpos mx * 2 ^ (ex - Z.min ex e').
Proof.
  unfold shl_align. destruct (e' - ex) as [|d|d] eqn:Hd; cbn [fst snd].
  - rewrite Z.min_l by lia. rewrite Z.sub_diag. change (2 ^ 0) with 1. lia.
  - rewrite Z.min_l by lia. rewrite Z.sub_diag. change (2 ^ 0) with 1. lia.
  - rewrite Z.min_r by lia. split; [reflexivity |].
    rewrite pos_iter_xO. f_equal. f_equal. lia.
Qed.

Lemma Zdigits2_shift (m a : Z) :
  0 < m -> 0 <= a -> Zdigits2 (m * 2 ^ a) = Zdigits2 m + a.
Proof.
  intros Hm Ha.
  assert (HP : 0 < 2 ^ a) by (apply Z.pow_pos_nonneg; lia).
  pose proof (Zdigits2_bounds m Hm) as [Hlo Hhi].
  pose proof (Zdigits2_pos m Hm) as Hd.
  apply Zdigits2_unique; [lia |].
  replace (Zdigits2 m + a - 1) with (Zdigits2 m - 1 + a) by lia.
  rewrite !Z.pow_add_r by lia. split.
  - apply Z.mul_le_mono_nonneg_r; lia.
  - apply Z.mul_lt_mono_pos_r; lia.
Qed.

Lemma rne_exact (x k : Z) : 0 <= k -> Format.rne (x * 2 ^ k) k = x.
Proof.
  intros Hk. unfold Format.rne. cbn zeta.
  assert (HP : 0 < 2 ^ k) by (apply Z.pow_pos_nonneg; lia).
  rewrite Z.div_mul, Z.mod_mul by lia.
  destruct (Z.compare_spec (2 * 0) (2 ^ k)); lia.
Qed.

Lemma rne_scale (m n a : Z) :
  0 <= n -> 0 <= a -> Format.rne (m * 2 ^ a) (n + a) = Format.rne m n.
Proof.
  intros Hn Ha. unfold Format.rne. cbn zeta.
  assert (HPa : 0 < 2 ^ a) by (apply Z.pow_pos_nonneg; lia).
  assert (HPn : 0 < 2 ^ n) by (apply Z.pow_pos_nonneg; lia).
  rewrite Z.pow_add_r by lia.
  rewrite Z.div_mul_cancel_r by lia.
  rewrite Z.mul_mod_distr_r by lia.
  replace (2 * (m mod 2 ^ n * 2 ^ a)) with (2 * (m mod 2 ^ n) * 2 ^ a) by lia.
  rewrite <- (Zmult_compare_compat_r (2 * (m mod 2 ^ n)) (2 ^ n) (2 ^ a))
    by lia.
  reflexivity.
Qed.

(** A value that fits the precision is its own rounding. *)
Lemma zround_exact (m a : Z) :
  0 < m -> 0 <= a -> Zdigits2 m <= prec ->
  zround (m * 2 ^ a) = m * 2 ^ a.
Proof.
  intros Hm Ha Hd. unfold Format.zround. cbn zeta.
  rewrite Zdigits2_shift by lia.
  set (k := Z.max (Zdigits2 m + a - prec) 0).
  assert (Hk : 0 <= k <= a) by (subst k; lia).
  replace (m * 2 ^ a) with (m * 2 ^ (a - k) * 2 ^ k) at 1.
  - rewrite rne_exact by lia. rewrite <- Z.mul_assoc, <- Z.pow_add_r by lia.
    f_equal. f_equal. lia.
  - rewrite <- Z.mul_assoc, <- Z.pow_add_r by lia. f_equal. f_equal. lia.
Qed.

Lemma zround_bounded (m : positive) (e : Z) :
  bounded prec emax m e = true ->
  zround (Zpos m * 2 ^ (e - emin)) = Zpos m * 2 ^ (e - emin).
Proof.
  intros Hb. apply bounded_spec in Hb. destruct Hb as ([He _] & Hm & _).
  apply zround_exact; [lia | lia |].
  destruct (Z.le_gt_cases (Zdigits2 (Zpos m)) prec) as [H | H]; [exact H |].
  pose proof (Zdigits2_bounds (Zpos m) ltac:(lia)) as [Hlo _].
  assert (2 ^ prec <= 2 ^ (Zdigits2 (Zpos m) - 1))
    by (apply Z.pow_le_mono_r; lia).
  lia.
Qed.

(** [binary_round] rounds the value it is given. *)
Lemma binary_round_spec (M : positive) (ez : Z) :
  emin <= ez ->
  nonneg (binary_round prec emax false M ez) = true
  /\ B2Z (binary_round prec emax false M ez)
     = Z.min (zround (Zpos M * 2 ^ (ez - emin))) (2 ^ (emax - emin)).
Proof.
  intros Hez. unfold binary_round.
  pose proof (shl_align_spec M ez (fexp (Zpos (digits2_pos M) + ez)))
    as [He' HM'].
  destruct (shl_align M ez (fexp (Zpos (digits2_pos M) + ez))) as [M' e'].
  cbn [fst snd] in He', HM'.
  change (Zpos (digits2_pos M)) with (Zdigits2 (Zpos M)) in *.
  set (F := fexp (Zdigits2 (Zpos M) + ez)) in *.
  assert (HF : emin <= F) by (subst F; rewrite fexp_spec; lia).
  assert (Hd : Zdigits2 (Zpos M') + e' = Zdigits2 (Zpos M) + ez).
  { rewrite HM', Zdigits2_shift by lia. lia. }
  assert (Hpre : e' <= fexp (Zdigits2 (Zpos M') + e')).
  { rewrite Hd. fold F. lia. }
  destruct (binary_round_aux_encode (Zpos M') e' loc_Exact ltac:(lia) Hpre)
    as (m2 & Henc & Hrd & _ & Hrne).
  rewrite Hd in Henc, Hrd, Hrne. fold F in Henc, Hrd, Hrne.
  rewrite Henc. split; [apply nonneg_encode; exact Hrd |].
  rewrite B2Z_encode by exact Hrd. f_equal.
  rewrite (Hrne eq_refl). unfold Format.zround. cbn zeta.
  rewrite Zdigits2_shift by lia.
  assert (Hk : Z.max (Zdigits2 (Zpos M) + (ez - emin) - prec) 0 = F - emin).
  { subst F. rewrite fexp_spec. lia. }
  rewrite Hk. f_equal.
  assert (HN : Zpos M * 2 ^ (ez - emin) = Zpos M' * 2 ^ (e' - emin)).
  { rewrite HM', <- Z.mul_assoc, <- Z.pow_add_r by lia. f_equal. f_equal. lia. }
  rewrite HN.
  replace (F - emin) with ((F - e') + (e' - emin)) by lia.
  symmetry. apply rne_scale; lia.
Qed.

Lemma zround_top (N : Z) :
  2 ^ (emax - emin) <= N -> 2 ^ (emax - emin) <= zround N.
Proof.
  intros HN. pose proof emin_lt_emax as Hee.
  assert (HT : 0 < 2 ^ (emax - emin)) by (apply Z.pow_pos_nonneg; lia).
  rewrite <- (Z.mul_1_l (2 ^ (emax - emin))) at 1.
  rewrite <- (zround_exact 1 (emax - emin)); [| lia | lia | cbn; lia].
  apply zround_mono. lia.
Qed.

(** Addition of non-negative floats: the rounding of the exact sum,
    saturating at infinity. *)
Lemma SFadd_spec (x y : spec_float) :
  nonneg x = true -> nonneg y = true ->
  nonneg (SFadd prec emax x y) = true
  /\ B2Z (SFadd prec emax x y)
     = Z.min (zround (B2Z x + B2Z y)) (2 ^ (emax - emin)).
Proof.
  intros Hx Hy. pose proof emin_lt_emax as Hee.
  assert (HT : 0 < 2 ^ (emax - emin)) by (apply Z.pow_pos_nonneg; lia).
  assert (Hz0 : zround 0 = 0).
  { unfold Format.zround. cbn zeta. change (Zdigits2 0) with 0.
    rewrite Z.max_r by lia. now rewrite rne_0. }
  destruct x as [sx | [|] | | [|] mx ex], y as [sy | [|] | | [|] my ey];
    try discriminate; cbn [Format.nonneg negb andb] in Hx, Hy.
  - (* zero, zero *)
    split; [destruct sx, sy; reflexivity |].
    replace (B2Z (SFadd prec emax (S754_zero sx) (S754_zero sy))) with 0
      by (destruct sx, sy; reflexivity).
    cbn [Format.B2Z]. rewrite Z.add_0_l, Hz0. lia.
  - (* zero, infinity *)
    split; [reflexivity |]. cbn [SFadd Format.B2Z]. rewrite Z.add_0_l.
    pose proof (zround_top _ (Z.le_refl _)). lia.
  - (* zero, finite *)
    split; [exact Hy |]. cbn [SFadd Format.B2Z]. rewrite Z.add_0_l.
    rewrite zround_bounded by exact Hy.
    pose proof (B2Z_finite_bounds my ey Hy). lia.
  - (* infinity, zero *)
    split; [reflexivity |]. cbn [SFadd Format.B2Z]. rewrite Z.add_0_r.
    pose proof (zround_top _ (Z.le_refl _)). lia.
  - (* infinity, infinity *)
    split; [reflexivity |]. cbn [SFadd Format.B2Z].
    pose proof (zround_top (2 ^ (emax - emin) + 2 ^ (emax - emin)) ltac:(lia)).
    lia.
  - (* infinity, finite *)
    split; [reflexivity |]. cbn [SFadd Format.B2Z].
    pose proof (B2Z_finite_bounds my ey Hy).
    pose proof (zround_top (2 ^ (emax - emin) + Zpos my * 2 ^ (ey - emin))
                  ltac:(lia)).
    lia.
  - (* finite, zero *)
    split; [exact Hx |]. cbn [SFadd Format.B2Z]. rewrite Z.add_0_r.
    rewrite zround_bounded by exact Hx.
    pose proof (B2Z_finite_bounds mx ex Hx). lia.
  - (* finite, infinity *)
    split; [reflexivity |]. cbn [SFadd Format.B2Z].
    pose proof (B2Z_finite_bounds mx ex Hx).
    pose proof (zround_top (Zpos mx * 2 ^ (ex - emin) + 2 ^ (emax - emin))
                  ltac:(lia)).
    lia.
  - (* finite, finite *)
    cbn [SFadd cond_Zopp Format.B2Z].
    pose proof (shl_align_spec mx ex (Z.min ex ey)) as [_ Hmx].
    pose proof (shl_align_spec my ey (Z.min ex ey)) as [_ Hmy].
    rewrite (Z.min_r ex (Z.min ex ey)) in Hmx by lia.
    rewrite (Z.min_r ey (Z.min ex ey)) in Hmy by lia.
    set (ez := Z.min ex ey) in *.
    assert (Hbx := Hx). assert (Hby := Hy).
    apply bounded_spec in Hbx, Hby.
    assert (Hez : emin <= ez) by (subst ez; lia).
    rewrite <- Pos2Z.inj_add. unfold binary_normalize.
    destruct (binary_round_spec
                (fst (shl_align mx ex ez) + fst (shl_align my ey ez)) ez Hez)
      as [Hnn HB].
    split; [exact Hnn |]. rewrite HB. f_equal. f_equal.
    rewrite Pos2Z.inj_add, Hmx, Hmy, Z.mul_add_distr_r.
    rewrite <- !Z.mul_assoc, <- !Z.pow_add_r by lia.
    f_equal; f_equal; f_equal; lia.
Qed.

(** Adding the same non-negative float on both sides keeps the order. *)
Lemma SFadd_mono (d t c : spec_float) :
  nonneg d = true -> nonneg t = true -> nonneg c = true ->
  SFleb d t = true ->
  SFleb (SFadd prec emax d c) (SFadd prec emax t c) = true.
Proof.
  intros Hd Ht Hc Hle.
  destruct (SFadd_spec d c Hd Hc) as [Hn1 HB1].
  destruct (SFadd_spec t c Ht Hc) as [Hn2 HB2].
  rewrite SFleb_B2Z in Hle |- * by assumption.
  apply Z.leb_le in Hle. apply Z.leb_le. rewrite HB1, HB2.
  assert (H0 : forall x, nonneg x = true -> 0 <= B2Z x).
  { intros [s | [|] | | [|] m e] _; cbn [Format.B2Z]; try lia;
      try (apply Z.pow_nonneg; lia). }
  pose proof (H0 d Hd). pose proof (H0 c Hc).
  apply Z.min_le_compat_r. apply zround_mono. lia.
Qed.

Lemma fexp_mono (a b : Z) : a <= b -> fexp a <= fexp b.
Proof. intros H. rewrite !fexp_spec. lia. Qed.

Lemma emin_nonpos : emin <= 0.
Proof. unfold SpecFloat.emin. lia. Qed.

Lemma Zdigits2_lower (m d : Z) : 0 <= d -> 2 ^ d <= m -> d + 1 <= Zdigits2 m.
Proof.
  intros Hd Hm.
  assert (0 < 2 ^ d) by (apply Z.pow_pos_nonneg; lia).
  pose proof (Zdigits2_bounds m ltac:(lia)) as [_ Hhi].
  destruct (Z.le_gt_cases (d + 1) (Zdigits2 m)) as [H' | H']; [exact H' |].
  assert (2 ^ Zdigits2 m <= 2 ^ d).
  { apply Z.pow_le_mono_r; lia. }
  lia.
Qed.

Lemma Zdigits2_upper (m d : Z) : 0 <= m < 2 ^ d -> 0 <= d -> Zdigits2 m <= d.
Proof.
  intros [H0 Hm] Hd.
  destruct (Z.eq_dec m 0) as [-> | Hnz]; [cbn; lia |].
  pose proof (Zdigits2_bounds m ltac:(lia)) as [Hlo _].
  destruct (Z.le_gt_cases (Zdigits2 m) d) as [H' | H']; [exact H' |].
  assert (2 ^ d <= 2 ^ (Zdigits2 m - 1)) by (apply Z.pow_le_mono_r; lia).
  lia.
Qed.

(** Multiplication of non-negative finite floats. *)
Lemma SFmul_nonneg (x y : spec_float) :
  nonneg x = true -> nonneg y = true ->
  Format.is_finite x = true -> Format.is_finite y = true ->
  nonneg (SFmul prec emax x y) = true.
Proof.
  intros Hx Hy Fx Fy.
  destruct x as [sx | [|] | | [|] mx ex], y as [sy | [|] | | [|] my ey];
    try discriminate; cbn [Format.nonneg negb andb] in Hx, Hy; try reflexivity.
  cbn [SFmul xorb].
  assert (Hbx := Hx). assert (Hby := Hy). apply bounded_spec in Hbx, Hby.
  destruct Hbx as ([Hx1 Hx2] & Hmx & Hnx), Hby as ([Hy1 Hy2] & Hmy & Hny).
  pose proof emin_nonpos as He0.
  assert (Hp1 : 0 < 2 ^ (prec - 1)) by (apply Z.pow_pos_nonneg; lia).
  assert (Hpre : ex + ey <= fexp (Zdigits2 (Zpos (mx * my)) + (ex + ey))).
  { rewrite fexp_spec.
    destruct Hnx as [-> | Hnx].
    - destruct Hny as [-> | Hny]; [lia |].
      assert (prec <= Zdigits2 (Zpos (mx * my))); [| lia].
      replace prec with (prec - 1 + 1) by lia.
      apply Zdigits2_lower; [lia |]. rewrite Pos2Z.inj_mul. nia.
    - assert (prec <= Zdigits2 (Zpos (mx * my))); [| lia].
      replace prec with (prec - 1 + 1) by lia.
      apply Zdigits2_lower; [lia |]. rewrite Pos2Z.inj_mul. nia. }
  destruct (binary_round_aux_encode (Zpos (mx * my)) (ex + ey) loc_Exact
              ltac:(lia) Hpre) as (m2 & -> & Hrd & _).
  apply nonneg_encode. exact Hrd.
Qed.

Lemma shift_case (m s : Z) :
  0 <= s ->
  match s with
  | Zpos _ => Z.shiftl m s
  | Z0 => m
  | Zneg _ => 0
  end = m * 2 ^ s.
Proof.
  intros Hs. destruct s as [|p|p]; [| | lia].
  - change (2 ^ 0) with 1. lia.
  - apply Z.shiftl_mul_pow2. lia.
Qed.

(** The quotient of two positive integers, as the division of the format
    prepares it for rounding. *)
Lemma SFdiv_core_pre (m1 m2 : positive) :
  let '(q, e, l) := SFdiv_core_binary prec emax (Zpos m1) 0 (Zpos m2) 0 in
  0 <= q
  /\ e <= fexp (Zdigits2 q + e)
  /\ Zdigits2 q + e <= Zdigits2 (Zpos m1).
Proof.
  pose (d1 := Zdigits2 (Zpos m1)). pose (d2 := Zdigits2 (Zpos m2)).
  pose (e' := Z.min (fexp (d1 - d2)) 0).
  pose (s := - e').
  pose (m' := match s with Zpos _ => Z.shiftl (Zpos m1) s | Z0 => Zpos m1
              | Zneg _ => 0 end).
  change (SFdiv_core_binary prec emax (Zpos m1) 0 (Zpos m2) 0)
    with (let '(q, r) := Z.div_eucl m' (Zpos m2) in
          (q, e', new_location (Zpos m2) r)).
  fold d1.
  assert (Hs : 0 <= s) by (subst s e'; lia).
  assert (Hm' : m' = Zpos m1 * 2 ^ s) by (apply shift_case; exact Hs).
  pose proof (Z.div_eucl_eq m' (Zpos m2) ltac:(lia)) as Heu.
  pose proof (Z.mod_pos_bound m' (Zpos m2) ltac:(lia)) as Hmod.
  unfold Z.div, Z.modulo in *.
  destruct (Z.div_eucl m' (Zpos m2)) as [q r].
  assert (HPs : 0 < 2 ^ s) by (apply Z.pow_pos_nonneg; lia).
  pose proof (Zdigits2_bounds (Zpos m1) ltac:(lia)) as [H1lo H1hi].
  pose proof (Zdigits2_bounds (Zpos m2) ltac:(lia)) as [H2lo H2hi].
  fold d1 in H1lo, H1hi. fold d2 in H2lo, H2hi.
  assert (Hd1 : 0 < d1) by (subst d1; cbn; lia).
  assert (Hd2 : 0 < d2) by (subst d2; cbn; lia).
  assert (Hq : 0 <= q) by nia.
  split; [exact Hq |]. split.
  - rewrite fexp_spec.
    destruct (Z.le_gt_cases e' emin) as [Hle | Hgt]; [lia |].
    assert (He' : e' <= d1 - d2 - prec).
    { subst e'. rewrite fexp_spec in Hgt |- *. lia. }
    assert (Hdq : d1 + s - d2 <= Zdigits2 q); [| subst s; lia].
    replace (d1 + s - d2) with (d1 - 1 + s - d2 + 1) by lia.
    apply Zdigits2_lower; [subst s; lia |].
    assert (Hpow : 2 ^ (d1 - 1 + s - d2) * 2 ^ d2 = 2 ^ (d1 - 1) * 2 ^ s).
    { rewrite <- !Z.pow_add_r by (subst s; lia). f_equal. lia. }
    assert (HP : 0 < 2 ^ (d1 - 1 + s - d2))
      by (apply Z.pow_pos_nonneg; subst s; lia).
    assert (Hlow : 2 ^ (d1 - 1) * 2 ^ s <= m')
      by (rewrite Hm'; apply Z.mul_le_mono_nonneg_r; lia).
    (* q * m2 + r >= X * 2^d2 > X * m2 with r < m2 gives q >= X *)
    destruct (Z.le_gt_cases (2 ^ (d1 - 1 + s - d2)) q) as [Hok | Hbad];
      [exact Hok |].
    exfalso.
    assert (Zpos m2 * q + r < Zpos m2 * 2 ^ (d1 - 1 + s - d2)) by nia.
    assert (Zpos m2 * 2 ^ (d1 - 1 + s - d2)
            <= 2 ^ d2 * 2 ^ (d1 - 1 + s - d2))
      by (apply Z.mul_le_mono_nonneg_r; lia).
    lia.
  - destruct (Z.le_gt_cases 0 (d1 + s - d2 + 1)) as [Hnn | Hneg].
    + assert (Hdq : Zdigits2 q <= d1 + s - d2 + 1); [| subst s; lia].
      apply Zdigits2_upper; [| exact Hnn]. split; [exact Hq |].
      (* q <= m' / m2 < 2^(d1+s) / 2^(d2-1) *)
      assert (Hup : m' < 2 ^ d1 * 2 ^ s)
        by (rewrite Hm'; apply Z.mul_lt_mono_pos_r; lia).
      assert (Hpow : 2 ^ (d1 + s - d2 + 1) * 2 ^ (d2 - 1) = 2 ^ d1 * 2 ^ s).
      { rewrite <- !Z.pow_add_r by lia. f_equal. lia. }
      assert (HP : 0 < 2 ^ (d2 - 1)) by (apply Z.pow_pos_nonneg; lia).
      destruct (Z.lt_ge_cases q (2 ^ (d1 + s - d2 + 1))) as [Hok | Hbad];
        [exact Hok |].
      exfalso.
      assert (2 ^ (d1 + s - d2 + 1) * 2 ^ (d2 - 1) <= q * Zpos m2).
      { apply Z.mul_le_mono_nonneg; lia. }
      nia.
    + (* the quotient of a number below the divisor is zero *)
      assert (Hq0 : q = 0).
      { assert (m' < Zpos m2); [| nia].
        rewrite Hm'.
        assert (Zpos m1 * 2 ^ s < 2 ^ d1 * 2 ^ s)
          by (apply Z.mul_lt_mono_pos_r; lia).
        assert (2 ^ d1 * 2 ^ s <= 2 ^ (d2 - 1)).
        { rewrite <- Z.pow_add_r by lia. apply Z.pow_le_mono_r; lia. }
        lia. }
      rewrite Hq0. change (Zdigits2 0) with 0. subst e'. lia.
Qed.


Lemma encode_finite (m e : Z) :
  e < emax - prec -> Format.is_finite (encode m e) = true.
Proof.
  intros He. unfold Format.encode.
  destruct (m =? 0); [reflexivity |].
  destruct (m =? 2 ^ prec).
  - destruct (e + 1 <=? emax - prec) eqn:E; [reflexivity |].
    apply Z.leb_gt in E. lia.
  - destruct (e <=? emax - prec) eqn:E; [reflexivity |].
    apply Z.leb_gt in E. lia.
Qed.

Lemma binary_round_finite (M : positive) (ez : Z) :
  emin <= ez -> Zdigits2 (Zpos M) + ez < emax ->
  Format.is_finite (binary_round prec emax false M ez) = true.
Proof.
  intros Hez Hd. unfold binary_round.
  pose proof (shl_align_spec M ez (fexp (Zpos (digits2_pos M) + ez)))
    as [He' HM'].
  destruct (shl_align M ez (fexp (Zpos (digits2_pos M) + ez))) as [M' e'].
  cbn [fst snd] in He', HM'.
  change (Zpos (digits2_pos M)) with (Zdigits2 (Zpos M)) in *.
  set (F := fexp (Zdigits2 (Zpos M) + ez)) in *.
  assert (HF : emin <= F) by (subst F; rewrite fexp_spec; lia).
  assert (Hd' : Zdigits2 (Zpos M') + e' = Zdigits2 (Zpos M) + ez).
  { rewrite HM', Zdigits2_shift by lia. lia. }
  assert (Hpre : e' <= fexp (Zdigits2 (Zpos M') + e')).
  { rewrite Hd'. fold F. lia. }
  destruct (binary_round_aux_encode (Zpos M') e' loc_Exact ltac:(lia) Hpre)
    as (m2 & -> & _).
  apply encode_finite. rewrite Hd'. fold F.
  pose proof emin_lt_emax. subst F. rewrite fexp_spec. lia.
Qed.

(** The sign only decides the sign of the result. *)
Lemma binary_round_aux_opp (m e : Z) (l : location) :
  binary_round_aux prec emax true m e l
  = SFopp (binary_round_aux prec emax false m e l).
Proof.
  unfold binary_round_aux.
  destruct (shr_fexp prec emax m e l) as [mrs e1].
  destruct (shr_fexp prec emax _ e1 loc_Exact) as [mrs2 e2].
  destruct (shr_m mrs2); [reflexivity | | reflexivity].
  destruct (e2 <=? emax - prec); reflexivity.
Qed.

Lemma binary_round_opp (M : positive) (e : Z) :
  binary_round prec emax true M e = SFopp (binary_round prec emax false M e).
Proof.
  unfold binary_round.
  destruct (shl_align M e _) as [mz ez]. apply binary_round_aux_opp.
Qed.

(** The division of two positive integers gives a non-negative float, and
    a finite one when the dividend is small enough. *)
Lemma SFdiv_int_nonneg (p b : positive) :
  nonneg (SFdiv prec emax (S754_finite false p 0) (S754_finite false b 0))
    = true
  /\ (Zdigits2 (Zpos p) < emax ->
      Format.is_finite
        (SFdiv prec emax (S754_finite false p 0) (S754_finite false b 0))
      = true).
Proof.
  cbn [SFdiv xorb].
  pose proof (SFdiv_core_pre p b) as Hcore.
  destruct (SFdiv_core_binary prec emax (Zpos p) 0 (Zpos b) 0) as [[q e] l].
  destruct Hcore as (Hq & Hpre & Hd).
  destruct (binary_round_aux_encode q e l Hq Hpre) as (m2 & -> & Hrd & _).
  split; [apply nonneg_encode; exact Hrd |].
  intros Hp. apply encode_finite.
  pose proof emin_lt_emax.
  pose proof (fexp_mono _ _ Hd) as Hf. rewrite (fexp_spec (Zdigits2 (Zpos p))) in Hf.
  lia.
Qed.

End Rounding.

(** ** The cost calculator *)

Lemma calculate_cost_unknown (self : BillingConfig) (model_name : string)
    (input_tokens output_tokens : Z) :
  models self !! model_name = None ->
  calculate_cost self model_name input_tokens output_tokens = Return Float.zero.
Proof.
  intros Hm. unfold calculate_cost, get_model_config. now rewrite Hm.
Qed.

Lemma calculate_cost_known (self : BillingConfig) (model_name : string)
    (mc : ModelConfig) (input_tokens output_tokens : Z) :
  models self !! model_name = Some mc ->
  calculate_cost self model_name input_tokens output_tokens =
    let? a := Float.int_truediv input_tokens 1000 in
    let? b := Float.int_truediv output_tokens 1000 in
    Return (Float.add (Float.mul a (input_token_price mc))
                      (Float.mul b (output_token_price mc))).
Proof.
  intros Hm. unfold calculate_cost, get_model_config. rewrite Hm.
  destruct (Float.int_truediv input_tokens 1000); reflexivity.
Qed.

(** ** Rollover *)

Lemma date_gt_irrefl (d : datetime) : date_gt d d = false.
Proof.
  unfold date_gt. rewrite !Z.ltb_irrefl, !Z.eqb_refl. reflexivity.
Qed.

Lemma check_daily_reset_twice (now : datetime) (self : BillingConfig) :
  exec (check_daily_reset now) (exec (check_daily_reset now) self)
  = exec (check_daily_reset now) self.
Proof.
  unfold exec, check_daily_reset, bind, gets, modify, ret. cbn.
  destruct (date_gt now (last_daily_reset (usage_stats self))) eqn:Hroll; cbn.
  - rewrite date_gt_irrefl. reflexivity.
  - rewrite Hroll. reflexivity.
Qed.

Lemma check_monthly_reset_twice (now : datetime) (self : BillingConfig) :
  exec (check_monthly_reset now) (exec (check_monthly_reset now) self)
  = exec (check_monthly_reset now) self.
Proof.
  unfold exec, check_monthly_reset, bind, gets, modify, ret. cbn.
  destruct ((year (last_monthly_reset (usage_stats self)) <? year now)
            || (month (last_monthly_reset (usage_stats self)) <? month now))
    eqn:Hroll; cbn.
  - rewrite !Z.ltb_irrefl. reflexivity.
  - rewrite Hroll. reflexivity.
Qed.

(** C9. Applying [check_daily_reset] (maybe_roll_daily) twice at the same
    clock reading gives the state that one application gives, and likewise
    for [check_monthly_reset] (maybe_roll_monthly), for every configuration
    and every reading. *)
Theorem rollover_idempotent (self : BillingConfig) (now : datetime) :
  exec (check_daily_reset now) (exec (check_daily_reset now) self)
    = exec (check_daily_reset now) self
  /\ exec (check_monthly_reset now) (exec (check_monthly_reset now) self)
    = exec (check_monthly_reset now) self.
Proof.
  split.
  - apply check_daily_reset_twice.
  - apply check_monthly_reset_twice.
Qed.

(** ** The admission check reads only *)

(** C7. For every configuration, model id and estimated token count,
    [check_limits_before_request] leaves the configuration it was called
    on as it found it, whatever it returns or raises: the usage ledger, with
    all lifetime, daily and monthly counters and the three reset timestamps,
    is the same before and after the call. *)
Theorem check_limits_before_request_frame (self : BillingConfig)
    (model_name : string) (estimated_tokens : Z) :
  exec (check_limits_before_request model_name estimated_tokens) self = self
  /\ usage_stats
       (exec (check_limits_before_request model_name estimated_tokens) self)
     = usage_stats self.
Proof.
  assert (H : exec (check_limits_before_request model_name estimated_tokens)
                   self = self).
  { unfold exec, check_limits_before_request, bind, gets, reads, ret.
    cbn [fst snd].
    destruct (negb (is_enabled self)); [reflexivity |].
    destruct (estimate_cost self model_name estimated_tokens 0); reflexivity. }
  split; [exact H | now rewrite H].
Qed.

(** ** Threshold evaluation *)

(** [check_thresholds] is the concatenation of what its four blocks
    contribute, in the order the method runs them. *)
Lemma check_thresholds_signals (self : BillingConfig) :
  check_thresholds self =
    let th := thresholds self in
    let us := usage_stats self in
    let? dt := token_signal "daily_token_exceeded" "daily_token_warning"
                 (daily_tokens us) (daily_token_limit th)
                 (warning_threshold th) in
    let? mt := token_signal "monthly_token_exceeded" "monthly_token_warning"
                 (monthly_tokens us) (monthly_token_limit th)
                 (warning_threshold th) in
    Return (cost_signal "daily_cost_exceeded" "daily_cost_warning"
              (daily_cost us) (daily_cost_limit th) (warning_threshold th)
            ++ dt
            ++ cost_signal "monthly_cost_exceeded" "monthly_cost_warning"
                 (monthly_cost us) (monthly_cost_limit th)
                 (warning_threshold th)
            ++ mt).
Proof.
  unfold check_thresholds, cost_signal, token_signal, daily_tokens,
    monthly_tokens.
  destruct (thresholds self) as [dcl mcl dtl mtl w]; cbn [daily_cost_limit
    monthly_cost_limit daily_token_limit monthly_token_limit warning_threshold].
  destruct (usage_stats self); cbn [daily_cost monthly_cost daily_input_tokens
    daily_output_tokens monthly_input_tokens monthly_output_tokens].
  destruct dcl as [dl|], mcl as [ml|], dtl as [dt|], mtl as [mt|];
    repeat match goal with
           | |- context [Float.truthy ?x] => destruct (Float.truthy x)
           | |- context [Float.ge ?x ?y] => destruct (Float.ge x y)
           | |- context [negb (?x =? 0)] => destruct (negb (x =? 0))
           | |- context [?x <=? ?y] => destruct (x <=? y)
           | |- context [int_times_float ?x ?y] =>
               destruct (int_times_float x y)
           | |- context [Float.int_ge ?x ?y] => destruct (Float.int_ge x y)
           | |- _ => progress cbn [obind]
           end; reflexivity.
Qed.

Lemma dict_keys_app {V : Type} (a b : list (string * V)) :
  dict_keys (a ++ b) = dict_keys a ++ dict_keys b.
Proof. apply map_app. Qed.

Lemma in_cost_signal (k ke kw : string) (c : float) (L : option float)
    (w : float) :
  In k (dict_keys (cost_signal ke kw c L w))
  <-> (k = ke /\ cost_exceeded c L) \/ (k = kw /\ cost_warned c L w).
Proof.
  unfold cost_signal, cost_exceeded, cost_warned.
  destruct L as [l|].
  2:{ cbn. split; [intros [] |].
      intros [[_ (l' & Hl & _)] | [_ (l' & Hl & _)]]; discriminate. }
  destruct (Float.truthy l) eqn:Ht.
  2:{ cbn. split; [intros [] |].
      intros [[_ (l' & Hl & H1 & _)] | [_ (l' & Hl & H1 & _)]];
        injection Hl as <-; congruence. }
  destruct (Float.ge c l) eqn:Hge.
  { cbn. split.
    - intros [<- | []]. left; split; [reflexivity | exists l; auto].
    - intros [[-> _] | [_ (l' & Hl & _ & H2 & _)]]; [now left |].
      injection Hl as <-; congruence. }
  destruct (Float.ge c (Float.mul l w)) eqn:Hw; cbn; split.
  - intros [<- | []]. right; split; [reflexivity | exists l; auto].
  - intros [[_ (l' & Hl & _ & H2)] | [-> _]]; [| now left].
    injection Hl as <-; congruence.
  - intros [].
  - intros [[_ (l' & Hl & _ & H2)] | [_ (l' & Hl & _ & _ & H3)]];
      injection Hl as <-; congruence.
Qed.

Lemma in_token_signal (k ke kw : string) (n : Z) (L : option Z) (w : float)
    (ws : list (string * bool)) :
  token_signal ke kw n L w = Return ws ->
  In k (dict_keys ws)
  <-> (k = ke /\ token_exceeded n L) \/ (k = kw /\ token_warned n L w).
Proof.
  unfold token_signal, token_exceeded, token_warned.
  destruct L as [l|].
  2:{ intros [= <-]. cbn. split; [intros [] |].
      intros [[_ (l' & Hl & _)] | [_ (l' & b & Hl & _)]]; discriminate. }
  destruct (l =? 0) eqn:Hz; cbn [negb].
  { apply Z.eqb_eq in Hz. intros [= <-]. cbn. split; [intros [] |].
    intros [[_ (l' & Hl & H1 & _)] | [_ (l' & b & Hl & H1 & _)]];
      injection Hl as <-; contradiction. }
  apply Z.eqb_neq in Hz.
  destruct (l <=? n) eqn:Hle.
  { apply Z.leb_le in Hle. intros [= <-]. cbn. split.
    - intros [<- | []]. left. split; [reflexivity | exists l; auto].
    - intros [[-> _] | [_ (l' & b & Hl & _ & Hlt & _)]]; [now left |].
      injection Hl as <-. lia. }
  apply Z.leb_gt in Hle.
  destruct (int_times_float l w) as [bound|e] eqn:Hb; cbn [obind];
    [| discriminate].
  destruct (Float.int_ge n bound) eqn:Hge; intros [= <-]; cbn; split.
  - intros [<- | []]. right. split; [reflexivity | exists l, bound; auto].
  - intros [[_ (l' & Hl & _ & Hle')] | [-> _]]; [| now left].
    injection Hl as <-. lia.
  - intros [].
  - intros [[_ (l' & Hl & _ & Hle')] | [_ (l' & b & Hl & _ & _ & Hb' & Hge')]];
      injection Hl as <-; [lia | congruence].
Qed.

Lemma token_signal_returns (ke kw : string) (n : Z) (L : option Z) (w : float) :
  (forall l, L = Some l -> exists f, Float.of_int l = Return f) ->
  exists ws, token_signal ke kw n L w = Return ws.
Proof.
  intros Hconv. unfold token_signal.
  destruct L as [l|]; [| eauto].
  destruct (negb (l =? 0)); [| eauto].
  destruct (l <=? n); [eauto |].
  destruct (Hconv l eq_refl) as [f Hf].
  unfold int_times_float. rewrite Hf. cbn [obind].
  destruct (Float.int_ge n _); eauto.
Qed.

Lemma check_thresholds_returns (self : BillingConfig) :
  token_limits_convert (thresholds self) ->
  exists dt mt,
    token_signal "daily_token_exceeded" "daily_token_warning"
      (daily_tokens (usage_stats self)) (daily_token_limit (thresholds self))
      (warning_threshold (thresholds self)) = Return dt
    /\ token_signal "monthly_token_exceeded" "monthly_token_warning"
         (monthly_tokens (usage_stats self))
         (monthly_token_limit (thresholds self))
         (warning_threshold (thresholds self)) = Return mt
    /\ check_thresholds self =
         Return (cost_signal "daily_cost_exceeded" "daily_cost_warning"
                   (daily_cost (usage_stats self))
                   (daily_cost_limit (thresholds self))
                   (warning_threshold (thresholds self))
                 ++ dt
                 ++ cost_signal "monthly_cost_exceeded" "monthly_cost_warning"
                      (monthly_cost (usage_stats self))
                      (monthly_cost_limit (thresholds self))
                      (warning_threshold (thresholds self))
                 ++ mt).
Proof.
  intros Hconv.
  destruct (token_signal_returns "daily_token_exceeded" "daily_token_warning"
              (daily_tokens (usage_stats self))
              (daily_token_limit (thresholds self))
              (warning_threshold (thresholds self))) as [dt Hdt].
  { intros l Hl. apply Hconv. now left. }
  destruct (token_signal_returns "monthly_token_exceeded"
              "monthly_token_warning"
              (monthly_tokens (usage_stats self))
              (monthly_token_limit (thresholds self))
              (warning_threshold (thresholds self))) as [mt Hmt].
  { intros l Hl. apply Hconv. now right. }
  exists dt, mt. split; [exact Hdt | split; [exact Hmt |]].
  rewrite check_thresholds_signals. cbn zeta. rewrite Hdt, Hmt. reflexivity.
Qed.

(** C3, as the code has it.  Provided every configured token limit converts
    to a float, [check_thresholds] returns a dictionary in which, for each of
    the four limits, the exceeded key is present if and only if the limit is
    configured, is not zero and the current value is [>=] it, and the
    warning key is present if and only if the limit is configured, is not
    zero, the current value is below it and is [>=] limit times
    [warning_threshold].  A limit that is [None] or zero therefore gives no
    signal. *)
Theorem check_thresholds_rule (self : BillingConfig) :
  token_limits_convert (thresholds self) ->
  exists ws,
    check_thresholds self = Return ws
    /\ let keys := dict_keys ws in
       let th := thresholds self in
       let us := usage_stats self in
       let w := warning_threshold th in
       (In "daily_cost_exceeded" keys
          <-> cost_exceeded (daily_cost us) (daily_cost_limit th))
       /\ (In "daily_cost_warning" keys
          <-> cost_warned (daily_cost us) (daily_cost_limit th) w)
       /\ (In "monthly_cost_exceeded" keys
          <-> cost_exceeded (monthly_cost us) (monthly_cost_limit th))
       /\ (In "monthly_cost_warning" keys
          <-> cost_warned (monthly_cost us) (monthly_cost_limit th) w)
       /\ (In "daily_token_exceeded" keys
          <-> token_exceeded (daily_tokens us) (daily_token_limit th))
       /\ (In "daily_token_warning" keys
          <-> token_warned (daily_tokens us) (daily_token_limit th) w)
       /\ (In "monthly_token_exceeded" keys
          <-> token_exceeded (monthly_tokens us) (monthly_token_limit th))
       /\ (In "monthly_token_warning" keys
          <-> token_warned (monthly_tokens us) (monthly_token_limit th) w).
Proof.
  intros Hconv.
  destruct (check_thresholds_returns self Hconv) as (dt & mt & Hdt & Hmt & Hws).
  eexists. split; [exact Hws |]. cbn zeta.
  rewrite !dict_keys_app.
  repeat split;
    rewrite !in_app_iff, !in_cost_signal,
      (in_token_signal _ _ _ _ _ _ _ Hdt), (in_token_signal _ _ _ _ _ _ _ Hmt).
  all: try (intros H;
    repeat match type of H with
           | _ \/ _ => destruct H as [H | H]
           end;
    destruct H as [Heq HP]; try discriminate Heq; exact HP).
  all: intros HP; intuition (try discriminate; auto).
Qed.

(** C3, counterexample.  With [daily_token_limit = 0] on a fresh ledger the
    current value [0] is [>=] the configured limit, and no exceeded signal is
    emitted. *)
Lemma check_thresholds_zero_limit_silent :
  daily_token_limit (thresholds zero_token_limit) = Some 0
  /\ 0 <= daily_tokens (usage_stats zero_token_limit)
  /\ check_thresholds zero_token_limit = Return []
  /\ ~ (In "daily_token_exceeded" (dict_keys (@nil (string * bool)))
        <-> 0 <= daily_tokens (usage_stats zero_token_limit)).
Proof.
  split; [reflexivity |]. split; [discriminate |]. split; [reflexivity |].
  intros [_ H]. apply H. discriminate.
Qed.

Lemma default_limits_convert : token_limits_convert default_thresholds.
Proof.
  intros l [H | H]; injection H as <-; eexists; reflexivity.
Defined.

Lemma check_thresholds_rule_witness :
  token_limits_convert (thresholds default_config)
  /\ exists ws,
       check_thresholds default_config = Return ws
       /\ (In "daily_token_exceeded" (dict_keys ws)
           <-> token_exceeded (daily_tokens (usage_stats default_config))
                 (daily_token_limit (thresholds default_config))).
Proof.
  split; [exact default_limits_convert |].
  destruct (check_thresholds_rule default_config default_limits_convert)
    as (ws & Hws & _ & _ & _ & _ & H & _).
  exists ws. split; [exact Hws | exact H].
Defined.

(** ** Admission *)

Lemma check_limits_report (self : BillingConfig) (model_name : string)
    (estimated_tokens : Z) :
  eval (check_limits_before_request model_name estimated_tokens) self =
    if negb (is_enabled self) then Return CheckDisabled
    else
      let? c := estimate_cost self model_name estimated_tokens 0 in
      let ws := denials self c estimated_tokens in
      Return (CheckReport
                (mk_check_report (match ws with [] => true | _ => false end)
                   ws c (daily_cost (usage_stats self))
                   (monthly_cost (usage_stats self)))).
Proof.
  unfold eval, check_limits_before_request, bind, gets, reads, ret.
  cbn [fst snd].
  destruct (negb (is_enabled self)); [reflexivity |].
  destruct (estimate_cost self model_name estimated_tokens 0) as [c|e];
    [| reflexivity].
  cbn [fst snd obind]. unfold denials, cost_denial, token_denial, daily_tokens,
    monthly_tokens, deny.
  destruct (thresholds self) as [dcl mcl dtl mtl w]; cbn [daily_cost_limit
    monthly_cost_limit daily_token_limit monthly_token_limit].
  destruct dcl as [dl|], mcl as [ml|], dtl as [dt|], mtl as [mt|];
    repeat match goal with
           | |- context [Float.truthy ?x] => destruct (Float.truthy x)
           | |- context [Float.gt ?x ?y] => destruct (Float.gt x y)
           | |- context [negb (?x =? 0)] => destruct (negb (x =? 0))
           | |- context [?x <? ?y] => destruct (x <? y)
           end; reflexivity.
Qed.

Lemma cost_denial_cases (ty msg : string) (cur est : float) (L : option float) :
  (cost_denial ty msg cur est L = [] /\ ~ cost_over cur est L)
  \/ (exists w, cost_denial ty msg cur est L = [w] /\ type w = ty
                /\ cost_over cur est L).
Proof.
  unfold cost_denial, cost_over.
  destruct L as [l|].
  2:{ left. split; [reflexivity |]. intros (l' & Hl & _). discriminate. }
  destruct (Float.truthy l) eqn:Ht.
  2:{ left. split; [reflexivity |]. intros (l' & Hl & Ht' & _).
      injection Hl as <-. congruence. }
  cbn zeta. destruct (Float.gt (Float.add cur est) l) eqn:Hgt.
  - right. eexists. split; [reflexivity |]. split; [reflexivity |].
    exists l. auto.
  - left. split; [reflexivity |]. intros (l' & Hl & _ & Hgt').
    injection Hl as <-. congruence.
Qed.

Lemma token_denial_cases (ty msg : string) (cur est : Z) (L : option Z) :
  (token_denial ty msg cur est L = [] /\ ~ token_over cur est L)
  \/ (exists w, token_denial ty msg cur est L = [w] /\ type w = ty
                /\ token_over cur est L).
Proof.
  unfold token_denial, token_over.
  destruct L as [l|].
  2:{ left. split; [reflexivity |]. intros (l' & Hl & _). discriminate. }
  destruct (l =? 0) eqn:Hz; cbn [negb].
  { apply Z.eqb_eq in Hz. left. split; [reflexivity |].
    intros (l' & Hl & Hnz & _). injection Hl as <-. contradiction. }
  apply Z.eqb_neq in Hz. cbn zeta.
  destruct (l <? cur + est) eqn:Hlt.
  - apply Z.ltb_lt in Hlt. right. eexists. split; [reflexivity |].
    split; [reflexivity |]. exists l. auto.
  - apply Z.ltb_ge in Hlt. left. split; [reflexivity |].
    intros (l' & Hl & _ & Hlt'). injection Hl as <-. lia.
Qed.

Lemma denials_nil_iff (self : BillingConfig) (c : float) (e : Z) :
  denials self c e <> []
  <-> cost_over (daily_cost (usage_stats self)) c
        (daily_cost_limit (thresholds self))
      \/ cost_over (monthly_cost (usage_stats self)) c
           (monthly_cost_limit (thresholds self))
      \/ token_over (daily_tokens (usage_stats self)) e
           (daily_token_limit (thresholds self))
      \/ token_over (monthly_tokens (usage_stats self)) e
           (monthly_token_limit (thresholds self)).
Proof.
  unfold denials. cbn zeta.
  destruct (cost_denial_cases "daily_cost_limit"
              "Request would exceed daily cost limit"
              (daily_cost (usage_stats self)) c
              (daily_cost_limit (thresholds self)))
    as [[-> N1] | (w1 & -> & _ & O1)];
  destruct (cost_denial_cases "monthly_cost_limit"
              "Request would exceed monthly cost limit"
              (monthly_cost (usage_stats self)) c
              (monthly_cost_limit (thresholds self)))
    as [[-> N2] | (w2 & -> & _ & O2)];
  destruct (token_denial_cases "daily_token_limit"
              "Request would exceed daily token limit"
              (daily_tokens (usage_stats self)) e
              (daily_token_limit (thresholds self)))
    as [[-> N3] | (w3 & -> & _ & O3)];
  destruct (token_denial_cases "monthly_token_limit"
              "Request would exceed monthly token limit"
              (monthly_tokens (usage_stats self)) e
              (monthly_token_limit (thresholds self)))
    as [[-> N4] | (w4 & -> & _ & O4)];
  cbn [app]; split; intros H; try tauto; try discriminate.
Qed.

(** C2, counterexample.  In scenario B the estimate for 50000 tokens is
    [0.1], the projection [0.9 + 0.1] is exactly the limit [1.0], and the
    check returns [allowed = true] with no entry in its warnings. *)
Lemma check_at_limit_is_allowed :
  estimate_cost scenario_B "m" 50000 0 = Return (Float.decimal 1 10)
  /\ Float.add (Float.decimal 9 10) (Float.decimal 1 10) = Float.decimal 1 1
  /\ eval (check_limits_before_request "m" 50000) scenario_B
     = Return (CheckReport
                 (mk_check_report true [] (Float.decimal 1 10)
                    (Float.decimal 9 10) (Float.decimal 9 10))).
Proof.
  repeat split; vm_compute; reflexivity.
Qed.

(** C2, as the code has it.  An enabled check whose estimate is priced
    returns a report, and denies admission exactly when some projected value
    is strictly greater than its configured non-zero limit; a projection that
    only reaches the limit is admitted.  In particular, with
    [daily_cost_limit = 1.0], [daily_cost = 0.9] and an estimated cost of
    [0.1] the projection is exactly [1.0], the daily cost limit denies
    nothing, and with no other limit configured the check returns
    [allowed = true] with an empty list of warnings. *)
Theorem check_denies_iff_strictly_over (self : BillingConfig)
    (model_name : string) (estimated_tokens : Z) (c : float) :
  is_enabled self = true ->
  estimate_cost self model_name estimated_tokens 0 = Return c ->
  exists r,
    eval (check_limits_before_request model_name estimated_tokens) self
      = Return (CheckReport r)
    /\ (allowed r = false
        <-> cost_over (daily_cost (usage_stats self)) c
              (daily_cost_limit (thresholds self))
            \/ cost_over (monthly_cost (usage_stats self)) c
                 (monthly_cost_limit (thresholds self))
            \/ token_over (daily_tokens (usage_stats self)) estimated_tokens
                 (daily_token_limit (thresholds self))
            \/ token_over (monthly_tokens (usage_stats self)) estimated_tokens
                 (monthly_token_limit (thresholds self)))
    /\ (daily_cost_limit (thresholds self) = Some (Float.decimal 1 1) ->
        daily_cost (usage_stats self) = Float.decimal 9 10 ->
        c = Float.decimal 1 10 ->
        Float.add (daily_cost (usage_stats self)) c = Float.decimal 1 1
        /\ ~ cost_over (daily_cost (usage_stats self)) c
               (daily_cost_limit (thresholds self))
        /\ (monthly_cost_limit (thresholds self) = None ->
            daily_token_limit (thresholds self) = None ->
            monthly_token_limit (thresholds self) = None ->
            allowed r = true /\ warnings r = [])).
Proof.
  intros Hon Hc.
  eexists. rewrite check_limits_report, Hon, Hc. cbn [negb obind].
  split; [reflexivity |]. cbn [allowed warnings].
  split.
  - rewrite <- denials_nil_iff.
    destruct (denials self c estimated_tokens); split; intros H;
      congruence.
  - intros Hl Hd ->.
    assert (Hno : ~ cost_over (daily_cost (usage_stats self))
                      (Float.decimal 1 10)
                      (daily_cost_limit (thresholds self))).
    { rewrite Hl, Hd. intros (l & [= <-] & _ & Hgt). vm_compute in Hgt.
      discriminate. }
    split; [rewrite Hd; vm_compute; reflexivity |].
    split; [exact Hno |].
    intros Hm Hdt Hmt.
    assert (Hnil : denials self (Float.decimal 1 10) estimated_tokens = []).
    { destruct (denials self (Float.decimal 1 10) estimated_tokens) eqn:E;
        [reflexivity |].
      assert (Hne : denials self (Float.decimal 1 10) estimated_tokens <> [])
        by (rewrite E; discriminate).
      apply denials_nil_iff in Hne.
      destruct Hne as [H | [(x & Hx & _) | [(x & Hx & _) | (x & Hx & _)]]];
        [contradiction | congruence | congruence | congruence]. }
    rewrite Hnil. split; reflexivity.
Qed.

Lemma check_denies_iff_strictly_over_witness :
  is_enabled scenario_B = true
  /\ estimate_cost scenario_B "m" 50000 0 = Return (Float.decimal 1 10)
  /\ exists r,
       eval (check_limits_before_request "m" 50000) scenario_B
         = Return (CheckReport r)
       /\ allowed r = true.
Proof.
  split; [reflexivity |]. split; [vm_compute; reflexivity |].
  destruct (check_denies_iff_strictly_over scenario_B "m" 50000
              (Float.decimal 1 10) eq_refl)
    as (r & Hr & _ & H); [vm_compute; reflexivity |].
  exists r. split; [exact Hr |].
  apply H; reflexivity.
Defined.

(** ** A limit of zero *)

(** C10. A limit configured as zero ([0] for a token limit, [0.0] of either
    sign for a cost limit) behaves as the same limit left at [None]: for
    every configuration, [check_thresholds] returns the same dictionary and
    [check_limits_before_request] the same answer, for each of the four
    limits.  With all four limits at zero the configuration behaves as one
    with no limit at all, and threshold evaluation returns the empty
    dictionary. *)
Theorem zero_limit_like_unconfigured (self : BillingConfig)
    (dcl mcl : option float) (dtl mtl : option Z) (w : float) (s s' : bool)
    (model_name : string) (estimated_tokens : Z) :
  same_public_behaviour self
    (mk_ThresholdConfig (Some (S754_zero s)) mcl dtl mtl w)
    (mk_ThresholdConfig None mcl dtl mtl w) model_name estimated_tokens
  /\ same_public_behaviour self
       (mk_ThresholdConfig dcl (Some (S754_zero s)) dtl mtl w)
       (mk_ThresholdConfig dcl None dtl mtl w) model_name estimated_tokens
  /\ same_public_behaviour self
       (mk_ThresholdConfig dcl mcl (Some 0) mtl w)
       (mk_ThresholdConfig dcl mcl None mtl w) model_name estimated_tokens
  /\ same_public_behaviour self
       (mk_ThresholdConfig dcl mcl dtl (Some 0) w)
       (mk_ThresholdConfig dcl mcl dtl None w) model_name estimated_tokens
  /\ same_public_behaviour self
       (mk_ThresholdConfig (Some (S754_zero s)) (Some (S754_zero s'))
                           (Some 0) (Some 0) w)
       (mk_ThresholdConfig None None None None w) model_name estimated_tokens
  /\ check_thresholds
       (with_thresholds
          (mk_ThresholdConfig (Some (S754_zero s)) (Some (S754_zero s'))
                              (Some 0) (Some 0) w) self)
     = Return [].
Proof.
  unfold same_public_behaviour.
  rewrite !check_thresholds_signals, !check_limits_report.
  repeat split.
Qed.

(** ** The dispatcher *)

Lemma exceeded_of_cost_signal (ke kw : string) (c : float) (L : option float)
    (w : float) :
  is_exceeded_key ke = true -> is_exceeded_key kw = false ->
  List.filter is_exceeded_key (dict_keys (cost_signal ke kw c L w))
  = if cost_exceededb c L then [ke] else [].
Proof.
  intros Hke Hkw. unfold cost_signal, cost_exceededb.
  destruct L as [l|]; [| reflexivity].
  destruct (Float.truthy l); [| reflexivity].
  destruct (Float.ge c l); cbn [andb].
  - cbn. now rewrite Hke.
  - destruct (Float.ge c _); cbn; [now rewrite Hkw | reflexivity].
Qed.

Lemma exceeded_of_token_signal (ke kw : string) (n : Z) (L : option Z)
    (w : float) (ws : list (string * bool)) :
  is_exceeded_key ke = true -> is_exceeded_key kw = false ->
  token_signal ke kw n L w = Return ws ->
  List.filter is_exceeded_key (dict_keys ws)
  = if token_exceededb n L then [ke] else [].
Proof.
  intros Hke Hkw. unfold token_signal, token_exceededb.
  destruct L as [l|]; [| now intros [= <-]].
  destruct (negb (l =? 0)); [| now intros [= <-]].
  destruct (l <=? n); cbn [andb].
  - intros [= <-]. cbn. now rewrite Hke.
  - destruct (int_times_float l w); cbn [obind]; [| discriminate].
    destruct (Float.int_ge n _); intros [= <-]; cbn;
      [now rewrite Hkw | reflexivity].
Qed.

Lemma filter_app_keys (a b : list string) :
  List.filter is_exceeded_key (a ++ b)
  = List.filter is_exceeded_key a ++ List.filter is_exceeded_key b.
Proof.
  induction a as [|x a IH]; [reflexivity |].
  cbn. destruct (is_exceeded_key x); cbn; now rewrite IH.
Qed.

(** The exceeded keys of an evaluation, block by block. *)
Lemma exceeded_types_of (self : BillingConfig) (ws : list (string * bool)) :
  check_thresholds self = Return ws ->
  List.filter is_exceeded_key (dict_keys ws)
  = (if cost_exceededb (daily_cost (usage_stats self))
                       (daily_cost_limit (thresholds self))
     then ["daily_cost_exceeded"] else [])
    ++ (if token_exceededb (daily_tokens (usage_stats self))
                           (daily_token_limit (thresholds self))
        then ["daily_token_exceeded"] else [])
    ++ (if cost_exceededb (monthly_cost (usage_stats self))
                          (monthly_cost_limit (thresholds self))
        then ["monthly_cost_exceeded"] else [])
    ++ (if token_exceededb (monthly_tokens (usage_stats self))
                           (monthly_token_limit (thresholds self))
        then ["monthly_token_exceeded"] else []).
Proof.
  rewrite check_thresholds_signals. cbn zeta.
  destruct (token_signal "daily_token_exceeded" _ _ _ _) as [dt|] eqn:Hdt;
    cbn [obind]; [| discriminate].
  destruct (token_signal "monthly_token_exceeded" _ _ _ _) as [mt|] eqn:Hmt;
    cbn [obind]; [| discriminate].
  intros [= <-].
  rewrite !dict_keys_app, !filter_app_keys.
  rewrite !exceeded_of_cost_signal by reflexivity.
  rewrite (exceeded_of_token_signal "daily_token_exceeded"
             "daily_token_warning" _ _ _ _ eq_refl eq_refl Hdt).
  rewrite (exceeded_of_token_signal "monthly_token_exceeded"
             "monthly_token_warning" _ _ _ _ eq_refl eq_refl Hmt).
  reflexivity.
Qed.

Lemma format_int_run (n : Z) (s : BillingConfig) :
  format_int n s = (if int_str_ok n then Return tt else Raise ValueError, s).
Proof. unfold format_int. destruct (int_str_ok n); reflexivity. Qed.

Lemma raised_for_cost (ty : string) (c : float) (lim : option float) :
  raised_for (ThresholdExceededException ty (PyFloat c)
                (from_option PyFloat PyNone lim))
  = ThresholdExceededException ty (PyFloat c) (from_option PyFloat PyNone lim).
Proof. destruct lim; reflexivity. Qed.

(** With the costs of the usage record those of the ledger, the dispatcher
    reports the primary violation when there is one: it raises its
    exception, or [ValueError] when an integer of the message is too long
    to show. *)
Lemma handle_raises_primary (self : BillingConfig) (ws : list (string * bool))
    (info : usage_info) (e : exn) :
  check_thresholds self = Return ws ->
  info_daily_cost info = daily_cost (usage_stats self) ->
  info_monthly_cost info = monthly_cost (usage_stats self) ->
  primary_violation self = Some e ->
  _handle_threshold_warnings ws info self = (Raise (raised_for e), self).
Proof.
  intros Hws Hd Hm. unfold _handle_threshold_warnings, primary_violation.
  fold is_exceeded_key. rewrite (exceeded_types_of self ws Hws). cbn zeta.
  rewrite Hd, Hm.
  destruct (cost_exceededb (daily_cost _) _);
    [intros [= <-]; rewrite raised_for_cost; reflexivity |].
  destruct (token_exceededb (daily_tokens _) _).
  { intros [= <-]. cbn [app String.eqb Ascii.eqb Bool.eqb].
    unfold bind, gets, raised_for, printable, daily_tokens.
    rewrite format_int_run.
    destruct (int_str_ok _); [|reflexivity].
    destruct (daily_token_limit (thresholds self)) as [l|];
      cbn [from_option andb]; [|reflexivity].
    rewrite format_int_run. destruct (int_str_ok l); reflexivity. }
  destruct (cost_exceededb (monthly_cost _) _);
    [intros [= <-]; rewrite raised_for_cost; reflexivity |].
  destruct (token_exceededb (monthly_tokens _) _); [|discriminate].
  intros [= <-]. cbn [app String.eqb Ascii.eqb Bool.eqb].
  unfold bind, gets, raised_for, printable, monthly_tokens.
  rewrite format_int_run.
  destruct (int_str_ok _); [|reflexivity].
  destruct (monthly_token_limit (thresholds self)) as [l|];
    cbn [from_option andb]; [|reflexivity].
  rewrite format_int_run. destruct (int_str_ok l); reflexivity.
Qed.

Lemma cost_exceededb_iff (c : float) (L : option float) :
  cost_exceededb c L = true <-> cost_exceeded c L.
Proof.
  unfold cost_exceededb, cost_exceeded. destruct L as [l|].
  - rewrite andb_true_iff. split.
    + intros [Ht Hge]. exists l. auto.
    + intros (l' & [= <-] & Ht & Hge). auto.
  - split; [discriminate | intros (l' & Hl & _); discriminate].
Qed.

Lemma token_exceededb_iff (n : Z) (L : option Z) :
  token_exceededb n L = true <-> token_exceeded n L.
Proof.
  unfold token_exceededb, token_exceeded. destruct L as [l|].
  - rewrite andb_true_iff, negb_true_iff, Z.eqb_neq, Z.leb_le. split.
    + intros [Hz Hle]. exists l. auto.
    + intros (l' & [= <-] & Hz & Hle). auto.
  - split; [discriminate | intros (l' & Hl & _); discriminate].
Qed.

Lemma ranks_of_cost_signal (ke kw : string) (c : float) (L : option float)
    (w : float) (r : nat) :
  signal_rank ke = r -> signal_rank kw = r ->
  map signal_rank (dict_keys (cost_signal ke kw c L w)) = []
  \/ map signal_rank (dict_keys (cost_signal ke kw c L w)) = [r].
Proof.
  intros <- Hkw. unfold cost_signal.
  destruct L as [l|]; [| now left].
  destruct (Float.truthy l); [| now left].
  destruct (Float.ge c l); [now right |].
  destruct (Float.ge c _); [right; cbn; now rewrite Hkw | now left].
Qed.

Lemma ranks_of_token_signal (ke kw : string) (n : Z) (L : option Z)
    (w : float) (r : nat) (ws : list (string * bool)) :
  signal_rank ke = r -> signal_rank kw = r ->
  token_signal ke kw n L w = Return ws ->
  map signal_rank (dict_keys ws) = []
  \/ map signal_rank (dict_keys ws) = [r].
Proof.
  intros <- Hkw. unfold token_signal.
  destruct L as [l|]; [| intros [= <-]; now left].
  destruct (negb (l =? 0)); [| intros [= <-]; now left].
  destruct (l <=? n); [intros [= <-]; now right |].
  destruct (int_times_float l w); cbn [obind]; [| discriminate].
  destruct (Float.int_ge n _); intros [= <-];
    [right; cbn; now rewrite Hkw | now left].
Qed.

Lemma signal_ranks_sorted (self : BillingConfig) (ws : list (string * bool)) :
  check_thresholds self = Return ws ->
  Sorted lt (map signal_rank (dict_keys ws)).
Proof.
  rewrite check_thresholds_signals. cbn zeta.
  destruct (token_signal "daily_token_exceeded" _ _ _ _) as [dt|] eqn:Hdt;
    cbn [obind]; [| discriminate].
  destruct (token_signal "monthly_token_exceeded" _ _ _ _) as [mt|] eqn:Hmt;
    cbn [obind]; [| discriminate].
  intros [= <-]. rewrite !dict_keys_app, !map_app.
  destruct (ranks_of_cost_signal "daily_cost_exceeded" "daily_cost_warning"
              (daily_cost (usage_stats self))
              (daily_cost_limit (thresholds self))
              (warning_threshold (thresholds self)) 0%nat eq_refl eq_refl)
    as [-> | ->];
  destruct (ranks_of_token_signal "daily_token_exceeded" "daily_token_warning"
              _ _ _ 1%nat _ eq_refl eq_refl Hdt) as [-> | ->];
  destruct (ranks_of_cost_signal "monthly_cost_exceeded"
              "monthly_cost_warning"
              (monthly_cost (usage_stats self))
              (monthly_cost_limit (thresholds self))
              (warning_threshold (thresholds self)) 2%nat eq_refl eq_refl)
    as [-> | ->];
  destruct (ranks_of_token_signal "monthly_token_exceeded"
              "monthly_token_warning" _ _ _ 3%nat _ eq_refl eq_refl Hmt)
    as [-> | ->];
  cbn [app]; repeat constructor.
Qed.

(** C8, counterexample.  After one commit of 1000 + 500 tokens under
    [two_limits], daily tokens and monthly cost are both exceeded: the
    dictionary lists the daily token signal before the monthly cost signal,
    and the exception raised reports daily tokens, not monthly cost. *)
Lemma daily_tokens_reported_before_monthly_cost :
  check_thresholds (exec (track_usage noon "m" 1000 500) two_limits)
    = Return [("daily_token_exceeded", true); ("monthly_cost_exceeded", true)]
  /\ eval (track_usage noon "m" 1000 500) two_limits
     = Raise (ThresholdExceededException "daily_token" (PyInt 1500)
                (PyInt 100)).
Proof.
  split; vm_compute; reflexivity.
Qed.

(** C8, as the code has it.  The keys of the dictionary returned by
    [check_thresholds] come in the order daily cost, daily tokens, monthly
    cost, monthly tokens (daily before monthly, cost before tokens within a
    window), at most one key per limit.  When the dictionary holds exceeded
    keys, the dispatcher reports the first of them in that order: it raises
    the [ThresholdExceededException] of that limit, with its current value
    and its limit, unless one of the two is an integer of more than 4300
    digits, which the message cannot show: the dispatcher then raises
    [ValueError].  With daily tokens and monthly cost both exceeded and
    daily cost not, the limit reported is daily tokens. *)
Theorem signals_daily_before_monthly (self : BillingConfig)
    (ws : list (string * bool)) (info : usage_info) :
  check_thresholds self = Return ws ->
  info_daily_cost info = daily_cost (usage_stats self) ->
  info_monthly_cost info = monthly_cost (usage_stats self) ->
  Sorted lt (map signal_rank (dict_keys ws))
  /\ (forall k rest,
        List.filter is_exceeded_key (dict_keys ws) = k :: rest ->
        exists cur lim,
          primary_violation self
          = Some (ThresholdExceededException (threshold_type_of k) cur lim)
          /\ _handle_threshold_warnings ws info self
             = (Raise (if printable cur && printable lim
                       then ThresholdExceededException (threshold_type_of k)
                              cur lim
                       else ValueError),
                self))
  /\ (token_exceeded (daily_tokens (usage_stats self))
        (daily_token_limit (thresholds self)) ->
      cost_exceeded (monthly_cost (usage_stats self))
        (monthly_cost_limit (thresholds self)) ->
      ~ cost_exceeded (daily_cost (usage_stats self))
          (daily_cost_limit (thresholds self)) ->
      exists lim,
        daily_token_limit (thresholds self) = Some lim
        /\ _handle_threshold_warnings ws info self
           = (Raise (if int_str_ok (daily_tokens (usage_stats self))
                        && int_str_ok lim
                     then ThresholdExceededException "daily_token"
                            (PyInt (daily_tokens (usage_stats self)))
                            (PyInt lim)
                     else ValueError),
              self)).
Proof.
  intros Hws Hd Hm.
  split; [exact (signal_ranks_sorted self ws Hws) |].
  split.
  - intros k rest. rewrite (exceeded_types_of self ws Hws).
    pose proof (handle_raises_primary self ws info) as Hraise.
    unfold primary_violation in *. cbn zeta in *.
    specialize (fun e => Hraise e Hws Hd Hm).
    destruct (cost_exceededb (daily_cost _) _).
    { intros [= <- _]. eexists _, _. split; [reflexivity|].
      rewrite (Hraise _ eq_refl). reflexivity. }
    destruct (token_exceededb (daily_tokens _) _).
    { intros [= <- _]. eexists _, _. split; [reflexivity|].
      rewrite (Hraise _ eq_refl). reflexivity. }
    destruct (cost_exceededb (monthly_cost _) _).
    { intros [= <- _]. eexists _, _. split; [reflexivity|].
      rewrite (Hraise _ eq_refl). reflexivity. }
    destruct (token_exceededb (monthly_tokens _) _).
    { intros [= <- _]. eexists _, _. split; [reflexivity|].
      rewrite (Hraise _ eq_refl). reflexivity. }
    discriminate.
  - intros Hdt _ Hdc.
    pose proof Hdt as (lim & Hlim & _).
    apply token_exceededb_iff in Hdt. rewrite <- cost_exceededb_iff in Hdc.
    exists lim. split; [exact Hlim|].
    rewrite (handle_raises_primary self ws info
               (ThresholdExceededException "daily_token"
                  (PyInt (daily_tokens (usage_stats self))) (PyInt lim))
               Hws Hd Hm); [reflexivity|].
    unfold primary_violation. cbn zeta.
    destruct (cost_exceededb (daily_cost _) _); [congruence |].
    rewrite Hdt, Hlim. reflexivity.
Qed.

Lemma signals_daily_before_monthly_witness :
  let self := exec (track_usage noon "m" 1000 500) two_limits in
  let ws := [("daily_token_exceeded", true); ("monthly_cost_exceeded", true)] in
  let info :=
    mk_usage_info "m" 1000 500 (Float.decimal 4 1000) (Float.decimal 4 1000)
                  (Float.decimal 4 1000) (Float.decimal 4 1000) ws noon in
  check_thresholds self = Return ws
  /\ info_daily_cost info = daily_cost (usage_stats self)
  /\ info_monthly_cost info = monthly_cost (usage_stats self)
  /\ _handle_threshold_warnings ws info self
     = (Raise (ThresholdExceededException "daily_token" (PyInt 1500)
                 (PyInt 100)), self).
Proof.
  intros self ws info.
  assert (Hws : check_thresholds self = Return ws) by (vm_compute; reflexivity).
  assert (Hd : info_daily_cost info = daily_cost (usage_stats self))
    by (vm_compute; reflexivity).
  assert (Hm : info_monthly_cost info = monthly_cost (usage_stats self))
    by (vm_compute; reflexivity).
  split; [exact Hws |]. split; [exact Hd |]. split; [exact Hm |].
  destruct (signals_daily_before_monthly self ws info Hws Hd Hm)
    as (_ & Hfirst & _).
  destruct (Hfirst "daily_token_exceeded" ["monthly_cost_exceeded"])
    as (cur & lim & P & H).
  - vm_compute. reflexivity.
  - assert (P' : primary_violation self
                 = Some (ThresholdExceededException "daily_token" (PyInt 1500)
                           (PyInt 100)))
      by (vm_compute; reflexivity).
    rewrite P' in P. injection P as <- <-. rewrite H.
    vm_compute. reflexivity.
Defined.

(** ** Commit *)

Lemma check_daily_reset_returns (now : datetime) (self : BillingConfig) :
  check_daily_reset now self = (Return tt, exec (check_daily_reset now) self).
Proof.
  unfold exec, check_daily_reset, bind, gets, modify, ret. cbn.
  destruct (date_gt now _); reflexivity.
Qed.

Lemma check_monthly_reset_returns (now : datetime) (self : BillingConfig) :
  check_monthly_reset now self
  = (Return tt, exec (check_monthly_reset now) self).
Proof.
  unfold exec, check_monthly_reset, bind, gets, modify, ret. cbn.
  destruct (_ || _); reflexivity.
Qed.

Lemma update_usage_commits (model_name : string) (i o : Z)
    (self self' : BillingConfig) (c : float) :
  update_usage model_name i o self = (Return c, self') ->
  calculate_cost self model_name i o = Return c
  /\ self' = set_usage_stats (add_usage i o c (usage_stats self)) self.
Proof.
  unfold update_usage, bind, reads, modify, ret.
  destruct (calculate_cost self model_name i o) as [c'|e]; cbn.
  - intros [= <- <-]. auto.
  - discriminate.
Qed.

(** [track_usage] once the commit has happened: what remains is threshold
    evaluation and the dispatcher, on the committed configuration. *)
Lemma track_usage_committed (now : datetime) (model_name : string) (i o : Z)
    (self self' : BillingConfig) (c : float) :
  is_enabled self = true ->
  gate_passes self model_name ->
  update_usage model_name i o (rolled now self) = (Return c, self') ->
  track_usage now model_name i o self =
    match check_thresholds self' with
    | Raise e => (Raise e, self')
    | Return ws =>
        let info :=
          mk_usage_info model_name i o c
            (total_cost (usage_stats self')) (daily_cost (usage_stats self'))
            (monthly_cost (usage_stats self')) ws now in
        match _handle_threshold_warnings ws info self' with
        | (Return _, s) => (Return (TrackUsage info), s)
        | (Raise e, s) => (Raise e, s)
        end
    end.
Proof.
  intros Hon Hgate Hup. unfold rolled in Hup.
  unfold track_usage. unfold bind at 1. unfold gets at 1. rewrite Hon.
  cbn [negb]. unfold bind at 1. unfold gets at 1.
  unfold bind at 1. unfold gets at 1.
  assert (Hg : (match get_model_config self model_name with
                | Some _ => ret tt
                | None =>
                    if bool_decide (models self <> ∅)
                    then raise (ModelNotConfiguredException model_name)
                    else ret tt
                end) self = (Return tt, self)).
  { unfold get_model_config.
    destruct (models self !! model_name) eqn:Hm; [reflexivity |].
    destruct Hgate as [Hne | Hempty]; [contradiction |].
    rewrite bool_decide_eq_false_2; [reflexivity |]. intros Hn. now apply Hn. }
  unfold bind at 1. rewrite Hg.
  unfold bind at 1. rewrite check_daily_reset_returns.
  unfold bind at 1. rewrite check_monthly_reset_returns.
  unfold bind at 1. rewrite Hup.
  unfold bind at 1. unfold reads at 1.
  destruct (check_thresholds self') as [ws|e]; [| reflexivity].
  unfold bind at 1. unfold gets at 1.
  unfold bind at 1.
  destruct (_handle_threshold_warnings ws _ self') as [[[]|e] s];
    [| reflexivity].
  unfold bind, gets, save_config, ret.
  destruct (auto_save s); reflexivity.
Qed.

Lemma primary_of_violation (self : BillingConfig) :
  (exists e, violation self e) ->
  exists e, primary_violation self = Some e /\ violation self e.
Proof.
  intros [e0 Hv]. unfold primary_violation. cbn zeta.
  destruct (cost_exceededb (daily_cost _) _) eqn:E1.
  { apply cost_exceededb_iff in E1. destruct E1 as (l & Hl & Ht & Hge).
    eexists. split; [reflexivity |]. rewrite Hl. now constructor. }
  destruct (token_exceededb (daily_tokens _) _) eqn:E2.
  { apply token_exceededb_iff in E2. destruct E2 as (l & Hl & Hz & Hle).
    eexists. split; [reflexivity |]. rewrite Hl. now constructor. }
  destruct (cost_exceededb (monthly_cost _) _) eqn:E3.
  { apply cost_exceededb_iff in E3. destruct E3 as (l & Hl & Ht & Hge).
    eexists. split; [reflexivity |]. rewrite Hl. now constructor. }
  destruct (token_exceededb (monthly_tokens _) _) eqn:E4.
  { apply token_exceededb_iff in E4. destruct E4 as (l & Hl & Hz & Hle).
    eexists. split; [reflexivity |]. rewrite Hl. now constructor. }
  exfalso. destruct Hv as [l Hl Ht Hge | l Hl Hz Hle | l Hl Ht Hge | l Hl Hz Hle].
  - assert (cost_exceededb (daily_cost (usage_stats self))
              (daily_cost_limit (thresholds self)) = true)
      by (apply cost_exceededb_iff; exists l; auto). congruence.
  - assert (token_exceededb (daily_tokens (usage_stats self))
              (daily_token_limit (thresholds self)) = true)
      by (apply token_exceededb_iff; exists l; auto). congruence.
  - assert (cost_exceededb (monthly_cost (usage_stats self))
              (monthly_cost_limit (thresholds self)) = true)
      by (apply cost_exceededb_iff; exists l; auto). congruence.
  - assert (token_exceededb (monthly_tokens (usage_stats self))
              (monthly_token_limit (thresholds self)) = true)
      by (apply token_exceededb_iff; exists l; auto). congruence.
Qed.

Lemma int_truediv_raises (a : Z) (b : positive) (e : exn) :
  Float.int_truediv a b = Raise e -> e = OverflowError.
Proof.
  unfold Float.int_truediv, Float.overflow_check.
  destruct a; [discriminate | |];
    destruct (SFdiv _ _ _ _); intros [= <-] || discriminate; reflexivity.
Qed.

Lemma calculate_cost_raises (self : BillingConfig) (model_name : string)
    (i o : Z) (e : exn) :
  calculate_cost self model_name i o = Raise e -> e = OverflowError.
Proof.
  unfold calculate_cost. destruct (get_model_config self model_name);
    [| discriminate].
  destruct (Float.int_truediv i 1000) eqn:Hi; cbn [obind].
  - destruct (Float.int_truediv o 1000) eqn:Ho; cbn [obind]; [discriminate |].
    intros [= <-]. eapply int_truediv_raises, Ho.
  - intros [= <-]. eapply int_truediv_raises, Hi.
Qed.

Lemma check_limits_raises (self : BillingConfig) (model_name : string)
    (estimated_tokens : Z) (e : exn) :
  eval (check_limits_before_request model_name estimated_tokens) self = Raise e ->
  e = OverflowError.
Proof.
  rewrite check_limits_report. destruct (negb (is_enabled self));
    [discriminate |].
  unfold estimate_cost.
  destruct (calculate_cost self model_name estimated_tokens 0) eqn:Hc;
    cbn [obind]; [discriminate |].
  intros [= <-]. eapply calculate_cost_raises, Hc.
Qed.

Lemma rolled_thresholds (now : datetime) (self : BillingConfig) :
  thresholds (rolled now self) = thresholds self.
Proof.
  unfold rolled, exec, check_monthly_reset, check_daily_reset, bind, gets,
    modify, ret. cbn.
  destruct (date_gt now _); cbn; destruct (_ || _); reflexivity.
Qed.

Lemma rolled_totals (now : datetime) (self : BillingConfig) :
  let u := usage_stats self in
  let u' := usage_stats (rolled now self) in
  total_input_tokens u' = total_input_tokens u
  /\ total_output_tokens u' = total_output_tokens u
  /\ total_cost u' = total_cost u
  /\ total_requests u' = total_requests u
  /\ request_count u' = request_count u.
Proof.
  unfold rolled, exec, check_monthly_reset, check_daily_reset, bind, gets,
    modify, ret. cbn.
  destruct (date_gt now _); cbn; destruct (_ || _); cbn; auto.
Qed.

(** C1, counterexample.  Under [daily_cost_limit = 0.0] a commit of
    1000 + 500 tokens leaves a daily cost that is [>=] the configured limit,
    and [track_usage] returns its usage record without raising. *)
Lemma commit_over_zero_limit_returns :
  daily_cost_limit (thresholds zero_cost_limit) = Some Float.zero
  /\ Float.ge
       (daily_cost
          (usage_stats (exec (track_usage noon "m" 1000 500) zero_cost_limit)))
       Float.zero = true
  /\ exists info,
       eval (track_usage noon "m" 1000 500) zero_cost_limit
       = Return (TrackUsage info).
Proof.
  split; [reflexivity |]. split; [vm_compute; reflexivity |].
  eexists. vm_compute. reflexivity.
Qed.

(** An integer too long for the message.  With an empty catalog and a daily
    token limit of 100, a commit of [10 ^ 4300] tokens is counted and the
    call raises [ValueError], the message of the exception showing the
    count; one token less and the exception is the
    [ThresholdExceededException] of the daily token limit. *)
Lemma long_count_raises_ValueError :
  let self := set_models ∅ two_limits in
  eval (track_usage noon "x" (10 ^ 4300) 0) self = Raise ValueError
  /\ total_input_tokens
       (usage_stats (exec (track_usage noon "x" (10 ^ 4300) 0) self))
     = 10 ^ 4300
  /\ eval (track_usage noon "x" (10 ^ 4300 - 1) 0) self
     = Raise (ThresholdExceededException "daily_token"
                (PyInt (10 ^ 4300 - 1)) (PyInt 100)).
Proof.
  intros self. refine (conj _ (conj _ _)); vm_compute; reflexivity.
Qed.

(** C1, as the code has it.  Take a call of [track_usage] on an enabled
    monitor that passes the model gate and whose commit has happened, with
    [self'] the committed configuration, and let every configured token
    limit convert to a float.  If the committed ledger is [>=] some
    configured limit that is not zero, the call raises: a
    [ThresholdExceededException] that carries a met limit's type, its
    current value and its limit, or, when one of these two is an integer of
    more than 4300 digits, which the message of the exception cannot show,
    [ValueError].  Either way the configuration left behind is the
    committed one: its counters hold the increment of this very commit.
    [check_limits_before_request] never raises that exception: it can only
    raise [OverflowError], and when some projection is strictly over its
    limit it returns [allowed = false]. *)
Theorem exceeded_commit_raises_after_counting (now : datetime)
    (model_name : string) (i o : Z) (self self' : BillingConfig) (c : float) :
  is_enabled self = true ->
  gate_passes self model_name ->
  update_usage model_name i o (rolled now self) = (Return c, self') ->
  token_limits_convert (thresholds self) ->
  (exists e, violation self' e) ->
  (exists ty cur lim,
     violation self' (ThresholdExceededException ty cur lim)
     /\ track_usage now model_name i o self
        = (Raise (if printable cur && printable lim
                  then ThresholdExceededException ty cur lim
                  else ValueError),
           self'))
  /\ usage_stats self' = add_usage i o c (usage_stats (rolled now self))
  /\ total_input_tokens (usage_stats self')
     = total_input_tokens (usage_stats self) + i
  /\ total_output_tokens (usage_stats self')
     = total_output_tokens (usage_stats self) + o
  /\ total_cost (usage_stats self')
     = Float.add (total_cost (usage_stats self)) c
  /\ total_requests (usage_stats self')
     = total_requests (usage_stats self) + 1
  /\ (forall m est ty cur lim,
        eval (check_limits_before_request m est) self
        <> Raise (ThresholdExceededException ty cur lim))
  /\ (forall m est est_cost,
        estimate_cost self m est 0 = Return est_cost ->
        some_projection_over self est_cost est ->
        exists r,
          eval (check_limits_before_request m est) self
            = Return (CheckReport r)
          /\ allowed r = false).
Proof.
  intros Hon Hgate Hup Hconv Hviol.
  destruct (update_usage_commits _ _ _ _ _ _ Hup) as [Hc Hself'].
  assert (Hth : thresholds self' = thresholds self).
  { rewrite Hself'. cbn. apply rolled_thresholds. }
  assert (Hus : usage_stats self'
                = add_usage i o c (usage_stats (rolled now self))).
  { rewrite Hself'. reflexivity. }
  destruct (rolled_totals now self) as (T1 & T2 & T3 & T4 & _).
  split; [| split; [exact Hus |]].
  - destruct (primary_of_violation self' Hviol) as (e & Hprim & Hv).
    assert (Hconv' : token_limits_convert (thresholds self'))
      by (now rewrite Hth).
    destruct (check_thresholds_returns self' Hconv')
      as (dt & mt & _ & _ & Hws).
    assert (He : exists ty cur lim, e = ThresholdExceededException ty cur lim)
      by (destruct Hv; eauto).
    destruct He as (ty & cur & lim & ->).
    exists ty, cur, lim. split; [exact Hv |].
    rewrite (track_usage_committed now model_name i o self self' c Hon Hgate Hup).
    rewrite Hws. cbn zeta.
    erewrite (handle_raises_primary self' _ _
                (ThresholdExceededException ty cur lim));
      [reflexivity | exact Hws | reflexivity | reflexivity | exact Hprim].
  - rewrite Hus. cbn. rewrite T1, T2, T3, T4.
    repeat split.
    + intros m est ty cur lim Hr. apply check_limits_raises in Hr.
      discriminate.
    + intros m est est_cost Hest Hover.
      eexists. rewrite check_limits_report, Hon, Hest. cbn [negb obind].
      split; [reflexivity |]. cbn [allowed].
      apply denials_nil_iff in Hover.
      destruct (denials self est_cost est); [contradiction | reflexivity].
Qed.

Lemma exceeded_commit_raises_after_counting_witness :
  let self' := snd (update_usage "m" 1000 500 (rolled noon two_limits)) in
  is_enabled two_limits = true
  /\ gate_passes two_limits "m"
  /\ update_usage "m" 1000 500 (rolled noon two_limits)
     = (Return (Float.decimal 4 1000), self')
  /\ token_limits_convert (thresholds two_limits)
  /\ (exists e, violation self' e)
  /\ exists ty cur lim,
       violation self' (ThresholdExceededException ty cur lim)
       /\ track_usage noon "m" 1000 500 two_limits
          = (Raise (ThresholdExceededException ty cur lim), self').
Proof.
  intros self'.
  assert (Hon : is_enabled two_limits = true) by reflexivity.
  assert (Hgate : gate_passes two_limits "m")
    by (left; vm_compute; discriminate).
  assert (Hup : update_usage "m" 1000 500 (rolled noon two_limits)
                = (Return (Float.decimal 4 1000), self'))
    by (vm_compute; reflexivity).
  assert (Hconv : token_limits_convert (thresholds two_limits)).
  { intros l [H | H]; [| discriminate H].
    injection H as <-. eexists. reflexivity. }
  assert (Hviol : exists e, violation self' e).
  { eexists. apply (violation_daily_token self' 100).
    - reflexivity.
    - discriminate.
    - vm_compute. discriminate. }
  repeat (split; [assumption |]).
  destruct (proj1 (exceeded_commit_raises_after_counting noon "m" 1000 500
                     two_limits self' (Float.decimal 4 1000)
                     Hon Hgate Hup Hconv Hviol))
    as (ty & cur & lim & Hv & Ht).
  exists ty, cur, lim. split; [exact Hv |].
  destruct (printable cur && printable lim); [exact Ht |].
  exfalso.
  assert (E : track_usage noon "m" 1000 500 two_limits
              = (Raise (ThresholdExceededException "daily_token" (PyInt 1500)
                          (PyInt 100)), self'))
    by (vm_compute; reflexivity).
  rewrite E in Ht. discriminate Ht.
Defined.

(** ** Negative unit counts *)

Lemma issue_warnings_state (l : list string) (s : BillingConfig) :
  snd (issue_warnings l s) = s.
Proof.
  induction l as [|k l IH]; [reflexivity |]. cbn.
  repeat match goal with
         | |- context [String.eqb ?a ?b] => destruct (String.eqb a b)
         end; try reflexivity. exact IH.
Qed.

Lemma handle_state (ws : list (string * bool)) (info : usage_info)
    (s : BillingConfig) :
  snd (_handle_threshold_warnings ws info s) = s.
Proof.
  unfold _handle_threshold_warnings.
  destruct (List.filter _ (dict_keys ws)) as [|k rest].
  - unfold bind, ret. cbn. apply issue_warnings_state.
  - repeat match goal with
           | |- context [String.eqb ?a ?b] => destruct (String.eqb a b)
           end; try reflexivity.
    + unfold bind, gets. rewrite format_int_run.
      destruct (int_str_ok _); [|reflexivity].
      destruct (daily_token_limit (thresholds s)) as [l|]; cbn [from_option];
        [|reflexivity].
      rewrite format_int_run. destruct (int_str_ok l); reflexivity.
    + unfold bind, gets. rewrite format_int_run.
      destruct (int_str_ok _); [|reflexivity].
      destruct (monthly_token_limit (thresholds s)) as [l|]; cbn [from_option];
        [|reflexivity].
      rewrite format_int_run. destruct (int_str_ok l); reflexivity.
    + unfold bind, ret. cbn. apply issue_warnings_state.
Qed.

Lemma rolled_models (now : datetime) (self : BillingConfig) :
  models (rolled now self) = models self.
Proof.
  unfold rolled, exec, check_monthly_reset, check_daily_reset, bind, gets,
    modify, ret. cbn.
  destruct (date_gt now _); cbn; destruct (_ || _); reflexivity.
Qed.

Lemma calculate_cost_rolled (now : datetime) (self : BillingConfig)
    (model_name : string) (i o : Z) :
  calculate_cost (rolled now self) model_name i o
  = calculate_cost self model_name i o.
Proof.
  unfold calculate_cost, get_model_config. now rewrite rolled_models.
Qed.

Lemma track_usage_state (now : datetime) (model_name : string) (i o : Z)
    (self : BillingConfig) (c : float) :
  is_enabled self = true ->
  gate_passes self model_name ->
  calculate_cost self model_name i o = Return c ->
  exec (track_usage now model_name i o) self
  = set_usage_stats (add_usage i o c (usage_stats (rolled now self)))
                    (rolled now self).
Proof.
  intros Hon Hgate Hc.
  assert (Hup : update_usage model_name i o (rolled now self)
                = (Return c,
                   set_usage_stats
                     (add_usage i o c (usage_stats (rolled now self)))
                     (rolled now self))).
  { unfold update_usage, bind, reads, modify, ret.
    rewrite calculate_cost_rolled, Hc. reflexivity. }
  unfold exec.
  rewrite (track_usage_committed now model_name i o self _ c Hon Hgate Hup).
  destruct (check_thresholds _) as [ws|e]; [| reflexivity].
  cbn zeta.
  match goal with
  | |- context [_handle_threshold_warnings ?w ?inf ?s] =>
      pose proof (handle_state w inf s) as Hs;
      destruct (_handle_threshold_warnings w inf s) as [[[]|e] s']
  end; cbn in Hs |- *; exact Hs.
Qed.

(** C4, counterexample.  On a fresh ledger without limits,
    [track_usage] with [input_tokens = -5] returns its usage record and
    leaves [total_input_tokens = -5]; [check_limits_before_request] with
    [-5] estimated tokens returns a report. *)
Lemma negative_units_are_accepted :
  (exists info,
     eval (track_usage noon "m" (-5) 0) scenario_A = Return (TrackUsage info))
  /\ total_input_tokens
       (usage_stats (exec (track_usage noon "m" (-5) 0) scenario_A)) = -5
  /\ exists r,
       eval (check_limits_before_request "m" (-5)) scenario_A
       = Return (CheckReport r).
Proof.
  split; [eexists; vm_compute; reflexivity |].
  split; [vm_compute; reflexivity |].
  eexists. vm_compute. reflexivity.
Qed.

(** C4, as the code has it.  The code has no check of the sign of a unit
    count and no [InvalidUsageError].  A call of [track_usage] with a
    negative [input_tokens] or [output_tokens], on an enabled monitor, past
    the model gate and priced at [c], leaves the ledger with the given
    amounts added to the lifetime, daily and monthly counters, whatever
    their sign; with no limit configured it returns its usage record.
    [check_limits_before_request] with a negative estimate priced at [c']
    returns a report carrying [c']. *)
Theorem negative_units_are_counted (now : datetime) (model_name : string)
    (i o : Z) (self : BillingConfig) (c : float) :
  i < 0 \/ o < 0 ->
  is_enabled self = true ->
  gate_passes self model_name ->
  calculate_cost self model_name i o = Return c ->
  usage_stats (exec (track_usage now model_name i o) self)
    = add_usage i o c (usage_stats (rolled now self))
  /\ total_input_tokens (usage_stats (exec (track_usage now model_name i o) self))
     = total_input_tokens (usage_stats self) + i
  /\ total_output_tokens (usage_stats (exec (track_usage now model_name i o) self))
     = total_output_tokens (usage_stats self) + o
  /\ (daily_cost_limit (thresholds self) = None ->
      monthly_cost_limit (thresholds self) = None ->
      daily_token_limit (thresholds self) = None ->
      monthly_token_limit (thresholds self) = None ->
      exists info,
        eval (track_usage now model_name i o) self = Return (TrackUsage info))
  /\ (forall c',
        estimate_cost self model_name i 0 = Return c' ->
        exists r,
          eval (check_limits_before_request model_name i) self
            = Return (CheckReport r)
          /\ estimated_cost r = c').
Proof.
  intros _ Hon Hgate Hc.
  rewrite (track_usage_state now model_name i o self c Hon Hgate Hc).
  destruct (rolled_totals now self) as (T1 & T2 & _).
  cbn. rewrite T1, T2. repeat split.
  - intros H1 H2 H3 H4.
    assert (Hup : update_usage model_name i o (rolled now self)
                  = (Return c,
                     set_usage_stats
                       (add_usage i o c (usage_stats (rolled now self)))
                       (rolled now self))).
    { unfold update_usage, bind, reads, modify, ret.
      rewrite calculate_cost_rolled, Hc. reflexivity. }
    unfold eval.
    rewrite (track_usage_committed now model_name i o self _ c Hon Hgate Hup).
    rewrite check_thresholds_signals. cbn [thresholds set_usage_stats].
    rewrite rolled_thresholds, H1, H2, H3, H4. cbn.
    eexists. reflexivity.
  - intros c' Hc'. eexists.
    rewrite check_limits_report, Hon, Hc'. cbn [negb obind].
    split; reflexivity.
Qed.

Lemma negative_units_are_counted_witness :
  (-5 < 0 \/ 0 < 0)
  /\ is_enabled scenario_A = true
  /\ gate_passes scenario_A "m"
  /\ (exists c, calculate_cost scenario_A "m" (-5) 0 = Return c)
  /\ total_input_tokens
       (usage_stats (exec (track_usage noon "m" (-5) 0) scenario_A))
     = total_input_tokens (usage_stats scenario_A) + -5.
Proof.
  assert (H1 : -5 < 0 \/ 0 < 0) by (left; reflexivity).
  assert (H2 : is_enabled scenario_A = true) by reflexivity.
  assert (H3 : gate_passes scenario_A "m") by (left; vm_compute; discriminate).
  split; [exact H1 |]. split; [exact H2 |]. split; [exact H3 |].
  split; [eexists; vm_compute; reflexivity |].
  refine (proj1 (proj2 (negative_units_are_counted noon "m" (-5) 0 scenario_A
                          _ H1 H2 H3 _))).
  vm_compute. reflexivity.
Defined.

(** ** Binary64 amounts *)

(** The floats behind the decimal literals of the scenarios: [0.9] is
    [0x1.ccccccccccccdp-1], [0.1] is [0x1.999999999999ap-4], [1.0] is
    [0x1p0], and in binary64 [0.9 + 0.1] is exactly [1.0] and
    [50.0 * 0.002] is exactly the float [0.1]. *)
Example decimal_0_9 :
  Float.decimal 9 10 = S754_finite false 8106479329266893 (-53).
Proof. reflexivity. Qed.

Example decimal_0_1 :
  Float.decimal 1 10 = S754_finite false 7205759403792794 (-56).
Proof. reflexivity. Qed.

Example decimal_1_0 :
  Float.decimal 1 1 = S754_finite false 4503599627370496 (-52).
Proof. reflexivity. Qed.

Example nine_tenths_plus_one_tenth :
  Float.add (Float.decimal 9 10) (Float.decimal 1 10) = Float.decimal 1 1.
Proof. reflexivity. Qed.

Example fifty_thousand_tokens :
  Float.int_truediv 50000 1000 = Return (Float.decimal 50 1)
  /\ Float.mul (Float.decimal 50 1) (Float.decimal 2 1000)
     = Float.decimal 1 10.
Proof. split; reflexivity. Qed.

Lemma prec_pos : 0 < Float.prec.
Proof. reflexivity. Qed.

Lemma prec_lt_emax : Float.prec < Float.emax.
Proof. reflexivity. Qed.

Lemma add_nonneg (x y : float) :
  Float.nonneg x = true -> Float.nonneg y = true ->
  Float.nonneg (Float.add x y) = true.
Proof.
  intros Hx Hy.
  exact (proj1 (SFadd_spec Float.prec Float.emax prec_pos prec_lt_emax
                  x y Hx Hy)).
Qed.

Lemma add_le_mono (d t c : float) :
  Float.nonneg d = true -> Float.nonneg t = true -> Float.nonneg c = true ->
  Float.le d t = true ->
  Float.le (Float.add d c) (Float.add t c) = true.
Proof.
  exact (SFadd_mono Float.prec Float.emax prec_pos prec_lt_emax d t c).
Qed.

Lemma mul_nonneg (x y : float) :
  Float.nonneg x = true -> Float.nonneg y = true ->
  Float.is_finite x = true -> Float.is_finite y = true ->
  Float.nonneg (Float.mul x y) = true.
Proof.
  exact (SFmul_nonneg Float.prec Float.emax prec_pos prec_lt_emax x y).
Qed.

Lemma zero_le (x : float) :
  Float.nonneg x = true -> Float.le Float.zero x = true.
Proof.
  destruct x as [s | [|] | | [|] m e]; intros H; try discriminate H;
    reflexivity.
Qed.

Lemma overflow_check_returns (x a : float) :
  Float.overflow_check x = Return a ->
  a = x /\ (Float.nonneg x = true -> Float.is_finite x = true).
Proof.
  destruct x as [s | s | | s m e]; cbn; try discriminate;
    intros [= <-]; split; auto; discriminate.
Qed.

Lemma int_truediv_nonneg (i : Z) (b : positive) (a : float) :
  0 <= i ->
  Float.int_truediv i b = Return a ->
  Float.nonneg a = true /\ Float.is_finite a = true.
Proof.
  intros Hi. unfold Float.int_truediv.
  destruct i as [|p|p]; [intros [= <-]; split; reflexivity | | lia].
  intros Hr. apply overflow_check_returns in Hr. destruct Hr as [-> Hfin].
  pose proof (proj1 (SFdiv_int_nonneg Float.prec Float.emax prec_pos
                       prec_lt_emax p b)) as Hnn.
  split; [exact Hnn | exact (Hfin Hnn)].
Qed.

Lemma is_finite_opp (x : float) :
  Float.is_finite (SFopp x) = Float.is_finite x.
Proof. destruct x; reflexivity. Qed.

Lemma overflow_check_finite (x : float) :
  Float.is_finite x = true -> Float.overflow_check x = Return x.
Proof. destruct x; try discriminate; reflexivity. Qed.

Lemma digits_below (p : positive) :
  Zpos p < 2 ^ 1023 -> Zdigits2 (Zpos p) < Float.emax.
Proof.
  intros Hp.
  assert (Zdigits2 (Zpos p) <= 1023); [| unfold Float.emax; lia].
  apply Zdigits2_upper; lia.
Qed.

(** True division of an int below [2 ^ 1023] in absolute value returns. *)
Lemma int_truediv_returns (i : Z) (b : positive) :
  Z.abs i < 2 ^ 1023 -> exists a, Float.int_truediv i b = Return a.
Proof.
  intros Hi. unfold Float.int_truediv.
  destruct i as [|p|p]; [eauto | |]; eexists; apply overflow_check_finite.
  - apply (SFdiv_int_nonneg Float.prec Float.emax prec_pos prec_lt_emax p b).
    apply digits_below. exact Hi.
  - pose proof (proj2 (SFdiv_int_nonneg Float.prec Float.emax prec_pos
                         prec_lt_emax p b) (digits_below p Hi)) as Hfin.
    cbn [SFdiv xorb] in Hfin |- *.
    destruct (SFdiv_core_binary Float.prec Float.emax (Zpos p) 0 (Zpos b) 0)
      as [[q e] l].
    rewrite binary_round_aux_opp, is_finite_opp. exact Hfin.
Qed.

(** Conversion of an int below [2 ^ 1023] in absolute value returns. *)
Lemma of_int_returns (z : Z) :
  Z.abs z < 2 ^ 1023 -> exists f, Float.of_int z = Return f.
Proof.
  intros Hz. unfold Float.of_int, binary_normalize.
  assert (Hemin : emin Float.prec Float.emax <= 0) by discriminate.
  destruct z as [|p|p]; [eexists; reflexivity | |];
    eexists; apply overflow_check_finite.
  - apply (binary_round_finite Float.prec Float.emax prec_pos prec_lt_emax);
      [exact Hemin |].
    rewrite Z.add_0_r. apply digits_below. exact Hz.
  - rewrite binary_round_opp, is_finite_opp.
    apply (binary_round_finite Float.prec Float.emax prec_pos prec_lt_emax);
      [exact Hemin |].
    rewrite Z.add_0_r. apply digits_below. exact Hz.
Qed.

Lemma calculate_cost_returns (self : BillingConfig) (model_name : string)
    (i o : Z) :
  Z.abs i < 2 ^ 1023 -> Z.abs o < 2 ^ 1023 ->
  exists c, calculate_cost self model_name i o = Return c.
Proof.
  intros Hi Ho. unfold calculate_cost.
  destruct (get_model_config self model_name); [| eauto].
  destruct (int_truediv_returns i 1000 Hi) as [a ->].
  destruct (int_truediv_returns o 1000 Ho) as [b ->].
  cbn [obind]. eauto.
Qed.

Lemma calculate_cost_nonneg (self : BillingConfig) (model_name : string)
    (i o : Z) (c : float) :
  prices_nonneg self -> 0 <= i -> 0 <= o ->
  calculate_cost self model_name i o = Return c ->
  Float.nonneg c = true.
Proof.
  intros Hprices Hi Ho. unfold calculate_cost, get_model_config.
  destruct (models self !! model_name) as [mc|] eqn:Hm;
    [| intros [= <-]; reflexivity].
  destruct (Hprices model_name mc Hm) as [[Hin Hinf] [Hout Houtf]].
  destruct (Float.int_truediv i 1000) as [a|] eqn:Ha; cbn [obind];
    [| discriminate].
  destruct (Float.int_truediv o 1000) as [b|] eqn:Hb; cbn [obind];
    [| discriminate].
  intros [= <-].
  destruct (int_truediv_nonneg i 1000 a Hi Ha) as [Han Haf].
  destruct (int_truediv_nonneg o 1000 b Ho Hb) as [Hbn Hbf].
  apply add_nonneg; apply mul_nonneg; assumption.
Qed.

(** ** The windows stay within the lifetime counters *)

Lemma apply_op_models (op : ledger_op) (self : BillingConfig) :
  models (apply_op op self) = models self.
Proof.
  destruct op as [m i o | now | now | now | now | now]; cbn [apply_op];
    try reflexivity.
  - unfold exec, update_usage, bind, reads, modify, ret.
    destruct (calculate_cost self m i o); reflexivity.
  - unfold exec. rewrite check_daily_reset_returns. cbn [snd].
    unfold exec, check_daily_reset, bind, gets, modify, ret. cbn.
    destruct (date_gt now _); reflexivity.
  - unfold exec. rewrite check_monthly_reset_returns. cbn [snd].
    unfold exec, check_monthly_reset, bind, gets, modify, ret. cbn.
    destruct (_ || _); reflexivity.
Qed.

Lemma reset_daily_ok (now : datetime) (u : UsageStats) :
  ledger_ok u -> ledger_ok (reset_daily_stats now u).
Proof.
  intros ((H1 & H2 & H3 & H4 & H5 & H6 & H7 & H8 & H9 & H10)
          & N1 & N2 & N3 & P1 & P2 & P3 & P4).
  unfold ledger_ok, windows_within_lifetime. cbn.
  repeat split; try assumption; try lia. apply zero_le. exact N1.
Qed.

Lemma reset_monthly_ok (now : datetime) (u : UsageStats) :
  ledger_ok u -> ledger_ok (reset_monthly_stats now u).
Proof.
  intros ((H1 & H2 & H3 & H4 & H5 & H6 & H7 & H8 & H9 & H10)
          & N1 & N2 & N3 & P1 & P2 & P3 & P4).
  unfold ledger_ok, windows_within_lifetime. cbn.
  repeat split; try assumption; try lia. apply zero_le. exact N1.
Qed.

Lemma reset_all_ok (now : datetime) (u : UsageStats) :
  ledger_ok (reset_all_stats now u).
Proof.
  unfold ledger_ok, windows_within_lifetime. cbn.
  repeat split; try reflexivity; lia.
Qed.

Lemma add_usage_ok (i o : Z) (c : float) (u : UsageStats) :
  0 <= i -> 0 <= o -> Float.nonneg c = true ->
  ledger_ok u -> ledger_ok (add_usage i o c u).
Proof.
  intros Hi Ho Hc
    ((H1 & H2 & H3 & H4 & H5 & H6 & H7 & H8 & H9 & H10)
     & N1 & N2 & N3 & P1 & P2 & P3 & P4).
  unfold ledger_ok, windows_within_lifetime. cbn.
  repeat split; try lia.
  - apply add_le_mono; assumption.
  - apply add_le_mono; assumption.
  - apply add_nonneg; assumption.
  - apply add_nonneg; assumption.
  - apply add_nonneg; assumption.
Qed.

Lemma apply_op_ok (op : ledger_op) (self : BillingConfig) :
  prices_nonneg self -> nonneg_commit op ->
  ledger_ok (usage_stats self) ->
  ledger_ok (usage_stats (apply_op op self)).
Proof.
  intros Hprices Hop Hok.
  destruct op as [m i o | now | now | now | now | now]; cbn [apply_op].
  - destruct Hop as [Hi Ho].
    unfold exec, update_usage, bind, reads, modify, ret.
    destruct (calculate_cost self m i o) as [c|e] eqn:Hc; cbn; [| exact Hok].
    apply add_usage_ok; try assumption.
    exact (calculate_cost_nonneg self m i o c Hprices Hi Ho Hc).
  - unfold exec, check_daily_reset, bind, gets, modify, ret. cbn.
    destruct (date_gt now _); cbn; [apply reset_daily_ok |]; exact Hok.
  - unfold exec, check_monthly_reset, bind, gets, modify, ret. cbn.
    destruct (_ || _); cbn; [apply reset_monthly_ok |]; exact Hok.
  - cbn. apply reset_daily_ok. exact Hok.
  - cbn. apply reset_monthly_ok. exact Hok.
  - cbn. apply reset_all_ok.
Qed.

Lemma run_ok (ops : list ledger_op) (self : BillingConfig) :
  prices_nonneg self -> Forall nonneg_commit ops ->
  ledger_ok (usage_stats self) ->
  ledger_ok (usage_stats (run ops self)).
Proof.
  revert self. induction ops as [|op ops IH]; intros self Hprices Hops Hok;
    [exact Hok |].
  inversion Hops as [|? ? Hop Hrest]; subst.
  cbn [run fold_left]. apply IH.
  - unfold prices_nonneg. rewrite apply_op_models. exact Hprices.
  - exact Hrest.
  - apply apply_op_ok; assumption.
Qed.

Lemma zeroed_ok (u : UsageStats) : zeroed u -> ledger_ok u.
Proof.
  intros ->. unfold ledger_ok, windows_within_lifetime. cbn.
  repeat split; try reflexivity; lia.
Qed.

(** C5, counterexample.  With a model of negative price, a commit of 1000
    input tokens on a fresh ledger followed by the rollover of the next day
    leaves [daily_cost = 0.0] and [total_cost] negative: [daily_cost <=
    total_cost] is false. *)
Lemma negative_price_breaks_cost_invariant :
  zeroed (usage_stats rebate_config)
  /\ Forall nonneg_commit [Commit "r" 1000 0; RollDaily next_day]
  /\ Float.le
       (daily_cost
          (usage_stats
             (run [Commit "r" 1000 0; RollDaily next_day] rebate_config)))
       (total_cost
          (usage_stats
             (run [Commit "r" 1000 0; RollDaily next_day] rebate_config)))
     = false.
Proof.
  split; [reflexivity |]. split.
  - repeat constructor; discriminate.
  - vm_compute. reflexivity.
Qed.

Lemma apply_op_units (op : ledger_op) (self : BillingConfig) :
  nonneg_commit op ->
  units_ok (usage_stats self) ->
  units_ok (usage_stats (apply_op op self)).
Proof.
  intros Hop ((H1 & H2 & H3 & H4 & H5 & H6 & H7 & H8) & P1 & P2 & P3 & P4).
  destruct op as [m i o | now | now | now | now | now]; cbn [apply_op].
  - destruct Hop as [Hi Ho].
    unfold exec, update_usage, bind, reads, modify, ret.
    destruct (calculate_cost self m i o) as [c|e]; cbn;
      unfold units_ok, units_within_lifetime; cbn; repeat split;
        try assumption; lia.
  - unfold exec, check_daily_reset, bind, gets, modify, ret. cbn.
    destruct (date_gt now _); cbn;
      unfold units_ok, units_within_lifetime; cbn; repeat split;
        try assumption; lia.
  - unfold exec, check_monthly_reset, bind, gets, modify, ret. cbn.
    destruct (_ || _); cbn;
      unfold units_ok, units_within_lifetime; cbn; repeat split;
        try assumption; lia.
  - unfold units_ok, units_within_lifetime. cbn.
    repeat split; try assumption; lia.
  - unfold units_ok, units_within_lifetime. cbn.
    repeat split; try assumption; lia.
  - unfold units_ok, units_within_lifetime. cbn. repeat split; lia.
Qed.

Lemma run_units (ops : list ledger_op) (self : BillingConfig) :
  Forall nonneg_commit ops ->
  units_ok (usage_stats self) ->
  units_ok (usage_stats (run ops self)).
Proof.
  revert self. induction ops as [|op ops IH]; intros self Hops Hok;
    [exact Hok |].
  inversion Hops as [|? ? Hop Hrest]; subst.
  cbn [run fold_left]. apply IH; [exact Hrest |].
  apply apply_op_units; assumption.
Qed.

Lemma zeroed_units (u : UsageStats) : zeroed u -> units_ok u.
Proof.
  intros ->. unfold units_ok, units_within_lifetime. cbn.
  repeat split; lia.
Qed.

(** C5, as the code has it.  From a zeroed ledger, after every sequence of
    commits with non-negative token counts, daily and monthly rollovers and
    daily, monthly and full resets, the daily and monthly input tokens,
    output tokens and request counts do not exceed their lifetime
    counterparts, whatever the prices of the catalog.  When every price of
    the catalog is a non-negative finite float, [daily_cost <= total_cost]
    and [monthly_cost <= total_cost] hold as well. *)
Theorem windows_never_exceed_lifetime (self : BillingConfig)
    (ops : list ledger_op) :
  zeroed (usage_stats self) ->
  Forall nonneg_commit ops ->
  let u := usage_stats (run ops self) in
  units_within_lifetime u
  /\ (prices_nonneg self ->
      Float.le (daily_cost u) (total_cost u) = true
      /\ Float.le (monthly_cost u) (total_cost u) = true).
Proof.
  intros Hzero Hops. cbv zeta. split.
  - exact (proj1 (run_units ops self Hops (zeroed_units _ Hzero))).
  - intros Hprices.
    destruct (proj1 (run_ok ops self Hprices Hops (zeroed_ok _ Hzero)))
      as (D & M & _).
    split; assumption.
Qed.

Lemma scenario_A_prices : prices_nonneg scenario_A.
Proof.
  intros model_name mc Hm. cbn in Hm.
  apply lookup_singleton_Some in Hm. destruct Hm as [_ <-].
  repeat split; reflexivity.
Defined.

Lemma windows_never_exceed_lifetime_witness :
  let ops := [Commit "m" 1000 500; RollDaily next_day; Commit "m" 10 10;
              ResetMonthly next_day] in
  let u := usage_stats (run ops scenario_A) in
  zeroed (usage_stats scenario_A)
  /\ Forall nonneg_commit ops
  /\ units_within_lifetime u
  /\ prices_nonneg scenario_A
  /\ Float.le (daily_cost u) (total_cost u) = true
  /\ Float.le (monthly_cost u) (total_cost u) = true.
Proof.
  intros ops u.
  assert (Hz : zeroed (usage_stats scenario_A)) by reflexivity.
  assert (Hops : Forall nonneg_commit ops)
    by (repeat constructor; discriminate).
  destruct (windows_never_exceed_lifetime scenario_A ops Hz Hops)
    as [U C].
  split; [exact Hz |]. split; [exact Hops |]. split; [exact U |].
  split; [exact scenario_A_prices |]. exact (C scenario_A_prices).
Defined.

(** Token limits below [2 ^ 1023] in absolute value convert to floats. *)
Lemma limits_in_range_convert (th : ThresholdConfig) :
  (forall l, daily_token_limit th = Some l \/ monthly_token_limit th = Some l ->
             Z.abs l < 2 ^ 1023) ->
  token_limits_convert th.
Proof.
  intros Hrange l Hl. apply of_int_returns. exact (Hrange l Hl).
Qed.

(** ** Outcomes of [track_usage] *)

Lemma signal_shape_cost (ke kw : string) (c : float) (L : option float)
    (w : float) :
  cost_signal ke kw c L w = []
  \/ cost_signal ke kw c L w = [(ke, true)]
  \/ cost_signal ke kw c L w = [(kw, true)].
Proof.
  unfold cost_signal.
  destruct L as [l|]; [|now left].
  destruct (Float.truthy l); [|now left].
  destruct (Float.ge c l); [now right; left|].
  destruct (Float.ge c (Float.mul l w)); [now right; right|now left].
Qed.

Lemma signal_shape_token (ke kw : string) (n : Z) (L : option Z) (w : float)
    (ws : list (string * bool)) :
  token_signal ke kw n L w = Return ws ->
  ws = [] \/ ws = [(ke, true)] \/ ws = [(kw, true)].
Proof.
  unfold token_signal.
  destruct L as [l|]; [|intros [= <-]; now left].
  destruct (negb (l =? 0)); [|intros [= <-]; now left].
  destruct (l <=? n); [intros [= <-]; now right; left|].
  destruct (int_times_float l w) as [b|e]; cbn [obind]; [|discriminate].
  destruct (Float.int_ge n b); intros [= <-]; [now right; right|now left].
Qed.

Lemma handle_without_hard_limit (self : BillingConfig)
    (ws : list (string * bool)) (info : usage_info) :
  check_thresholds self = Return ws ->
  List.filter is_exceeded_key (dict_keys ws) = [] ->
  _handle_threshold_warnings ws info self =
    match ws with
    | [] => (Return tt, self)
    | _ => (Raise AttributeError, self)
    end.
Proof.
  rewrite check_thresholds_signals. cbv zeta.
  destruct (token_signal "daily_token_exceeded" "daily_token_warning" _ _ _)
    as [dt|] eqn:Edt; cbn [obind]; [|discriminate].
  destruct (token_signal "monthly_token_exceeded" "monthly_token_warning" _ _ _)
    as [mt|] eqn:Emt; cbn [obind]; [|discriminate].
  intros [= <-].
  apply signal_shape_token in Edt, Emt.
  destruct (signal_shape_cost "daily_cost_exceeded" "daily_cost_warning"
              (daily_cost (usage_stats self))
              (daily_cost_limit (thresholds self))
              (warning_threshold (thresholds self))) as [-> | [-> | ->]];
  destruct (signal_shape_cost "monthly_cost_exceeded" "monthly_cost_warning"
              (monthly_cost (usage_stats self))
              (monthly_cost_limit (thresholds self))
              (warning_threshold (thresholds self))) as [-> | [-> | ->]];
  destruct Edt as [-> | [-> | ->]]; destruct Emt as [-> | [-> | ->]];
  intros H; vm_compute in H; try discriminate H; vm_compute; reflexivity.
Qed.

Lemma exceeded_filter_primary (self : BillingConfig)
    (ws : list (string * bool)) :
  check_thresholds self = Return ws ->
  List.filter is_exceeded_key (dict_keys ws) = []
  <-> primary_violation self = None.
Proof.
  intros H. rewrite (exceeded_types_of self ws H). unfold primary_violation.
  cbv zeta.
  destruct (cost_exceededb (daily_cost (usage_stats self)) _);
    [split; discriminate|].
  destruct (token_exceededb (daily_tokens (usage_stats self)) _);
    [split; discriminate|].
  destruct (cost_exceededb (monthly_cost (usage_stats self)) _);
    [split; discriminate|].
  destruct (token_exceededb (monthly_tokens (usage_stats self)) _);
    [split; discriminate|].
  now split.
Qed.

Lemma primary_none_of_no_violation (self : BillingConfig) :
  (forall e, ~ violation self e) -> primary_violation self = None.
Proof.
  intros H. unfold primary_violation. cbv zeta.
  destruct (cost_exceededb (daily_cost (usage_stats self)) _) eqn:E1.
  { apply cost_exceededb_iff in E1. destruct E1 as (l & ? & ? & ?).
    exfalso. eapply H. eapply violation_daily_cost; eassumption. }
  destruct (token_exceededb (daily_tokens (usage_stats self)) _) eqn:E2.
  { apply token_exceededb_iff in E2. destruct E2 as (l & ? & ? & ?).
    exfalso. eapply H. eapply violation_daily_token; eassumption. }
  destruct (cost_exceededb (monthly_cost (usage_stats self)) _) eqn:E3.
  { apply cost_exceededb_iff in E3. destruct E3 as (l & ? & ? & ?).
    exfalso. eapply H. eapply violation_monthly_cost; eassumption. }
  destruct (token_exceededb (monthly_tokens (usage_stats self)) _) eqn:E4.
  { apply token_exceededb_iff in E4. destruct E4 as (l & ? & ? & ?).
    exfalso. eapply H. eapply violation_monthly_token; eassumption. }
  reflexivity.
Qed.

Lemma soft_limit_signals (self : BillingConfig) (ws : list (string * bool)) :
  check_thresholds self = Return ws ->
  soft_limit_met self -> ws <> [].
Proof.
  rewrite check_thresholds_signals. cbv zeta.
  destruct (token_signal "daily_token_exceeded" "daily_token_warning" _ _ _)
    as [dt|] eqn:Edt; cbn [obind]; [|discriminate].
  destruct (token_signal "monthly_token_exceeded" "monthly_token_warning" _ _ _)
    as [mt|] eqn:Emt; cbn [obind]; [|discriminate].
  intros [= <-] S E.
  apply app_eq_nil in E as [E1 E]. apply app_eq_nil in E as [E2 E].
  apply app_eq_nil in E as [E3 E4]. subst dt mt.
  destruct S as [S | [S | [S | S]]].
  - assert (I : In "daily_cost_warning"
                  (dict_keys (cost_signal "daily_cost_exceeded"
                     "daily_cost_warning" (daily_cost (usage_stats self))
                     (daily_cost_limit (thresholds self))
                     (warning_threshold (thresholds self)))))
      by (apply in_cost_signal; right; split; [reflexivity|exact S]).
    rewrite E1 in I. exact I.
  - assert (I : In "daily_token_warning" (dict_keys (@nil (string * bool))))
      by (apply (in_token_signal _ _ _ _ _ _ _ Edt); right;
          split; [reflexivity|exact S]).
    exact I.
  - assert (I : In "monthly_cost_warning"
                  (dict_keys (cost_signal "monthly_cost_exceeded"
                     "monthly_cost_warning" (monthly_cost (usage_stats self))
                     (monthly_cost_limit (thresholds self))
                     (warning_threshold (thresholds self)))))
      by (apply in_cost_signal; right; split; [reflexivity|exact S]).
    rewrite E3 in I. exact I.
  - assert (I : In "monthly_token_warning" (dict_keys (@nil (string * bool))))
      by (apply (in_token_signal _ _ _ _ _ _ _ Emt); right;
          split; [reflexivity|exact S]).
    exact I.
Qed.

Lemma update_usage_thresholds (model_name : string) (i o : Z)
    (self self' : BillingConfig) (c : float) :
  update_usage model_name i o self = (Return c, self') ->
  thresholds self' = thresholds self.
Proof.
  intros H. apply update_usage_commits in H as [_ ->]. reflexivity.
Qed.

(** A commit that brings some limit to its warning level, no hard limit
    being met, does not return: the dispatcher looks [warn] up on its
    [warnings] argument, a dictionary, and [track_usage] ends with
    [AttributeError] after the usage has been counted. *)
Theorem soft_limit_commit_raises_AttributeError (now : datetime)
    (model_name : string) (i o : Z) (self self' : BillingConfig) (c : float) :
  is_enabled self = true ->
  gate_passes self model_name ->
  update_usage model_name i o (rolled now self) = (Return c, self') ->
  token_limits_convert (thresholds self) ->
  (forall e, ~ violation self' e) ->
  soft_limit_met self' ->
  track_usage now model_name i o self = (Raise AttributeError, self')
  /\ usage_stats self' = add_usage i o c (usage_stats (rolled now self)).
Proof.
  intros En G U TL NV S.
  assert (TL' : token_limits_convert (thresholds self')).
  { rewrite (update_usage_thresholds _ _ _ _ _ _ U), rolled_thresholds.
    exact TL. }
  destruct (check_thresholds_returns self' TL') as (dt & mt & _ & _ & C).
  split.
  - rewrite (track_usage_committed now model_name i o self self' c En G U).
    rewrite C. cbv zeta.
    rewrite (handle_without_hard_limit self' _ _ C).
    + destruct (cost_signal _ _ _ _ _ ++ _) eqn:E; [|reflexivity].
      exfalso. exact (soft_limit_signals self' [] C S eq_refl).
    + apply (exceeded_filter_primary self' _ C).
      apply primary_none_of_no_violation. exact NV.
  - apply update_usage_commits in U as [_ ->]. reflexivity.
Qed.

Lemma soft_limit_commit_raises_AttributeError_witness :
  let self' := snd (update_usage "m" 500000 0 (rolled noon seven_of_ten)) in
  daily_cost (usage_stats self') = Float.decimal 8 1
  /\ track_usage noon "m" 500000 0 seven_of_ten = (Raise AttributeError, self').
Proof.
  cbv zeta. split; [vm_compute; reflexivity|].
  refine (proj1 (soft_limit_commit_raises_AttributeError noon "m" 500000 0
                   seven_of_ten _ (Float.decimal 1 1) _ _ _ _ _ _)).
  - reflexivity.
  - left. vm_compute. discriminate.
  - vm_compute. reflexivity.
  - intros l [H | H]; vm_compute in H; discriminate H.
  - intros e V. inversion V as [l H1 H2 H3 | l H1 H2 H3 | l H1 H2 H3 | l H1 H2 H3];
      vm_compute in H1; try discriminate H1.
    injection H1 as <-. vm_compute in H3. discriminate H3.
  - left. exists (Float.decimal 10 1). vm_compute. repeat split.
Defined.

(** Once the usage is counted, [track_usage] returns its record exactly when
    the evaluation of the thresholds reports no signal at all; the record
    then carries the cost of the commit and the costs read after it. *)
Theorem track_usage_returns_iff_no_signal (now : datetime)
    (model_name : string) (i o : Z) (self self' : BillingConfig) (c : float)
    (ws : list (string * bool)) :
  is_enabled self = true ->
  gate_passes self model_name ->
  update_usage model_name i o (rolled now self) = (Return c, self') ->
  check_thresholds self' = Return ws ->
  ((exists r, eval (track_usage now model_name i o) self = Return r)
   <-> ws = [])
  /\ (ws = [] ->
      track_usage now model_name i o self
      = (Return (TrackUsage (usage_record now model_name i o c self' [])),
         self')).
Proof.
  intros En G U C.
  pose proof (track_usage_committed now model_name i o self self' c En G U)
    as T.
  rewrite C in T. cbv zeta in T.
  assert (R : ws = [] ->
              track_usage now model_name i o self
              = (Return (TrackUsage (usage_record now model_name i o c self' [])),
                 self')).
  { intros ->. rewrite T.
    rewrite (handle_without_hard_limit self' [] _ C eq_refl). reflexivity. }
  split; [split|exact R].
  - intros [r Hr]. unfold eval in Hr. rewrite T in Hr.
    destruct (List.filter is_exceeded_key (dict_keys ws)) eqn:F.
    + rewrite (handle_without_hard_limit self' ws _ C F) in Hr.
      destruct ws; [reflexivity|discriminate Hr].
    + destruct (primary_violation self') as [e|] eqn:P.
      * pose proof (handle_raises_primary self' ws
                      (usage_record now model_name i o c self' ws) e C
                      eq_refl eq_refl P) as HP.
        unfold usage_record in HP. rewrite HP in Hr. discriminate Hr.
      * apply (exceeded_filter_primary self' ws C) in P. congruence.
  - intros E. unfold eval. rewrite (R E). eexists. reflexivity.
Qed.

Lemma track_usage_returns_iff_no_signal_witness :
  exists info,
    eval (track_usage noon "m" 1000 500) scenario_A = Return (TrackUsage info)
    /\ info_cost info = Float.decimal 4 1000
    /\ info_warnings info = [].
Proof.
  eexists. split.
  - unfold eval.
    rewrite (proj2 (track_usage_returns_iff_no_signal noon "m" 1000 500
                      scenario_A
                      (snd (update_usage "m" 1000 500 (rolled noon scenario_A)))
                      (Float.decimal 4 1000) []
                      eq_refl
                      (or_introl (fun H => eq_ind (Some model_m)
                         (fun o => match o with Some _ => True | None => False end)
                         I None H))
                      eq_refl eq_refl) eq_refl).
    reflexivity.
  - split; reflexivity.
Defined.

(** ** Calls that [track_usage] turns away *)

(** A disabled monitor answers [{"enabled": False}], and a model missing
    from a non-empty catalog raises [ModelNotConfiguredException]; either
    way nothing of the configuration changes: no counter, no timestamp, no
    rollover. *)
Theorem track_usage_rejected_changes_nothing (now : datetime)
    (model_name : string) (i o : Z) (self : BillingConfig) :
  (is_enabled self = false ->
   track_usage now model_name i o self = (Return TrackDisabled, self))
  /\ (is_enabled self = true -> ~ gate_passes self model_name ->
      track_usage now model_name i o self
      = (Raise (ModelNotConfiguredException model_name), self)).
Proof.
  unfold track_usage, is_enabled, gate_passes, bind, gets, get_model_config.
  split.
  - intros ->. reflexivity.
  - intros -> G. cbn [negb].
    destruct (models self !! model_name) eqn:L.
    + exfalso. apply G. left. discriminate.
    + rewrite bool_decide_true; [reflexivity|].
      intros E. apply G. right. exact E.
Qed.

Lemma track_usage_rejected_changes_nothing_witness :
  track_usage noon "gpt-5" 1000 500 scenario_A
  = (Raise (ModelNotConfiguredException "gpt-5"), scenario_A).
Proof.
  apply (proj2 (track_usage_rejected_changes_nothing noon "gpt-5" 1000 500
                  scenario_A)).
  - reflexivity.
  - intros [H | H].
    + apply H. reflexivity.
    + apply (f_equal (fun m => m !! "m")) in H. vm_compute in H. discriminate H.
Defined.

(** ** Rollover *)

(** The first commit of a new day restarts the daily window: after
    [track_usage] the daily counters hold this commit alone and the daily
    timestamp is the clock reading, while the lifetime counters go on
    accumulating, and so do the monthly ones unless the month changed as
    well. *)
Theorem new_day_commit_restarts_daily_window (now : datetime)
    (model_name : string) (i o : Z) (self : BillingConfig) (c : float) :
  is_enabled self = true ->
  gate_passes self model_name ->
  calculate_cost self model_name i o = Return c ->
  date_gt now (last_daily_reset (usage_stats self)) = true ->
  let u := usage_stats self in
  let u' := usage_stats (exec (track_usage now model_name i o) self) in
  daily_input_tokens u' = i
  /\ daily_output_tokens u' = o
  /\ daily_cost u' = Float.add Float.zero c
  /\ daily_requests u' = 1
  /\ last_daily_reset u' = now
  /\ total_input_tokens u' = total_input_tokens u + i
  /\ total_output_tokens u' = total_output_tokens u + o
  /\ total_cost u' = Float.add (total_cost u) c
  /\ total_requests u' = total_requests u + 1
  /\ (year now <= year (last_monthly_reset u) ->
      month now <= month (last_monthly_reset u) ->
      monthly_input_tokens u' = monthly_input_tokens u + i
      /\ monthly_output_tokens u' = monthly_output_tokens u + o
      /\ monthly_cost u' = Float.add (monthly_cost u) c
      /\ monthly_requests u' = monthly_requests u + 1).
Proof.
  intros En G C D. cbv zeta.
  rewrite (track_usage_state now model_name i o self c En G C).
  unfold rolled, exec, check_daily_reset, check_monthly_reset, bind, gets,
    modify, ret.
  cbn [fst snd]. rewrite D. cbn [fst snd usage_stats set_usage_stats
    reset_daily_stats last_monthly_reset].
  destruct ((year (last_monthly_reset (usage_stats self)) <? year now)
            || (month (last_monthly_reset (usage_stats self)) <? month now))
    eqn:E; cbn; repeat split; try reflexivity; exfalso;
    apply orb_true_iff in E; destruct E as [E | E];
    apply Z.ltb_lt in E; lia.
Qed.

Lemma new_day_commit_restarts_daily_window_witness :
  let self := exec (track_usage noon "m" 1000 500) scenario_A in
  let u' := usage_stats (exec (track_usage next_day "m" 10 10) self) in
  daily_input_tokens u' = 10 /\ total_input_tokens u' = 1010
  /\ monthly_input_tokens u' = 1010.
Proof.
  cbv zeta.
  pose proof (new_day_commit_restarts_daily_window next_day "m" 10 10
                (exec (track_usage noon "m" 1000 500) scenario_A)
                (S754_finite false 8854437155380586 (-67))) as H.
  cbv zeta in H.
  destruct H as (H1 & _ & _ & _ & _ & H2 & _ & _ & _ & H3).
  - reflexivity.
  - left. vm_compute. discriminate.
  - vm_compute. reflexivity.
  - vm_compute. reflexivity.
  - destruct H3 as (H3 & _); [vm_compute; discriminate ..|].
    rewrite H1, H2, H3. repeat split.
Defined.

(** The monthly check compares the year and the month number separately.
    For a clock that has not gone back behind the last monthly reset it
    resets exactly when the month of the reading is a later one; for a
    reading in an earlier year it still resets whenever the month number
    is larger. *)
Theorem monthly_rollover_condition (now : datetime) (self : BillingConfig) :
  let last := last_monthly_reset (usage_stats self) in
  let reset :=
    set_usage_stats (reset_monthly_stats now (usage_stats self)) self in
  (month_le last now ->
     (month_lt last now -> exec (check_monthly_reset now) self = reset)
     /\ (~ month_lt last now -> exec (check_monthly_reset now) self = self))
  /\ (year now < year last -> month last < month now ->
      exec (check_monthly_reset now) self = reset).
Proof.
  cbv zeta. unfold month_le, month_lt, exec, check_monthly_reset, bind, gets,
    modify, ret. cbn [fst snd].
  destruct ((year (last_monthly_reset (usage_stats self)) <? year now)
            || (month (last_monthly_reset (usage_stats self)) <? month now))
    eqn:E; cbn [fst snd].
  - apply orb_true_iff in E.
    split; [intros L; split; [reflexivity|]|reflexivity].
    intros N. exfalso. apply N.
    destruct E as [E | E]; apply Z.ltb_lt in E; lia.
  - apply orb_false_iff in E as [E1 E2].
    apply Z.ltb_ge in E1, E2.
    split; [intros L; split; [|reflexivity]|]; lia.
Qed.

Lemma monthly_rollover_condition_witness :
  monthly_input_tokens
    (usage_stats
       (exec (check_monthly_reset next_month)
             (exec (track_usage noon "m" 1000 500) scenario_A))) = 0
  /\ monthly_input_tokens
       (usage_stats
          (exec (check_monthly_reset last_year_march)
                (exec (track_usage noon "m" 1000 500) scenario_A))) = 0.
Proof.
  pose proof (monthly_rollover_condition next_month
                (exec (track_usage noon "m" 1000 500) scenario_A)) as H1.
  pose proof (monthly_rollover_condition last_year_march
                (exec (track_usage noon "m" 1000 500) scenario_A)) as H2.
  cbv zeta in H1, H2.
  destruct H1 as [H1 _]. destruct H2 as [_ H2].
  destruct H1 as [H1 _].
  - right. vm_compute. split; [reflexivity|discriminate].
  - rewrite H1, H2.
    + split; reflexivity.
    + vm_compute. reflexivity.
    + vm_compute. reflexivity.
    + right. vm_compute. split; reflexivity.
Defined.

(** The two rollover checks act on disjoint parts of the ledger: whatever
    the two clock readings, running them in either order leaves the same
    configuration. *)
Theorem rollover_checks_commute (n1 n2 : datetime) (self : BillingConfig) :
  exec (check_daily_reset n1) (exec (check_monthly_reset n2) self)
  = exec (check_monthly_reset n2) (exec (check_daily_reset n1) self).
Proof.
  unfold exec, check_daily_reset, check_monthly_reset, bind, gets, modify, ret.
  cbn [fst snd].
  destruct ((year (last_monthly_reset (usage_stats self)) <? year n2)
            || (month (last_monthly_reset (usage_stats self)) <? month n2))
    eqn:E1;
  destruct (date_gt n1 (last_daily_reset (usage_stats self))) eqn:E2;
  cbn [fst snd usage_stats set_usage_stats reset_daily_stats
       reset_monthly_stats last_daily_reset last_monthly_reset];
  rewrite ?E1, ?E2; reflexivity.
Qed.

(** ** Sessions *)

Lemma run_app (ops1 ops2 : list ledger_op) (self : BillingConfig) :
  run (ops1 ++ ops2) self = run ops2 (run ops1 self).
Proof. unfold run. apply fold_left_app. Qed.

Lemma track_usage_pricing_raises (now : datetime) (model_name : string)
    (i o : Z) (self : BillingConfig) (e : exn) :
  is_enabled self = true ->
  gate_passes self model_name ->
  calculate_cost self model_name i o = Raise e ->
  track_usage now model_name i o self = (Raise e, rolled now self).
Proof.
  intros Hon Hgate Hc.
  unfold track_usage. unfold bind at 1. unfold gets at 1. rewrite Hon.
  cbn [negb]. unfold bind at 1. unfold gets at 1.
  unfold bind at 1. unfold gets at 1.
  assert (Hg : (match get_model_config self model_name with
                | Some _ => ret tt
                | None =>
                    if bool_decide (models self <> ∅)
                    then raise (ModelNotConfiguredException model_name)
                    else ret tt
                end) self = (Return tt, self)).
  { unfold get_model_config.
    destruct (models self !! model_name) eqn:Hm; [reflexivity |].
    destruct Hgate as [Hne | Hempty]; [contradiction |].
    rewrite bool_decide_eq_false_2; [reflexivity |]. intros Hn. now apply Hn. }
  unfold bind at 1. rewrite Hg.
  unfold bind at 1. rewrite check_daily_reset_returns.
  unfold bind at 1. rewrite check_monthly_reset_returns.
  unfold bind at 1.
  fold (rolled now self).
  unfold update_usage, bind, reads. rewrite calculate_cost_rolled, Hc.
  reflexivity.
Qed.

(** The configuration a call of [track_usage] leaves is the one its history
    [track_ops] leads to, whatever the call returns or raises. *)
Lemma track_usage_history (now : datetime) (model_name : string) (i o : Z)
    (self : BillingConfig) :
  exec (track_usage now model_name i o) self
  = run (track_ops now model_name i o self) self.
Proof.
  unfold track_ops. cbv zeta.
  destruct (is_enabled self) eqn:En; cbn [negb].
  2:{ unfold exec, track_usage, bind, gets. rewrite En. reflexivity. }
  assert (P : gate_passes self model_name ->
              exec (track_usage now model_name i o) self
              = run [RollDaily now; RollMonthly now; Commit model_name i o]
                    self).
  { intros G. cbn [run fold_left apply_op]. fold (rolled now self).
    destruct (calculate_cost self model_name i o) as [c|e] eqn:C.
    - rewrite (track_usage_state now model_name i o self c En G C).
      unfold exec, update_usage, bind, reads, modify, ret.
      rewrite calculate_cost_rolled, C. reflexivity.
    - unfold exec at 1.
      rewrite (track_usage_pricing_raises now model_name i o self e En G C).
      unfold exec, update_usage, bind, reads.
      rewrite calculate_cost_rolled, C. reflexivity. }
  unfold get_model_config.
  destruct (models self !! model_name) eqn:L.
  - apply P. left. rewrite L. discriminate.
  - destruct (bool_decide (models self <> ∅)) eqn:B.
    + apply bool_decide_eq_true in B.
      unfold exec, track_usage, bind, gets, get_model_config.
      rewrite En. cbn [negb]. rewrite L.
      rewrite bool_decide_eq_true_2 by exact B. reflexivity.
    + apply bool_decide_eq_false in B. apply P. right.
      destruct (decide (models self = ∅)) as [E | N]; [exact E|].
      exfalso. apply B. exact N.
Qed.

Lemma track_ops_nonneg (now : datetime) (model_name : string) (i o : Z)
    (self : BillingConfig) :
  0 <= i -> 0 <= o ->
  Forall nonneg_commit (track_ops now model_name i o self).
Proof.
  intros Hi Ho. unfold track_ops. cbv zeta.
  assert (F : Forall nonneg_commit
                [RollDaily now; RollMonthly now; Commit model_name i o])
    by (repeat constructor; assumption).
  destruct (negb (is_enabled self)); [constructor|].
  destruct (get_model_config self model_name); [exact F|].
  destruct (bool_decide _); [constructor|exact F].
Qed.

Lemma track_session_history (calls : list call) (self : BillingConfig) :
  exists ops,
    track_session calls self = run ops self
    /\ (Forall nonneg_call calls -> Forall nonneg_commit ops).
Proof.
  revert self. induction calls as [|k calls IH]; intros self.
  - exists []. split; [reflexivity|constructor].
  - cbn [track_session fold_left].
    fold (track_session calls
            (exec (track_usage (call_now k) (call_model k) (call_input k)
                               (call_output k)) self)).
    rewrite track_usage_history.
    destruct (IH (run (track_ops (call_now k) (call_model k) (call_input k)
                                 (call_output k) self) self))
      as (ops & E & F).
    exists (track_ops (call_now k) (call_model k) (call_input k)
                      (call_output k) self ++ ops).
    split.
    + rewrite run_app. exact E.
    + intros H. inversion H as [|? ? [Hi Ho] Hrest]; subst.
      apply Forall_app. split; [apply track_ops_nonneg; assumption|auto].
Qed.

Lemma apply_op_frame (op : ledger_op) (s : BillingConfig) :
  apply_op op s = set_usage_stats (usage_stats (apply_op op s)) s.
Proof.
  destruct op as [m a b | n | n | n | n | n]; cbn [apply_op].
  - unfold exec, update_usage, bind, reads, modify, ret.
    destruct (calculate_cost s m a b); destruct s; reflexivity.
  - unfold exec, check_daily_reset, bind, gets, modify, ret. cbn [fst snd].
    destruct (date_gt n _); destruct s; reflexivity.
  - unfold exec, check_monthly_reset, bind, gets, modify, ret. cbn [fst snd].
    destruct (_ || _); destruct s; reflexivity.
  - reflexivity.
  - reflexivity.
  - reflexivity.
Qed.

Lemma run_frame (ops : list ledger_op) (s : BillingConfig) :
  run ops s = set_usage_stats (usage_stats (run ops s)) s.
Proof.
  revert s. induction ops as [|op ops IH]; intros s.
  - destruct s. reflexivity.
  - cbn [run fold_left]. fold (run ops (apply_op op s)).
    rewrite (IH (apply_op op s)) at 1.
    rewrite (apply_op_frame op s) at 2. reflexivity.
Qed.

(** [track_usage] writes to the ledger only: the catalog, the thresholds,
    the two switches and the file path of the configuration are the same
    after the call as before, whether it returns or raises. *)
Theorem track_usage_touches_only_the_ledger (now : datetime)
    (model_name : string) (i o : Z) (self : BillingConfig) :
  exec (track_usage now model_name i o) self
  = set_usage_stats
      (usage_stats (exec (track_usage now model_name i o) self)) self.
Proof.
  rewrite track_usage_history. apply run_frame.
Qed.

(** ** The two request counters *)

Lemma apply_op_requests (op : ledger_op) (self : BillingConfig) :
  request_count (usage_stats self) = total_requests (usage_stats self) ->
  request_count (usage_stats (apply_op op self))
  = total_requests (usage_stats (apply_op op self)).
Proof.
  intros H.
  destruct op as [m a b | n | n | n | n | n]; cbn [apply_op].
  - unfold exec, update_usage, bind, reads, modify, ret.
    destruct (calculate_cost self m a b); cbn; [|exact H]. now rewrite H.
  - unfold exec, check_daily_reset, bind, gets, modify, ret. cbn.
    destruct (date_gt n _); cbn; exact H.
  - unfold exec, check_monthly_reset, bind, gets, modify, ret. cbn.
    destruct (_ || _); cbn; exact H.
  - exact H.
  - exact H.
  - reflexivity.
Qed.

Lemma run_requests (ops : list ledger_op) (self : BillingConfig) :
  request_count (usage_stats self) = total_requests (usage_stats self) ->
  request_count (usage_stats (run ops self))
  = total_requests (usage_stats (run ops self)).
Proof.
  revert self. induction ops as [|op ops IH]; intros self H; [exact H|].
  cbn [run fold_left]. apply IH. apply apply_op_requests. exact H.
Qed.

(** [request_count] and [total_requests] are kept in step: if they agree
    (as on a new or reset ledger), they agree after any history of commits,
    rollovers and resets, and after any sequence of [track_usage] calls. *)
Theorem request_counters_stay_in_step (self : BillingConfig) :
  request_count (usage_stats self) = total_requests (usage_stats self) ->
  (forall ops,
     request_count (usage_stats (run ops self))
     = total_requests (usage_stats (run ops self)))
  /\ (forall calls,
        request_count (usage_stats (track_session calls self))
        = total_requests (usage_stats (track_session calls self))).
Proof.
  intros H. split.
  - intros ops. apply run_requests. exact H.
  - intros calls. destruct (track_session_history calls self) as (ops & -> & _).
    apply run_requests. exact H.
Qed.

Lemma request_counters_stay_in_step_witness :
  let calls := [mk_call noon "m" 1000 500; mk_call noon "gpt-5" 1 1;
                mk_call next_day "m" 10 10] in
  request_count (usage_stats (track_session calls scenario_A)) = 2
  /\ total_requests (usage_stats (track_session calls scenario_A)) = 2.
Proof.
  cbv zeta.
  rewrite <- (proj2 (request_counters_stay_in_step scenario_A eq_refl)).
  split; vm_compute; reflexivity.
Defined.

(** ** Counters along a session *)

Lemma add_usage_counters (i o : Z) (c : float) (u : UsageStats) :
  0 <= i -> 0 <= o -> Float.nonneg c = true ->
  counters_nonneg u -> counters_nonneg (add_usage i o c u).
Proof.
  intros Hi Ho Hc
    (A1 & A2 & A3 & A4 & A5 & A6 & A7 & A8 & A9 & A10 & A11 & A12 & A13).
  unfold counters_nonneg. cbn [add_usage total_input_tokens
    total_output_tokens total_cost daily_input_tokens daily_output_tokens
    daily_cost monthly_input_tokens monthly_output_tokens monthly_cost
    request_count total_requests daily_requests monthly_requests].
  repeat split; try lia; apply add_nonneg; assumption.
Qed.

Lemma apply_op_counters (op : ledger_op) (self : BillingConfig) :
  prices_nonneg self -> nonneg_commit op ->
  counters_nonneg (usage_stats self) ->
  counters_nonneg (usage_stats (apply_op op self)).
Proof.
  intros Hprices Hop Hok.
  pose proof Hok as
    (A1 & A2 & A3 & A4 & A5 & A6 & A7 & A8 & A9 & A10 & A11 & A12 & A13).
  destruct op as [m i o | now | now | now | now | now]; cbn [apply_op].
  - destruct Hop as [Hi Ho].
    unfold exec, update_usage, bind, reads, modify, ret.
    destruct (calculate_cost self m i o) as [c|e] eqn:Hc; cbn; [| exact Hok].
    apply add_usage_counters; try assumption.
    exact (calculate_cost_nonneg self m i o c Hprices Hi Ho Hc).
  - unfold exec, check_daily_reset, bind, gets, modify, ret. cbn.
    destruct (date_gt now _); cbn; [|exact Hok].
    unfold counters_nonneg. cbn. repeat split; try assumption; lia.
  - unfold exec, check_monthly_reset, bind, gets, modify, ret. cbn.
    destruct (_ || _); cbn; [|exact Hok].
    unfold counters_nonneg. cbn. repeat split; try assumption; lia.
  - unfold counters_nonneg. cbn. repeat split; try assumption; lia.
  - unfold counters_nonneg. cbn. repeat split; try assumption; lia.
  - unfold counters_nonneg. cbn. repeat split; try reflexivity; lia.
Qed.

Lemma run_counters (ops : list ledger_op) (self : BillingConfig) :
  prices_nonneg self -> Forall nonneg_commit ops ->
  counters_nonneg (usage_stats self) ->
  counters_nonneg (usage_stats (run ops self)).
Proof.
  revert self. induction ops as [|op ops IH]; intros self Hprices Hops Hok;
    [exact Hok |].
  inversion Hops as [|? ? Hop Hrest]; subst.
  cbn [run fold_left]. apply IH.
  - unfold prices_nonneg. rewrite apply_op_models. exact Hprices.
  - exact Hrest.
  - apply apply_op_counters; assumption.
Qed.

Lemma zeroed_counters (u : UsageStats) : zeroed u -> counters_nonneg u.
Proof.
  intros ->. unfold counters_nonneg. cbn.
  repeat split; try reflexivity; lia.
Qed.

(** Starting from a ledger at zero, with non-negative finite prices, any
    sequence of [track_usage] calls with non-negative token counts, each
    returning or raising as it may, leaves a ledger in which no counter is
    negative, no cost is NaN, and the daily and monthly counters do not
    exceed the lifetime ones. *)
Theorem session_keeps_ledger_sound (self : BillingConfig)
    (calls : list call) :
  zeroed (usage_stats self) ->
  prices_nonneg self ->
  Forall nonneg_call calls ->
  counters_nonneg (usage_stats (track_session calls self))
  /\ windows_within_lifetime (usage_stats (track_session calls self)).
Proof.
  intros Z P F.
  destruct (track_session_history calls self) as (ops & -> & N).
  split.
  - apply run_counters; [exact P|exact (N F)|].
    apply zeroed_counters. exact Z.
  - apply (run_ok ops self P (N F)). apply zeroed_ok. exact Z.
Qed.

Lemma session_keeps_ledger_sound_witness :
  let calls := [mk_call noon "m" 1000 500; mk_call noon "gpt-5" 1 1;
                mk_call next_day "m" 10 10] in
  counters_nonneg (usage_stats (track_session calls scenario_A))
  /\ windows_within_lifetime (usage_stats (track_session calls scenario_A)).
Proof.
  cbv zeta. apply session_keeps_ledger_sound.
  - reflexivity.
  - exact scenario_A_prices.
  - repeat constructor; vm_compute; discriminate.
Defined.

(** ** Lifetime counters as sums *)

Lemma calculate_cost_models (s s' : BillingConfig) (model_name : string)
    (i o : Z) :
  models s = models s' ->
  calculate_cost s model_name i o = calculate_cost s' model_name i o.
Proof.
  intros E. unfold calculate_cost, get_model_config. now rewrite E.
Qed.

Lemma priced_models (s s' : BillingConfig) (op : ledger_op) :
  models s = models s' -> priced s op = priced s' op.
Proof.
  intros E. destruct op; try reflexivity.
  cbn [priced]. now rewrite (calculate_cost_models s s' _ _ _ E).
Qed.

Lemma filter_priced_models (s s' : BillingConfig) (ops : list ledger_op) :
  models s = models s' ->
  List.filter (priced s) ops = List.filter (priced s') ops.
Proof.
  intros E. induction ops as [|op ops IH]; [reflexivity|].
  cbn [List.filter]. now rewrite IH, (priced_models s s' op E).
Qed.

Lemma apply_op_totals (op : ledger_op) (self : BillingConfig) :
  is_reset_all op = false ->
  let u := usage_stats self in
  let u' := usage_stats (apply_op op self) in
  total_input_tokens u'
  = total_input_tokens u + (if priced self op then op_input op else 0)
  /\ total_output_tokens u'
     = total_output_tokens u + (if priced self op then op_output op else 0)
  /\ total_requests u'
     = total_requests u + (if priced self op then 1 else 0).
Proof.
  intros R. cbv zeta.
  destruct op as [m i o | now | now | now | now | now];
    cbn [apply_op priced op_input op_output]; try discriminate R.
  - unfold exec, update_usage, bind, reads, modify, ret.
    destruct (calculate_cost self m i o); cbn; lia.
  - unfold exec, check_daily_reset, bind, gets, modify, ret. cbn.
    destruct (date_gt now _); cbn; lia.
  - unfold exec, check_monthly_reset, bind, gets, modify, ret. cbn.
    destruct (_ || _); cbn; lia.
  - cbn. lia.
  - cbn. lia.
Qed.

(** As long as the ledger is not reset as a whole, the lifetime counters are
    exact sums: after any history of commits, rollover checks and daily or
    monthly resets, the lifetime input tokens, output tokens and requests
    have grown by those of the commits that priced, and by nothing else. *)
Theorem lifetime_counters_sum_the_commits (self : BillingConfig)
    (ops : list ledger_op) :
  Forall (fun op => is_reset_all op = false) ops ->
  let u := usage_stats self in
  let u' := usage_stats (run ops self) in
  total_input_tokens u' = total_input_tokens u + committed_input self ops
  /\ total_output_tokens u' = total_output_tokens u + committed_output self ops
  /\ total_requests u' = total_requests u + committed_requests self ops.
Proof.
  cbv zeta. unfold committed_input, committed_output, committed_requests.
  revert self. induction ops as [|op ops IH]; intros self F.
  - cbn. lia.
  - inversion F as [|? ? R Rest]; subst.
    cbn [run fold_left]. fold (run ops (apply_op op self)).
    destruct (IH (apply_op op self) Rest) as (I1 & I2 & I3).
    destruct (apply_op_totals op self R) as (T1 & T2 & T3).
    rewrite (filter_priced_models (apply_op op self) self ops
               (apply_op_models op self)) in I1, I2, I3.
    rewrite I1, I2, I3, T1, T2, T3.
    cbn [List.filter]. destruct (priced self op); cbn [map Zsum fold_right length];
      fold (Zsum (map op_input (List.filter (priced self) ops)));
      fold (Zsum (map op_output (List.filter (priced self) ops))); lia.
Qed.

Lemma lifetime_counters_sum_the_commits_witness :
  let ops := [Commit "m" 1000 500; RollDaily next_day; Commit "gpt-5" 7 7;
              ResetDaily next_day; Commit "m" 10 10] in
  total_input_tokens (usage_stats (run ops scenario_A)) = 0 + (1000 + (7 + (10 + 0)))
  /\ total_requests (usage_stats (run ops scenario_A)) = 0 + 3.
Proof.
  cbv zeta.
  pose proof (lifetime_counters_sum_the_commits scenario_A
                [Commit "m" 1000 500; RollDaily next_day; Commit "gpt-5" 7 7;
                 ResetDaily next_day; Commit "m" 10 10]) as H.
  cbv zeta in H. destruct H as (H1 & _ & H3).
  - repeat constructor.
  - rewrite H1, H3. split; vm_compute; reflexivity.
Defined.

(** ** Admission against commit *)

Lemma gt_ge (a b : float) : Float.gt a b = true -> Float.ge a b = true.
Proof.
  unfold Float.gt, Float.ge, SFltb, SFleb.
  destruct (SFcompare b a) as [[]|]; try discriminate; reflexivity.
Qed.

Lemma SFcompare_antisym (a b : float) :
  SFcompare b a
  = match SFcompare a b with
    | Some c => Some (CompOpp c)
    | None => None
    end.
Proof.
  destruct a as [sa|sa| |sa ma ea], b as [sb|sb| |sb mb eb];
    try (destruct sa); try (destruct sb); cbn; try reflexivity.
  - rewrite (Z.compare_antisym ea eb).
    destruct (ea ?= eb)%Z eqn:E; cbn; try reflexivity.
    change (PosDef.Pos.compare_cont Eq mb ma) with (Pos.compare mb ma).
    change (PosDef.Pos.compare_cont Eq ma mb) with (Pos.compare ma mb).
    rewrite (Pos.compare_antisym ma mb).
    destruct (ma ?= mb)%positive; reflexivity.
  - rewrite (Z.compare_antisym ea eb).
    destruct (ea ?= eb)%Z eqn:E; cbn; try reflexivity.
    change (PosDef.Pos.compare_cont Eq mb ma) with (Pos.compare mb ma).
    change (PosDef.Pos.compare_cont Eq ma mb) with (Pos.compare ma mb).
    rewrite (Pos.compare_antisym ma mb). reflexivity.
Qed.

Lemma ge_not_gt (a b : float) :
  Float.ge a b = true -> Float.gt a b = false -> SFeqb a b = true.
Proof.
  unfold Float.gt, Float.ge, SFltb, SFleb, SFeqb.
  rewrite (SFcompare_antisym a b).
  destruct (SFcompare a b) as [[]|]; cbn; congruence.
Qed.

Lemma primary_violation_sound (self : BillingConfig) (e : exn) :
  primary_violation self = Some e -> violation self e.
Proof.
  unfold primary_violation. cbv zeta.
  destruct (cost_exceededb (daily_cost (usage_stats self)) _) eqn:E1.
  { apply cost_exceededb_iff in E1. destruct E1 as (l & H1 & H2 & H3).
    intros [= <-]. rewrite H1. cbn [from_option].
    apply violation_daily_cost; assumption. }
  destruct (token_exceededb (daily_tokens (usage_stats self)) _) eqn:E2.
  { apply token_exceededb_iff in E2. destruct E2 as (l & H1 & H2 & H3).
    intros [= <-]. rewrite H1. cbn [from_option].
    apply violation_daily_token; assumption. }
  destruct (cost_exceededb (monthly_cost (usage_stats self)) _) eqn:E3.
  { apply cost_exceededb_iff in E3. destruct E3 as (l & H1 & H2 & H3).
    intros [= <-]. rewrite H1. cbn [from_option].
    apply violation_monthly_cost; assumption. }
  destruct (token_exceededb (monthly_tokens (usage_stats self)) _) eqn:E4.
  { apply token_exceededb_iff in E4. destruct E4 as (l & H1 & H2 & H3).
    intros [= <-]. rewrite H1. cbn [from_option].
    apply violation_monthly_token; assumption. }
  discriminate.
Qed.

Lemma raised_for_threshold (e : exn) (ty : string) (cur lim : pyval) :
  raised_for e = ThresholdExceededException ty cur lim ->
  e = ThresholdExceededException ty cur lim.
Proof.
  destruct e as [ty' cur' lim' | | | |]; cbn [raised_for]; try discriminate.
  destruct (printable cur' && printable lim'); [auto | discriminate].
Qed.

(** A commit that meets a hard limit raises the exception of a met limit,
    or [ValueError] when its message cannot show an integer. *)
Lemma commit_with_violation_raises (now : datetime) (model_name : string)
    (i o : Z) (self self' : BillingConfig) (c : float) :
  is_enabled self = true ->
  gate_passes self model_name ->
  update_usage model_name i o (rolled now self) = (Return c, self') ->
  token_limits_convert (thresholds self) ->
  (exists e, violation self' e) ->
  exists ty cur lim,
    violation self' (ThresholdExceededException ty cur lim)
    /\ track_usage now model_name i o self
       = (Raise (if printable cur && printable lim
                 then ThresholdExceededException ty cur lim
                 else ValueError),
          self').
Proof.
  intros Hon Hgate Hup Hconv Hviol.
  destruct (primary_of_violation self' Hviol) as (e & Hprim & Hv).
  assert (Hconv' : token_limits_convert (thresholds self')).
  { rewrite (update_usage_thresholds _ _ _ _ _ _ Hup), rolled_thresholds.
    exact Hconv. }
  destruct (check_thresholds_returns self' Hconv') as (dt & mt & _ & _ & Hws).
  assert (He : exists ty cur lim, e = ThresholdExceededException ty cur lim)
    by (destruct Hv; eauto).
  destruct He as (ty & cur & lim & ->).
  exists ty, cur, lim. split; [exact Hv|].
  rewrite (track_usage_committed now model_name i o self self' c Hon Hgate Hup).
  rewrite Hws. cbn zeta.
  erewrite (handle_raises_primary self' _ _
              (ThresholdExceededException ty cur lim));
    [reflexivity | exact Hws | reflexivity | reflexivity | exact Hprim].
Qed.

(** A commit that raises [ThresholdExceededException] has met a hard
    limit. *)
Lemma commit_raise_is_violation (now : datetime) (model_name : string)
    (i o : Z) (self self' : BillingConfig) (c : float) (ty : string)
    (cur lim : pyval) :
  is_enabled self = true ->
  gate_passes self model_name ->
  update_usage model_name i o (rolled now self) = (Return c, self') ->
  eval (track_usage now model_name i o) self
  = Raise (ThresholdExceededException ty cur lim) ->
  violation self' (ThresholdExceededException ty cur lim).
Proof.
  intros Hon Hgate Hup. unfold eval.
  rewrite (track_usage_committed now model_name i o self self' c Hon Hgate Hup).
  destruct (check_thresholds self') as [ws|e] eqn:C.
  2:{ cbn [fst]. intros [= ->].
      rewrite check_thresholds_signals in C. cbv zeta in C.
      destruct (token_signal "daily_token_exceeded" _ _ _ _) as [dt|e] eqn:Edt;
        cbn [obind] in C.
      - destruct (token_signal "monthly_token_exceeded" _ _ _ _) as [mt|e]
          eqn:Emt; cbn [obind] in C; [discriminate C|].
        injection C as ->. exfalso. revert Emt. unfold token_signal.
        destruct (monthly_token_limit _); [|discriminate].
        destruct (negb _); [|discriminate]. destruct (_ <=? _); [discriminate|].
        unfold int_times_float, Float.of_int, Float.overflow_check.
        destruct (binary_normalize _ _ _ _ _); cbn [obind];
          try destruct (Float.int_ge _ _); discriminate.
      - injection C as ->. exfalso. revert Edt. unfold token_signal.
        destruct (daily_token_limit _); [|discriminate].
        destruct (negb _); [|discriminate]. destruct (_ <=? _); [discriminate|].
        unfold int_times_float, Float.of_int, Float.overflow_check.
        destruct (binary_normalize _ _ _ _ _); cbn [obind];
          try destruct (Float.int_ge _ _); discriminate. }
  cbv zeta.
  destruct (List.filter is_exceeded_key (dict_keys ws)) eqn:F.
  - rewrite (handle_without_hard_limit self' ws _ C F).
    destruct ws; discriminate.
  - destruct (primary_violation self') as [e|] eqn:P.
    + pose proof (handle_raises_primary self' ws
                    (usage_record now model_name i o c self' ws) e C
                    eq_refl eq_refl P) as HP.
      unfold usage_record in HP. rewrite HP. cbn [fst]. intros [= E].
      apply raised_for_threshold in E. subst e.
      apply primary_violation_sound. exact P.
    + apply (exceeded_filter_primary self' ws C) in P. congruence.
Qed.

Lemma check_report_of (self : BillingConfig) (model_name : string) (n : Z)
    (r : check_report) :
  is_enabled self = true ->
  eval (check_limits_before_request model_name n) self
  = Return (CheckReport r) ->
  estimate_cost self model_name n 0 = Return (estimated_cost r)
  /\ (allowed r = false <-> denials self (estimated_cost r) n <> []).
Proof.
  intros Hon. rewrite check_limits_report, Hon. cbn [negb].
  destruct (estimate_cost self model_name n 0) as [c|e]; cbn [obind];
    [|discriminate].
  intros [= <-]. cbn [estimated_cost allowed]. split; [reflexivity|].
  destruct (denials self c n); split; congruence.
Qed.

(** When no rollover is pending, a request that the admission check denies
    cannot be committed without an exception: [track_usage] with the same
    model and the estimated tokens as input (and no output) counts them and
    raises the [ThresholdExceededException] of a limit that the counted
    ledger meets, or [ValueError] when the current value or the limit of
    that exception is an integer of more than 4300 digits, which its
    message cannot show. *)
Theorem denied_request_raises_when_committed (now : datetime)
    (model_name : string) (n : Z) (self : BillingConfig) (r : check_report) :
  is_enabled self = true ->
  gate_passes self model_name ->
  rolled now self = self ->
  token_limits_convert (thresholds self) ->
  eval (check_limits_before_request model_name n) self
  = Return (CheckReport r) ->
  allowed r = false ->
  let self' :=
    set_usage_stats (add_usage n 0 (estimated_cost r) (usage_stats self))
                    self in
  exists ty cur lim,
    violation self' (ThresholdExceededException ty cur lim)
    /\ track_usage now model_name n 0 self
       = (Raise (if printable cur && printable lim
                 then ThresholdExceededException ty cur lim
                 else ValueError),
          self').
Proof.
  intros Hon Hgate Hroll Hconv Hcheck Hden. cbv zeta.
  destruct (check_report_of self model_name n r Hon Hcheck) as [Hest Hal].
  apply Hal in Hden. apply denials_nil_iff in Hden.
  set (c := estimated_cost r) in *.
  set (self' := set_usage_stats (add_usage n 0 c (usage_stats self)) self).
  assert (Hup : update_usage model_name n 0 (rolled now self)
                = (Return c, self')).
  { rewrite Hroll. unfold update_usage, bind, reads, modify, ret.
    unfold estimate_cost in Hest. rewrite Hest. reflexivity. }
  apply (commit_with_violation_raises now model_name n 0 self self' c
           Hon Hgate Hup Hconv).
  destruct Hden as [(l & L & T & O) | [(l & L & T & O) | [(l & L & T & O)
                   | (l & L & T & O)]]].
  - eexists. apply (violation_daily_cost self' l); [exact L|exact T|].
    apply gt_ge. exact O.
  - eexists. apply (violation_monthly_cost self' l); [exact L|exact T|].
    apply gt_ge. exact O.
  - eexists. apply (violation_daily_token self' l); [exact L|exact T|].
    unfold daily_tokens in *. cbn. lia.
  - eexists. apply (violation_monthly_token self' l); [exact L|exact T|].
    unfold monthly_tokens in *. cbn. lia.
Qed.

Lemma denied_request_raises_when_committed_witness :
  exists r ty cur lim,
    eval (check_limits_before_request "m" 50001) scenario_B
    = Return (CheckReport r)
    /\ allowed r = false
    /\ eval (track_usage noon "m" 50001 0) scenario_B
       = Raise (ThresholdExceededException ty cur lim).
Proof.
  pose (r := mk_check_report false
               [mk_limit_warning "daily_cost_limit"
                  "Request would exceed daily cost limit"
                  (PyFloat (Float.decimal 9 10))
                  (PyFloat (S754_finite false 4503608634569751 (-52)))
                  (PyFloat (Float.decimal 1 1))]
               (S754_finite false 7205903518980869 (-56))
               (Float.decimal 9 10) (Float.decimal 9 10)).
  assert (C : eval (check_limits_before_request "m" 50001) scenario_B
              = Return (CheckReport r))
    by (vm_compute; reflexivity).
  pose proof (denied_request_raises_when_committed noon "m" 50001 scenario_B
                r) as H.
  destruct H as (ty & cur & lim & V & T).
  - reflexivity.
  - left. vm_compute. discriminate.
  - vm_compute. reflexivity.
  - intros l [E | E]; vm_compute in E; discriminate E.
  - exact C.
  - reflexivity.
  - exists r, ty, cur, lim. split; [exact C|]. split; [reflexivity|].
    unfold eval. rewrite T. cbn [fst].
    destruct (printable cur && printable lim); [reflexivity|]. exfalso.
    pose (e0 := match fst (track_usage noon "m" 50001 0 scenario_B) with
                | Raise e => e
                | Return _ => ValueError
                end).
    assert (K : match e0 with
                | ThresholdExceededException _ _ _ => true
                | _ => false
                end = true) by (vm_compute; reflexivity).
    unfold e0 in K. rewrite T in K. discriminate K.
Defined.

(** When no rollover is pending, a request that the admission check allows
    can still raise [ThresholdExceededException] when committed with no
    output tokens, but only by landing exactly on a limit: the check denies
    a projection strictly above the limit, the commit raises from the limit
    on. *)
Theorem allowed_request_raises_only_at_a_limit (now : datetime)
    (model_name : string) (n : Z) (self : BillingConfig) (r : check_report)
    (ty : string) (cur lim : pyval) :
  is_enabled self = true ->
  gate_passes self model_name ->
  rolled now self = self ->
  eval (check_limits_before_request model_name n) self
  = Return (CheckReport r) ->
  allowed r = true ->
  eval (track_usage now model_name n 0) self
  = Raise (ThresholdExceededException ty cur lim) ->
  some_projection_at_limit self (estimated_cost r) n.
Proof.
  intros Hon Hgate Hroll Hcheck Hal Hraise.
  destruct (check_report_of self model_name n r Hon Hcheck) as [Hest Hden].
  set (c := estimated_cost r) in *.
  set (self' := set_usage_stats (add_usage n 0 c (usage_stats self)) self).
  assert (Hup : update_usage model_name n 0 (rolled now self)
                = (Return c, self')).
  { rewrite Hroll. unfold update_usage, bind, reads, modify, ret.
    unfold estimate_cost in Hest. rewrite Hest. reflexivity. }
  pose proof (commit_raise_is_violation now model_name n 0 self self' c ty cur
                lim Hon Hgate Hup Hraise) as V.
  assert (N : ~ (denials self c n <> [])).
  { intros D. apply Hden in D. congruence. }
  rewrite denials_nil_iff in N.
  unfold some_projection_at_limit.
  inversion V as [l L T G | l L T G | l L T G | l L T G]; subst.
  - left. exists l. split; [exact L|]. split; [exact T|].
    apply ge_not_gt; [exact G|].
    destruct (Float.gt _ l) eqn:E; [|reflexivity].
    exfalso. apply N. left. exists l. auto.
  - right; right; left. exists l. split; [exact L|]. split; [exact T|].
    unfold daily_tokens in *. cbn in G.
    destruct (Z.eq_dec (daily_input_tokens (usage_stats self)
                        + daily_output_tokens (usage_stats self) + n) l)
      as [E|E]; [exact E|].
    exfalso. apply N. right; right; left. exists l.
    unfold daily_tokens. repeat split; [exact L|exact T|lia].
  - right; left. exists l. split; [exact L|]. split; [exact T|].
    apply ge_not_gt; [exact G|].
    destruct (Float.gt _ l) eqn:E; [|reflexivity].
    exfalso. apply N. right; left. exists l. auto.
  - right; right; right. exists l. split; [exact L|]. split; [exact T|].
    unfold monthly_tokens in *. cbn in G.
    destruct (Z.eq_dec (monthly_input_tokens (usage_stats self)
                        + monthly_output_tokens (usage_stats self) + n) l)
      as [E|E]; [exact E|].
    exfalso. apply N. right; right; right. exists l.
    unfold monthly_tokens. repeat split; [exact L|exact T|lia].
Qed.

Lemma allowed_request_raises_only_at_a_limit_witness :
  eval (track_usage noon "m" 50000 0) scenario_B
  = Raise (ThresholdExceededException "daily_cost"
             (PyFloat (Float.decimal 1 1)) (PyFloat (Float.decimal 1 1)))
  /\ some_projection_at_limit scenario_B (Float.decimal 1 10) 50000.
Proof.
  assert (T : eval (track_usage noon "m" 50000 0) scenario_B
              = Raise (ThresholdExceededException "daily_cost"
                         (PyFloat (Float.decimal 1 1))
                         (PyFloat (Float.decimal 1 1))))
    by (vm_compute; reflexivity).
  split; [exact T|].
  apply (allowed_request_raises_only_at_a_limit noon "m" 50000 scenario_B
           (mk_check_report true [] (Float.decimal 1 10) (Float.decimal 9 10)
                            (Float.decimal 9 10))
           "daily_cost" (PyFloat (Float.decimal 1 1))
           (PyFloat (Float.decimal 1 1))).
  - reflexivity.
  - left. vm_compute. discriminate.
  - vm_compute. reflexivity.
  - vm_compute. reflexivity.
  - reflexivity.
  - exact T.
Defined.

(** ** The admission estimate *)

Lemma add_comm (x y : float) : Float.add x y = Float.add y x.
Proof.
  unfold Float.add.
  destruct x as [sx|sx| |sx mx ex], y as [sy|sy| |sy my ey];
    try reflexivity.
  - destruct sx, sy; reflexivity.
  - destruct sx, sy; reflexivity.
  - cbn [SFadd]. rewrite (Z.min_comm ex ey).
    rewrite (Z.add_comm (cond_Zopp sx _)). reflexivity.
Qed.

Lemma zero_any_le (s : bool) (y : float) :
  Float.nonneg y = true -> Float.le (S754_zero s) y = true.
Proof.
  destruct y as [sy|sy| |sy my ey]; cbn; try discriminate; try reflexivity.
  - now destruct sy.
  - destruct sy; [discriminate|reflexivity].
Qed.

Lemma mul_zero_price (p : float) :
  price_ok p -> exists s, Float.mul Float.zero p = S754_zero s.
Proof.
  intros [N F]. destruct p as [sp|sp| |sp mp ep]; try discriminate F.
  - eexists. reflexivity.
  - eexists. reflexivity.
Qed.

(** The admission check prices a request at its input tokens alone.  With
    non-negative finite prices, that estimate is never above the cost
    charged by a commit of the same input tokens, whatever the
    (non-negative) number of output tokens. *)
Theorem admission_estimate_is_a_lower_bound (self : BillingConfig)
    (model_name : string) (n o : Z) (c : float) :
  prices_nonneg self -> 0 <= n -> 0 <= o ->
  calculate_cost self model_name n o = Return c ->
  exists e,
    estimate_cost self model_name n 0 = Return e /\ Float.le e c = true.
Proof.
  intros P Hn Ho. unfold estimate_cost, calculate_cost, get_model_config.
  destruct (models self !! model_name) as [mc|] eqn:L.
  2:{ intros [= <-]. exists Float.zero. split; reflexivity. }
  destruct (P model_name mc L) as [Pi Po].
  destruct (Float.int_truediv n 1000) as [a|] eqn:A; cbn [obind];
    [|discriminate].
  destruct (Float.int_truediv o 1000) as [b|] eqn:B; cbn [obind];
    [|discriminate].
  intros [= <-].
  change (Float.int_truediv 0 1000) with (Return Float.zero). cbn [obind].
  eexists. split; [reflexivity|].
  destruct (int_truediv_nonneg n 1000 a Hn A) as [Na Fa].
  destruct (int_truediv_nonneg o 1000 b Ho B) as [Nb Fb].
  destruct Pi as [Ni Fi]. destruct (mul_zero_price _ Po) as [s Z].
  destruct Po as [No Fo].
  rewrite Z.
  rewrite (add_comm _ (S754_zero s)), (add_comm _ (Float.mul b _)).
  apply add_le_mono.
  - reflexivity.
  - apply mul_nonneg; assumption.
  - apply mul_nonneg; assumption.
  - apply zero_any_le. apply mul_nonneg; assumption.
Qed.

Lemma admission_estimate_is_a_lower_bound_witness :
  exists e,
    estimate_cost scenario_A "m" 1000 0 = Return e
    /\ Float.le e (Float.decimal 4 1000) = true.
Proof.
  apply (admission_estimate_is_a_lower_bound scenario_A "m" 1000 500).
  - exact scenario_A_prices.
  - lia.
  - lia.
  - vm_compute. reflexivity.
Defined.

(** ** The catalog *)

Lemma exec_add_model_config (mc : ModelConfig) (self : BillingConfig) :
  exec (ConfigManager.add_model_config mc) self
  = set_models (<[name mc := mc]> (models self)) self.
Proof. reflexivity. Qed.

Lemma exec_remove_model_config (model_name : string) (self : BillingConfig) :
  exec (ConfigManager.remove_model_config model_name) self
  = match models self !! model_name with
    | Some _ => set_models (delete model_name (models self)) self
    | None => self
    end.
Proof.
  unfold exec, ConfigManager.remove_model_config, ConfigManager.load_config,
    bind, gets, ret, modify, save_config. cbn [fst snd].
  destruct (models self !! model_name); reflexivity.
Qed.

(** [add_model_config] files a model under its own [name]: afterwards the
    model is found under that name and passes the gate of [track_usage],
    every other name is looked up as before, and the ledger and thresholds
    are untouched.  On an empty catalog, which accepts every model, adding
    the first model makes all other names fail the gate. *)
Theorem added_model_is_found (mc : ModelConfig) (self : BillingConfig)
    (n : string) :
  let self' := exec (ConfigManager.add_model_config mc) self in
  get_model_config self' n
  = (if String.eqb n (name mc) then Some mc else get_model_config self n)
  /\ usage_stats self' = usage_stats self
  /\ thresholds self' = thresholds self
  /\ gate_passes self' (name mc)
  /\ (n <> name mc -> get_model_config self n = None -> ~ gate_passes self' n).
Proof.
  cbv zeta. rewrite exec_add_model_config.
  unfold get_model_config, gate_passes. cbn [models set_models].
  split; [|split; [reflexivity|split; [reflexivity|split]]].
  - destruct (String.eqb_spec n (name mc)) as [-> | N].
    + apply lookup_insert_eq.
    + apply lookup_insert_ne. congruence.
  - left. rewrite lookup_insert_eq. discriminate.
  - intros N L [H | H].
    + apply H. rewrite lookup_insert_ne by congruence. exact L.
    + exact (insert_non_empty _ _ _ H).
Qed.

Lemma added_model_is_found_witness :
  let self' := exec (ConfigManager.add_model_config model_m)
                    empty_catalog in
  gate_passes empty_catalog "gpt-5"
  /\ ~ gate_passes self' "gpt-5".
Proof.
  cbv zeta. split; [right; reflexivity|].
  apply (added_model_is_found model_m empty_catalog "gpt-5").
  - discriminate.
  - reflexivity.
Defined.

(** [remove_model_config] takes exactly the named model out of the catalog:
    the name is no longer found, every other name is looked up as before,
    and removing a name that is not configured changes nothing.  It undoes
    the addition of a model that was not configured before; and removing
    the only model of a catalog leaves the empty catalog, under which every
    model name passes the gate of [track_usage]. *)
Theorem removed_model_is_gone (model_name : string) (self : BillingConfig) :
  let self' := exec (ConfigManager.remove_model_config model_name) self in
  (forall n,
     get_model_config self' n
     = if String.eqb n model_name then None else get_model_config self n)
  /\ (get_model_config self model_name = None -> self' = self)
  /\ (forall mc,
        name mc = model_name ->
        get_model_config self model_name = None ->
        exec (ConfigManager.remove_model_config model_name)
             (exec (ConfigManager.add_model_config mc) self) = self)
  /\ (forall mc,
        models self = {[ model_name := mc ]} ->
        forall n, gate_passes self' n).
Proof.
  cbv zeta. rewrite exec_remove_model_config.
  unfold get_model_config.
  split; [|split; [|split]].
  - intros n. destruct (models self !! model_name) eqn:L.
    + cbn [models set_models].
      destruct (String.eqb_spec n model_name) as [-> | N].
      * apply lookup_delete_eq.
      * apply lookup_delete_ne. congruence.
    + destruct (String.eqb_spec n model_name) as [-> | N];
        [exact L|reflexivity].
  - intros ->. reflexivity.
  - intros mc <- L.
    rewrite exec_remove_model_config, exec_add_model_config.
    cbn [models set_models]. rewrite lookup_insert_eq.
    rewrite (delete_insert_id _ _ _ L). destruct self. reflexivity.
  - intros mc E n. right. rewrite E, lookup_singleton_eq.
    cbn [models set_models]. apply delete_singleton_eq.
Qed.

Lemma removed_model_is_gone_witness :
  exec (ConfigManager.remove_model_config "n")
       (exec (ConfigManager.add_model_config model_n) scenario_A)
  = scenario_A
  /\ gate_passes (exec (ConfigManager.remove_model_config "m") scenario_A)
                 "gpt-5".
Proof.
  pose proof (removed_model_is_gone "n" scenario_A) as H1.
  pose proof (removed_model_is_gone "m" scenario_A) as H2.
  cbv zeta in H1, H2.
  destruct H1 as (_ & _ & H1 & _). destruct H2 as (_ & _ & _ & H2).
  split.
  - apply (H1 model_n); reflexivity.
  - apply (H2 model_m). reflexivity.
Defined.

(** With an empty catalog the monitor accepts every model name and prices it
    at 0.0: [track_usage] never raises [ModelNotConfiguredException] nor
    [OverflowError] from pricing, and counts the tokens and the request
    with a cost of 0.0. *)
Theorem empty_catalog_prices_at_zero (now : datetime) (model_name : string)
    (i o : Z) (self : BillingConfig) :
  is_enabled self = true ->
  models self = ∅ ->
  estimate_cost self model_name i o = Return Float.zero
  /\ exec (track_usage now model_name i o) self
     = set_usage_stats
         (add_usage i o Float.zero (usage_stats (rolled now self)))
         (rolled now self)
  /\ (forall n,
        eval (track_usage now model_name i o) self
        <> Raise (ModelNotConfiguredException n)).
Proof.
  intros En E.
  assert (L : models self !! model_name = None) by (rewrite E; apply lookup_empty).
  assert (G : gate_passes self model_name) by (right; exact E).
  assert (C : calculate_cost self model_name i o = Return Float.zero)
    by (apply calculate_cost_unknown; exact L).
  split; [exact C|]. split.
  - apply track_usage_state; assumption.
  - intros n H. unfold eval in H.
    assert (U : update_usage model_name i o (rolled now self)
                = (Return Float.zero,
                   set_usage_stats
                     (add_usage i o Float.zero (usage_stats (rolled now self)))
                     (rolled now self))).
    { unfold update_usage, bind, reads, modify, ret.
      rewrite calculate_cost_rolled, C. reflexivity. }
    rewrite (track_usage_committed now model_name i o self _ _ En G U) in H.
    match type of H with
    | context [check_thresholds ?s] =>
        set (self' := s) in *; destruct (check_thresholds self') as [ws|e] eqn:T
    end.
    + cbv zeta in H.
      destruct (List.filter is_exceeded_key (dict_keys ws)) eqn:F.
      * rewrite (handle_without_hard_limit self' ws _ T F) in H.
        destruct ws; discriminate H.
      * destruct (primary_violation self') as [e|] eqn:P.
        -- pose proof (handle_raises_primary self' ws
                         (usage_record now model_name i o Float.zero self' ws)
                         e T eq_refl eq_refl P) as HP.
           unfold usage_record in HP. rewrite HP in H. cbn [fst] in H.
           apply primary_violation_sound in P.
           injection H as H.
           destruct P; cbn [raised_for] in H;
             destruct (_ && _); discriminate H.
        -- apply (exceeded_filter_primary self' ws T) in P. congruence.
    + cbn [fst] in H. injection H as ->.
      rewrite check_thresholds_signals in T. cbv zeta in T.
      destruct (token_signal "daily_token_exceeded" _ _ _ _) as [dt|e] eqn:Edt;
        cbn [obind] in T.
      * destruct (token_signal "monthly_token_exceeded" _ _ _ _) as [mt|e]
          eqn:Emt; cbn [obind] in T; [discriminate T|].
        injection T as ->. revert Emt. unfold token_signal.
        destruct (monthly_token_limit _); [|discriminate].
        destruct (negb _); [|discriminate]. destruct (_ <=? _); [discriminate|].
        unfold int_times_float, Float.of_int, Float.overflow_check.
        destruct (binary_normalize _ _ _ _ _); cbn [obind];
          try destruct (Float.int_ge _ _); discriminate.
      * injection T as ->. revert Edt. unfold token_signal.
        destruct (daily_token_limit _); [|discriminate].
        destruct (negb _); [|discriminate]. destruct (_ <=? _); [discriminate|].
        unfold int_times_float, Float.of_int, Float.overflow_check.
        destruct (binary_normalize _ _ _ _ _); cbn [obind];
          try destruct (Float.int_ge _ _); discriminate.
Qed.

Lemma empty_catalog_prices_at_zero_witness :
  total_input_tokens
    (usage_stats
       (exec (track_usage noon "gpt-5" 1000 500) empty_catalog))
  = 1000
  /\ total_cost
       (usage_stats
          (exec (track_usage noon "gpt-5" 1000 500) empty_catalog))
     = Float.zero.
Proof.
  pose proof (empty_catalog_prices_at_zero noon "gpt-5" 1000 500
                empty_catalog eq_refl eq_refl) as (_ & H & _).
  rewrite H. split; reflexivity.
Defined.

(** ** Resetting the ledger *)

(** [reset_usage_stats] never raises.  A [reset_type] other than ["all"],
    ["daily"] and ["monthly"] is ignored without notice: nothing changes.
    After ["all"] the ledger is the one of a new [UsageStats] created at the
    same clock reading, and after any of the three resets the rollover
    check of the window that was reset finds nothing to do at that
    reading. *)
Theorem reset_usage_stats_scopes (now : datetime) (reset_type : string)
    (self : BillingConfig) :
  eval (reset_usage_stats now reset_type) self = Return tt
  /\ (reset_type <> "all" -> reset_type <> "daily" ->
      reset_type <> "monthly" ->
      exec (reset_usage_stats now reset_type) self = self)
  /\ usage_stats (exec (reset_usage_stats now "all") self) = UsageStats_new now
  /\ rolled now (exec (reset_usage_stats now "all") self)
     = exec (reset_usage_stats now "all") self
  /\ exec (check_daily_reset now) (exec (reset_usage_stats now "daily") self)
     = exec (reset_usage_stats now "daily") self
  /\ exec (check_monthly_reset now)
          (exec (reset_usage_stats now "monthly") self)
     = exec (reset_usage_stats now "monthly") self.
Proof.
  split; [|split; [|split; [|split; [|split]]]].
  - unfold eval, reset_usage_stats, ConfigManager.reset_usage_stats,
      refresh_config, ConfigManager.load_config,
      ConfigManager.save_usage_stats, bind, ret, modify.
    cbn [fst snd].
    destruct (String.eqb reset_type "all"); [reflexivity|].
    destruct (String.eqb reset_type "daily"); [reflexivity|].
    destruct (String.eqb reset_type "monthly"); reflexivity.
  - intros A D Mo.
    apply String.eqb_neq in A, D, Mo.
    unfold exec, reset_usage_stats, ConfigManager.reset_usage_stats,
      refresh_config, ConfigManager.load_config,
      ConfigManager.save_usage_stats, bind, ret, modify.
    cbn [fst snd]. rewrite A, D, Mo. reflexivity.
  - reflexivity.
  - unfold rolled, exec, check_daily_reset, check_monthly_reset, bind, gets,
      modify, ret. cbn.
    rewrite date_gt_irrefl. cbn. rewrite !Z.ltb_irrefl. reflexivity.
  - unfold exec, check_daily_reset, bind, gets, modify, ret. cbn.
    rewrite date_gt_irrefl. reflexivity.
  - unfold exec, check_monthly_reset, bind, gets, modify, ret. cbn.
    rewrite !Z.ltb_irrefl. reflexivity.
Qed.

Lemma reset_usage_stats_scopes_witness :
  exec (reset_usage_stats next_day "Daily")
       (exec (track_usage noon "m" 1000 500) scenario_A)
  = exec (track_usage noon "m" 1000 500) scenario_A.
Proof.
  apply (proj1 (proj2 (reset_usage_stats_scopes next_day "Daily"
                         (exec (track_usage noon "m" 1000 500) scenario_A))));
    discriminate.
Defined.

(** ** The usage summary *)

Lemma SFdiv_int_signs (s1 s2 : bool) (p b : positive) :
  SFdiv Float.prec Float.emax (S754_finite s1 p 0) (S754_finite s2 b 0)
  = (if xorb s1 s2 then SFopp else fun x => x)
      (SFdiv Float.prec Float.emax (S754_finite false p 0)
             (S754_finite false b 0)).
Proof.
  cbn [SFdiv].
  destruct (SFdiv_core_binary Float.prec Float.emax (Zpos p) 0 (Zpos b) 0)
    as [[q e] l].
  destruct s1, s2; cbn [xorb]; try reflexivity; apply binary_round_aux_opp.
Qed.

Lemma SFdiv_int_finite (s1 s2 : bool) (p b : positive) :
  Zpos p < 2 ^ 1023 ->
  Float.is_finite
    (SFdiv Float.prec Float.emax (S754_finite s1 p 0) (S754_finite s2 b 0))
  = true.
Proof.
  intros Hp. rewrite SFdiv_int_signs.
  pose proof (proj2 (SFdiv_int_nonneg Float.prec Float.emax prec_pos
                       prec_lt_emax p b) (digits_below p Hp)) as F.
  destruct (xorb s1 s2); [rewrite is_finite_opp|]; exact F.
Qed.

Lemma report_int_truediv_zero (a b : Z) :
  Report.int_truediv a b = Report.Raises Report.ZeroDivisionError <-> b = 0.
Proof.
  unfold Report.int_truediv. split.
  - destruct b; [reflexivity| |]; destruct a; try discriminate;
      destruct (SFdiv _ _ _ _); discriminate.
  - intros ->. reflexivity.
Qed.

Lemma report_int_truediv_returns (a b : Z) :
  b <> 0 -> Z.abs a < 2 ^ 1023 ->
  exists q, Report.int_truediv a b = Report.Returns q.
Proof.
  intros Hb Ha. unfold Report.int_truediv.
  destruct b as [|b|b]; [contradiction| |];
    (destruct a as [|a|a]; [eexists; reflexivity| |]);
    match goal with
    | |- context [SFdiv _ _ (S754_finite ?s1 ?p 0) (S754_finite ?s2 ?q 0)] =>
        pose proof (SFdiv_int_finite s1 s2 p q Ha) as F;
        destruct (SFdiv Float.prec Float.emax (S754_finite s1 p 0)
                        (S754_finite s2 q 0));
        try discriminate F; eexists; reflexivity
    end.
Qed.

Lemma report_float_truediv_truthy (a b : float) :
  Float.truthy b = true ->
  Report.float_truediv a b
  = Report.Returns (SFdiv Float.prec Float.emax a b).
Proof. destruct b; try discriminate; reflexivity. Qed.

Lemma cost_entries_spec (c : float) (L : option float) (l p : float) :
  cost_entries c L = Some (l, p)
  <-> L = Some l /\ Float.truthy l = true /\ p = cost_percent c l.
Proof.
  unfold cost_entries. destruct L as [l'|].
  - destruct (Float.truthy l') eqn:T; split.
    + intros [= <- <-]. auto.
    + intros ([= ->] & _ & ->). reflexivity.
    + discriminate.
    + intros ([= ->] & T' & _). congruence.
  - split; [discriminate|]. intros [H _]. discriminate H.
Qed.

Lemma token_percent_zero (n l : Z) :
  l <> 0 -> token_percent n l <> Report.Raises Report.ZeroDivisionError.
Proof.
  intros Hl. unfold token_percent.
  pose proof (report_int_truediv_zero n l) as Z.
  destruct (Report.int_truediv n l) as [q|[|]]; cbn [Report.rbind];
    [discriminate| |discriminate].
  intros _. apply Hl, Z. reflexivity.
Qed.

Lemma token_entries_zero (n : Z) (L : option Z) :
  token_entries n L <> Report.Raises Report.ZeroDivisionError.
Proof.
  unfold token_entries. destruct L as [l|]; [|discriminate].
  destruct (Z.eqb_spec l 0) as [E|E]; cbn [negb]; [discriminate|].
  pose proof (token_percent_zero n l E) as Z.
  destruct (token_percent n l) as [p|[|]]; cbn [Report.rbind];
    [discriminate|contradiction|discriminate].
Qed.

Lemma token_entries_returns (n : Z) (L : option Z) :
  Z.abs n < 2 ^ 1023 -> exists e, token_entries n L = Report.Returns e.
Proof.
  intros Hn. unfold token_entries. destruct L as [l|]; [|eexists; reflexivity].
  destruct (Z.eqb_spec l 0) as [E|E]; cbn [negb]; [eexists; reflexivity|].
  unfold token_percent.
  destruct (report_int_truediv_returns n l E Hn) as [q ->].
  cbn [Report.rbind]. eexists. reflexivity.
Qed.

Lemma token_entries_spec (n : Z) (L : option Z) (e : option (Z * float)) :
  token_entries n L = Report.Returns e ->
  forall l p,
    e = Some (l, p)
    <-> L = Some l /\ l <> 0 /\ token_percent n l = Report.Returns p.
Proof.
  unfold token_entries. destruct L as [l'|].
  - destruct (Z.eqb_spec l' 0) as [E|E]; cbn [negb].
    + intros [= <-] l p. split; [discriminate|].
      intros ([= ->] & N & _). contradiction.
    + destruct (token_percent n l') as [p'|] eqn:P; cbn [Report.rbind];
        [|discriminate].
      intros [= <-] l p. split.
      * intros [= <- <-]. auto.
      * intros ([= ->] & _ & Q). rewrite P in Q. injection Q as ->.
        reflexivity.
  - intros [= <-] l p. split; [discriminate|]. intros [H _]. discriminate H.
Qed.

Lemma get_usage_summary_entries (self : BillingConfig) :
  Report.get_usage_summary self =
    let us := usage_stats self in
    let th := thresholds self in
    Report.rbind (token_entries (daily_tokens us) (daily_token_limit th))
      (fun dt =>
    Report.rbind (token_entries (monthly_tokens us) (monthly_token_limit th))
      (fun mt =>
    Report.Returns
      (Report.mk_usage_summary
         (total_requests us) (daily_requests us) (monthly_requests us)
         (total_cost us) (daily_cost us) (monthly_cost us)
         (total_input_tokens us) (total_output_tokens us)
         (daily_input_tokens us) (daily_output_tokens us)
         (monthly_input_tokens us) (monthly_output_tokens us)
         (last_reset_date us) (last_daily_reset us) (last_monthly_reset us)
         (cost_entries (daily_cost us) (daily_cost_limit th))
         (cost_entries (monthly_cost us) (monthly_cost_limit th))
         dt mt))).
Proof.
  cbv zeta.
  unfold Report.get_usage_summary, cost_entries, token_entries, token_percent,
    cost_percent, daily_tokens, monthly_tokens.
  destruct (daily_cost_limit (thresholds self)) as [l1|];
    [destruct (Float.truthy l1) eqn:T1;
     [rewrite (report_float_truediv_truthy _ l1 T1)|]|];
  (destruct (monthly_cost_limit (thresholds self)) as [l2|];
    [destruct (Float.truthy l2) eqn:T2;
     [rewrite (report_float_truediv_truthy _ l2 T2)|]|]);
  cbn [Report.rbind];
  (destruct (daily_token_limit (thresholds self)) as [l3|];
    [destruct (negb (l3 =? 0));
     [destruct (Report.int_truediv _ l3)|]|]);
  cbn [Report.rbind]; try reflexivity;
  (destruct (monthly_token_limit (thresholds self)) as [l4|];
    [destruct (negb (l4 =? 0));
     [destruct (Report.int_truediv _ l4)|]|]);
  reflexivity.
Qed.

(** [get_usage_summary] never divides by zero: a limit of [None], [0] or
    [0.0] gets no entries, and every other limit gets its pair of entries,
    the limit and the percentage [current / limit * 100].  The only
    exception it can raise is the [OverflowError] of an int division, and
    not even that when the daily and monthly token counts are below
    [2 ^ 1023] in magnitude. *)
Theorem usage_summary_never_divides_by_zero (self : BillingConfig) :
  let th := thresholds self in
  let us := usage_stats self in
  Report.get_usage_summary self <> Report.Raises Report.ZeroDivisionError
  /\ (Z.abs (daily_tokens us) < 2 ^ 1023 ->
      Z.abs (monthly_tokens us) < 2 ^ 1023 ->
      exists s, Report.get_usage_summary self = Report.Returns s)
  /\ (forall s,
        Report.get_usage_summary self = Report.Returns s ->
        (forall l p,
           Report.summary_daily_cost_limit s = Some (l, p)
           <-> daily_cost_limit th = Some l /\ Float.truthy l = true
               /\ p = cost_percent (daily_cost us) l)
        /\ (forall l p,
              Report.summary_monthly_cost_limit s = Some (l, p)
              <-> monthly_cost_limit th = Some l /\ Float.truthy l = true
                  /\ p = cost_percent (monthly_cost us) l)
        /\ (forall l p,
              Report.summary_daily_token_limit s = Some (l, p)
              <-> daily_token_limit th = Some l /\ l <> 0
                  /\ token_percent (daily_tokens us) l = Report.Returns p)
        /\ (forall l p,
              Report.summary_monthly_token_limit s = Some (l, p)
              <-> monthly_token_limit th = Some l /\ l <> 0
                  /\ token_percent (monthly_tokens us) l = Report.Returns p)).
Proof.
  cbv zeta. rewrite get_usage_summary_entries. cbv zeta.
  pose proof (token_entries_zero (daily_tokens (usage_stats self))
                (daily_token_limit (thresholds self))) as Z3.
  pose proof (token_entries_zero (monthly_tokens (usage_stats self))
                (monthly_token_limit (thresholds self))) as Z4.
  pose proof (token_entries_returns (daily_tokens (usage_stats self))
                (daily_token_limit (thresholds self))) as R3.
  pose proof (token_entries_returns (monthly_tokens (usage_stats self))
                (monthly_token_limit (thresholds self))) as R4.
  pose proof (token_entries_spec (daily_tokens (usage_stats self))
                (daily_token_limit (thresholds self))) as S3.
  pose proof (token_entries_spec (monthly_tokens (usage_stats self))
                (monthly_token_limit (thresholds self))) as S4.
  destruct (token_entries (daily_tokens (usage_stats self)) _) as [e3|[|]];
    cbn [Report.rbind]; [|contradiction|].
  2:{ split; [discriminate|]. split; [|discriminate].
      intros H3 _. destruct (R3 H3) as [? ?]. discriminate. }
  destruct (token_entries (monthly_tokens (usage_stats self)) _) as [e4|[|]];
    cbn [Report.rbind]; [|contradiction|].
  2:{ split; [discriminate|]. split; [|discriminate].
      intros _ H4. destruct (R4 H4) as [? ?]. discriminate. }
  split; [discriminate|]. split; [eexists; reflexivity|].
  intros s [= <-].
  cbn [Report.summary_daily_cost_limit Report.summary_monthly_cost_limit
       Report.summary_daily_token_limit Report.summary_monthly_token_limit].
  split; [|split; [|split]].
  - intros l p. apply cost_entries_spec.
  - intros l p. apply cost_entries_spec.
  - intros l p. apply (S3 e3 eq_refl).
  - intros l p. apply (S4 e4 eq_refl).
Qed.

Lemma usage_summary_never_divides_by_zero_witness :
  exists s,
    Report.get_usage_summary half_spent = Report.Returns s
    /\ Report.summary_daily_cost_limit s
       = Some (Float.decimal 10 1, Float.decimal 50 1)
    /\ Report.summary_daily_token_limit s = None.
Proof.
  destruct (usage_summary_never_divides_by_zero half_spent) as (_ & R & _).
  destruct R as [s Hs]; [vm_compute; reflexivity ..|].
  exists s. split; [exact Hs|].
  revert Hs. vm_compute. intros [= <-]. split; reflexivity.
Defined.

(** ** Rounding of products and quotients *)

Lemma ratio_rne_bounds (P D : Z) : P / D <= Ratio.rne P D <= P / D + 1.
Proof.
  unfold Ratio.rne. cbn zeta.
  destruct (_ ?= _); [destruct (Z.even _) | |]; lia.
Qed.

Lemma ratio_rne_mono (P P' D : Z) :
  0 < D -> P <= P' -> Ratio.rne P D <= Ratio.rne P' D.
Proof.
  intros HD Hab.
  pose proof (Z.div_le_mono P P' D HD Hab) as Hq.
  destruct (Z.eq_dec (P / D) (P' / D)) as [Heq | Hne].
  - unfold Ratio.rne. cbn zeta. rewrite <- Heq.
    pose proof (Z.div_mod P D ltac:(lia)) as Ha.
    pose proof (Z.div_mod P' D ltac:(lia)) as Hb.
    rewrite <- Heq in Hb.
    assert (Hr : P mod D <= P' mod D) by lia.
    destruct (Z.compare_spec (2 * (P mod D)) D);
      destruct (Z.compare_spec (2 * (P' mod D)) D);
      destruct (Z.even (P / D)); lia.
  - pose proof (ratio_rne_bounds P D). pose proof (ratio_rne_bounds P' D). lia.
Qed.

Lemma ratio_rne_scale (P D c : Z) :
  0 < D -> 0 < c -> Ratio.rne (P * c) (D * c) = Ratio.rne P D.
Proof.
  intros HD Hc. unfold Ratio.rne. cbn zeta.
  rewrite Z.div_mul_cancel_r by lia.
  rewrite Z.mul_mod_distr_r by lia.
  replace (2 * (P mod D * c)) with (2 * (P mod D) * c) by lia.
  rewrite <- (Zmult_compare_compat_r (2 * (P mod D)) D c) by lia.
  reflexivity.
Qed.

Lemma ratio_rne_pow2 (P k : Z) : Ratio.rne P (2 ^ k) = Format.rne P k.
Proof. reflexivity. Qed.

Lemma new_location_spec (b r : Z) :
  0 < b -> 0 <= r < b ->
  new_location b r
  = if r =? 0 then loc_Exact else loc_Inexact (2 * r ?= b).
Proof.
  intros Hb Hr. unfold new_location, new_location_even, new_location_odd.
  destruct (Z.even b) eqn:E; [reflexivity|].
  destruct (r =? 0); [reflexivity|]. f_equal.
  assert (O : Z.odd b = true) by (rewrite <- Z.negb_even, E; reflexivity).
  apply Z.odd_spec in O. destruct O as [h Hh].
  destruct (Z.compare_spec (2 * r + 1) b);
    destruct (Z.compare_spec (2 * r) b); try reflexivity; lia.
Qed.

Section QuotientRounding.

Local Unset Default Proof Using.

Variables prec emax : Z.
Hypothesis Hprec : 0 < prec.
Hypothesis Hemax : prec < emax.

Local Abbreviation emin := (SpecFloat.emin prec emax).
Local Abbreviation fexp := (SpecFloat.fexp prec emax).
Local Abbreviation nonneg := (Format.nonneg prec emax).
Local Abbreviation encode := (Format.encode prec emax).
Local Abbreviation rounded := (Format.rounded prec emax).
Local Abbreviation B2Z := (Format.B2Z prec emax).
Local Abbreviation qround := (Ratio.round prec).

Lemma ratio_round_mono (P P' D : Z) :
  0 < D -> 0 <= P <= P' -> qround P D <= qround P' D.
Proof.
  intros HD [HP HPP']. unfold Ratio.round. cbn zeta.
  set (a := P / D). set (b := P' / D).
  assert (Ha : 0 <= a) by (apply Z.div_pos; lia).
  assert (Hab : a <= b) by (apply Z.div_le_mono; lia).
  pose proof (Zdigits2_mono a b (conj Ha Hab)) as Hd.
  set (ka := Z.max (Zdigits2 a - prec) 0).
  set (kb := Z.max (Zdigits2 b - prec) 0).
  assert (Hka : 0 <= ka) by (subst ka; lia).
  assert (Hkb : 0 <= kb) by (subst kb; lia).
  assert (HPa : 0 < 2 ^ ka) by (apply Z.pow_pos_nonneg; lia).
  assert (HPb : 0 < 2 ^ kb) by (apply Z.pow_pos_nonneg; lia).
  destruct (Z.eq_dec ka kb) as [Heq | Hne].
  - rewrite Heq. apply Z.mul_le_mono_nonneg_r; [lia |].
    apply ratio_rne_mono; [apply Z.mul_pos_pos; lia | lia].
  - assert (Hlt : ka < kb) by (subst ka kb; lia).
    assert (Hb0 : 0 < b).
    { destruct (Z.eq_dec b 0) as [E | H]; [| lia].
      assert (Zdigits2 b = 0) by (rewrite E; reflexivity).
      subst kb. lia. }
    assert (Hkb' : kb = Zdigits2 b - prec) by (subst kb; lia).
    assert (Hup : Ratio.rne P (D * 2 ^ ka) * 2 ^ ka <= 2 ^ prec * 2 ^ ka).
    { apply Z.mul_le_mono_nonneg_r; [lia |].
      pose proof (ratio_rne_bounds P (D * 2 ^ ka)) as [_ Hr].
      rewrite <- Z.div_div in Hr by lia. fold a in Hr.
      assert (a / 2 ^ ka < 2 ^ prec); [| lia].
      apply Z.div_lt_upper_bound; [lia |].
      rewrite <- Z.pow_add_r by lia.
      destruct (Z.eq_dec a 0) as [-> | Hnz];
        [apply Z.pow_pos_nonneg; lia |].
      pose proof (Zdigits2_bounds a ltac:(lia)) as [_ Hhi].
      eapply Z.lt_le_trans; [exact Hhi |].
      apply Z.pow_le_mono_r; subst ka; lia. }
    assert (Hlow : 2 ^ (prec - 1) * 2 ^ kb
                   <= Ratio.rne P' (D * 2 ^ kb) * 2 ^ kb).
    { apply Z.mul_le_mono_nonneg_r; [lia |].
      pose proof (ratio_rne_bounds P' (D * 2 ^ kb)) as [Hr _].
      rewrite <- Z.div_div in Hr by lia. fold b in Hr.
      assert (2 ^ (prec - 1) <= b / 2 ^ kb); [| lia].
      apply Z.div_le_lower_bound; [lia |].
      rewrite <- Z.pow_add_r by lia.
      pose proof (Zdigits2_bounds b Hb0) as [Hlo _].
      replace (kb + (prec - 1)) with (Zdigits2 b - 1) by lia. exact Hlo. }
    assert (Hmid : 2 ^ prec * 2 ^ ka <= 2 ^ (prec - 1) * 2 ^ kb).
    { rewrite <- !Z.pow_add_r by lia. apply Z.pow_le_mono_r; lia. }
    lia.
Qed.

(** Shifting a quotient with the location its remainder gives, and rounding
    with what the shift leaves, rounds the rational itself. *)
Lemma round_located (P0 b e n : Z) :
  0 <= P0 -> 0 < b -> 0 <= n ->
  let mrs :=
    fst (shr (shr_record_of_loc (P0 / b) (new_location b (P0 mod b))) e n) in
  round_nearest_even (shr_m mrs) (loc_of_shr_record mrs)
  = Ratio.rne P0 (b * 2 ^ n).
Proof.
  intros HP Hb Hn. cbn zeta.
  pose proof (Z.mod_pos_bound P0 b Hb) as Hr.
  assert (Hq : 0 <= P0 / b) by (apply Z.div_pos; lia).
  rewrite (new_location_spec b (P0 mod b) Hb Hr).
  set (q := P0 / b) in *. set (r := P0 mod b) in *.
  unfold shr. destruct n as [|p|p]; [| | lia].
  - (* no shift *)
    cbn [fst]. change (2 ^ 0) with 1. rewrite Z.mul_1_r.
    unfold Ratio.rne. cbn zeta. fold q r.
    destruct (Z.eqb_spec r 0) as [E | E].
    + rewrite E. cbn [shr_record_of_loc shr_m loc_of_shr_record
                      round_nearest_even].
      destruct (Z.compare_spec (2 * 0) b); lia.
    + destruct (2 * r ?= b); reflexivity.
  - (* a shift by [p] bits *)
    cbn [fst]. rewrite iter_pos_nat.
    destruct (Pos.to_nat p) as [|n'] eqn:En; [lia |].
    assert (HN : Zpos p = Z.of_nat n' + 1) by lia.
    set (r0 := shr_r (shr_record_of_loc q
                        (if r =? 0 then loc_Exact
                         else loc_Inexact (2 * r ?= b)))).
    set (s0 := shr_s (shr_record_of_loc q
                        (if r =? 0 then loc_Exact
                         else loc_Inexact (2 * r ?= b)))).
    assert (Hrec : shr_record_of_loc q
                     (if r =? 0 then loc_Exact else loc_Inexact (2 * r ?= b))
                   = Build_shr_record q r0 s0).
    { subst r0 s0. destruct (r =? 0); [reflexivity |].
      destruct (2 * r ?= b); reflexivity. }
    assert (Hrs : r0 || s0 = negb (r =? 0)).
    { subst r0 s0. destruct (r =? 0); [reflexivity |].
      destruct (2 * r ?= b); reflexivity. }
    rewrite Hrec, (shr_iter n' q r0 s0 Hq), Hrs.
    replace (Z.of_nat (S n')) with (Z.of_nat n' + 1) by lia.
    rewrite HN. set (k := Z.of_nat n') in *.
    assert (Hk : 0 <= k) by (subst k; lia).
    assert (HPk : 0 < 2 ^ k) by (apply Z.pow_pos_nonneg; lia).
    cbn [shr_m].
    (* the quotient and the remainder of the rational rounding *)
    unfold Ratio.rne. cbn zeta.
    rewrite <- Z.div_div by lia. fold q.
    rewrite Z.rem_mul_r by lia. fold q r.
    rewrite (mod_pow2_succ q k Hk).
    rewrite Z.pow_add_r by lia. change (2 ^ 1) with 2.
    assert (Hdd : q / (2 ^ k * 2) = q / 2 ^ k / 2)
      by (rewrite Z.div_div by lia; reflexivity).
    rewrite Hdd.
    set (u := q / 2 ^ k) in *. set (tl := q mod 2 ^ k) in *.
    pose proof (Z.mod_pos_bound q (2 ^ k) HPk) as Htl. fold tl in Htl.
    pose proof (Z.div_mod u 2 ltac:(lia)) as Hu.
    pose proof (Zmod_odd u) as Hodd.
    set (T := b * 2 ^ k).
    assert (HT : b <= T) by (subst T; nia).
    set (btl := b * tl).
    assert (Hbtl : 0 <= btl <= T - b) by (subst btl T; nia).
    assert (Hbtl0 : btl = 0 <-> tl = 0) by (subst btl; nia).
    destruct (Z.odd u) eqn:Ou.
    + (* the round bit is set *)
      replace (2 * (r + b * (tl + 2 ^ k * 1))) with (2 * r + 2 * btl + 2 * T)
        by (subst btl T; lia).
      replace (b * (2 ^ k * 2)) with (2 * T) by (subst T; lia).
      destruct (Z.eqb_spec r 0) as [E | E]; cbn [negb orb];
      destruct (Z.eqb_spec tl 0) as [E' | E']; cbn [negb orb loc_of_shr_record
        round_nearest_even];
      destruct (Z.compare_spec (2 * r + 2 * btl + 2 * T) (2 * T));
        try reflexivity; try lia.
      all: exfalso; apply E'; apply Hbtl0; lia.
    + (* the round bit is clear *)
      replace (2 * (r + b * (tl + 2 ^ k * 0))) with (2 * r + 2 * btl)
        by (subst btl; lia).
      replace (b * (2 ^ k * 2)) with (2 * T) by (subst T; lia).
      destruct (negb (r =? 0) || negb (tl =? 0));
        cbn [loc_of_shr_record round_nearest_even];
      destruct (Z.compare_spec (2 * r + 2 * btl) (2 * T));
        try reflexivity; lia.
Qed.

(** What [binary_round_aux] computes for a quotient and the location of its
    remainder. *)
Lemma binary_round_aux_located (P0 b e : Z) :
  0 <= P0 -> 0 < b ->
  e <= fexp (Zdigits2 (P0 / b) + e) ->
  let F := fexp (Zdigits2 (P0 / b) + e) in
  binary_round_aux prec emax false (P0 / b) e (new_location b (P0 mod b))
  = encode (Ratio.rne P0 (b * 2 ^ (F - e))) F
  /\ rounded (Ratio.rne P0 (b * 2 ^ (F - e))) F.
Proof.
  intros HP Hb He.
  assert (Hm : 0 <= P0 / b) by (apply Z.div_pos; lia).
  pose proof (first_shift_range prec emax Hprec (P0 / b) e Hm He)
    as (H1 & HF & Hr1).
  cbn zeta in *.
  set (m := P0 / b) in *. set (l := new_location b (P0 mod b)).
  set (F := fexp (Zdigits2 m + e)) in *.
  pose proof (round_located P0 b e (F - e) HP Hb ltac:(lia)) as Hloc.
  cbn zeta in Hloc. fold m l in Hloc.
  unfold binary_round_aux, shr_fexp at 1. fold F.
  pose proof (shr_mantissa_loc m e (F - e) l Hm ltac:(lia)) as Hs.
  destruct (shr (shr_record_of_loc m l) e (F - e)) as [mrs e1] eqn:Hshr.
  cbn [fst] in Hloc.
  destruct Hs as [Hm1 He1]. replace (e + (F - e)) with F in He1 by lia.
  subst e1.
  set (m2 := round_nearest_even (shr_m mrs) (loc_of_shr_record mrs)) in *.
  assert (Hm2 : m2 = m / 2 ^ (F - e) \/ m2 = m / 2 ^ (F - e) + 1).
  { subst m2. rewrite <- Hm1. apply round_nearest_even_range. }
  assert (Hrd : rounded m2 F).
  { unfold Format.rounded. split; [lia |]. split; [exact HF |].
    destruct Hr1 as [Hn | [Hs Hlt]]; [left | right; split; [exact Hs |]]; lia. }
  rewrite <- Hloc. split; [| exact Hrd].
  pose proof (second_shift prec emax Hprec m2 F Hrd) as H2.
  destruct (shr_fexp prec emax m2 F loc_Exact) as [mrs2 e2].
  cbn [fst snd] in H2. unfold Format.encode.
  destruct H2 as [(Heq & Hsm & He2) | (Hne & Hsm & He2)]; rewrite Hsm, He2.
  - rewrite Heq.
    assert (Hp : 0 < 2 ^ prec) by lia.
    assert (Hp1 : 0 < 2 ^ (prec - 1)) by (apply Z.pow_pos_nonneg; lia).
    destruct (2 ^ prec =? 0) eqn:E0; [apply Z.eqb_eq in E0; lia |].
    rewrite Z.eqb_refl.
    destruct (2 ^ (prec - 1)) as [|q|q] eqn:Eq; try lia. reflexivity.
  - destruct (m2 =? 0) eqn:E0.
    + apply Z.eqb_eq in E0. rewrite E0. reflexivity.
    + apply Z.eqb_neq in E0.
      destruct (m2 =? 2 ^ prec) eqn:E1; [apply Z.eqb_eq in E1; contradiction |].
      destruct Hrd as (Hge & _).
      destruct m2 as [|q|q]; try lia. reflexivity.
Qed.

Lemma Zdigits2_div_pow2 (M j : Z) :
  0 < M -> 0 <= j -> Zdigits2 (M / 2 ^ j) = Z.max (Zdigits2 M - j) 0.
Proof.
  intros HM Hj.
  assert (HP : 0 < 2 ^ j) by (apply Z.pow_pos_nonneg; lia).
  pose proof (Zdigits2_bounds M HM) as [Hlo Hhi].
  pose proof (Zdigits2_pos M HM) as Hd.
  destruct (Z.le_gt_cases (Zdigits2 M) j) as [Hle | Hgt].
  - rewrite Z.div_small; [change (Zdigits2 0) with 0; lia |].
    split; [lia |]. eapply Z.lt_le_trans; [exact Hhi |].
    apply Z.pow_le_mono_r; lia.
  - rewrite Z.max_l by lia.
    assert (Hq : 2 ^ (Zdigits2 M - j - 1) <= M / 2 ^ j).
    { apply Z.div_le_lower_bound; [lia |].
      rewrite <- Z.pow_add_r by lia.
      replace (j + (Zdigits2 M - j - 1)) with (Zdigits2 M - 1) by lia.
      exact Hlo. }
    assert (Hq' : M / 2 ^ j < 2 ^ (Zdigits2 M - j)).
    { apply Z.div_lt_upper_bound; [lia |].
      rewrite <- Z.pow_add_r by lia.
      replace (j + (Zdigits2 M - j)) with (Zdigits2 M) by lia. exact Hhi. }
    assert (0 < 2 ^ (Zdigits2 M - j - 1)) by (apply Z.pow_pos_nonneg; lia).
    apply Zdigits2_unique; [lia |]. split; [exact Hq | exact Hq'].
Qed.

Lemma Zdigits2_scaled_quotient (m b a : Z) :
  0 <= m -> 0 < b -> 0 <= a -> 0 < m / b ->
  Zdigits2 (m * 2 ^ a / b) = Zdigits2 (m / b) + a.
Proof.
  intros Hm Hb Ha Hq.
  assert (HP : 0 < 2 ^ a) by (apply Z.pow_pos_nonneg; lia).
  pose proof (Zdigits2_bounds (m / b) Hq) as [Hlo Hhi].
  pose proof (Zdigits2_pos (m / b) Hq) as Hd.
  pose proof (Z.div_mod m b ltac:(lia)) as Hdm.
  pose proof (Z.mod_pos_bound m b Hb) as Hr.
  set (q := m / b) in *. set (r := m mod b) in *.
  assert (Hq1 : q * 2 ^ a <= m * 2 ^ a / b).
  { apply Z.div_le_lower_bound; [lia |]. nia. }
  assert (Hq2 : m * 2 ^ a / b < (q + 1) * 2 ^ a).
  { apply Z.div_lt_upper_bound; [lia |]. nia. }
  apply Zdigits2_unique; [nia |].
  replace (Zdigits2 q + a - 1) with (Zdigits2 q - 1 + a) by lia.
  rewrite !Z.pow_add_r by lia. split; nia.
Qed.

(** The division of two positive integers is the rounding of their
    quotient, saturating at infinity. *)
Lemma SFdiv_int_spec (p b : positive) :
  B2Z (SFdiv prec emax (S754_finite false p 0) (S754_finite false b 0))
  = Z.min (qround (Zpos p * 2 ^ (- emin)) (Zpos b)) (2 ^ (emax - emin)).
Proof.
  pose proof (emin_nonpos prec emax Hprec Hemax) as He0.
  cbn [SFdiv xorb].
  pose proof (SFdiv_core_pre prec emax Hprec p b) as Hcore.
  pose (d1 := Zdigits2 (Zpos p)). pose (d2 := Zdigits2 (Zpos b)).
  pose (e' := Z.min (fexp (d1 - d2)) 0).
  pose (s := - e').
  pose (m' := match s with Zpos _ => Z.shiftl (Zpos p) s | Z0 => Zpos p
              | Zneg _ => 0 end).
  change (SFdiv_core_binary prec emax (Zpos p) 0 (Zpos b) 0)
    with (let '(q, r) := Z.div_eucl m' (Zpos b) in
          (q, e', new_location (Zpos b) r)) in *.
  assert (He' : emin <= e' <= 0).
  { subst e'. rewrite (fexp_spec prec emax). lia. }
  assert (Hs : 0 <= s) by (subst s; lia).
  assert (Hm' : m' = Zpos p * 2 ^ s) by (apply shift_case; exact Hs).
  assert (HPs : 0 < 2 ^ s) by (apply Z.pow_pos_nonneg; lia).
  assert (Hm0 : 0 <= m') by (rewrite Hm'; lia).
  assert (Hq : fst (Z.div_eucl m' (Zpos b)) = m' / Zpos b) by reflexivity.
  assert (Hr : snd (Z.div_eucl m' (Zpos b)) = m' mod Zpos b) by reflexivity.
  destruct (Z.div_eucl m' (Zpos b)) as [q r]. cbn [fst snd] in Hq, Hr.
  subst q r. destruct Hcore as (Hq0 & Hpre & _).
  destruct (binary_round_aux_located m' (Zpos b) e' Hm0 ltac:(lia) Hpre)
    as [-> Hrd].
  rewrite (B2Z_encode prec emax Hprec Hemax _ _ Hrd). f_equal.
  set (F := fexp (Zdigits2 (m' / Zpos b) + e')) in *.
  set (a := e' - emin).
  assert (Ha : 0 <= a) by (subst a; lia).
  assert (HPa : 0 < 2 ^ a) by (apply Z.pow_pos_nonneg; lia).
  assert (HP : Zpos p * 2 ^ (- emin) = m' * 2 ^ a).
  { rewrite Hm', <- Z.mul_assoc, <- Z.pow_add_r by lia.
    f_equal. f_equal. subst a s. lia. }
  assert (HF : emin <= F /\ e' <= F)
    by (subst F; rewrite (fexp_spec prec emax) in *; lia).
  assert (Hdig : Zdigits2 (m' * 2 ^ a / Zpos b)
                 = Zdigits2 (m' / Zpos b) + a).
  { destruct (Z.eq_dec (m' / Zpos b) 0) as [E0 | N0].
    - (* a zero quotient is only rounded at the smallest exponent *)
      assert (a = 0).
      { subst F. rewrite E0 in Hpre. change (Zdigits2 0) with 0 in Hpre.
        rewrite (fexp_spec prec emax) in Hpre. subst a. lia. }
      replace a with 0 by lia. change (2 ^ 0) with 1.
      rewrite Z.mul_1_r. lia.
    - apply Zdigits2_scaled_quotient; lia. }
  unfold Ratio.round. cbn zeta. rewrite HP, Hdig.
  assert (Hk : Z.max (Zdigits2 (m' / Zpos b) + a - prec) 0 = F - emin).
  { subst F a. rewrite (fexp_spec prec emax). lia. }
  rewrite Hk. f_equal.
  replace (2 ^ (F - emin)) with (2 ^ (F - e') * 2 ^ a)
    by (rewrite <- Z.pow_add_r by lia; f_equal; subst a; lia).
  rewrite Z.mul_assoc.
  symmetry. apply ratio_rne_scale; [| exact HPa].
  apply Z.mul_pos_pos; [lia |]. apply Z.pow_pos_nonneg; lia.
Qed.

(** A larger dividend does not give a smaller quotient. *)
Lemma SFdiv_int_mono (p p' b : positive) :
  (p <= p')%positive ->
  SFleb (SFdiv prec emax (S754_finite false p 0) (S754_finite false b 0))
        (SFdiv prec emax (S754_finite false p' 0) (S754_finite false b 0))
  = true.
Proof.
  intros Hpp.
  pose proof (emin_nonpos prec emax Hprec Hemax) as He0.
  rewrite (SFleb_B2Z prec emax Hprec Hemax)
    by apply (SFdiv_int_nonneg prec emax Hprec Hemax).
  rewrite !SFdiv_int_spec. apply Z.leb_le.
  apply Z.min_le_compat_r. apply ratio_round_mono; [lia |].
  assert (0 < 2 ^ (- emin)) by (apply Z.pow_pos_nonneg; lia).
  split; [lia |]. apply Z.mul_le_mono_nonneg_r; lia.
Qed.

Lemma ratio_round_0 (D : Z) : 0 < D -> qround 0 D = 0.
Proof.
  intros HD. unfold Ratio.round. cbn zeta.
  rewrite (Z.div_0_l D) by lia.
  change (Zdigits2 0) with 0. rewrite Z.max_r by lia.
  change (2 ^ 0) with 1. rewrite !Z.mul_1_r.
  unfold Ratio.rne. cbn zeta.
  rewrite Z.div_0_l, Z.mod_0_l by lia.
  destruct (Z.compare_spec (2 * 0) D); lia.
Qed.

(** The product of two non-negative finite floats is the rounding of the
    product of their values, saturating at infinity. *)
Lemma SFmul_spec (x y : spec_float) :
  nonneg x = true -> nonneg y = true ->
  Format.is_finite x = true -> Format.is_finite y = true ->
  B2Z (SFmul prec emax x y)
  = Z.min (qround (B2Z x * B2Z y) (2 ^ (- emin))) (2 ^ (emax - emin)).
Proof.
  intros Hx Hy Fx Fy.
  pose proof (emin_nonpos prec emax Hprec Hemax) as He0.
  pose proof (emin_lt_emax prec emax Hprec Hemax) as Hee.
  assert (HD : 0 < 2 ^ (- emin)) by (apply Z.pow_pos_nonneg; lia).
  assert (HT : 0 < 2 ^ (emax - emin)) by (apply Z.pow_pos_nonneg; lia).
  destruct x as [sx | [|] | | [|] mx ex], y as [sy | [|] | | [|] my ey];
    try discriminate; cbn [Format.nonneg negb andb] in Hx, Hy;
    try (cbn [SFmul Format.B2Z];
         rewrite ?Z.mul_0_l, ?Z.mul_0_r, (ratio_round_0 _ HD); lia).
  cbn [SFmul xorb Format.B2Z].
  assert (Hbx := Hx). assert (Hby := Hy).
  apply (bounded_spec prec emax Hprec) in Hbx, Hby.
  destruct Hbx as ([Hx1 Hx2] & Hmx & Hnx), Hby as ([Hy1 Hy2] & Hmy & Hny).
  assert (Hp1 : 0 < 2 ^ (prec - 1)) by (apply Z.pow_pos_nonneg; lia).
  set (M := Zpos (mx * my)).
  assert (HM : 0 < M) by (subst M; lia).
  assert (Hpre : ex + ey <= fexp (Zdigits2 M + (ex + ey))).
  { rewrite (fexp_spec prec emax).
    destruct Hnx as [-> | Hnx].
    - destruct Hny as [-> | Hny]; [lia |].
      assert (prec <= Zdigits2 M); [| lia].
      replace prec with (prec - 1 + 1) by lia.
      apply Zdigits2_lower; [lia |]. subst M. rewrite Pos2Z.inj_mul. nia.
    - assert (prec <= Zdigits2 M); [| lia].
      replace prec with (prec - 1 + 1) by lia.
      apply Zdigits2_lower; [lia |]. subst M. rewrite Pos2Z.inj_mul. nia. }
  destruct (binary_round_aux_encode prec emax Hprec M (ex + ey) loc_Exact
              ltac:(lia) Hpre) as (m2 & -> & Hrd & _ & Hrne).
  rewrite (B2Z_encode prec emax Hprec Hemax _ _ Hrd). f_equal.
  rewrite (Hrne eq_refl).
  set (F := fexp (Zdigits2 M + (ex + ey))) in *.
  set (A := ex - emin + (ey - emin)).
  assert (HA : 0 <= A) by (subst A; lia).
  assert (HP : Zpos mx * 2 ^ (ex - emin) * (Zpos my * 2 ^ (ey - emin))
               = M * 2 ^ A).
  { subst M A. rewrite Pos2Z.inj_mul, Z.pow_add_r by lia. lia. }
  rewrite HP.
  assert (HF : emin <= F /\ ex + ey <= F)
    by (subst F; rewrite (fexp_spec prec emax) in *; lia).
  assert (Hk : Z.max (Zdigits2 (M * 2 ^ A / 2 ^ (- emin)) - prec) 0
               = F - emin).
  { subst F. rewrite (fexp_spec prec emax).
    destruct (Z.le_gt_cases (- emin) A) as [Hg | Hg].
    - replace (2 ^ A) with (2 ^ (A + emin) * 2 ^ (- emin))
        by (rewrite <- Z.pow_add_r by lia; f_equal; lia).
      rewrite Z.mul_assoc, Z.div_mul by lia.
      rewrite Zdigits2_shift by lia. subst A. lia.
    - replace (2 ^ (- emin)) with (2 ^ (- emin - A) * 2 ^ A)
        by (rewrite <- Z.pow_add_r by lia; f_equal; lia).
      assert (0 < 2 ^ A) by (apply Z.pow_pos_nonneg; lia).
      assert (0 < 2 ^ (- emin - A)) by (apply Z.pow_pos_nonneg; lia).
      rewrite Z.div_mul_cancel_r by lia.
      rewrite Zdigits2_div_pow2 by lia. subst A. lia. }
  unfold Ratio.round. cbn zeta. rewrite Hk. f_equal.
  rewrite <- Z.pow_add_r by lia.
  rewrite ratio_rne_pow2.
  replace (- emin + (F - emin)) with (F - (ex + ey) + A) by (subst A; lia).
  symmetry. apply rne_scale; lia.
Qed.

(** A larger non-negative factor does not give a smaller product. *)
Lemma SFmul_mono (a a' p : spec_float) :
  nonneg a = true -> nonneg a' = true -> nonneg p = true ->
  Format.is_finite a = true -> Format.is_finite a' = true ->
  Format.is_finite p = true ->
  SFleb a a' = true ->
  SFleb (SFmul prec emax a p) (SFmul prec emax a' p) = true.
Proof.
  intros Na Na' Np Fa Fa' Fp Hle.
  pose proof (emin_nonpos prec emax Hprec Hemax) as He0.
  rewrite (SFleb_B2Z prec emax Hprec Hemax) in Hle |- *;
    try assumption;
    try (apply (SFmul_nonneg prec emax Hprec Hemax); assumption).
  apply Z.leb_le in Hle. apply Z.leb_le.
  rewrite !SFmul_spec by assumption.
  apply Z.min_le_compat_r. apply ratio_round_mono.
  - apply Z.pow_pos_nonneg; lia.
  - assert (Ba : 0 <= Format.B2Z prec emax a).
    { destruct a as [|[|]| |[|] m e]; cbn [Format.B2Z]; try lia;
        apply Z.pow_nonneg || (apply Z.mul_nonneg_nonneg; [lia |];
        apply Z.pow_nonneg); lia. }
    assert (Bp : 0 <= Format.B2Z prec emax p).
    { destruct p as [|[|]| |[|] m e]; cbn [Format.B2Z]; try lia;
        apply Z.pow_nonneg || (apply Z.mul_nonneg_nonneg; [lia |];
        apply Z.pow_nonneg); lia. }
    split; [apply Z.mul_nonneg_nonneg; assumption |].
    apply Z.mul_le_mono_nonneg_r; assumption.
Qed.

End QuotientRounding.

(** ** Monotone pricing *)

Lemma le_B2Z (x y : float) :
  Float.nonneg x = true -> Float.nonneg y = true ->
  Float.le x y = (Format.B2Z Float.prec Float.emax x
                  <=? Format.B2Z Float.prec Float.emax y).
Proof. apply (SFleb_B2Z Float.prec Float.emax prec_pos prec_lt_emax). Qed.

Lemma gt_B2Z (x y : float) :
  Float.nonneg x = true -> Float.nonneg y = true ->
  Float.gt x y = (Format.B2Z Float.prec Float.emax y
                  <? Format.B2Z Float.prec Float.emax x).
Proof.
  intros Hx Hy. pose proof (le_B2Z x y Hx Hy) as H.
  unfold Float.gt, Float.le, SFltb, SFleb in *.
  rewrite (SFcompare_antisym x y).
  rewrite Z.ltb_antisym, <- H.
  destruct x as [sx | [|] | | [|] mx ex], y as [sy | [|] | | [|] my ey];
    try discriminate; cbn [SFcompare]; try reflexivity.
  destruct (ex ?= ey); try reflexivity.
  destruct (Pos.compare_cont Eq mx my); reflexivity.
Qed.

Lemma le_trans (x y z : float) :
  Float.nonneg x = true -> Float.nonneg y = true -> Float.nonneg z = true ->
  Float.le x y = true -> Float.le y z = true -> Float.le x z = true.
Proof.
  intros Hx Hy Hz. rewrite !le_B2Z by assumption.
  rewrite !Z.leb_le. lia.
Qed.

Lemma int_truediv_mono (i i' : Z) (b : positive) (a a' : float) :
  0 <= i <= i' ->
  Float.int_truediv i b = Return a -> Float.int_truediv i' b = Return a' ->
  Float.le a a' = true.
Proof.
  intros [Hi Hii] Ha Ha'.
  destruct (int_truediv_nonneg i' b a' ltac:(lia) Ha') as [Na' _].
  unfold Float.int_truediv in Ha, Ha'.
  destruct i as [|p|p]; [| | lia].
  - injection Ha as <-. apply zero_le. exact Na'.
  - destruct i' as [|p'|p']; [lia | | lia].
    apply overflow_check_returns in Ha, Ha'.
    destruct Ha as [-> _], Ha' as [-> _].
    apply (SFdiv_int_mono Float.prec Float.emax prec_pos prec_lt_emax).
    lia.
Qed.

Lemma mul_le_mono (a a' p : float) :
  Float.nonneg a = true -> Float.nonneg a' = true -> Float.nonneg p = true ->
  Float.is_finite a = true -> Float.is_finite a' = true ->
  Float.is_finite p = true ->
  Float.le a a' = true ->
  Float.le (Float.mul a p) (Float.mul a' p) = true.
Proof. apply (SFmul_mono Float.prec Float.emax prec_pos prec_lt_emax). Qed.

Lemma add_le_mono_both (x x' y y' : float) :
  Float.nonneg x = true -> Float.nonneg x' = true ->
  Float.nonneg y = true -> Float.nonneg y' = true ->
  Float.le x x' = true -> Float.le y y' = true ->
  Float.le (Float.add x y) (Float.add x' y') = true.
Proof.
  intros Hx Hx' Hy Hy' Lx Ly.
  apply (le_trans _ (Float.add x' y)); try (apply add_nonneg; assumption).
  - apply add_le_mono; assumption.
  - rewrite (add_comm x' y), (add_comm x' y').
    apply add_le_mono; assumption.
Qed.

(** The pricing formula [a * input_token_price + b * output_token_price]
    is monotone in the two quotients [a] and [b]. *)
Lemma price_formula_mono (a a' b b' pin pout : float) :
  price_ok pin -> price_ok pout ->
  price_ok a -> price_ok a' -> price_ok b -> price_ok b' ->
  Float.le a a' = true -> Float.le b b' = true ->
  Float.le (Float.add (Float.mul a pin) (Float.mul b pout))
           (Float.add (Float.mul a' pin) (Float.mul b' pout)) = true.
Proof.
  intros [Ni Fi] [No Fo] [Na Fa] [Na' Fa'] [Nb Fb] [Nb' Fb'] La Lb.
  apply add_le_mono_both; try (apply mul_nonneg; assumption).
  - apply mul_le_mono; assumption.
  - apply mul_le_mono; assumption.
Qed.

Lemma calculate_cost_mono (self : BillingConfig)
    (model_name : string) (i i' o o' : Z) (c c' : float) :
  prices_nonneg self ->
  0 <= i <= i' -> 0 <= o <= o' ->
  calculate_cost self model_name i o = Return c ->
  calculate_cost self model_name i' o' = Return c' ->
  Float.le c c' = true.
Proof.
  intros P Hi Ho. unfold calculate_cost, get_model_config.
  destruct (models self !! model_name) as [mc|] eqn:L.
  2:{ intros [= <-] [= <-]. reflexivity. }
  destruct (P model_name mc L) as [Pi Po].
  destruct (Float.int_truediv i 1000) as [a|] eqn:A; cbn [obind];
    [|discriminate].
  destruct (Float.int_truediv o 1000) as [b|] eqn:B; cbn [obind];
    [|discriminate].
  destruct (Float.int_truediv i' 1000) as [a'|] eqn:A'; cbn [obind];
    [|discriminate].
  destruct (Float.int_truediv o' 1000) as [b'|] eqn:B'; cbn [obind];
    [|discriminate].
  intros [= <-] [= <-].
  destruct (int_truediv_nonneg i 1000 a ltac:(lia) A) as [Na Fa].
  destruct (int_truediv_nonneg o 1000 b ltac:(lia) B) as [Nb Fb].
  destruct (int_truediv_nonneg i' 1000 a' ltac:(lia) A') as [Na' Fa'].
  destruct (int_truediv_nonneg o' 1000 b' ltac:(lia) B') as [Nb' Fb'].
  apply price_formula_mono; try assumption; try (split; assumption).
  - exact (int_truediv_mono i i' 1000 a a' Hi A A').
  - exact (int_truediv_mono o o' 1000 b b' Ho B B').
Qed.

(** With non-negative finite prices the cost is monotone in both token
    counts: more input or output tokens never cost less. *)
Theorem more_tokens_never_cost_less (self : BillingConfig)
    (model_name : string) (i i' o o' : Z) (c c' : float) :
  prices_nonneg self ->
  0 <= i <= i' -> 0 <= o <= o' ->
  calculate_cost self model_name i o = Return c ->
  calculate_cost self model_name i' o' = Return c' ->
  Float.le c c' = true.
Proof. exact (calculate_cost_mono self model_name i i' o o' c c'). Qed.

Lemma more_tokens_never_cost_less_witness :
  Float.le (Float.decimal 4 1000) (S754_finite false 4613991861436602 (-60))
  = true.
Proof.
  apply (more_tokens_never_cost_less scenario_A "m" 1000 1001 500 500).
  - exact scenario_A_prices.
  - lia.
  - lia.
  - vm_compute. reflexivity.
  - vm_compute. reflexivity.
Defined.

(** ** The price of a request *)

Lemma value_finite (x : float) :
  Float.nonneg x = true ->
  Nearest.value x < Nearest.infinity -> Float.is_finite x = true.
Proof.
  destruct x as [s | [|] | | s m e]; try reflexivity; try discriminate.
Qed.

Lemma value_infinite (x : float) :
  Float.nonneg x = true ->
  Nearest.infinity <= Nearest.value x -> x = S754_infinity false.
Proof.
  destruct x as [s | [|] | | [|] m e]; try reflexivity; try discriminate.
  - intros _ H. exfalso. revert H. apply Z.lt_nge. reflexivity.
  - unfold Float.nonneg. cbn [Format.nonneg negb andb]. intros B H.
    pose proof (B2Z_finite_bounds Float.prec Float.emax prec_pos m e B)
      as [_ Hlt].
    exfalso. revert H. apply Z.lt_nge. exact Hlt.
Qed.

Lemma SFdiv_thousands (p : positive) :
  Nearest.value
    (SFdiv Float.prec Float.emax (S754_finite false p 0)
       (S754_finite false 1000 0))
  = Nearest.thousands (Zpos p).
Proof.
  exact (SFdiv_int_spec Float.prec Float.emax prec_pos prec_lt_emax p 1000).
Qed.

Lemma thousands_mono (i i' : Z) :
  0 <= i <= i' -> Nearest.thousands i <= Nearest.thousands i'.
Proof.
  intros H. unfold Nearest.thousands, Nearest.quotient.
  apply Z.min_le_compat_r.
  apply (ratio_round_mono Float.prec prec_pos); [reflexivity |].
  assert (0 < Nearest.one) by reflexivity. nia.
Qed.

Lemma thousands_below_bound :
  Nearest.thousands (cost_overflow_bound - 1) < Nearest.infinity.
Proof. vm_compute. reflexivity. Qed.

Lemma thousands_at_bound :
  Nearest.thousands cost_overflow_bound = Nearest.infinity.
Proof. vm_compute. reflexivity. Qed.

(** [n / 1000] is the nearest double to the quotient. *)
Lemma int_truediv_value (i : Z) (a : float) :
  0 <= i -> Float.int_truediv i 1000 = Return a ->
  Nearest.value a = Nearest.thousands i.
Proof.
  intros Hi. unfold Float.int_truediv. destruct i as [|p|p]; [| | lia].
  - intros [= <-]. reflexivity.
  - intros H. apply overflow_check_returns in H. destruct H as [-> _].
    apply SFdiv_thousands.
Qed.

(** It returns below the bound and raises from the bound on. *)
Lemma int_truediv_in_range (i : Z) :
  0 <= i < cost_overflow_bound ->
  exists a, Float.int_truediv i 1000 = Return a.
Proof.
  intros [Hi Hlt]. unfold Float.int_truediv. destruct i as [|p|p]; [| | lia].
  - eexists. reflexivity.
  - eexists. apply overflow_check_finite. apply value_finite.
    + apply (SFdiv_int_nonneg Float.prec Float.emax prec_pos prec_lt_emax).
    + rewrite SFdiv_thousands.
      apply Z.le_lt_trans with (2 := thousands_below_bound).
      apply thousands_mono. lia.
Qed.

Lemma int_truediv_overflow (i : Z) :
  cost_overflow_bound <= i -> Float.int_truediv i 1000 = Raise OverflowError.
Proof.
  intros Hi. assert (0 < cost_overflow_bound) by reflexivity.
  unfold Float.int_truediv. destruct i as [|p|p]; [lia | | lia].
  rewrite (value_infinite
             (SFdiv Float.prec Float.emax (S754_finite false p 0)
                (S754_finite false 1000 0))); [reflexivity | |].
  - apply (SFdiv_int_nonneg Float.prec Float.emax prec_pos prec_lt_emax).
  - rewrite SFdiv_thousands, <- thousands_at_bound.
    apply thousands_mono. lia.
Qed.

Lemma mul_value (x y : float) :
  Float.nonneg x = true -> Float.nonneg y = true ->
  Float.is_finite x = true -> Float.is_finite y = true ->
  Nearest.value (Float.mul x y)
  = Nearest.product (Nearest.value x) (Nearest.value y).
Proof.
  exact (SFmul_spec Float.prec Float.emax prec_pos prec_lt_emax x y).
Qed.

Lemma add_value (x y : float) :
  Float.nonneg x = true -> Float.nonneg y = true ->
  Nearest.value (Float.add x y)
  = Nearest.sum (Nearest.value x) (Nearest.value y).
Proof.
  intros Hx Hy.
  exact (proj2 (SFadd_spec Float.prec Float.emax prec_pos prec_lt_emax x y
                  Hx Hy)).
Qed.

Lemma calculate_cost_in_range (self : BillingConfig) (model_name : string)
    (mc : ModelConfig) (i o : Z) :
  models self !! model_name = Some mc ->
  0 <= i < cost_overflow_bound -> 0 <= o < cost_overflow_bound ->
  exists a b,
    Float.nonneg a = true /\ Float.is_finite a = true
    /\ Nearest.value a = Nearest.thousands i
    /\ Float.nonneg b = true /\ Float.is_finite b = true
    /\ Nearest.value b = Nearest.thousands o
    /\ calculate_cost self model_name i o
       = Return (Float.add (Float.mul a (input_token_price mc))
                           (Float.mul b (output_token_price mc))).
Proof.
  intros Hm Hi Ho.
  destruct (int_truediv_in_range i Hi) as [a Ha].
  destruct (int_truediv_in_range o Ho) as [b Hb].
  destruct (int_truediv_nonneg i 1000 a (proj1 Hi) Ha) as [Na Fa].
  destruct (int_truediv_nonneg o 1000 b (proj1 Ho) Hb) as [Nb Fb].
  exists a, b.
  split; [exact Na |]. split; [exact Fa |].
  split; [exact (int_truediv_value i a (proj1 Hi) Ha) |].
  split; [exact Nb |]. split; [exact Fb |].
  split; [exact (int_truediv_value o b (proj1 Ho) Hb) |].
  rewrite (calculate_cost_known self model_name mc i o Hm), Ha, Hb.
  reflexivity.
Qed.

Lemma calculate_cost_overflow (self : BillingConfig) (model_name : string)
    (mc : ModelConfig) (i o : Z) :
  models self !! model_name = Some mc ->
  cost_overflow_bound <= i \/ cost_overflow_bound <= o ->
  calculate_cost self model_name i o = Raise OverflowError.
Proof.
  intros Hm H.
  rewrite (calculate_cost_known self model_name mc i o Hm).
  destruct H as [H | H].
  - rewrite (int_truediv_overflow i H). reflexivity.
  - rewrite (int_truediv_overflow o H).
    destruct (Float.int_truediv i 1000) as [a | e] eqn:Ha; [reflexivity |].
    unfold Float.int_truediv, Float.overflow_check in Ha.
    destruct i as [|p|p]; [discriminate | |];
      destruct (SFdiv _ _ _ _); try discriminate;
      injection Ha as <-; reflexivity.
Qed.

(** C6, counterexample.  With prices 0.002 and 0.004 the cost of 17 output
    tokens is a double above [0.000068]: above the nearest double to that
    decimal, above the exact value of [(17 / 1000) * output_token_price]
    and above the nearest double to it; and for [10 ^ 400] input tokens
    [calculate_cost] raises [OverflowError] instead of returning. *)
Lemma calculate_cost_is_rounded_and_partial :
  models scenario_A !! "m" = Some model_m
  /\ input_token_price model_m = Float.decimal 2 1000
  /\ output_token_price model_m = Float.decimal 4 1000
  /\ (exists c,
        calculate_cost scenario_A "m" 0 17 = Return c
        /\ Float.gt c (Float.decimal 68 1000000) = true
        /\ 17 * Nearest.value (output_token_price model_m)
           < 1000 * Nearest.value c
        /\ Nearest.quotient
             (17 * Nearest.value (output_token_price model_m)) 1000
           < Nearest.value c)
  /\ calculate_cost scenario_A "m" (10 ^ 400) 0 = Raise OverflowError.
Proof.
  split; [vm_compute; reflexivity |].
  split; [vm_compute; reflexivity |]. split; [vm_compute; reflexivity |].
  split.
  - eexists. split; [vm_compute; reflexivity |].
    split; [vm_compute; reflexivity |].
    split; vm_compute; reflexivity.
  - vm_compute. reflexivity.
Qed.

(** C6.  For a model of the catalog and non-negative token counts below
    [cost_overflow_bound], [calculate_cost] returns [(input_tokens / 1000)
    * input_token_price + (output_tokens / 1000) * output_token_price] in
    binary64: each quotient is the nearest double to the exact thousandth
    of the count, and with non-negative finite prices the cost is
    non-negative and its value is [Nearest.cost], every product and the sum
    rounded to the nearest double in turn.  When a count is at or above the
    bound, [calculate_cost] raises [OverflowError].  With prices 0.002 and
    0.004 the cost of 1000 input and 500 output tokens is the double 0.004.
    For a model absent from the catalog the cost is [0.0]. *)
Theorem calculate_cost_formula (self : BillingConfig) (model_name : string)
    (input_tokens output_tokens : Z) :
  0 <= input_tokens -> 0 <= output_tokens ->
  (forall mc,
     models self !! model_name = Some mc ->
     (input_tokens < cost_overflow_bound ->
      output_tokens < cost_overflow_bound ->
      exists a b,
        Float.nonneg a = true /\ Float.is_finite a = true
        /\ Nearest.value a = Nearest.thousands input_tokens
        /\ Float.nonneg b = true /\ Float.is_finite b = true
        /\ Nearest.value b = Nearest.thousands output_tokens
        /\ calculate_cost self model_name input_tokens output_tokens
           = Return (Float.add (Float.mul a (input_token_price mc))
                               (Float.mul b (output_token_price mc)))
        /\ (price_ok (input_token_price mc) ->
            price_ok (output_token_price mc) ->
            Float.nonneg (Float.add (Float.mul a (input_token_price mc))
                                    (Float.mul b (output_token_price mc)))
            = true
            /\ Nearest.value
                 (Float.add (Float.mul a (input_token_price mc))
                            (Float.mul b (output_token_price mc)))
               = Nearest.cost input_tokens output_tokens
                   (Nearest.value (input_token_price mc))
                   (Nearest.value (output_token_price mc))))
     /\ (cost_overflow_bound <= input_tokens
         \/ cost_overflow_bound <= output_tokens ->
         calculate_cost self model_name input_tokens output_tokens
         = Raise OverflowError)
     /\ (input_token_price mc = Float.decimal 2 1000 ->
         output_token_price mc = Float.decimal 4 1000 ->
         calculate_cost self model_name 1000 500
         = Return (Float.decimal 4 1000)))
  /\ (models self !! model_name = None ->
      calculate_cost self model_name input_tokens output_tokens
      = Return Float.zero).
Proof.
  intros Hi Ho. split.
  - intros mc Hm. split; [| split].
    + intros Hi' Ho'.
      destruct (calculate_cost_in_range self model_name mc input_tokens
                  output_tokens Hm (conj Hi Hi') (conj Ho Ho'))
        as (a & b & Na & Fa & Va & Nb & Fb & Vb & Hc).
      exists a, b. repeat (split; [assumption |]).
      intros [Ni Fi] [No Fo].
      pose proof (mul_nonneg a _ Na Ni Fa Fi) as Nx.
      pose proof (mul_nonneg b _ Nb No Fb Fo) as Ny.
      split; [exact (add_nonneg _ _ Nx Ny) |].
      rewrite (add_value _ _ Nx Ny).
      rewrite (mul_value a _ Na Ni Fa Fi), (mul_value b _ Nb No Fb Fo).
      rewrite Va, Vb. unfold Nearest.cost. reflexivity.
    + exact (calculate_cost_overflow self model_name mc input_tokens
               output_tokens Hm).
    + intros Hin Hout.
      rewrite (calculate_cost_known self model_name mc 1000 500 Hm), Hin, Hout.
      vm_compute. reflexivity.
  - apply calculate_cost_unknown.
Qed.

Lemma calculate_cost_formula_witness :
  0 <= 1000 /\ 0 <= 500
  /\ models scenario_A !! "m" = Some model_m
  /\ (exists c,
        calculate_cost scenario_A "m" 1000 500 = Return c
        /\ Nearest.value c
           = Nearest.cost 1000 500
               (Nearest.value (input_token_price model_m))
               (Nearest.value (output_token_price model_m)))
  /\ calculate_cost scenario_A "m" 1000 500 = Return (Float.decimal 4 1000).
Proof.
  assert (Hi : 0 <= 1000) by discriminate.
  assert (Ho : 0 <= 500) by discriminate.
  assert (Hm : models scenario_A !! "m" = Some model_m)
    by (vm_compute; reflexivity).
  split; [exact Hi |]. split; [exact Ho |]. split; [exact Hm |].
  destruct (calculate_cost_formula scenario_A "m" 1000 500 Hi Ho) as [H _].
  destruct (H model_m Hm) as (Hin & _ & Hex).
  split.
  - destruct Hin as (a & b & _ & _ & _ & _ & _ & _ & Hc & Hv);
      [vm_compute; reflexivity | vm_compute; reflexivity |].
    eexists. split; [exact Hc |].
    apply Hv; split; vm_compute; reflexivity.
  - apply Hex; vm_compute; reflexivity.
Defined.

(** ** Monotone admission *)

Lemma le_gt_trans (x x' l : float) :
  Float.le x x' = true -> Float.gt x l = true -> Float.gt x' l = true.
Proof.
  unfold Float.le, Float.gt, SFleb, SFltb.
  destruct x as [sx | [|] | | [|] mx ex], x' as [sx' | [|] | | [|] mx' ex'],
    l as [sl | [|] | | [|] ml el];
    cbn [SFcompare]; try discriminate; try reflexivity.
  all: repeat match goal with
       | |- context [PosDef.Pos.compare_cont Eq ?a ?b] =>
           change (PosDef.Pos.compare_cont Eq a b) with (Pos.compare a b)
       end.
  all: repeat match goal with
       | |- context [Z.compare ?a ?b] => destruct (Z.compare_spec a b)
       | |- context [Pos.compare ?a ?b] => destruct (Pos.compare_spec a b)
       end; cbn [CompOpp]; try discriminate; try reflexivity; lia.
Qed.

Lemma cost_denial_mono (ty msg : string) (cur est est' : float)
    (L : option float) (w : limit_warning) :
  Float.nonneg cur = true -> Float.nonneg est = true ->
  Float.nonneg est' = true -> Float.le est est' = true ->
  In w (cost_denial ty msg cur est L) ->
  exists w', In w' (cost_denial ty msg cur est' L) /\ type w' = type w.
Proof.
  intros Nc Ne Ne' Le. unfold cost_denial.
  destruct L as [l|]; [|contradiction].
  destruct (Float.truthy l); [|contradiction]. cbv zeta.
  destruct (Float.gt (Float.add cur est) l) eqn:G; [|contradiction].
  rewrite (le_gt_trans (Float.add cur est) (Float.add cur est') l).
  - intros [<- | []]. eexists. split; [left; reflexivity | reflexivity].
  - rewrite (add_comm cur est), (add_comm cur est').
    apply add_le_mono; assumption.
  - exact G.
Qed.

Lemma token_denial_mono (ty msg : string) (cur est est' : Z) (L : option Z)
    (w : limit_warning) :
  est <= est' ->
  In w (token_denial ty msg cur est L) ->
  exists w', In w' (token_denial ty msg cur est' L) /\ type w' = type w.
Proof.
  intros Le. unfold token_denial.
  destruct L as [l|]; [|contradiction].
  destruct (negb (l =? 0)); [|contradiction]. cbv zeta.
  destruct (Z.ltb_spec l (cur + est)); [|contradiction].
  destruct (Z.ltb_spec l (cur + est')); [|lia].
  intros [<- | []]. eexists. split; [left; reflexivity | reflexivity].
Qed.

Lemma denials_mono (self : BillingConfig) (c c' : float) (n n' : Z)
    (w : limit_warning) :
  Float.nonneg (daily_cost (usage_stats self)) = true ->
  Float.nonneg (monthly_cost (usage_stats self)) = true ->
  Float.nonneg c = true -> Float.nonneg c' = true ->
  Float.le c c' = true -> n <= n' ->
  In w (denials self c n) ->
  exists w', In w' (denials self c' n') /\ type w' = type w.
Proof.
  intros Nd Nm Nc Nc' Lc Ln. unfold denials. cbv zeta.
  rewrite !in_app_iff. intros [H | [H | [H | H]]].
  - destruct (cost_denial_mono _ _ _ c c' _ w Nd Nc Nc' Lc H) as (w' & I & T).
    exists w'. rewrite !in_app_iff. auto.
  - destruct (cost_denial_mono _ _ _ c c' _ w Nm Nc Nc' Lc H) as (w' & I & T).
    exists w'. rewrite !in_app_iff. auto.
  - destruct (token_denial_mono _ _ _ n n' _ w Ln H) as (w' & I & T).
    exists w'. rewrite !in_app_iff. auto.
  - destruct (token_denial_mono _ _ _ n n' _ w Ln H) as (w' & I & T).
    exists w'. rewrite !in_app_iff. auto.
Qed.

(** The admission check is monotone in the estimated tokens: with
    non-negative finite prices and non-negative daily and monthly costs, a
    larger request has a larger estimated cost, is warned about every limit
    the smaller one is warned about, and is denied whenever the smaller one
    is. *)
Theorem larger_request_is_denied_too (self : BillingConfig)
    (model_name : string) (n n' : Z) (r r' : check_report) :
  is_enabled self = true ->
  prices_nonneg self ->
  Float.nonneg (daily_cost (usage_stats self)) = true ->
  Float.nonneg (monthly_cost (usage_stats self)) = true ->
  0 <= n <= n' ->
  eval (check_limits_before_request model_name n) self
  = Return (CheckReport r) ->
  eval (check_limits_before_request model_name n') self
  = Return (CheckReport r') ->
  Float.le (estimated_cost r) (estimated_cost r') = true
  /\ (forall w, In w (warnings r) ->
        exists w', In w' (warnings r') /\ type w' = type w)
  /\ (allowed r = false -> allowed r' = false).
Proof.
  intros Hon P Nd Nm Hn. rewrite !check_limits_report, Hon. cbn [negb].
  unfold estimate_cost.
  destruct (calculate_cost self model_name n 0) as [c|] eqn:C; cbn [obind];
    [|discriminate].
  destruct (calculate_cost self model_name n' 0) as [c'|] eqn:C'; cbn [obind];
    [|discriminate].
  cbv zeta. intros [= <-] [= <-]. cbn [estimated_cost warnings allowed].
  assert (Lc : Float.le c c' = true)
    by (apply (calculate_cost_mono self model_name n n' 0 0 c c');
        auto; lia).
  assert (Nc : Float.nonneg c = true)
    by (apply (calculate_cost_nonneg self model_name n 0 c); auto; lia).
  assert (Nc' : Float.nonneg c' = true)
    by (apply (calculate_cost_nonneg self model_name n' 0 c'); auto; lia).
  assert (Hw : forall w, In w (denials self c n) ->
                 exists w', In w' (denials self c' n') /\ type w' = type w).
  { intros w. apply denials_mono; auto; lia. }
  split; [exact Lc|]. split; [exact Hw|].
  destruct (denials self c n) as [|w ws]; [discriminate|]. intros _.
  destruct (Hw w (or_introl eq_refl)) as (w' & I & _).
  destruct (denials self c' n'); [contradiction | reflexivity].
Qed.

Lemma larger_request_is_denied_too_witness :
  exists r r',
    eval (check_limits_before_request "m" 50001) scenario_B
    = Return (CheckReport r)
    /\ eval (check_limits_before_request "m" 60000) scenario_B
       = Return (CheckReport r')
    /\ allowed r = false
    /\ Float.le (estimated_cost r) (estimated_cost r') = true
    /\ allowed r' = false.
Proof.
  pose (report n :=
          match eval (check_limits_before_request "m" n) scenario_B with
          | Return (CheckReport r) => r
          | _ => mk_check_report true [] Float.zero Float.zero Float.zero
          end).
  assert (C : eval (check_limits_before_request "m" 50001) scenario_B
              = Return (CheckReport (report 50001)))
    by (vm_compute; reflexivity).
  assert (C' : eval (check_limits_before_request "m" 60000) scenario_B
               = Return (CheckReport (report 60000)))
    by (vm_compute; reflexivity).
  pose proof (larger_request_is_denied_too scenario_B "m" 50001 60000
                (report 50001) (report 60000)) as H.
  destruct H as (Le & _ & D).
  - reflexivity.
  - intros model_name mc Hm. cbn in Hm.
    apply lookup_singleton_Some in Hm. destruct Hm as [_ <-].
    repeat split; reflexivity.
  - reflexivity.
  - reflexivity.
  - lia.
  - exact C.
  - exact C'.
  - exists (report 50001), (report 60000).
    split; [exact C|]. split; [exact C'|].
    assert (A : allowed (report 50001) = false) by (vm_compute; reflexivity).
    split; [exact A|]. split; [exact Le|]. exact (D A).
Defined.

(** ** Tracking a response *)

(** What [track_usage] answers once the usage is counted: the exception of
    the first met hard limit (or [ValueError] when its message cannot show
    an integer), [AttributeError] for a soft limit alone, the usage record
    otherwise. *)
Lemma track_usage_outcome (now : datetime) (model_name : string) (i o : Z)
    (self self' : BillingConfig) (c : float) (ws : list (string * bool)) :
  is_enabled self = true ->
  gate_passes self model_name ->
  update_usage model_name i o (rolled now self) = (Return c, self') ->
  check_thresholds self' = Return ws ->
  track_usage now model_name i o self
  = (match primary_violation self' with
     | Some e => Raise (raised_for e)
     | None =>
         match ws with
         | [] => Return (TrackUsage (usage_record now model_name i o c self' []))
         | _ => Raise AttributeError
         end
     end, self').
Proof.
  intros En G U C.
  rewrite (track_usage_committed now model_name i o self self' c En G U).
  rewrite C. cbv zeta.
  destruct (primary_violation self') as [e|] eqn:P.
  - pose proof (handle_raises_primary self' ws
                  (usage_record now model_name i o c self' ws) e C
                  eq_refl eq_refl P) as HP.
    unfold usage_record in HP. rewrite HP. reflexivity.
  - apply (exceeded_filter_primary self' ws C) in P.
    rewrite (handle_without_hard_limit self' ws _ C P).
    destruct ws; reflexivity.
Qed.

Lemma estimate_with_usage
    (get_encoding : string -> option TokenCounter.encoder)
    (response_data : Response.t) (model_name : string)
    (usage : gmap string Z) :
  Response.usage response_data = Some (Some usage) ->
  usage <> ∅ ->
  TokenCounter.estimate_tokens_from_response get_encoding response_data
    model_name
  = Some (default 0 (usage !! "prompt_tokens"),
          default 0 (usage !! "completion_tokens")).
Proof.
  intros U N. unfold TokenCounter.estimate_tokens_from_response.
  rewrite U. cbn [default from_option id]. rewrite bool_decide_true by exact N.
  reflexivity.
Qed.

Lemma estimate_without_usage
    (get_encoding : string -> option TokenCounter.encoder)
    (response_data : Response.t) (model_name : string) :
  Response.usage response_data = None
  \/ Response.usage response_data = Some None
  \/ Response.usage response_data = Some (Some ∅) ->
  TokenCounter.estimate_tokens_from_response get_encoding response_data
    model_name
  = match TokenCounter.count_choices get_encoding
            (default [] (Response.choices response_data)) model_name 0 with
    | Some output_tokens => Some (0, output_tokens)
    | None => None
    end.
Proof.
  unfold TokenCounter.estimate_tokens_from_response.
  intros [-> | [-> | ->]]; reflexivity.
Qed.

Lemma track_openai_response_state
    (get_encoding : string -> option TokenCounter.encoder) (now : datetime)
    (response_data : Response.t) (model_name : string)
    (self : BillingConfig) :
  snd (track_openai_response get_encoding now response_data model_name self)
  = match TokenCounter.estimate_tokens_from_response get_encoding
            response_data model_name with
    | Some (i, o) => exec (track_usage now model_name i o) self
    | None => self
    end.
Proof.
  unfold track_openai_response, exec.
  destruct (TokenCounter.estimate_tokens_from_response _ _ _) as [[i o]|];
    [|reflexivity].
  destruct (track_usage now model_name i o self) as [[r|e] s]; reflexivity.
Qed.

(** A hard limit does not leave [track_openai_response] as an exception.
    For a response that reports its usage, once the usage is counted: the
    configuration after the call is the one with the usage counted, whatever
    is returned; the usage record is returned exactly when the thresholds
    report no signal; and when the counted ledger meets a hard limit, what
    [track_usage] raised is returned in the error record: the
    [ThresholdExceededException] of a met limit, or [ValueError] when the
    current value or the limit of that exception is an integer of more than
    4300 digits, which its message cannot show. *)
Theorem response_limit_is_returned_not_raised
    (get_encoding : string -> option TokenCounter.encoder) (now : datetime)
    (response_data : Response.t) (model_name : string)
    (usage : gmap string Z) (self self' : BillingConfig) (c : float) :
  is_enabled self = true ->
  gate_passes self model_name ->
  token_limits_convert (thresholds self) ->
  Response.usage response_data = Some (Some usage) ->
  usage <> ∅ ->
  update_usage model_name (default 0 (usage !! "prompt_tokens"))
    (default 0 (usage !! "completion_tokens")) (rolled now self)
  = (Return c, self') ->
  let out :=
    track_openai_response get_encoding now response_data model_name self in
  exists ws,
    check_thresholds self' = Return ws
    /\ snd out = self'
    /\ ((exists r, fst out = ResponseUsage r) <-> ws = [])
    /\ ((exists e, violation self' e) ->
        exists ty cur lim,
          violation self' (ThresholdExceededException ty cur lim)
          /\ fst out
             = ResponseError
                 (UsageError
                    (if printable cur && printable lim
                     then ThresholdExceededException ty cur lim
                     else ValueError))).
Proof.
  intros En G Hconv U N Hup. cbv zeta.
  assert (Hconv' : token_limits_convert (thresholds self')).
  { rewrite (update_usage_thresholds _ _ _ _ _ _ Hup), rolled_thresholds.
    exact Hconv. }
  destruct (check_thresholds_returns self' Hconv') as (dt & mt & _ & _ & Hws).
  match type of Hws with _ = Return ?w => set (ws := w) in * end.
  clearbody ws. exists ws. split; [exact Hws|].
  unfold track_openai_response.
  rewrite (estimate_with_usage get_encoding response_data model_name usage U N).
  rewrite (track_usage_outcome now model_name _ _ self self' c _ En G Hup Hws).
  destruct (primary_violation self') as [e|] eqn:P.
  - cbn [fst snd]. split; [reflexivity|]. split.
    + split.
      * intros [r Hr]. discriminate Hr.
      * intros E.
        assert (F : List.filter is_exceeded_key (dict_keys ws) = [])
          by (rewrite E; reflexivity).
        apply (exceeded_filter_primary self' ws Hws) in F. congruence.
    + intros _. pose proof (primary_violation_sound self' e P) as V.
      assert (He : exists ty cur lim,
                     e = ThresholdExceededException ty cur lim)
        by (destruct V; eauto).
      destruct He as (ty & cur & lim & ->).
      exists ty, cur, lim. split; [exact V | reflexivity].
  - destruct ws as [|w1 wr]; cbn [fst snd].
    + split; [reflexivity|]. split.
      * split; [reflexivity | intros _; eauto].
      * intros V. apply primary_of_violation in V.
        destruct V as (e & Pe & _). congruence.
    + split; [reflexivity|]. split.
      * split; [intros [r Hr]; discriminate Hr | discriminate].
      * intros V. apply primary_of_violation in V.
        destruct V as (e & Pe & _). congruence.
Qed.

Lemma response_limit_is_returned_not_raised_witness :
  exists ty cur lim self',
    track_openai_response one_token_per_character noon
      (response_with_usage 50001 0) "m" scenario_B
    = (ResponseError (UsageError (ThresholdExceededException ty cur lim)),
       self')
    /\ total_input_tokens (usage_stats self') = 50001.
Proof.
  pose (p := update_usage "m" 50001 0 (rolled noon scenario_B)).
  pose (c := match fst p with Return c => c | Raise _ => Float.zero end).
  pose (usage := <["prompt_tokens" := 50001]>
                   (<["completion_tokens" := 0]> (∅ : gmap string Z))).
  pose proof (response_limit_is_returned_not_raised one_token_per_character
                noon (response_with_usage 50001 0) "m" usage scenario_B
                (snd p) c) as H.
  destruct H as (ws & _ & S & _ & V).
  - reflexivity.
  - left. vm_compute. discriminate.
  - intros l [E | E]; vm_compute in E; discriminate E.
  - reflexivity.
  - apply insert_non_empty.
  - vm_compute. reflexivity.
  - destruct V as (ty & cur & lim & _ & F).
    + eexists. apply primary_violation_sound. vm_compute. reflexivity.
    + exists ty, cur, lim, (snd p). split.
      * assert (K : match fst (track_openai_response one_token_per_character
                                 noon (response_with_usage 50001 0) "m"
                                 scenario_B) with
                    | ResponseError
                        (UsageError (ThresholdExceededException _ _ _)) => true
                    | _ => false
                    end = true) by (vm_compute; reflexivity).
        rewrite F in K.
        destruct (printable cur && printable lim); [|discriminate K].
        rewrite <- F, <- S. apply surjective_pairing.
      * vm_compute. reflexivity.
Defined.

(** ** Responses without usage *)

Lemma count_tokens_nonneg
    (get_encoding : string -> option TokenCounter.encoder)
    (text model_name : string) (n : Z) :
  TokenCounter.count_tokens get_encoding text model_name = Some n -> 0 <= n.
Proof.
  unfold TokenCounter.count_tokens.
  destruct (String.eqb text ""); [intros [= <-]; lia|].
  destruct (TokenCounter._get_encoder get_encoding model_name) as [enc|];
    [|discriminate].
  destruct (enc text); [|discriminate]. intros [= <-]. lia.
Qed.

Lemma count_choices_ge
    (get_encoding : string -> option TokenCounter.encoder)
    (choices : list Response.choice_dict) (model_name : string) (acc n : Z) :
  TokenCounter.count_choices get_encoding choices model_name acc = Some n ->
  acc <= n.
Proof.
  revert acc. induction choices as [|choice rest IH]; intros acc;
    cbn [TokenCounter.count_choices].
  - intros [= <-]. lia.
  - cbv zeta.
    destruct (default (Some "") _) as [text|]; [|apply IH].
    destruct (negb (String.eqb text "")); [|apply IH].
    destruct (TokenCounter.count_tokens get_encoding text model_name)
      as [k|] eqn:K; [|discriminate].
    intros H. apply IH in H. apply count_tokens_nonneg in K. lia.
Qed.

Lemma count_choices_fails
    (get_encoding : string -> option TokenCounter.encoder)
    (choices : list Response.choice_dict) (model_name : string) (acc : Z) :
  Exists (uncountable get_encoding model_name) choices ->
  TokenCounter.count_choices get_encoding choices model_name acc = None.
Proof.
  intros E. revert acc.
  induction E as [choice rest (m & text & Hm & Hc & Ht & Hn) | choice rest E IH];
    intros acc; cbn [TokenCounter.count_choices]; cbv zeta.
  - rewrite Hm. cbn [default from_option id]. rewrite Hc.
    cbn [default from_option id].
    apply String.eqb_neq in Ht. rewrite Ht. cbn [negb]. rewrite Hn.
    reflexivity.
  - destruct (default (Some "") _) as [text|]; [|apply IH].
    destruct (negb (String.eqb text "")); [|apply IH].
    destruct (TokenCounter.count_tokens get_encoding text model_name);
      [apply IH | reflexivity].
Qed.

Lemma track_usage_totals (now : datetime) (model_name : string) (i o : Z)
    (self : BillingConfig) :
  0 <= i -> 0 <= o ->
  let u := usage_stats self in
  let u' := usage_stats (exec (track_usage now model_name i o) self) in
  total_input_tokens u <= total_input_tokens u' <= total_input_tokens u + i
  /\ total_output_tokens u <= total_output_tokens u'
     <= total_output_tokens u + o.
Proof.
  intros Hi Ho. cbv zeta. rewrite track_usage_history. unfold track_ops.
  cbv zeta.
  assert (R : let s := run [RollDaily now; RollMonthly now;
                            Commit model_name i o] self in
              total_input_tokens (usage_stats self)
              <= total_input_tokens (usage_stats s)
              <= total_input_tokens (usage_stats self) + i
              /\ total_output_tokens (usage_stats self)
                 <= total_output_tokens (usage_stats s)
                 <= total_output_tokens (usage_stats self) + o).
  { cbv zeta. cbn [run fold_left].
    pose proof (apply_op_totals (RollDaily now) self eq_refl) as (A1 & A2 & _).
    pose proof (apply_op_totals (RollMonthly now)
                  (apply_op (RollDaily now) self) eq_refl) as (B1 & B2 & _).
    pose proof (apply_op_totals (Commit model_name i o)
                  (apply_op (RollMonthly now) (apply_op (RollDaily now) self))
                  eq_refl) as (C1 & C2 & _).
    cbn [priced op_input op_output] in A1, A2, B1, B2.
    cbn [op_input op_output] in C1, C2.
    rewrite C1, C2, B1, B2, A1, A2.
    destruct (priced _ _); lia. }
  assert (N : let s := run [] self in
              total_input_tokens (usage_stats self)
              <= total_input_tokens (usage_stats s)
              <= total_input_tokens (usage_stats self) + i
              /\ total_output_tokens (usage_stats self)
                 <= total_output_tokens (usage_stats s)
                 <= total_output_tokens (usage_stats self) + o)
    by (cbn; lia).
  destruct (negb (is_enabled self)); [exact N|].
  destruct (get_model_config self model_name); [exact R|].
  destruct (bool_decide _); [exact N | exact R].
Qed.

(** A response without usage data (the key absent, [None] or an empty
    dictionary) never counts input tokens: the lifetime input counter is the
    same after [track_openai_response], for any tokenizer, and the lifetime
    output counter does not decrease.  When the tokenizer fails on the
    non-empty content of one choice, nothing is tracked: the error record is
    returned and the configuration is untouched. *)
Theorem response_without_usage_counts_no_input
    (get_encoding : string -> option TokenCounter.encoder) (now : datetime)
    (response_data : Response.t) (model_name : string)
    (self : BillingConfig) :
  Response.usage response_data = None
  \/ Response.usage response_data = Some None
  \/ Response.usage response_data = Some (Some ∅) ->
  let out :=
    track_openai_response get_encoding now response_data model_name self in
  total_input_tokens (usage_stats (snd out))
  = total_input_tokens (usage_stats self)
  /\ total_output_tokens (usage_stats self)
     <= total_output_tokens (usage_stats (snd out))
  /\ (Exists (uncountable get_encoding model_name)
        (default [] (Response.choices response_data)) ->
      out = (ResponseError TokenCountingException, self)).
Proof.
  intros U. cbv zeta.
  pose proof (estimate_without_usage get_encoding response_data model_name U)
    as E.
  rewrite track_openai_response_state. unfold track_openai_response.
  rewrite E.
  destruct (TokenCounter.count_choices get_encoding _ model_name 0)
    as [o|] eqn:C.
  - apply count_choices_ge in C as Ho.
    pose proof (track_usage_totals now model_name 0 o self ltac:(lia) Ho)
      as [I O].
    cbv zeta in I, O. split; [lia|]. split; [lia|].
    intros X. rewrite (count_choices_fails _ _ _ 0 X) in C. discriminate C.
  - split; [reflexivity|]. split; [lia|]. reflexivity.
Qed.

Lemma response_without_usage_counts_no_input_witness :
  let out := track_openai_response no_encoding noon response_without_usage
               "m" scenario_A in
  total_input_tokens (usage_stats (snd out))
  = total_input_tokens (usage_stats scenario_A)
  /\ out = (ResponseError TokenCountingException, scenario_A).
Proof.
  pose proof (response_without_usage_counts_no_input no_encoding noon
                response_without_usage "m" scenario_A) as H.
  destruct H as (I & _ & X).
  - left. reflexivity.
  - cbv zeta. split; [exact I|]. apply X.
    apply Exists_cons_hd.
    exists (Response.mk_message (Some (Some "Hello"))), "Hello".
    repeat split; [discriminate].
Defined.

(** ** Counting the tokens of a conversation *)

Section Messages.

Variable encoder : TokenCounter.encoder.

Local Abbreviation shifted acc r := (option_map (Z.add acc) r).

Lemma add_encoded_shift (text : string) (acc : Z) :
  TokenCounter.add_encoded encoder text acc
  = shifted acc (TokenCounter.add_encoded encoder text 0).
Proof.
  unfold TokenCounter.add_encoded. destruct (encoder text); reflexivity.
Qed.

Lemma add_encoded_ge (text : string) (acc n : Z) :
  TokenCounter.add_encoded encoder text acc = Some n -> acc <= n.
Proof.
  unfold TokenCounter.add_encoded. destruct (encoder text); [|discriminate].
  intros [= <-]. lia.
Qed.

Lemma count_items_shift (items : list Chat.item) (acc : Z) :
  TokenCounter.count_items encoder items acc
  = shifted acc (TokenCounter.count_items encoder items 0).
Proof.
  assert (G : forall a d,
             TokenCounter.count_items encoder items (a + d)
             = shifted d (TokenCounter.count_items encoder items a)).
  { induction items as [|[text|] rest IH]; intros a d;
      cbn [TokenCounter.count_items].
    - cbn. f_equal; lia.
    - unfold TokenCounter.add_encoded. destruct (encoder text); [|reflexivity].
      rewrite <- IH. f_equal; lia.
    - apply IH. }
  rewrite <- G. f_equal; lia.
Qed.

Lemma count_items_ge (items : list Chat.item) (acc n : Z) :
  TokenCounter.count_items encoder items acc = Some n -> acc <= n.
Proof.
  revert acc. induction items as [|[text|] rest IH]; intros acc;
    cbn [TokenCounter.count_items].
  - intros [= <-]. lia.
  - destruct (TokenCounter.add_encoded encoder text acc) as [k|] eqn:K;
      [|discriminate].
    intros H. apply IH in H. apply add_encoded_ge in K. lia.
  - apply IH.
Qed.

Lemma count_content_shift (content : option Chat.content_value) (acc : Z) :
  TokenCounter.count_content encoder content acc
  = shifted acc (TokenCounter.count_content encoder content 0).
Proof.
  destruct content as [[s|l|]|]; cbn [TokenCounter.count_content].
  - apply add_encoded_shift.
  - apply count_items_shift.
  - cbn. f_equal; lia.
  - cbn. f_equal; lia.
Qed.

Lemma count_content_ge (content : option Chat.content_value) (acc n : Z) :
  TokenCounter.count_content encoder content acc = Some n -> acc <= n.
Proof.
  destruct content as [[s|l|]|]; cbn [TokenCounter.count_content].
  - apply add_encoded_ge.
  - apply count_items_ge.
  - intros [= <-]. lia.
  - intros [= <-]. lia.
Qed.

Lemma count_openai_message_shift (tpm tpn : Z) (message : Chat.message_dict)
    (acc : Z) :
  TokenCounter.count_openai_message encoder tpm tpn message acc
  = shifted acc (TokenCounter.count_openai_message encoder tpm tpn message 0).
Proof.
  unfold TokenCounter.count_openai_message. cbv zeta.
  destruct message as [r c nm]; cbn [Chat.role Chat.content Chat.name].
  assert (R : match r with
              | Some value =>
                  TokenCounter.add_encoded encoder value (acc + tpm)
              | None => Some (acc + tpm)
              end
              = shifted acc
                  match r with
                  | Some value =>
                      TokenCounter.add_encoded encoder value (0 + tpm)
                  | None => Some (0 + tpm)
                  end).
  { destruct r as [value|]; [|cbn; f_equal; lia].
    rewrite (add_encoded_shift value (acc + tpm)),
      (add_encoded_shift value (0 + tpm)).
    destruct (TokenCounter.add_encoded encoder value 0); cbn; [|reflexivity].
    f_equal; lia. }
  rewrite R. clear R.
  destruct (match r with Some _ => _ | None => _ end) as [a|];
    [|reflexivity].
  cbn [option_map].
  rewrite (count_content_shift c (acc + a)), (count_content_shift c a).
  destruct (TokenCounter.count_content encoder c 0) as [b|]; [|reflexivity].
  cbn [option_map].
  destruct nm as [value|]; [|cbn; f_equal; lia].
  rewrite (add_encoded_shift value (acc + a + b)),
    (add_encoded_shift value (a + b)).
  destruct (TokenCounter.add_encoded encoder value 0) as [k|]; [|reflexivity].
  cbn [option_map]. destruct (0 <? tpn); cbn; f_equal; lia.
Qed.

Lemma count_openai_message_ge (tpm tpn : Z) (message : Chat.message_dict)
    (acc n : Z) :
  TokenCounter.count_openai_message encoder tpm tpn message acc = Some n ->
  acc + tpm <= n.
Proof.
  unfold TokenCounter.count_openai_message. cbv zeta.
  destruct message as [r c nm]; cbn [Chat.role Chat.content Chat.name].
  destruct (match r with Some _ => _ | None => _ end) as [a|] eqn:A;
    [|discriminate].
  assert (Ha : acc + tpm <= a).
  { destruct r as [value|]; [apply add_encoded_ge in A; lia|].
    injection A as <-. lia. }
  destruct (TokenCounter.count_content encoder c a) as [b|] eqn:B;
    [|discriminate].
  apply count_content_ge in B.
  destruct nm as [value|]; [|intros [= <-]; lia].
  destruct (TokenCounter.add_encoded encoder value b) as [k|] eqn:K;
    [|discriminate].
  apply add_encoded_ge in K.
  destruct (Z.ltb_spec 0 tpn); intros [= <-]; lia.
Qed.

Lemma count_openai_loop_shift (tpm tpn : Z)
    (messages : list Chat.message_dict) (acc : Z) :
  TokenCounter.count_openai_loop encoder tpm tpn messages acc
  = shifted acc (TokenCounter.count_openai_loop encoder tpm tpn messages 0).
Proof.
  assert (G : forall a d,
             TokenCounter.count_openai_loop encoder tpm tpn messages (d + a)
             = shifted d
                 (TokenCounter.count_openai_loop encoder tpm tpn messages a)).
  { induction messages as [|m rest IH]; intros a d;
      cbn [TokenCounter.count_openai_loop]; [reflexivity|].
    rewrite (count_openai_message_shift tpm tpn m (d + a)),
      (count_openai_message_shift tpm tpn m a).
    destruct (TokenCounter.count_openai_message encoder tpm tpn m 0) as [k|];
      [|reflexivity].
    cbn [option_map]. rewrite <- IH. f_equal; lia. }
  rewrite <- G. f_equal; lia.
Qed.

Lemma count_openai_loop_app (tpm tpn : Z)
    (ms1 ms2 : list Chat.message_dict) (acc : Z) :
  TokenCounter.count_openai_loop encoder tpm tpn (ms1 ++ ms2) acc
  = match TokenCounter.count_openai_loop encoder tpm tpn ms1 acc with
    | Some n => TokenCounter.count_openai_loop encoder tpm tpn ms2 n
    | None => None
    end.
Proof.
  revert acc. induction ms1 as [|m rest IH]; intros acc;
    cbn [app TokenCounter.count_openai_loop]; [reflexivity|].
  destruct (TokenCounter.count_openai_message encoder tpm tpn m acc);
    [apply IH | reflexivity].
Qed.

Lemma count_openai_loop_ge (tpm tpn : Z)
    (messages : list Chat.message_dict) (acc n : Z) :
  TokenCounter.count_openai_loop encoder tpm tpn messages acc = Some n ->
  acc + tpm * Z.of_nat (length messages) <= n.
Proof.
  revert acc. induction messages as [|m rest IH]; intros acc;
    cbn [TokenCounter.count_openai_loop length].
  - intros [= <-]. lia.
  - destruct (TokenCounter.count_openai_message encoder tpm tpn m acc)
      as [k|] eqn:K; [|discriminate].
    intros H. apply IH in H. apply count_openai_message_ge in K. lia.
Qed.

Lemma count_generic_message_shift (message : Chat.message_dict) (acc : Z) :
  TokenCounter.count_generic_message encoder message acc
  = shifted acc (TokenCounter.count_generic_message encoder message 0).
Proof.
  unfold TokenCounter.count_generic_message.
  destruct message as [r c nm]; cbn [Chat.role Chat.content].
  assert (R : match r with
              | Some value => TokenCounter.add_encoded encoder value acc
              | None => Some acc
              end
              = shifted acc
                  match r with
                  | Some value => TokenCounter.add_encoded encoder value 0
                  | None => Some 0
                  end).
  { destruct r as [value|]; [apply add_encoded_shift | cbn; f_equal; lia]. }
  rewrite R. clear R.
  destruct (match r with Some _ => _ | None => _ end) as [a|];
    [|reflexivity].
  cbn [option_map].
  rewrite (count_content_shift c (acc + a)), (count_content_shift c a).
  destruct (TokenCounter.count_content encoder c 0) as [b|]; [|reflexivity].
  cbn. f_equal; lia.
Qed.

Lemma count_generic_message_ge (message : Chat.message_dict) (acc n : Z) :
  TokenCounter.count_generic_message encoder message acc = Some n ->
  acc + 4 <= n.
Proof.
  unfold TokenCounter.count_generic_message.
  destruct message as [r c nm]; cbn [Chat.role Chat.content].
  destruct (match r with Some _ => _ | None => _ end) as [a|] eqn:A;
    [|discriminate].
  assert (Ha : acc <= a).
  { destruct r as [value|]; [apply add_encoded_ge in A; lia|].
    injection A as <-. lia. }
  destruct (TokenCounter.count_content encoder c a) as [b|] eqn:B;
    [|discriminate].
  apply count_content_ge in B. intros [= <-]. lia.
Qed.

Lemma count_generic_loop_shift (messages : list Chat.message_dict) (acc : Z) :
  TokenCounter.count_generic_loop encoder messages acc
  = shifted acc (TokenCounter.count_generic_loop encoder messages 0).
Proof.
  assert (G : forall a d,
             TokenCounter.count_generic_loop encoder messages (d + a)
             = shifted d (TokenCounter.count_generic_loop encoder messages a)).
  { induction messages as [|m rest IH]; intros a d;
      cbn [TokenCounter.count_generic_loop]; [reflexivity|].
    rewrite (count_generic_message_shift m (d + a)),
      (count_generic_message_shift m a).
    destruct (TokenCounter.count_generic_message encoder m 0) as [k|];
      [|reflexivity].
    cbn [option_map]. rewrite <- IH. f_equal; lia. }
  rewrite <- G. f_equal; lia.
Qed.

Lemma count_generic_loop_app (ms1 ms2 : list Chat.message_dict) (acc : Z) :
  TokenCounter.count_generic_loop encoder (ms1 ++ ms2) acc
  = match TokenCounter.count_generic_loop encoder ms1 acc with
    | Some n => TokenCounter.count_generic_loop encoder ms2 n
    | None => None
    end.
Proof.
  revert acc. induction ms1 as [|m rest IH]; intros acc;
    cbn [app TokenCounter.count_generic_loop]; [reflexivity|].
  destruct (TokenCounter.count_generic_message encoder m acc);
    [apply IH | reflexivity].
Qed.

Lemma count_generic_loop_ge (messages : list Chat.message_dict) (acc n : Z) :
  TokenCounter.count_generic_loop encoder messages acc = Some n ->
  acc + 4 * Z.of_nat (length messages) <= n.
Proof.
  revert acc. induction messages as [|m rest IH]; intros acc;
    cbn [TokenCounter.count_generic_loop length].
  - intros [= <-]. lia.
  - destruct (TokenCounter.count_generic_message encoder m acc) as [k|] eqn:K;
      [|discriminate].
    intros H. apply IH in H. apply count_generic_message_ge in K. lia.
Qed.

End Messages.

Lemma formatting_costs_cases (model_name : string) :
  TokenCounter.formatting_costs model_name = (3, 1)
  \/ TokenCounter.formatting_costs model_name = (4, -1).
Proof.
  unfold TokenCounter.formatting_costs.
  destruct (startswith model_name "gpt-4"); [auto|].
  destruct (startswith model_name "gpt-3.5-turbo"); [|auto].
  destruct (_ || _); auto.
Qed.

(** The count of a conversation in two parts.  For two non-empty lists of
    messages, the count of their concatenation is the sum of the two counts,
    less the 3 tokens of the reply that a GPT-4 or GPT-3.5 count includes
    once per call, and it fails when either count fails; a count that
    returns is at least 3 tokens per message, plus the reply, and the count
    of the longer conversation is not below the count of its first part. *)
Theorem conversation_count_is_additive
    (get_encoding : string -> option TokenCounter.encoder)
    (ms1 ms2 : list Chat.message_dict) (model_name : string) :
  ms1 <> [] -> ms2 <> [] ->
  let count ms := TokenCounter.count_messages_tokens get_encoding ms
                    model_name in
  let reply :=
    if startswith model_name "gpt-4" || startswith model_name "gpt-3.5"
    then 3 else 0 in
  count (ms1 ++ ms2)
  = match count ms1, count ms2 with
    | Some n1, Some n2 => Some (n1 + n2 - reply)
    | _, _ => None
    end
  /\ (forall n, count ms1 = Some n ->
        3 * Z.of_nat (length ms1) + reply <= n)
  /\ (forall n1 n, count ms1 = Some n1 -> count (ms1 ++ ms2) = Some n ->
        n1 <= n).
Proof.
  intros N1 N2. cbv zeta.
  destruct ms1 as [|m1 r1]; [contradiction|].
  destruct ms2 as [|m2 r2]; [contradiction|].
  unfold TokenCounter.count_messages_tokens. cbn [app].
  destruct (TokenCounter._get_encoder get_encoding model_name) as [enc|];
    [|split; [reflexivity | split; discriminate]].
  change (m1 :: r1 ++ m2 :: r2) with ((m1 :: r1) ++ (m2 :: r2)).
  set (ms1 := m1 :: r1). set (ms2 := m2 :: r2).
  destruct (startswith model_name "gpt-4" || startswith model_name "gpt-3.5").
  - unfold TokenCounter._count_openai_messages_tokens.
    destruct (formatting_costs_cases model_name) as [-> | ->].
    + rewrite count_openai_loop_app.
      destruct (TokenCounter.count_openai_loop enc 3 1 ms1 0) as [a|] eqn:A.
      2:{ split; [reflexivity | split; discriminate]. }
      rewrite (count_openai_loop_shift enc 3 1 ms2 a).
      apply count_openai_loop_ge in A.
      destruct (TokenCounter.count_openai_loop enc 3 1 ms2 0) as [b|] eqn:B;
        cbn [option_map]; [apply count_openai_loop_ge in B|].
      * split; [f_equal; lia|].
        split; [intros n [= <-]; lia | intros n1 n [= <-] [= <-]; lia].
      * split; [reflexivity|].
        split; [intros n [= <-]; lia | discriminate].
    + rewrite count_openai_loop_app.
      destruct (TokenCounter.count_openai_loop enc 4 (-1) ms1 0) as [a|] eqn:A.
      2:{ split; [reflexivity | split; discriminate]. }
      rewrite (count_openai_loop_shift enc 4 (-1) ms2 a).
      apply count_openai_loop_ge in A.
      destruct (TokenCounter.count_openai_loop enc 4 (-1) ms2 0) as [b|] eqn:B;
        cbn [option_map]; [apply count_openai_loop_ge in B|].
      * split; [f_equal; lia|].
        split; [intros n [= <-]; lia | intros n1 n [= <-] [= <-]; lia].
      * split; [reflexivity|].
        split; [intros n [= <-]; lia | discriminate].
  - unfold TokenCounter._count_generic_messages_tokens.
    rewrite count_generic_loop_app.
    destruct (TokenCounter.count_generic_loop enc ms1 0) as [a|] eqn:A.
    2:{ split; [reflexivity | split; discriminate]. }
    rewrite (count_generic_loop_shift enc ms2 a).
    apply count_generic_loop_ge in A.
    destruct (TokenCounter.count_generic_loop enc ms2 0) as [b|] eqn:B;
      cbn [option_map]; [apply count_generic_loop_ge in B|].
    + split; [f_equal; lia|].
        split; [intros n [= <-]; lia | intros n1 n [= <-] [= <-]; lia].
    + split; [reflexivity|].
        split; [intros n [= <-]; lia | discriminate].
Qed.

Lemma conversation_count_is_additive_witness :
  let question := [Chat.mk_message (Some "user") (Some (Chat.Text "Hi")) None] in
  let answer :=
    [Chat.mk_message (Some "assistant")
       (Some (Chat.Items [Chat.TextItem "Hello"; Chat.OtherItem]))
       (Some "bot")] in
  let count ms :=
    TokenCounter.count_messages_tokens one_token_per_character ms
      "gpt-3.5-turbo" in
  count question = Some 13
  /\ count answer = Some 24
  /\ count (question ++ answer) = Some 34.
Proof.
  cbv zeta.
  pose proof (conversation_count_is_additive one_token_per_character
                [Chat.mk_message (Some "user") (Some (Chat.Text "Hi")) None]
                [Chat.mk_message (Some "assistant")
                   (Some (Chat.Items [Chat.TextItem "Hello"; Chat.OtherItem]))
                   (Some "bot")]
                "gpt-3.5-turbo") as H.
  destruct H as (E & _ & _).
  - discriminate.
  - discriminate.
  - split; [vm_compute; reflexivity|]. split; [vm_compute; reflexivity|].
    rewrite E. vm_compute. reflexivity.
Defined.

(** ** Names in messages *)

Lemma count_openai_message_named (encoder : TokenCounter.encoder)
    (tpm tpn : Z) (message : Chat.message_dict) (value : string)
    (tokens : list Z) (acc : Z) :
  Chat.name message = None ->
  encoder value = Some tokens ->
  TokenCounter.count_openai_message encoder tpm tpn
    (Chat.mk_message (Chat.role message) (Chat.content message) (Some value))
    acc
  = option_map (Z.add (Z.of_nat (length tokens) + Z.max 0 tpn))
      (TokenCounter.count_openai_message encoder tpm tpn message acc).
Proof.
  intros N E. unfold TokenCounter.count_openai_message. cbv zeta.
  cbn [Chat.role Chat.content Chat.name]. rewrite N.
  destruct (match Chat.role message with Some _ => _ | None => _ end) as [a|];
    [|reflexivity].
  destruct (TokenCounter.count_content encoder (Chat.content message) a)
    as [b|]; [|reflexivity].
  unfold TokenCounter.add_encoded. rewrite E. cbn [option_map].
  destruct (Z.ltb_spec 0 tpn); f_equal; lia.
Qed.

Lemma count_generic_message_named (encoder : TokenCounter.encoder)
    (message : Chat.message_dict) (value : option string) (acc : Z) :
  TokenCounter.count_generic_message encoder
    (Chat.mk_message (Chat.role message) (Chat.content message) value) acc
  = TokenCounter.count_generic_message encoder message acc.
Proof. reflexivity. Qed.

Lemma option_map_add_add (d e : Z) (r : option Z) :
  option_map (Z.add d) (option_map (Z.add e) r) = option_map (Z.add (e + d)) r.
Proof. destruct r; cbn; f_equal; lia. Qed.

(** Naming the author of a message never lowers the count.  Under a GPT-4 or
    GPT-3.5 model the name adds its own tokens and [tokens_per_name] when
    that is positive, so nothing is taken off under the models whose
    [tokens_per_name] is -1; under any other model the name is not
    counted. *)
Theorem name_never_lowers_the_count
    (get_encoding : string -> option TokenCounter.encoder)
    (encoder : TokenCounter.encoder)
    (before after : list Chat.message_dict) (message : Chat.message_dict)
    (value : string) (tokens : list Z) (model_name : string) (n : Z) :
  Chat.name message = None ->
  TokenCounter._get_encoder get_encoding model_name = Some encoder ->
  encoder value = Some tokens ->
  let named :=
    Chat.mk_message (Chat.role message) (Chat.content message) (Some value) in
  let count ms :=
    TokenCounter.count_messages_tokens get_encoding ms model_name in
  let extra :=
    if startswith model_name "gpt-4" || startswith model_name "gpt-3.5"
    then Z.of_nat (length tokens)
         + Z.max 0 (snd (TokenCounter.formatting_costs model_name))
    else 0 in
  count (before ++ message :: after) = Some n ->
  count (before ++ named :: after) = Some (n + extra) /\ 0 <= extra.
Proof.
  intros N G E. cbv zeta.
  unfold TokenCounter.count_messages_tokens. rewrite G.
  assert (X : forall m,
             match before ++ m :: after with
             | [] => Some 0
             | _ :: _ =>
                 if startswith model_name "gpt-4"
                    || startswith model_name "gpt-3.5"
                 then TokenCounter._count_openai_messages_tokens
                        (before ++ m :: after) encoder model_name
                 else TokenCounter._count_generic_messages_tokens
                        (before ++ m :: after) encoder
             end
             = if startswith model_name "gpt-4"
                  || startswith model_name "gpt-3.5"
               then TokenCounter._count_openai_messages_tokens
                      (before ++ m :: after) encoder model_name
               else TokenCounter._count_generic_messages_tokens
                      (before ++ m :: after) encoder).
  { intros m. destruct before; reflexivity. }
  rewrite !X. clear X.
  destruct (startswith model_name "gpt-4" || startswith model_name "gpt-3.5").
  - unfold TokenCounter._count_openai_messages_tokens.
    destruct (TokenCounter.formatting_costs model_name) as [tpm tpn].
    cbn [snd]. rewrite !count_openai_loop_app.
    destruct (TokenCounter.count_openai_loop encoder tpm tpn before 0)
      as [a|]; [|discriminate].
    cbn [TokenCounter.count_openai_loop].
    rewrite (count_openai_message_named encoder tpm tpn message value tokens
               a N E).
    destruct (TokenCounter.count_openai_message encoder tpm tpn message a)
      as [b|]; [|discriminate].
    cbn [option_map].
    rewrite (count_openai_loop_shift encoder tpm tpn after
               (Z.of_nat (length tokens) + Z.max 0 tpn + b)),
      (count_openai_loop_shift encoder tpm tpn after b).
    destruct (TokenCounter.count_openai_loop encoder tpm tpn after 0)
      as [c|]; [|discriminate].
    cbn [option_map]. intros [= <-]. split; [f_equal; lia | lia].
  - unfold TokenCounter._count_generic_messages_tokens.
    rewrite !count_generic_loop_app.
    destruct (TokenCounter.count_generic_loop encoder before 0) as [a|];
      [|discriminate].
    cbn [TokenCounter.count_generic_loop].
    rewrite count_generic_message_named.
    intros ->. split; [f_equal; lia | lia].
Qed.

Lemma name_never_lowers_the_count_witness :
  let count ms :=
    TokenCounter.count_messages_tokens one_token_per_character ms
      "gpt-3.5-turbo" in
  count [Chat.mk_message (Some "assistant") (Some (Chat.Text "Hello")) None]
  = Some 21
  /\ count [Chat.mk_message (Some "assistant") (Some (Chat.Text "Hello"))
              (Some "bot")]
     = Some 24.
Proof.
  cbv zeta.
  assert (C : TokenCounter.count_messages_tokens one_token_per_character
                ([] ++ [Chat.mk_message (Some "assistant")
                          (Some (Chat.Text "Hello")) None])
                "gpt-3.5-turbo" = Some 21)
    by (vm_compute; reflexivity).
  split; [exact C|].
  pose proof (name_never_lowers_the_count one_token_per_character
                (fun text =>
                   Some (map (fun c => Z.of_nat (Ascii.nat_of_ascii c))
                             (String.list_ascii_of_string text)))
                [] []
                (Chat.mk_message (Some "assistant") (Some (Chat.Text "Hello"))
                   None)
                "bot" [98; 111; 116] "gpt-3.5-turbo" 21) as H.
  destruct H as [H _].
  - reflexivity.
  - reflexivity.
  - reflexivity.
  - exact C.
  - exact H.
Defined.

(** ** Monitoring blocks *)

Lemma set_enabled_restore (b : bool) (u : UsageStats) (self : BillingConfig) :
  set_enabled (enabled self) (set_usage_stats u (set_enabled b self))
  = set_usage_stats u self.
Proof. destruct self. reflexivity. Qed.

Lemma track_usage_frame (now : datetime) (model_name : string) (i o : Z)
    (self : BillingConfig) :
  exec (track_usage now model_name i o) self
  = set_usage_stats (usage_stats (exec (track_usage now model_name i o) self))
      self.
Proof. rewrite track_usage_history. apply run_frame. Qed.

(** Inside [with disable_monitoring()] nothing is tracked and nothing is
    checked, whatever the switch was before: [track_usage] and
    [check_limits_before_request] answer that the monitor is disabled and
    the configuration after the block is the one before it.  Inside
    [with temporary_monitoring()] a call of [track_usage] runs as on the
    enabled monitor; after the block the switch is back, also when the call
    raised, and only the ledger can differ from the configuration before
    the block. *)
Theorem monitoring_blocks_restore_the_switch (now : datetime)
    (model_name : string) (i o n : Z) (self : BillingConfig) :
  with_block disable_monitoring.__enter__ disable_monitoring.__exit__
    (track_usage now model_name i o) self
  = (Return TrackDisabled, self)
  /\ with_block disable_monitoring.__enter__ disable_monitoring.__exit__
       (check_limits_before_request model_name n) self
     = (Return CheckDisabled, self)
  /\ (let inside := track_usage now model_name i o (set_enabled true self) in
      with_block temporary_monitoring.__enter__ temporary_monitoring.__exit__
        (track_usage now model_name i o) self
      = (fst inside, set_usage_stats (usage_stats (snd inside)) self)).
Proof.
  split; [|split].
  - unfold with_block, disable_monitoring.__enter__,
      disable_monitoring.__exit__, track_usage, bind, gets, modify, ret.
    cbn. destruct self. reflexivity.
  - unfold with_block, disable_monitoring.__enter__,
      disable_monitoring.__exit__, check_limits_before_request, bind, gets,
      modify, ret.
    cbn. destruct self. reflexivity.
  - cbv zeta.
    pose proof (track_usage_frame now model_name i o (set_enabled true self))
      as F.
    unfold exec in F.
    unfold with_block, temporary_monitoring.__enter__,
      temporary_monitoring.__exit__.
    unfold bind at 1. unfold gets at 1. unfold bind at 1. unfold modify at 1.
    unfold ret at 1.
    destruct (track_usage now model_name i o (set_enabled true self))
      as [r s] eqn:T.
    cbn [fst snd] in *. unfold modify. rewrite F.
    rewrite set_enabled_restore. reflexivity.
Qed.
